(** * YT True History: watch-intent detector, history store, settings and
      categorization queue

    A shallow embedding of the extension's JavaScript sources
    (content/tracker.js, utils/storage.js, utils/ai.js,
    background/service-worker.js, dashboard/dashboard.js, popup/popup.js)
    and the properties of its specification that were checked against it.

    Conventions of the embedding.
    - A JavaScript number is a [JsNum]: an exact rational or one of NaN,
      +Infinity, -Infinity.  Sums, differences and comparisons are exact,
      as they are in the engine for the whole numbers below 2^53 that the
      code counts with.  The quotients and the product of the tracker's
      percentage and of toHoursMinutes are rounded to the nearest double
      ([fdiv], [fmul]); the average of getStats is the exact quotient.
      The sign of zero is outside the model.
    - A JavaScript value stored in a record field is a [JsVal] (undefined,
      null, boolean, number or string).  A plain object is a finite map from
      property names to such values, so that object spread is map union and a
      missing property differs from one holding null.
    - Strings are Rocq strings; positions count characters of that string.
    - chrome.storage is modelled as always succeeding; asynchronous functions
      run to completion without interleaving.  The one call that is not
      awaited, processQueueSafely at the end of queueCategorizationJob, runs
      up to its first await and leaves the job it has taken in [inFlight];
      [resumeProcessing] is the rest of that run. *)

From Stdlib Require Import QArith Qminmax Qround Qabs Qpower ZArith List String Ascii
  Bool Lia Lqa Sorted.
From stdpp Require Import gmap strings list fin_maps.

Open Scope string_scope.
Open Scope list_scope.

(* ===================================================================== *)
(** ** JavaScript numbers *)
(* ===================================================================== *)

Inductive JsNum :=
| Fin (q : Q)
| NaN
| PInf
| NInf.

Definition Qsign (q : Q) : Z := Z.sgn (Qnum q).

Definition Qzero (q : Q) : bool := Qeq_bool q 0.

(** Truthiness of a number: 0 and NaN are falsy. *)
Definition jtruthy (n : JsNum) : bool :=
  match n with
  | Fin q => negb (Qzero q)
  | NaN => false
  | PInf | NInf => true
  end.

(** [a || b] on numbers. *)
Definition jor (a b : JsNum) : JsNum := if jtruthy a then a else b.

Definition jneg (n : JsNum) : JsNum :=
  match n with
  | Fin q => Fin (- q)
  | NaN => NaN
  | PInf => NInf
  | NInf => PInf
  end.

(** The infinity of the sign of [s] (NaN for s = 0). *)
Definition jinf (s : Z) : JsNum :=
  match s with
  | Z0 => NaN
  | Zpos _ => PInf
  | Zneg _ => NInf
  end.

Definition jsign (n : JsNum) : Z :=
  match n with
  | Fin q => Qsign q
  | NaN => 0
  | PInf => 1
  | NInf => -1
  end.

Definition jadd (a b : JsNum) : JsNum :=
  match a, b with
  | NaN, _ | _, NaN => NaN
  | Fin x, Fin y => Fin (x + y)
  | PInf, NInf | NInf, PInf => NaN
  | PInf, _ | _, PInf => PInf
  | NInf, _ | _, NInf => NInf
  end.

Definition jsub (a b : JsNum) : JsNum := jadd a (jneg b).

Definition jmul (a b : JsNum) : JsNum :=
  match a, b with
  | NaN, _ | _, NaN => NaN
  | Fin x, Fin y => Fin (x * y)
  | _, _ => jinf (jsign a * jsign b)
  end.

(** Division; a zero divisor is read as +0. *)
Definition jdiv (a b : JsNum) : JsNum :=
  match a, b with
  | NaN, _ | _, NaN => NaN
  | Fin x, Fin y => if Qzero y then jinf (Qsign x) else Fin (x / y)
  | Fin _, _ => Fin 0
  | _, Fin y => if Qzero y then a else jinf (jsign a * Qsign y)
  | _, _ => NaN
  end.

(** [a <= b]; false as soon as one side is NaN. *)
Definition jle (a b : JsNum) : bool :=
  match a, b with
  | NaN, _ | _, NaN => false
  | Fin x, Fin y => Qle_bool x y
  | NInf, _ => true
  | _, PInf => true
  | _, _ => false
  end.

Definition jge (a b : JsNum) : bool := jle b a.

(** [a === b] on numbers. *)
Definition jeq (a b : JsNum) : bool :=
  match a, b with
  | Fin x, Fin y => Qeq_bool x y
  | PInf, PInf | NInf, NInf => true
  | _, _ => false
  end.

(** [Math.min(a, b)] and [Math.max(a, b)]. *)
Definition jmin (a b : JsNum) : JsNum :=
  match a, b with
  | NaN, _ | _, NaN => NaN
  | _, _ => if jle a b then a else b
  end.

Definition jmax (a b : JsNum) : JsNum :=
  match a, b with
  | NaN, _ | _, NaN => NaN
  | _, _ => if jle a b then b else a
  end.

(** [Math.floor] and [Math.round] (round half up). *)
Definition jfloor (n : JsNum) : JsNum :=
  match n with
  | Fin q => Fin (inject_Z (Qfloor q))
  | _ => n
  end.

Definition jround (n : JsNum) : JsNum :=
  match n with
  | Fin q => Fin (inject_Z (Qfloor (q + (1 # 2))))
  | _ => n
  end.

(** [Number.isFinite] on a number. *)
Definition jfinite (n : JsNum) : bool :=
  match n with
  | Fin _ => true
  | _ => false
  end.

(** [a < b]; false as soon as one side is NaN. *)
Definition jlt (a b : JsNum) : bool := jle a b && negb (jeq a b).

(** A rational rounded towards zero, and [a % b]: the remainder takes the
    sign of the dividend. *)
Definition Qtrunc (q : Q) : Z := if Qle_bool 0 q then Qfloor q else Qceiling q.

Definition jmod (a b : JsNum) : JsNum :=
  match a, b with
  | Fin x, Fin y => if Qzero y then NaN else Fin (x - y * inject_Z (Qtrunc (x / y)))
  | Fin x, (PInf | NInf) => Fin x
  | _, _ => NaN
  end.

(* ===================================================================== *)
(** ** Double precision *)
(* ===================================================================== *)

(** The binade of a positive rational: the e with 2^e <= q < 2^(e+1). *)
Definition binade (q : Q) : Z :=
  let e := (Z.log2 (Qnum q) - Z.log2 (Zpos (Qden q)))%Z in
  if Qle_bool (2 ^ e) q then e else (e - 1)%Z.

(** The nearest integer, a tie going to the even one. *)
Definition roundHalfEven (q : Q) : Z :=
  let f := Qfloor q in
  match (q - inject_Z f ?= 1 # 2)%Q with
  | Lt => f
  | Gt => (f + 1)%Z
  | Eq => if Z.even f then f else (f + 1)%Z
  end.

(** The exponent of the spacing of the doubles around [q]: 53 significant
    bits, and no exponent below -1022. *)
Definition ulpExponent (q : Q) : Z := (Z.max (binade (Qabs q)) (-1022) - 52)%Z.

(** The double nearest to a rational, as IEEE 754 binary64 arithmetic
    rounds every result (to nearest, ties to even); a result of 2^1024 or
    more in size is an infinity. *)
Definition toDouble (q : Q) : JsNum :=
  if Qzero q then Fin 0
  else
    let ulp := (2 ^ ulpExponent q)%Q in
    let r := (inject_Z (roundHalfEven (q / ulp)) * ulp)%Q in
    if Qle_bool (2 ^ 1024) (Qabs r) then jinf (Qsign q) else Fin r.

Definition double (n : JsNum) : JsNum :=
  match n with
  | Fin q => toDouble q
  | _ => n
  end.

(** [a * b] and [a / b] as the engine computes them. *)
Definition fmul (a b : JsNum) : JsNum := double (jmul a b).

Definition fdiv (a b : JsNum) : JsNum := double (jdiv a b).

(* ===================================================================== *)
(** ** content/tracker.js *)
(* ===================================================================== *)

Module Tracker.

(** The part of the settings the content script reads.  A threshold that
    is null or undefined is [None] and is replaced through [??]. *)
Record Thresholds := {
  minWatchPercent : option Q;
  minWatchTimeSeconds : option Q;
  trackAutoplay : bool;
  countHiddenTime : bool;
  trackingEnabled : bool
}.

Definition DEFAULT_minWatchPercent : Q := 40.
Definition DEFAULT_minWatchTimeSeconds : Q := 300.

Definition DEFAULT_THRESHOLDS : Thresholds := {|
  minWatchPercent := Some DEFAULT_minWatchPercent;
  minWatchTimeSeconds := Some DEFAULT_minWatchTimeSeconds;
  trackAutoplay := true;
  countHiddenTime := false;
  trackingEnabled := true
|}.

Definition POLL_INTERVAL_MS : Q := 1000.
Definition AUTOPLAY_WINDOW_MS : Q := 2000.

(** What a callback reads from the video element and the page at the
    instant it runs. *)
Record Observation := {
  currentTime : Q;             (* player.currentTime *)
  duration : JsNum;            (* player.duration *)
  paused : bool;               (* player.paused *)
  ended : bool;                (* player.ended *)
  hidden : bool;               (* document.hidden *)
  pageTitle : string;          (* title read from the page *)
  pageChannelName : string;    (* channel name read from the page *)
  pageChannelId : string;      (* channel id read from the page *)
  isoNow : string              (* new Date().toISOString() *)
}.

(** The message payload of buildVideoPayload. *)
Record Payload := {
  videoId : option string;
  title : string;
  channelName : string;
  channelId : string;
  thumbnail : string;
  watchedAt : string;
  watchedDuration : JsNum;
  totalDuration : JsNum;
  watchPercent : JsNum;
  autoplay : bool
  (* rewatchCount: 1, aiCategory: null, aiCategoryConfidence: null *)
}.

(** The module-level variables, and the messages sent so far. *)
Record State := {
  settings : Thresholds;
  currentVideoId : option string;
  watchTimer : bool;            (* an interval is installed *)
  player : bool;                (* the variable holds a video element *)
  endedListeners : nat;         (* 'ended' listeners on the element *)
  playingListener : bool;       (* the once-only 'playing' listener *)
  watchedSeconds : Q;
  hasRecorded : bool;
  autoplayDetected : bool;
  interactionCaptured : bool;
  videoStartTimestamp : Q;
  sent : list Payload           (* VIDEO_WATCHED messages, oldest first *)
}.

Definition set_tracking (st : State) (timer : bool) (ws : Q) (rec auto : bool) (start : Q) : State :=
  {| settings := settings st;
     currentVideoId := currentVideoId st;
     watchTimer := timer;
     player := player st;
     endedListeners := endedListeners st;
     playingListener := playingListener st;
     watchedSeconds := ws;
     hasRecorded := rec;
     autoplayDetected := auto;
     interactionCaptured := interactionCaptured st;
     videoStartTimestamp := start;
     sent := sent st |}.

(** resetTracking, at performance.now() = [now]. *)
Definition resetTracking (now : Q) (st : State) : State :=
  set_tracking st false 0 false false now.

Definition idText (v : option string) : string :=
  match v with
  | Some s => s
  | None => "null"
  end.

Definition buildVideoPayload (percentWatched duration : JsNum) (o : Observation) (st : State) : Payload :=
  {| videoId := currentVideoId st;
     title := pageTitle o;
     channelName := pageChannelName o;
     channelId := pageChannelId o;
     thumbnail := "https://i.ytimg.com/vi/" +:+ idText (currentVideoId st) +:+ "/hqdefault.jpg";
     watchedAt := isoNow o;
     watchedDuration :=
       jmin (jfloor (jor (Fin (currentTime o)) (Fin (watchedSeconds st)))) duration;
     totalDuration := duration;
     watchPercent := jround percentWatched;
     autoplay := autoplayDetected st |}.

(** sendVideoRecord: the message is handed to the runtime; a failed
    delivery is only logged. *)
Definition sendVideoRecord (percentWatched duration : JsNum) (o : Observation) (st : State) : State :=
  {| settings := settings st;
     currentVideoId := currentVideoId st;
     watchTimer := watchTimer st;
     player := player st;
     endedListeners := endedListeners st;
     playingListener := playingListener st;
     watchedSeconds := watchedSeconds st;
     hasRecorded := hasRecorded st;
     autoplayDetected := autoplayDetected st;
     interactionCaptured := interactionCaptured st;
     videoStartTimestamp := videoStartTimestamp st;
     sent := sent st ++ [buildVideoPayload percentWatched duration o st] |}.

Definition nullish (v : option Q) (d : Q) : Q :=
  match v with
  | Some q => q
  | None => d
  end.

(** The local [duration] of evaluateAndSend. *)
Definition flooredDuration (o : Observation) : JsNum :=
  jfloor (jor (duration o) (Fin 0)).

Definition percentWatched (o : Observation) : JsNum :=
  jmin (Fin 100) (fmul (fdiv (Fin (currentTime o)) (flooredDuration o)) (Fin 100)).

Definition watchedEnough (o : Observation) (st : State) : bool :=
  let percentThreshold := nullish (minWatchPercent (settings st)) DEFAULT_minWatchPercent in
  let timeThreshold := nullish (minWatchTimeSeconds (settings st)) DEFAULT_minWatchTimeSeconds in
  jge (percentWatched o) (Fin percentThreshold)
  || jge (Fin (watchedSeconds st)) (Fin timeThreshold).

Definition evaluateAndSend (o : Observation) (st : State) : State :=
  if hasRecorded st || negb (player st) then st
  else if negb (trackingEnabled (settings st)) then st
  else if negb (jtruthy (flooredDuration o)) then st
  else if negb (watchedEnough o st) then st
  else
    sendVideoRecord (percentWatched o) (flooredDuration o) o
      (set_tracking st (watchTimer st) (watchedSeconds st) true
         (autoplayDetected st) (videoStartTimestamp st)).

Definition trackWatchTime (o : Observation) (st : State) : State :=
  if negb (player st) || paused o || ended o || negb (jtruthy (duration o)) then st
  else if negb (countHiddenTime (settings st)) && hidden o then st
  else
    evaluateAndSend o
      (set_tracking st (watchTimer st)
         (watchedSeconds st + POLL_INTERVAL_MS / 1000)
         (hasRecorded st) (autoplayDetected st) (videoStartTimestamp st)).

(** One 'ended' listener installed by setupPlayerListeners. *)
Definition onEnded (o : Observation) (st : State) : State :=
  if negb (hasRecorded st) then evaluateAndSend o st else st.

Definition evaluateAutoplay (now : Q) (st : State) : State :=
  if interactionCaptured st then st
  else if Qle_bool (now - videoStartTimestamp st) AUTOPLAY_WINDOW_MS then
    set_tracking st (watchTimer st) (watchedSeconds st) (hasRecorded st) true
      (videoStartTimestamp st)
  else st.

Definition markInteracted (st : State) : State :=
  {| settings := settings st;
     currentVideoId := currentVideoId st;
     watchTimer := watchTimer st;
     player := player st;
     endedListeners := endedListeners st;
     playingListener := playingListener st;
     watchedSeconds := watchedSeconds st;
     hasRecorded := hasRecorded st;
     autoplayDetected := autoplayDetected st;
     interactionCaptured := true;
     videoStartTimestamp := videoStartTimestamp st;
     sent := sent st |}.

Definition set_listeners (st : State) (p : bool) (n : nat) (playing : bool) (timer : bool) : State :=
  {| settings := settings st;
     currentVideoId := currentVideoId st;
     watchTimer := timer;
     player := p;
     endedListeners := n;
     playingListener := playing;
     watchedSeconds := watchedSeconds st;
     hasRecorded := hasRecorded st;
     autoplayDetected := autoplayDetected st;
     interactionCaptured := interactionCaptured st;
     videoStartTimestamp := videoStartTimestamp st;
     sent := sent st |}.

(** setupPlayerListeners, once waitForPlayer has found an element with a
    truthy duration. *)
Definition setupPlayerListeners (st : State) : State :=
  if negb (player st) then st
  else set_listeners st true (S (endedListeners st)) true true.

(** One animation frame of waitForPlayer's [attempt]; [found] tells
    whether document.querySelector('video') returned an element, whose
    duration is then [d]. *)
Definition attempt (found : bool) (d : JsNum) (st : State) : State :=
  let st' := set_listeners st found (endedListeners st) (playingListener st)
               (watchTimer st) in
  if found && jtruthy d then setupPlayerListeners st' else st'.

(** waitForPlayer up to its first animation frame, and detectVideo for the
    [v] parameter of the current URL. *)
Definition waitForPlayer (now : Q) (found : bool) (d : JsNum) (st : State) : State :=
  attempt found d (resetTracking now st).

Definition set_currentVideoId (v : option string) (st : State) : State :=
  {| settings := settings st;
     currentVideoId := v;
     watchTimer := watchTimer st;
     player := player st;
     endedListeners := endedListeners st;
     playingListener := playingListener st;
     watchedSeconds := watchedSeconds st;
     hasRecorded := hasRecorded st;
     autoplayDetected := autoplayDetected st;
     interactionCaptured := interactionCaptured st;
     videoStartTimestamp := videoStartTimestamp st;
     sent := sent st |}.

Definition detectVideo (v : option string) (now : Q) (found : bool) (d : JsNum) (st : State) : State :=
  match v with
  | None | Some "" => resetTracking now st
  | Some id =>
      if bool_decide (currentVideoId st = Some id) then st
      else waitForPlayer now found d (set_currentVideoId (Some id) st)
  end.

(** What happens inside one detection session: between two identity
    changes the page only delivers these callbacks. *)
Inductive Event :=
| Tick (o : Observation)          (* the interval fires *)
| Ended (o : Observation)         (* the element fires 'ended' *)
| Playing (now : Q)               (* the element fires 'playing' *)
| Interaction.                    (* pointerdown or keydown *)

Definition step (e : Event) (st : State) : State :=
  match e with
  | Tick o => if watchTimer st then trackWatchTime o st else st
  | Ended o => Nat.iter (endedListeners st) (onEnded o) st
  | Playing now =>
      if playingListener st then
        evaluateAutoplay now
          (set_listeners st (player st) (endedListeners st) false (watchTimer st))
      else st
  | Interaction => markInteracted st
  end.

Definition run (evs : list Event) (st : State) : State :=
  fold_left (fun s e => step e s) evs st.

(** An evaluation qualifies when it hands a watch event to the runtime. *)
Definition qualifies (o : Observation) (st : State) : Prop :=
  exists p, sent (evaluateAndSend o st) = sent st ++ [p].

(** [Math.min(100, (t / d) * 100)] as the engine computes it: the quotient
    and the product are each rounded to the nearest double. *)
Definition percentOf (t d : Q) : JsNum :=
  jmin (Fin 100) (fmul (fdiv (Fin t) (Fin d)) (Fin 100)).

(** A state in which the current session has already recorded. *)
Definition recorded (st : State) : State :=
  set_tracking st (watchTimer st) (watchedSeconds st) true
    (autoplayDetected st) (videoStartTimestamp st).

(** The running example of the specification: a 600 s video watched under
    the default thresholds (40 percent, 300 s). *)
Definition at600 (ct : Q) : Observation :=
  {| currentTime := ct; duration := Fin 600; paused := false; ended := false;
     hidden := false; pageTitle := "A title"; pageChannelName := "A channel";
     pageChannelId := "UC123"; isoNow := "2024-05-01T10:00:00.000Z" |}.

Definition session (ws : Q) : State :=
  {| settings := DEFAULT_THRESHOLDS;
     currentVideoId := Some "abc123";
     watchTimer := true;
     player := true;
     endedListeners := 1;
     playingListener := false;
     watchedSeconds := ws;
     hasRecorded := false;
     autoplayDetected := false;
     interactionCaptured := true;
     videoStartTimestamp := 0;
     sent := [] |}.

(** What one callback may do to the messages: nothing, leaving hasRecorded
    as it was, or send one message while hasRecorded goes from false to
    true. *)
Definition quiet (st st' : State) : Prop :=
  hasRecorded st' = hasRecorded st /\ sent st' = sent st.

Definition fires (st st' : State) : Prop :=
  hasRecorded st = false /\ hasRecorded st' = true
  /\ exists p, sent st' = sent st ++ [p].

(** A clip of one and a half seconds, one second in, under a threshold of
    70 percent. *)
Definition shortClip : Observation :=
{| currentTime := 1; duration := Fin (3 # 2); paused := false; ended := false;
   hidden := false; pageTitle := "A short clip"; pageChannelName := "A channel";
   pageChannelId := "UC123"; isoNow := "2024-05-01T10:00:00.000Z" |}.

Definition strictSession : State :=
{| settings := {| minWatchPercent := Some 70%Q;
                  minWatchTimeSeconds := Some 300%Q;
                  trackAutoplay := true;
                  countHiddenTime := false;
                  trackingEnabled := true |};
   currentVideoId := Some "abc123";
   watchTimer := true;
   player := true;
   endedListeners := 1;
   playingListener := false;
   watchedSeconds := 1;
   hasRecorded := false;
   autoplayDetected := false;
   interactionCaptured := true;
   videoStartTimestamp := 0;
   sent := [] |}.

(** A video of 100 s, 57 s in, under a threshold of 57 percent. *)
Definition at57of100 : Observation :=
{| currentTime := 57; duration := Fin 100; paused := false; ended := false;
   hidden := false; pageTitle := "A title"; pageChannelName := "A channel";
   pageChannelId := "UC123"; isoNow := "2024-05-01T10:00:00.000Z" |}.

Definition session57 : State :=
{| settings := {| minWatchPercent := Some 57%Q;
                  minWatchTimeSeconds := Some 300%Q;
                  trackAutoplay := true;
                  countHiddenTime := false;
                  trackingEnabled := true |};
   currentVideoId := Some "abc123";
   watchTimer := true;
   player := true;
   endedListeners := 1;
   playingListener := false;
   watchedSeconds := 57;
   hasRecorded := false;
   autoplayDetected := false;
   interactionCaptured := true;
   videoStartTimestamp := 0;
   sent := [] |}.

(** The page over its lifetime, with one video element.  A failed [attempt]
    re-arms itself through requestAnimationFrame: [pendingFrames] counts the
    armed loops.  setupPlayerListeners overwrites watchTimer without
    clearing it: [strayTimers] counts the intervals that no variable holds
    any more and that keep firing. *)
Record Page := {
  tracker : State;
  pendingFrames : nat;
  strayTimers : nat
}.

Inductive PageEvent :=
| InSession (e : Event)                                      (* a callback of the session *)
| UrlChange (v : option string) (now : Q) (found : bool) (d : JsNum)
                                                             (* the observer sees a new href *)
| Frame (found : bool) (d : JsNum).                          (* an animation frame *)

Definition playerReady (found : bool) (d : JsNum) : bool := found && jtruthy d.

(** detectVideo starts a new attempt loop exactly when it reaches
    waitForPlayer. *)
Definition startsWaiting (v : option string) (st : State) : bool :=
  match v with
  | None | Some "" => false
  | Some id => negb (bool_decide (currentVideoId st = Some id))
  end.

Definition pageStep (e : PageEvent) (pg : Page) : Page :=
  let st := tracker pg in
  match e with
  | InSession (Tick o) =>
      {| tracker := if watchTimer st || (0 <? strayTimers pg)%nat
                    then trackWatchTime o st else st;
         pendingFrames := pendingFrames pg;
         strayTimers := strayTimers pg |}
  | InSession e' =>
      {| tracker := step e' st;
         pendingFrames := pendingFrames pg;
         strayTimers := strayTimers pg |}
  | UrlChange v now found d =>
      {| tracker := detectVideo v now found d st;
         pendingFrames :=
           if startsWaiting v st && negb (playerReady found d)
           then S (pendingFrames pg) else pendingFrames pg;
         strayTimers := strayTimers pg |}
  | Frame found d =>
      match pendingFrames pg with
      | O => pg
      | S others =>
          {| tracker := attempt found d st;
             pendingFrames := if playerReady found d then others else S others;
             strayTimers :=
               if playerReady found d && watchTimer st
               then S (strayTimers pg) else strayTimers pg |}
      end
  end.

Definition pageRun (evs : list PageEvent) (pg : Page) : Page :=
  fold_left (fun p e => pageStep e p) evs pg.

(** The identity changes among the events of a page. *)
Definition urlChanges (evs : list PageEvent) : nat :=
  length (List.filter (fun e => match e with UrlChange _ _ _ _ => true | _ => false end) evs).

(** A tick that counts: the player plays a video of known length, in a
    visible tab unless hidden time counts. *)
Definition counted (st : State) (e : Event) : bool :=
  match e with
  | Tick o =>
      watchTimer st && player st && negb (paused o) && negb (ended o)
      && jtruthy (duration o)
      && (countHiddenTime (settings st) || negb (hidden o))
  | _ => false
  end.

End Tracker.

(* ===================================================================== *)
(** ** JavaScript values, plain objects and strings *)
(* ===================================================================== *)

Inductive JsVal :=
| JUndefined
| JNull
| JBool (b : bool)
| JNum (n : JsNum)
| JStr (s : string).

(** A plain object whose properties hold primitive values. *)
Abbreviation Obj := (gmap string JsVal).

(** [o.k]: a missing property reads as undefined. *)
Definition getProp (o : Obj) (k : string) : JsVal := default JUndefined (o !! k).

(** What JSON.parse can return, and what an element of a parsed array can
    be.  The elements of an inner array are never inspected by the code. *)
Inductive Json :=
| JPrim (v : JsVal)
| JObject (o : Obj)
| JArray.

Definition truthy (v : JsVal) : bool :=
  match v with
  | JUndefined | JNull => false
  | JBool b => b
  | JNum n => jtruthy n
  | JStr s => negb (String.eqb s "")
  end.

(** [a || b] *)
Definition vor (a b : JsVal) : JsVal := if truthy a then a else b.

(** [a === b] *)
Definition strictEq (a b : JsVal) : bool :=
  match a, b with
  | JUndefined, JUndefined => true
  | JNull, JNull => true
  | JBool x, JBool y => Bool.eqb x y
  | JNum x, JNum y => jeq x y
  | JStr x, JStr y => String.eqb x y
  | _, _ => false
  end.

(** The key comparison of a JavaScript Map: as [===], but NaN is NaN. *)
Definition sameValueZero (a b : JsVal) : bool :=
  match a, b with
  | JNum NaN, JNum NaN => true
  | _, _ => strictEq a b
  end.

Definition isString (v : JsVal) : bool :=
  match v with
  | JStr _ => true
  | _ => false
  end.

(** [Number.isFinite(v)]: no coercion, only finite numbers pass. *)
Definition isFiniteNumber (v : JsVal) : bool :=
  match v with
  | JNum n => jfinite n
  | _ => false
  end.

(** Library functions of the JavaScript engine that are taken as given. *)
Class Platform := {
  StringToNumber : string -> JsNum;      (* Number(s) for a string s *)
  NumberToString : JsNum -> string;      (* String(n) for a number n *)
  JSON_parse : string -> option Json;    (* None: JSON.parse throws *)
  DateGetTime : JsVal -> option Z;       (* new Date(v).getTime(); None: NaN *)
  toISOString : Z -> string;             (* new Date(ms).toISOString() *)
  toLowerCase : string -> string;        (* String.prototype.toLowerCase *)
  trim : string -> string                (* String.prototype.trim *)
}.

Section Conversions.
Context {P : Platform}.

(** [Number(v)] *)
Definition ToNumber (v : JsVal) : JsNum :=
  match v with
  | JUndefined => NaN
  | JNull => Fin 0
  | JBool b => if b then Fin 1 else Fin 0
  | JNum n => n
  | JStr s => StringToNumber s
  end.

(** [String(v)], as in a template literal *)
Definition ToString (v : JsVal) : string :=
  match v with
  | JUndefined => "undefined"
  | JNull => "null"
  | JBool b => if b then "true" else "false"
  | JNum n => NumberToString n
  | JStr s => s
  end.

(** [a + b] on primitive values *)
Definition jsAdd (a b : JsVal) : JsVal :=
  if isString a || isString b then JStr (ToString a +:+ ToString b)
  else JNum (jadd (ToNumber a) (ToNumber b)).

(** [Math.max(a, b)] *)
Definition MathMax (a b : JsVal) : JsNum := jmax (ToNumber a) (ToNumber b).

(** [new Date(v).getTime()] as a number *)
Definition getTime (v : JsVal) : JsNum :=
  match DateGetTime v with
  | Some ms => Fin (inject_Z ms)
  | None => NaN
  end.

End Conversions.

(** [s.indexOf(c)] and [s.lastIndexOf(c)] for a one-character [c]. *)
Fixpoint indexOfFrom (c : ascii) (s : string) (i : Z) : Z :=
  match s with
  | EmptyString => (-1)%Z
  | String a s' => if Ascii.eqb a c then i else indexOfFrom c s' (i + 1)%Z
  end.

Definition indexOf (c : ascii) (s : string) : Z := indexOfFrom c s 0.

Fixpoint lastIndexOfFrom (c : ascii) (s : string) (i acc : Z) : Z :=
  match s with
  | EmptyString => acc
  | String a s' => lastIndexOfFrom c s' (i + 1)%Z (if Ascii.eqb a c then i else acc)
  end.

Definition lastIndexOf (c : ascii) (s : string) : Z := lastIndexOfFrom c s 0 (-1).

(** [s.slice(from, to)] *)
Definition sliceBound (len i : Z) : Z :=
  if (i <? 0)%Z then Z.max (len + i) 0 else Z.min i len.

Definition slice (s : string) (from to : Z) : string :=
  let len := Z.of_nat (String.length s) in
  let a := sliceBound len from in
  let b := sliceBound len to in
  String.substring (Z.to_nat a) (Z.to_nat (Z.max (b - a) 0)) s.

(** [s.includes(sub)] *)
Fixpoint includes (sub s : string) : bool :=
  String.prefix sub s
  || match s with
     | EmptyString => false
     | String _ s' => includes sub s'
     end.

(* ===================================================================== *)
(** ** The extension's world: storage, worker state, network *)
(* ===================================================================== *)

(** A chat-completion request, and what the endpoint does with it.
    [NetContent c]: the call returned a body whose
    [choices?.[0]?.message?.content] is [c] (undefined when the path is
    missing).  [NetError]: fetch rejected, the status was not ok, or the
    body was not JSON. *)
Record Request := {
  req_model : string;
  req_prompt : string
}.

Inductive NetOutcome :=
| NetError (msg : string)
| NetContent (content : JsVal).

Record Report := {
  content : string;
  generatedAt : string
}.

Record Job := {
  job_videoId : JsVal;
  job_title : JsVal;
  job_channelName : JsVal
}.

Record World := {
  stored_videos : list Obj;          (* chrome.storage.local: videos *)
  stored_settings : option Obj;      (* chrome.storage.local: settings *)
  stored_report : option Report;     (* chrome.storage.local: reportCache *)
  aiQueue : list Job;                (* service worker: aiQueue *)
  queueProcessing : bool;            (* service worker: queueProcessing *)
  inFlight : option Job;             (* service worker: the job a suspended
                                        run of processQueueSafely has taken
                                        from the queue and not finished *)
  requests : list Request;           (* requests fetched so far, oldest first *)
  network : nat -> Request -> NetOutcome;
                                     (* outcome of the n-th request *)
  clock : Z                          (* Date.now() *)
}.

(** Results of a computation that may throw. *)
Inductive Res (A : Type) :=
| Ok (a : A)
| Throw (e : string).
Arguments Ok {A} a.
Arguments Throw {A} e.

Definition M (A : Type) : Type := World -> Res A * World.

Definition ret {A} (a : A) : M A := fun w => (Ok a, w).

Definition bind {A B} (m : M A) (k : A -> M B) : M B :=
  fun w =>
    match m w with
    | (Ok a, w') => k a w'
    | (Throw e, w') => (Throw e, w')
    end.

Definition throw {A} (e : string) : M A := fun w => (Throw e, w).

(** [try { m } catch (error) { h error }] *)
Definition tryCatch {A} (m : M A) (h : string -> M A) : M A :=
  fun w =>
    match m w with
    | (Ok a, w') => (Ok a, w')
    | (Throw e, w') => h e w'
    end.

Definition lift {A} (r : Res A) : M A := fun w => (r, w).

Definition gets {A} (f : World -> A) : M A := fun w => (Ok (f w), w).

Definition modify (f : World -> World) : M unit := fun w => (Ok tt, f w).

Declare Scope js_scope.
Delimit Scope js_scope with js.
Notation "x <- c1 ;; c2" := (bind c1 (fun x => c2))
  (at level 100, c1 at next level, right associativity) : js_scope.
Notation "c1 ;;; c2" := (bind c1 (fun _ => c2))
  (at level 100, right associativity) : js_scope.

Definition set_videos (v : list Obj) (w : World) : World :=
  {| stored_videos := v; stored_settings := stored_settings w;
     stored_report := stored_report w; aiQueue := aiQueue w;
     queueProcessing := queueProcessing w; inFlight := inFlight w;
     requests := requests w;
     network := network w; clock := clock w |}.

Definition set_settings (s : option Obj) (w : World) : World :=
  {| stored_videos := stored_videos w; stored_settings := s;
     stored_report := stored_report w; aiQueue := aiQueue w;
     queueProcessing := queueProcessing w; inFlight := inFlight w;
     requests := requests w;
     network := network w; clock := clock w |}.

Definition set_report (r : option Report) (w : World) : World :=
  {| stored_videos := stored_videos w; stored_settings := stored_settings w;
     stored_report := r; aiQueue := aiQueue w;
     queueProcessing := queueProcessing w; inFlight := inFlight w;
     requests := requests w;
     network := network w; clock := clock w |}.

Definition set_queue (q : list Job) (w : World) : World :=
  {| stored_videos := stored_videos w; stored_settings := stored_settings w;
     stored_report := stored_report w; aiQueue := q;
     queueProcessing := queueProcessing w; inFlight := inFlight w;
     requests := requests w;
     network := network w; clock := clock w |}.

Definition set_processing (b : bool) (w : World) : World :=
  {| stored_videos := stored_videos w; stored_settings := stored_settings w;
     stored_report := stored_report w; aiQueue := aiQueue w;
     queueProcessing := b; inFlight := inFlight w; requests := requests w;
     network := network w; clock := clock w |}.

Definition set_inFlight (job : option Job) (w : World) : World :=
  {| stored_videos := stored_videos w; stored_settings := stored_settings w;
     stored_report := stored_report w; aiQueue := aiQueue w;
     queueProcessing := queueProcessing w; inFlight := job; requests := requests w;
     network := network w; clock := clock w |}.

Definition add_request (r : Request) (w : World) : World :=
  {| stored_videos := stored_videos w; stored_settings := stored_settings w;
     stored_report := stored_report w; aiQueue := aiQueue w;
     queueProcessing := queueProcessing w; inFlight := inFlight w;
     requests := requests w ++ [r];
     network := network w; clock := clock w |}.

Definition advance_clock (ms : Z) (w : World) : World :=
  {| stored_videos := stored_videos w; stored_settings := stored_settings w;
     stored_report := stored_report w; aiQueue := aiQueue w;
     queueProcessing := queueProcessing w; inFlight := inFlight w;
     requests := requests w;
     network := network w; clock := (clock w + ms)%Z |}.

(** [arr.findIndex(f)]; None stands for -1. *)
Fixpoint findIndex {A} (f : A -> bool) (l : list A) : option nat :=
  match l with
  | [] => None
  | x :: l' => if f x then Some 0%nat else S <$> findIndex f l'
  end.

(** A JavaScript Map keyed by primitive values: insertion-ordered, a key
    that is set again keeps its place. *)
Abbreviation JsMap := (list (JsVal * Obj)).

Fixpoint mapGet (k : JsVal) (m : JsMap) : option Obj :=
  match m with
  | [] => None
  | (k', v) :: m' => if sameValueZero k' k then Some v else mapGet k m'
  end.

Fixpoint mapSet (k : JsVal) (v : Obj) (m : JsMap) : JsMap :=
  match m with
  | [] => [(k, v)]
  | (k', v') :: m' =>
      if sameValueZero k' k then (k', v) :: m' else (k', v') :: mapSet k v m'
  end.

(** [new Map(pairs)] and [Array.from(m.values())] *)
Definition newMap (pairs : list (JsVal * Obj)) : JsMap :=
  fold_left (fun m kv => mapSet (fst kv) (snd kv) m) pairs [].

Definition mapValues (m : JsMap) : list Obj := map snd m.

(** The same Map with values of any type: [m.get(k)] and [m.set(k, v)]. *)
Fixpoint entryGet {V : Type} (k : JsVal) (m : list (JsVal * V)) : option V :=
  match m with
  | [] => None
  | (k', v) :: m' => if sameValueZero k' k then Some v else entryGet k m'
  end.

Fixpoint entrySet {V : Type} (k : JsVal) (v : V) (m : list (JsVal * V)) : list (JsVal * V) :=
  match m with
  | [] => [(k, v)]
  | (k', v') :: m' =>
      if sameValueZero k' k then (k', v) :: m' else (k', v') :: entrySet k v m'
  end.

(** [arr.sort(cmp)].  The sort is stable, and a comparator result that is
    NaN counts as 0.  For a comparator that orders the elements
    consistently this is the array a stable insertion sort yields; for
    other comparators the language leaves the order to the engine, and the
    model keeps the insertion sort. *)
Definition jpositive (n : JsNum) : bool :=
  match n with
  | Fin q => negb (Qle_bool q 0)
  | PInf => true
  | _ => false
  end.

Fixpoint sortInsert {A : Type} (cmp : A -> A -> JsNum) (x : A) (l : list A) : list A :=
  match l with
  | [] => [x]
  | y :: l' => if jpositive (cmp x y) then y :: sortInsert cmp x l' else x :: l
  end.

Definition sortBy {A : Type} (cmp : A -> A -> JsNum) (l : list A) : list A :=
  fold_right (sortInsert cmp) [] l.

(* ===================================================================== *)
(** ** utils/helpers.js *)
(* ===================================================================== *)

Module Helpers.

(** An entry of calculateTopChannels, and a bucket of
    calculateCategoryBreakdown. *)
Record Ranked := {
  channel : JsVal;
  watchTime : JsVal
}.

Record Bucket := {
  count : nat;
  bucketWatchTime : JsVal
}.

Section WithPlatform.
Context {P : Platform}.

(** sum(items, selector) *)
Definition sum {A : Type} (items : list A) (selector : A -> JsVal) : JsVal :=
  fold_left (fun acc item => jsAdd acc (selector item)) items (JNum (Fin 0)).

(** groupBy(items, selector): the groups in the order their keys first
    appear, each with its items in the order of the input. *)
Definition groupBy {A : Type} (items : list A) (selector : A -> JsVal) : list (JsVal * list A) :=
  fold_left
    (fun map item =>
       let key := selector item in
       match entryGet key map with
       | None => entrySet key [item] map
       | Some group => entrySet key (group ++ [item]) map
       end)
    items [].

Definition channelOf (video : Obj) : JsVal :=
  vor (getProp video "channelName") (JStr "Unknown").

Definition watchedOf (video : Obj) : JsVal :=
  vor (getProp video "watchedDuration") (JNum (Fin 0)).

(** The comparator [(a, b) => b.watchTime - a.watchTime]. *)
Definition byWatchTime (a b : Ranked) : JsNum :=
  jsub (ToNumber (watchTime b)) (ToNumber (watchTime a)).

Definition calculateTopChannels (history : list Obj) (limit : nat) : list Ranked :=
  let channelMap := groupBy history channelOf in
  let ranked :=
    map (fun entry => {| channel := fst entry; watchTime := sum (snd entry) watchedOf |})
      channelMap in
  firstn limit (sortBy byWatchTime ranked).

Definition categoryOf (video : Obj) : JsVal :=
  vor (getProp video "aiCategory") (JStr "Uncategorized").

Definition calculateCategoryBreakdown (history : list Obj) : list (JsVal * Bucket) :=
  fold_left
    (fun map video =>
       let category := categoryOf video in
       let entry :=
         default {| count := 0; bucketWatchTime := JNum (Fin 0) |} (entryGet category map) in
       entrySet category
         {| count := S (count entry);
            bucketWatchTime := jsAdd (bucketWatchTime entry) (watchedOf video) |}
         map)
    history [].

Definition toHoursMinutes (seconds : JsVal) : JsNum * JsNum :=
  let hours := jfloor (fdiv (ToNumber seconds) (Fin 3600)) in
  let minutes := jfloor (fdiv (jmod (ToNumber seconds) (Fin 3600)) (Fin 60)) in
  (hours, minutes).

(** filterByDateRange; a Date compares through its time value, and an
    invalid Date is neither before nor after any other. *)
Definition filterByDateRange (history : list Obj) (startDate endDate : JsVal) : list Obj :=
  if negb (truthy startDate) && negb (truthy endDate) then history
  else
    List.filter
      (fun video =>
         let watched := getTime (getProp video "watchedAt") in
         if truthy startDate && jlt watched (getTime startDate) then false
         else if truthy endDate && jlt (getTime endDate) watched then false
         else true)
      history.

End WithPlatform.

End Helpers.

(* ===================================================================== *)
(** ** utils/storage.js *)
(* ===================================================================== *)

Module Storage.

Definition DEFAULT_SETTINGS : Obj :=
  {[ "minWatchPercent" := JNum (Fin 40);
     "minWatchTimeSeconds" := JNum (Fin 300);
     "trackAutoplay" := JBool true;
     "countHiddenTime" := JBool false;
     "dataRetention" := JStr "all";
     "openRouterApiKey" := JStr "";
     "aiFeaturesEnabled" := JBool true;
     "trackingEnabled" := JBool true ]}.

(** The argument of importHistory: nothing (the default [[]] applies), an
    array, or some other value. *)
Inductive Imported :=
| ImportedNothing
| ImportedArray (items : list Json)
| ImportedOther.

(** The object getStats returns. *)
Record Stats := {
  totalVideos : nat;
  totalWatchSeconds : JsVal;
  avgWatchPercent : JsVal;
  mostRewatched : option Obj         (* None: null *)
}.

Definition emptyStats : Stats :=
  {| totalVideos := 0;
     totalWatchSeconds := JNum (Fin 0);
     avgWatchPercent := JNum (Fin 0);
     mostRewatched := None |}.

Section WithPlatform.
Context {P : Platform}.

Definition getVideos : M (list Obj) := gets stored_videos.

(** setVideos; warnIfStorageLarge only writes to the console. *)
Definition setVideos (videos : list Obj) : M unit := modify (set_videos videos).

(** getSettings: the stored object (the defaults when there is none)
    spread over the defaults. *)
Definition currentSettings (w : World) : Obj :=
  default DEFAULT_SETTINGS (stored_settings w) ∪ DEFAULT_SETTINGS.

Definition getSettings : M Obj := gets currentSettings.

(** saveSettings: [{ ...DEFAULT_SETTINGS, ...newSettings }] is stored. *)
Definition saveSettings (newSettings : Obj) : M unit :=
  modify (set_settings (Some (newSettings ∪ DEFAULT_SETTINGS))).

Definition sameVideoId (videoId : JsVal) (item : Obj) : bool :=
  strictEq (getProp item "videoId") videoId.

(** The record written over an existing one by saveVideo. *)
Definition mergeVideo (existing video : Obj) : Obj :=
  <["watchedAt" := getProp video "watchedAt"]>
    (<["rewatchCount" := jsAdd (vor (getProp existing "rewatchCount") (JNum (Fin 1)))
                                (JNum (Fin 1))]>
       (video ∪ existing)).

(** The record pushed by saveVideo for a new id. *)
Definition freshVideo (video : Obj) : Obj :=
  <["rewatchCount" := vor (getProp video "rewatchCount") (JNum (Fin 1))]> video.

Definition upsert (video : Obj) (videos : list Obj) : list Obj :=
  match findIndex (sameVideoId (getProp video "videoId")) videos with
  | Some existingIndex =>
      match videos !! existingIndex with
      | Some existing => <[existingIndex := mergeVideo existing video]> videos
      | None => videos
      end
  | None => videos ++ [freshVideo video]
  end.

Definition saveVideo (video : Obj) : M Obj :=
  tryCatch
    (videos <- getVideos ;;
     setVideos (upsert video videos) ;;;
     ret video)%js
    (fun error => throw error).

Definition getHistory : M (list Obj) := getVideos.

Definition patch (videoId : JsVal) (updates : Obj) (videos : list Obj) : list Obj :=
  match findIndex (sameVideoId videoId) videos with
  | Some index =>
      match videos !! index with
      | Some existing => <[index := updates ∪ existing]> videos
      | None => videos
      end
  | None => videos
  end.

Definition updateVideo (videoId : JsVal) (updates : Obj) : M unit :=
  (videos <- getVideos ;;
   match findIndex (sameVideoId videoId) videos with
   | None => ret tt
   | Some _ => setVideos (patch videoId updates videos)
   end)%js.

Definition deleteVideo (videoId : JsVal) : M unit :=
  (videos <- getVideos ;;
   setVideos (List.filter (fun video => negb (sameVideoId videoId video)) videos))%js.

Definition clearAll : M unit :=
  modify (fun w => set_report None (set_videos [] w)).

Definition getCachedReport : M (option Report) := gets stored_report.

Definition saveReport (report : Report) : M unit :=
  modify (set_report (Some report)).

Definition replaceHistory (videos : list Obj) : M unit := setVideos videos.

(** The record stored by importHistory for an id that is already in
    the map. *)
Definition mergeImported (existing video : Obj) : Obj :=
  <["rewatchCount" :=
      JNum (MathMax (vor (getProp existing "rewatchCount") (JNum (Fin 1)))
                    (vor (getProp video "rewatchCount") (JNum (Fin 1))))]>
    (video ∪ existing).

(** The body of importedVideos.forEach. *)
Definition importOne (mergedMap : JsMap) (item : Json) : JsMap :=
  match item with
  | JObject video =>
      let videoId := getProp video "videoId" in
      if negb (truthy videoId) then mergedMap
      else
        match mapGet videoId mergedMap with
        | Some existing => mapSet videoId (mergeImported existing video) mergedMap
        | None => mapSet videoId video mergedMap
        end
  | _ => mergedMap
  end.

Definition mergeHistory (current : list Obj) (importedVideos : list Json) : list Obj :=
  let mergedMap := newMap (map (fun video => (getProp video "videoId", video)) current) in
  mapValues (fold_left importOne importedVideos mergedMap).

Definition importHistory (importedVideos : Imported) : M unit :=
  tryCatch
    (match importedVideos with
     | ImportedOther => throw "Imported data must be an array"
     | ImportedNothing =>
         current <- getVideos ;; setVideos (mergeHistory current [])
     | ImportedArray items =>
         current <- getVideos ;; setVideos (mergeHistory current items)
     end)%js
    (fun error => throw error).

(** exportHistory: a copy of the stored array. *)
Definition exportHistory : M (list Obj) := getVideos.

(** [videos.reduce((sum, video) => sum + (video.k || 0), 0)] *)
Definition total (k : string) (videos : list Obj) : JsVal :=
  fold_left (fun sum video => jsAdd sum (vor (getProp video k) (JNum (Fin 0))))
    videos (JNum (Fin 0)).

(** The comparator [(a, b) => (b.rewatchCount || 0) - (a.rewatchCount || 0)]. *)
Definition byRewatchCount (a b : Obj) : JsNum :=
  jsub (ToNumber (vor (getProp b "rewatchCount") (JNum (Fin 0))))
       (ToNumber (vor (getProp a "rewatchCount") (JNum (Fin 0)))).

Definition getStats : M Stats :=
  tryCatch
    (videos <- getVideos ;;
     if (length videos =? 0)%nat then ret emptyStats
     else
       ret {| totalVideos := length videos;
              totalWatchSeconds := total "watchedDuration" videos;
              avgWatchPercent :=
                JNum (jdiv (ToNumber (total "watchPercent" videos))
                           (Fin (inject_Z (Z.of_nat (length videos)))));
              mostRewatched := head (sortBy byRewatchCount videos) |})%js
    (fun error => ret emptyStats).

End WithPlatform.

End Storage.

(* ===================================================================== *)
(** ** utils/ai.js *)
(* ===================================================================== *)

(** The double quote and the line feed, for the prompt texts. *)
Definition dq : string := String (ascii_of_nat 34) EmptyString.
Definition nl : string := String (ascii_of_nat 10) EmptyString.

(** The result of categorizeVideoAi. *)
Record Classification := {
  category : JsVal;
  confidence : JsVal
}.

(** The repository holds two copies of utils/ai.js.  They share
    callOpenRouter, parseJsonContent and generateWeeklyReportAi; module [Ai]
    is the copy whose categorizeVideoAi consults a keyword table, module
    [AiPlain] the copy whose categorizeVideoAi does not. *)
Module Ai.

Definition AI_MODEL_PRIMARY : string := "mistralai/mistral-nemo".
Definition AI_MODEL_FALLBACK : string := "google/gemma-3-12b-it".

Record Hint := {
  hint_category : string;
  keywords : list string
}.

Definition KEYWORD_HINTS : list Hint := [
  {| hint_category := "Gaming";
     keywords := ["game"; "gaming"; "let's play"; "walkthrough"; "speedrun"; "playthrough"; "boss fight"] |};
  {| hint_category := "Technology";
     keywords := ["tech"; "iphone"; "android"; "gadget"; "review"; "unboxing"; "hardware"] |};
  {| hint_category := "Programming";
     keywords := ["javascript"; "python"; "coding"; "tutorial"; "react"; "rust"; "api"; "typescript"; "web dev"] |};
  {| hint_category := "Music";
     keywords := ["music"; "song"; "cover"; "instrumental"; "lyrics"; "band"; "concert"] |};
  {| hint_category := "Education";
     keywords := ["lecture"; "class"; "course"; "study"; "learn"; "lesson"] |};
  {| hint_category := "Science";
     keywords := ["science"; "space"; "experiment"; "physics"; "chemistry"; "biology"; "nasa"] |};
  {| hint_category := "Finance";
     keywords := ["stock"; "crypto"; "invest"; "trading"; "money"; "budget"] |};
  {| hint_category := "Health";
     keywords := ["workout"; "fitness"; "diet"; "health"; "yoga"; "meditation"] |};
  {| hint_category := "Comedy";
     keywords := ["funny"; "comedy"; "skit"; "sketch"; "standup"; "prank"] |};
  {| hint_category := "News";
     keywords := ["news"; "breaking"; "update"; "headline"] |};
  {| hint_category := "Sports";
     keywords := ["match"; "highlights"; "football"; "basketball"; "soccer"; "nfl"; "nba"; "fifa"] |};
  {| hint_category := "Cooking";
     keywords := ["recipe"; "cook"; "kitchen"; "bake"; "chef"; "meal"] |};
  {| hint_category := "Travel";
     keywords := ["travel"; "trip"; "tour"; "destination"; "journey"; "vlog"] |};
  {| hint_category := "Art";
     keywords := ["art"; "drawing"; "painting"; "illustration"; "design"] |};
  {| hint_category := "Productivity";
     keywords := ["productivity"; "habit"; "planner"; "focus"; "time management"] |};
  {| hint_category := "Philosophy";
     keywords := ["philosophy"; "ethics"; "stoic"; "existential"] |};
  {| hint_category := "Politics";
     keywords := ["politics"; "policy"; "election"; "government"] |};
  {| hint_category := "History";
     keywords := ["history"; "historic"; "wwii"; "ancient"; "civilization"] |}
].

Section WithPlatform.
Context {P : Platform}.

(** A parameter with default [''], replaced only when undefined. *)
Definition orEmpty (v : JsVal) : JsVal :=
  match v with
  | JUndefined => JStr ""
  | _ => v
  end.

Definition inferHeuristicCategory (title channelName : JsVal) : option string :=
  let haystack :=
    toLowerCase (ToString (orEmpty title) +:+ " " +:+ ToString (orEmpty channelName)) in
  hint_category <$>
    List.find (fun hint => existsb (fun keyword => includes keyword haystack) (keywords hint))
      KEYWORD_HINTS.

(** callOpenRouter, reduced to the content of its reply. *)
Definition callOpenRouter (apiKey : JsVal) (model prompt : string) : M JsVal :=
  if negb (truthy apiKey) then throw "Missing OpenRouter API key"
  else
    fun w =>
      let r := {| req_model := model; req_prompt := prompt |} in
      match network w (length (requests w)) r with
      | NetError msg => (Throw msg, add_request r w)
      | NetContent c => (Ok c, add_request r w)
      end.

(** The text handed to JSON.parse. *)
Definition jsonSegment (content : string) : string :=
  let start := indexOf "{" content in
  let end_ := (lastIndexOf "}" content + 1)%Z in
  if (0 <=? start)%Z then slice content start end_ else content.

(** parseJsonContent; a value without indexOf fails like a syntax error. *)
Definition parseJsonContent (content : JsVal) : Res Json :=
  match content with
  | JStr text =>
      match JSON_parse (jsonSegment text) with
      | Some parsed => Ok parsed
      | None => Throw "Failed to parse AI JSON"
      end
  | _ => Throw "Failed to parse AI JSON"
  end.

(** [parsed.k]; reading a property of null throws. *)
Definition jsonProp (parsed : Json) (k : string) : Res JsVal :=
  match parsed with
  | JObject o => Ok (getProp o k)
  | JPrim JNull | JPrim JUndefined => Throw "TypeError: cannot read properties"
  | _ => Ok JUndefined
  end.

Definition heuristicHint (heuristicCategory : option string) : string :=
  match heuristicCategory with
  | Some c => "Heuristic guess based on keywords: " +:+ c +:+ ". Only use if it truly fits."
  | None => "No heuristic guess available."
  end.

Definition categorizationPrompt (title channelName : JsVal) (heuristicCategory : option string) : string :=
  "You are a precise YouTube video classifier. Your output MUST be valid JSON with no Markdown or commentary."
  +:+ nl +:+ nl
  +:+ "Allowed categories: Technology, Programming, Gaming, Music, Education, Science, Finance, Health, Comedy, News, Sports, Cooking, Travel, Art, Productivity, Philosophy, Politics, History, Other."
  +:+ nl +:+ "Confidence options: high, medium, low." +:+ nl +:+ nl
  +:+ "Video Title: " +:+ dq +:+ ToString title +:+ dq +:+ nl
  +:+ "Channel Name: " +:+ dq +:+ ToString channelName +:+ dq +:+ nl
  +:+ heuristicHint heuristicCategory +:+ nl +:+ nl
  +:+ "Rules:" +:+ nl
  +:+ "1. Pick exactly one category from the allowed list." +:+ nl
  +:+ "2. Prefer the heuristic guess only if it clearly matches." +:+ nl
  +:+ "3. Never invent a new category." +:+ nl
  +:+ "4. Respond with JSON only." +:+ nl +:+ nl
  +:+ "Return: {" +:+ dq +:+ "category" +:+ dq +:+ ":" +:+ dq +:+ "<AllowedCategory>" +:+ dq
  +:+ "," +:+ dq +:+ "confidence" +:+ dq +:+ ":" +:+ dq +:+ "<high|medium|low>" +:+ dq +:+ "}".

(** What the catch block of categorizeVideoAi returns. *)
Definition heuristicResult (title channelName : JsVal) : Classification :=
  match inferHeuristicCategory title channelName with
  | Some c => {| category := JStr c; confidence := JStr "medium" |}
  | None => {| category := JStr "Uncategorized"; confidence := JStr "low" |}
  end.

(** The primary call and, when it throws, the fallback call. *)
Definition callWithFallback (apiKey : JsVal) (prompt : string) : M JsVal :=
  tryCatch (callOpenRouter apiKey AI_MODEL_PRIMARY prompt)
    (fun primaryError => callOpenRouter apiKey AI_MODEL_FALLBACK prompt).

Definition categorizeVideoAi (title channelName apiKey : JsVal) : M Classification :=
  tryCatch
    (let heuristicCategory := inferHeuristicCategory title channelName in
     let prompt := categorizationPrompt title channelName heuristicCategory in
     content <- callWithFallback apiKey prompt ;;
     if negb (truthy content) then throw "OpenRouter response missing content"
     else
       parsed <- lift (parseJsonContent content) ;;
       parsedCategory <- lift (jsonProp parsed "category") ;;
       let cleanCategory :=
         if isString parsedCategory then parsedCategory else JStr "Uncategorized" in
       let normalizedCategory :=
         if truthy cleanCategory && negb (strictEq cleanCategory (JStr "Uncategorized"))
         then cleanCategory
         else JStr (default "Uncategorized" heuristicCategory) in
       parsedConfidence <- lift (jsonProp parsed "confidence") ;;
       ret {| category := normalizedCategory;
              confidence :=
                vor parsedConfidence
                  (JStr (match heuristicCategory with
                         | Some _ => "medium"
                         | None => "low"
                         end)) |})%js
    (fun error => ret (heuristicResult title channelName)).

Definition weeklyPrompt (summaryPayload : string) : string :=
  "You are a personal media consumption analyst. A user has shared their YouTube watch history for the past 7 days. Analyze their patterns and write a personalized, honest, insightful report in a friendly but direct tone."
  +:+ nl +:+ summaryPayload +:+ nl
  +:+ "Write a report with these 4 sections:" +:+ nl +:+ nl
  +:+ "Overview — What kind of content did they consume this week?" +:+ nl
  +:+ "Patterns — What habits or tendencies do you notice?" +:+ nl
  +:+ "Highlights — What stands out as interesting or notable?" +:+ nl
  +:+ "Reflection — One honest, non-judgmental observation about their viewing habits."
  +:+ nl +:+ nl
  +:+ "Keep the entire report under 300 words. Be specific using the actual data provided.".

(** [content?.trim()] followed by the emptiness test. *)
Definition trimmedContent (content : JsVal) : Res string :=
  match content with
  | JStr text =>
      if String.eqb (trim text) "" then Throw "OpenRouter weekly report missing content"
      else Ok (trim text)
  | JUndefined | JNull => Throw "OpenRouter weekly report missing content"
  | _ => Throw "TypeError: trim is not a function"
  end.

Definition generateWeeklyReportAi (summaryPayload : string) (apiKey : JsVal) : M string :=
  tryCatch
    (content <- callWithFallback apiKey (weeklyPrompt summaryPayload) ;;
     lift (trimmedContent content))%js
    (fun error => throw error).

(** The one message of testOpenRouterKey. *)
Definition keyTestPrompt : string :=
  "Reply with " +:+ dq +:+ "OK" +:+ dq +:+ " if you can read this.".

Definition testOpenRouterKey (apiKey : JsVal) : M bool :=
  tryCatch
    (reply <- callOpenRouter apiKey AI_MODEL_PRIMARY keyTestPrompt ;;
     match vor reply (JStr "") with
     | JStr content => ret (includes "ok" (toLowerCase content))
     | _ => throw "TypeError: content.toLowerCase is not a function"
     end)%js
    (fun error => ret false).

End WithPlatform.

End Ai.

Module AiPlain.

Section WithPlatform.
Context {P : Platform}.

Definition categorizationPrompt (title channelName : JsVal) : string :=
  "You are a video categorization assistant. Given a YouTube video title and channel name, return a single JSON object with no extra text."
  +:+ nl +:+ "Video Title: " +:+ dq +:+ ToString title +:+ dq
  +:+ nl +:+ "Channel Name: " +:+ dq +:+ ToString channelName +:+ dq
  +:+ nl +:+ "Return exactly this JSON:" +:+ nl +:+ "{" +:+ nl
  +:+ dq +:+ "category" +:+ dq +:+ ": " +:+ dq
  +:+ "<one of: Technology, Programming, Gaming, Music, Education, Science, Finance, Health, Comedy, News, Sports, Cooking, Travel, Art, Productivity, Philosophy, Politics, History, Other>"
  +:+ dq +:+ "," +:+ nl
  +:+ dq +:+ "confidence" +:+ dq +:+ ": " +:+ dq +:+ "<high | medium | low>" +:+ dq
  +:+ nl +:+ "}".

Definition defaultResult : Classification :=
  {| category := JStr "Uncategorized"; confidence := JStr "low" |}.

Definition categorizeVideoAi (title channelName apiKey : JsVal) : M Classification :=
  tryCatch
    (let prompt := categorizationPrompt title channelName in
     content <- Ai.callWithFallback apiKey prompt ;;
     if negb (truthy content) then throw "OpenRouter response missing content"
     else
       parsed <- lift (Ai.parseJsonContent content) ;;
       parsedCategory <- lift (Ai.jsonProp parsed "category") ;;
       parsedConfidence <- lift (Ai.jsonProp parsed "confidence") ;;
       ret {| category := vor parsedCategory (JStr "Uncategorized");
              confidence := vor parsedConfidence (JStr "low") |})%js
    (fun error => ret defaultResult).

End WithPlatform.

End AiPlain.

(* ===================================================================== *)
(** ** background/service-worker.js *)
(* ===================================================================== *)

Module ServiceWorker.
Import Storage.

Definition AI_RATE_LIMIT_MS : Z := 1000.
Definition RECENT_WINDOW_MS : Z := 7 * 24 * 60 * 60 * 1000.

(** [{ skipped: true }] and [{ stored: true }] *)
Inductive WatchedResult :=
| skipped
| stored.

Definition uncategorized : Obj :=
  {[ "aiCategory" := JStr "Uncategorized"; "aiCategoryConfidence" := JStr "low" ]}.

(** Property names every object literal inherits from Object.prototype. *)
Definition inheritedNames : list string :=
  ["constructor"; "__defineGetter__"; "__defineSetter__"; "hasOwnProperty";
   "__lookupGetter__"; "__lookupSetter__"; "isPrototypeOf"; "propertyIsEnumerable";
   "toString"; "valueOf"; "__proto__"; "toLocaleString"].

Section WithPlatform.
Context {P : Platform}.

(** The import of categorizeVideoAi from utils/ai.js (either copy), and
    buildWeeklySummary, whose text only travels into the prompt. *)
Variable categorizeVideoAi : JsVal -> JsVal -> JsVal -> M Classification.
Variable buildWeeklySummary : list Obj -> string.

(** delay(ms) *)
Definition delay (ms : Z) : M unit := modify (advance_clock ms).

(** processQueueSafely up to its first await, which is as far as a call
    that is not awaited runs before its caller goes on: nothing when a run
    is in progress; otherwise the flag is set and the first job is taken
    from the queue, and the run is suspended inside processSingleJob with
    that job in hand.  With an empty queue the flag is set and cleared
    again. *)
Definition startProcessing (w : World) : World :=
  if queueProcessing w then w
  else
    match aiQueue w with
    | [] => w
    | job :: rest => set_inFlight (Some job) (set_queue rest (set_processing true w))
    end.

(** queueCategorizationJob: the job is pushed unless the queue holds one
    for the same id, and processQueueSafely is started without being
    awaited. *)
Definition queueCategorizationJob (video : Obj) : M unit :=
  modify (fun w =>
    let jobExists :=
      existsb (fun job => strictEq (job_videoId job) (getProp video "videoId")) (aiQueue w) in
    startProcessing
      (if jobExists then w
       else set_queue (aiQueue w ++ [{| job_videoId := getProp video "videoId";
                                        job_title := getProp video "title";
                                        job_channelName := getProp video "channelName" |}]) w)).

Definition needsCategory (video : Obj) : bool :=
  negb (truthy (getProp video "aiCategory"))
  || strictEq (getProp video "aiCategory") (JStr "Uncategorized").

Definition aiReady (settings : Obj) : bool :=
  truthy (getProp settings "aiFeaturesEnabled")
  && truthy (getProp settings "openRouterApiKey").

Definition processSingleJob (job : Job) : M unit :=
  (settings <- getSettings ;;
   if negb (aiReady settings) then updateVideo (job_videoId job) uncategorized
   else
     result <- categorizeVideoAi (job_title job) (job_channelName job)
                 (getProp settings "openRouterApiKey") ;;
     updateVideo (job_videoId job)
       {[ "aiCategory" := category result;
          "aiCategoryConfidence" := confidence result ]})%js.

(** One turn of the while loop of processQueueSafely. *)
Definition processNext (job : Job) : M unit :=
  tryCatch (processSingleJob job ;;; delay AI_RATE_LIMIT_MS)%js
    (fun error => ret tt).

(** The while loop, unrolled at most [fuel] times; None when the fuel
    does not suffice. *)
Fixpoint drainQueue (fuel : nat) (w : World) : option (Res unit * World) :=
  match aiQueue w with
  | [] => Some (Ok tt, w)
  | job :: rest =>
      match fuel with
      | O => None
      | S fuel' =>
          match processNext job (set_queue rest w) with
          | (Ok _, w') => drainQueue fuel' w'
          | (Throw e, w') => Some (Throw e, w')
          end
      end
  end.

Definition processQueueSafely (fuel : nat) (w : World) : option (Res unit * World) :=
  if queueProcessing w then Some (Ok tt, w)
  else
    match drainQueue fuel (set_processing true w) with
    | Some (Ok _, w') => Some (Ok tt, set_processing false w')
    | other => other
    end.

(** The rest of a run that [startProcessing] left suspended: the job in
    hand is processed, then the loop goes on as in [processQueueSafely]. *)
Definition resumeProcessing (fuel : nat) (w : World) : option (Res unit * World) :=
  match inFlight w with
  | None => Some (Ok tt, w)
  | Some job =>
      match processNext job (set_inFlight None w) with
      | (Ok _, w') =>
          match drainQueue fuel w' with
          | Some (Ok _, w'') => Some (Ok tt, set_processing false w'')
          | other => other
          end
      | (Throw e, w') => Some (Throw e, w')
      end
  end.

(** [{ '3m': 90, '6m': 182, '1y': 365 }[retentionDays]] as the number it
    yields once multiplied; None when the lookup is falsy. *)
Definition daysToKeep (retentionDays : JsVal) : option JsNum :=
  let key := ToString retentionDays in
  if String.eqb key "3m" then Some (Fin 90)
  else if String.eqb key "6m" then Some (Fin 182)
  else if String.eqb key "1y" then Some (Fin 365)
  else if existsb (String.eqb key) inheritedNames then Some NaN
  else None.

Definition applyRetentionPolicy (settings : Obj) : M unit :=
  let retentionDays := getProp settings "dataRetention" in
  if strictEq retentionDays (JStr "all") then ret tt
  else
    match daysToKeep retentionDays with
    | None => ret tt
    | Some days =>
        (now <- gets clock ;;
         let cutoff :=
           jsub (Fin (inject_Z now)) (jmul days (Fin (inject_Z (24 * 60 * 60 * 1000)))) in
         history <- getHistory ;;
         let filtered :=
           List.filter (fun video => jge (getTime (getProp video "watchedAt")) cutoff) history in
         if negb (length filtered =? length history)%nat then replaceHistory filtered
         else ret tt)%js
    end.

Definition handleVideoWatched (payload : Json) : M WatchedResult :=
  match payload with
  | JObject video =>
      if negb (truthy (getProp video "videoId")) then throw "Missing video id"
      else
        (settings <- getSettings ;;
         if negb (truthy (getProp settings "trackingEnabled")) then ret skipped
         else if truthy (getProp video "autoplay")
                 && negb (truthy (getProp settings "trackAutoplay")) then ret skipped
         else
           saveVideo video ;;;
           applyRetentionPolicy settings ;;;
           (if aiReady settings then queueCategorizationJob video
            else updateVideo (getProp video "videoId") uncategorized) ;;;
           ret stored)%js
  | _ => throw "Missing video id"
  end.

Definition enqueuePendingVideos : M nat :=
  (history <- getHistory ;;
   fold_right (fun video rest => queueCategorizationJob video ;;; rest) (ret tt)
     (List.filter needsCategory history) ;;;
   gets (fun w => length (aiQueue w)))%js.

Definition isRecent (now : Z) (video : Obj) : bool :=
  jle (jsub (Fin (inject_Z now)) (getTime (getProp video "watchedAt")))
      (Fin (inject_Z RECENT_WINDOW_MS)).

Definition handleWeeklyReport : M Report :=
  (settings <- getSettings ;;
   if negb (aiReady settings) then throw "AI disabled or API key missing"
   else
     history <- getHistory ;;
     now <- gets clock ;;
     let recent := List.filter (isRecent now) history in
     if (length recent =? 0)%nat then throw "No watch history in the past 7 days"
     else
       let summaryPayload := buildWeeklySummary recent in
       reportContent <- Ai.generateWeeklyReportAi summaryPayload
                          (getProp settings "openRouterApiKey") ;;
       generated <- gets clock ;;
       let report := {| content := reportContent; generatedAt := toISOString generated |} in
       saveReport report ;;;
       ret report)%js.

(** The onMessage listener: what sendResponse receives. *)
Inductive Response (A : Type) :=
| success (data : A)
| failure (error : string).

Definition respond {A} (handler : M A) (w : World) : Response A * World :=
  match handler w with
  | (Ok result, w') => (success A result, w')
  | (Throw e, w') => (failure A e, w')
  end.

(** mostFrequentValue: the counts are kept in a Map, which is walked in
    the order its keys were first set. *)
Definition tally (values : list JsVal) : list (JsVal * nat) :=
  fold_left
    (fun counts value =>
       if negb (truthy value) then counts
       else entrySet value (S (default 0%nat (entryGet value counts))) counts)
    values [].

Definition mostFrequentValue (values : list JsVal) : JsVal :=
  if (length values =? 0)%nat then JNull
  else
    fst (fold_left
           (fun best entry => if (snd best <? snd entry)%nat then entry else best)
           (tally values) (JNull, 0%nat)).

Definition MESSAGE_TYPES : list string :=
  ["VIDEO_WATCHED"; "GET_SETTINGS"; "GENERATE_WEEKLY_REPORT"; "GET_REPORT_CACHE";
   "TEST_API_KEY"; "CATEGORIZE_PENDING"; "CLEAR_DATA"].

(** A message of the runtime, as far as handleMessage reads it, and the
    value a handler resolves to. *)
Record Message := {
  msg_type : JsVal;
  msg_payload : Json;
  msg_apiKey : JsVal
}.

Inductive Reply :=
| WatchedReply (result : WatchedResult)
| SettingsReply (settings : Obj)
| ReportReply (report : Report)
| CacheReply (cached : option Report)
| KeyReply (valid : bool)
| QueuedReply (queued : nat)
| ClearedReply.                            (* true *)

Definition handleMessage (message : Message) : M Reply :=
  let type := msg_type message in
  if strictEq type (JStr "VIDEO_WATCHED") then
    (result <- handleVideoWatched (msg_payload message) ;; ret (WatchedReply result))%js
  else if strictEq type (JStr "GET_SETTINGS") then
    (settings <- getSettings ;; ret (SettingsReply settings))%js
  else if strictEq type (JStr "GENERATE_WEEKLY_REPORT") then
    (report <- handleWeeklyReport ;; ret (ReportReply report))%js
  else if strictEq type (JStr "GET_REPORT_CACHE") then
    (cached <- getCachedReport ;; ret (CacheReply cached))%js
  else if strictEq type (JStr "TEST_API_KEY") then
    (valid <- Ai.testOpenRouterKey (msg_apiKey message) ;; ret (KeyReply valid))%js
  else if strictEq type (JStr "CATEGORIZE_PENDING") then
    (queued <- enqueuePendingVideos ;; ret (QueuedReply queued))%js
  else if strictEq type (JStr "CLEAR_DATA") then
    (clearAll ;;; replaceHistory [] ;;; ret ClearedReply)%js
  else throw "Unknown message type".

End WithPlatform.

End ServiceWorker.

(* ===================================================================== *)
(** ** dashboard/dashboard.js (settings) and popup/popup.js (toggle) *)
(* ===================================================================== *)

Module Dashboard.
Import Storage.

Definition FORM_DEFAULTS : Obj :=
  {[ "minWatchPercent" := JNum (Fin 40);
     "minWatchTimeSeconds" := JNum (Fin 300);
     "trackAutoplay" := JBool true;
     "countHiddenTime" := JBool true;
     "dataRetention" := JStr "all";
     "aiFeaturesEnabled" := JBool true;
     "openRouterApiKey" := JStr "";
     "trackingEnabled" := JBool true ]}.

Definition RETENTION_OPTIONS : list string := ["all"; "3m"; "6m"; "1y"].

(** RETENTION_OPTIONS.has(v) *)
Definition isRetentionOption (v : JsVal) : bool :=
  match v with
  | JStr s => existsb (String.eqb s) RETENTION_OPTIONS
  | _ => false
  end.

Definition clampNumber (value : JsVal) (min max : Q) (fallback : JsVal) : JsVal :=
  match value with
  | JNum (Fin q) => if Qle_bool min q && Qle_bool q max then value else fallback
  | _ => fallback
  end.

Definition ensureSeconds (value : JsVal) (fallback : JsVal) : JsVal :=
  match value with
  | JNum (Fin q) => if Qle_bool 60 q then value else fallback
  | _ => fallback
  end.

Definition parseBoolean (value : JsVal) (fallback : JsVal) : JsVal :=
  match value with
  | JBool _ => value
  | JStr s =>
      if String.eqb s "true" then JBool true
      else if String.eqb s "false" then JBool false
      else fallback
  | _ => fallback
  end.

(** The dashboard's [state], as far as settings go. *)
Record State := {
  settings : Obj
}.

(** What FormData.get returns for the fields of the settings form: a
    string, or null for a field that is not in the form. *)
Record Form := {
  settingWatchPercent : JsVal;
  settingWatchMinutes : JsVal;
  settingTrackAutoplay : JsVal;
  settingHiddenTime : JsVal;
  settingRetention : JsVal;
  settingAiEnabled : JsVal;
  settingApiKey : JsVal
}.

Section WithPlatform.
Context {P : Platform}.

(** [typeof v === 'string' ? v.trim() : fallback] and the untrimmed form
    used for the base. *)
Definition stringOr (v fallback : JsVal) : JsVal :=
  if isString v then v else fallback.

Definition trimmedOr (v fallback : JsVal) : JsVal :=
  match v with
  | JStr s => JStr (trim s)
  | _ => fallback
  end.

Definition retentionOr (v fallback : JsVal) : JsVal :=
  if isRetentionOption v then v else fallback.

(** The local [fallback] object of sanitizeSettings. *)
Definition fallbackOf (base : Obj) : Obj :=
  {[ "minWatchPercent" :=
       clampNumber (getProp base "minWatchPercent") 10 80
         (getProp FORM_DEFAULTS "minWatchPercent");
     "minWatchTimeSeconds" :=
       ensureSeconds (getProp base "minWatchTimeSeconds")
         (getProp FORM_DEFAULTS "minWatchTimeSeconds");
     "trackAutoplay" :=
       parseBoolean (getProp base "trackAutoplay") (getProp FORM_DEFAULTS "trackAutoplay");
     "countHiddenTime" :=
       parseBoolean (getProp base "countHiddenTime") (getProp FORM_DEFAULTS "countHiddenTime");
     "dataRetention" :=
       retentionOr (getProp base "dataRetention") (getProp FORM_DEFAULTS "dataRetention");
     "aiFeaturesEnabled" :=
       parseBoolean (getProp base "aiFeaturesEnabled")
         (getProp FORM_DEFAULTS "aiFeaturesEnabled");
     "openRouterApiKey" :=
       stringOr (getProp base "openRouterApiKey") (getProp FORM_DEFAULTS "openRouterApiKey");
     "trackingEnabled" :=
       parseBoolean (getProp base "trackingEnabled") (getProp FORM_DEFAULTS "trackingEnabled") ]}.

Definition sanitizeSettings (input base : Obj) : Obj :=
  let fallback := fallbackOf base in
  <["minWatchPercent" :=
      clampNumber (JNum (ToNumber (getProp input "minWatchPercent"))) 10 80
        (getProp fallback "minWatchPercent")]>
  (<["minWatchTimeSeconds" :=
      ensureSeconds (JNum (ToNumber (getProp input "minWatchTimeSeconds")))
        (getProp fallback "minWatchTimeSeconds")]>
  (<["trackAutoplay" :=
      parseBoolean (getProp input "trackAutoplay") (getProp fallback "trackAutoplay")]>
  (<["countHiddenTime" :=
      parseBoolean (getProp input "countHiddenTime") (getProp fallback "countHiddenTime")]>
  (<["dataRetention" :=
      retentionOr (getProp input "dataRetention") (getProp fallback "dataRetention")]>
  (<["aiFeaturesEnabled" :=
      parseBoolean (getProp input "aiFeaturesEnabled") (getProp fallback "aiFeaturesEnabled")]>
  (<["openRouterApiKey" :=
      trimmedOr (getProp input "openRouterApiKey") (getProp fallback "openRouterApiKey")]>
  (<["trackingEnabled" :=
      parseBoolean (getProp input "trackingEnabled") (getProp fallback "trackingEnabled")]>
   base))))))).

(** populateSettingsForm, as far as it touches the state. *)
Definition populateSettingsForm (st : State) : State :=
  {| settings := sanitizeSettings (settings st) FORM_DEFAULTS |}.

(** areSettingsEqual compares JSON.stringify texts; it only decides
    whether loadInitialData writes the sanitized copy back. *)
Variable areSettingsEqual : Obj -> Obj -> bool.

(** loadInitialData, settings part. *)
Definition loadInitialData (st : State) : M State :=
  (storedSettings <- getSettings ;;
   let sanitizedSettings := sanitizeSettings storedSettings FORM_DEFAULTS in
   (if negb (areSettingsEqual sanitizedSettings storedSettings)
    then saveSettings sanitizedSettings else ret tt) ;;;
   ret (populateSettingsForm {| settings := sanitizedSettings |}))%js.

Definition refreshSettingsFromStorage (st : State) : M State :=
  (storedSettings <- getSettings ;;
   ret (populateSettingsForm
          {| settings := sanitizeSettings storedSettings FORM_DEFAULTS |}))%js.

(** [rawSettings] of handleSettingsSubmit. *)
Definition rawSettings (form : Form) (st : State) : Obj :=
  let minutes := ToNumber (settingWatchMinutes form) in
  {[ "minWatchPercent" := JNum (ToNumber (settingWatchPercent form));
     "minWatchTimeSeconds" :=
       JNum (if jfinite minutes then jmul minutes (Fin 60) else NaN);
     "trackAutoplay" := settingTrackAutoplay form;
     "countHiddenTime" := settingHiddenTime form;
     "dataRetention" := settingRetention form;
     "aiFeaturesEnabled" := settingAiEnabled form;
     "openRouterApiKey" := settingApiKey form;
     "trackingEnabled" := getProp (settings st) "trackingEnabled" ]}.

(** The save that handleSettingsSubmit performs for a given
    [rawSettings] object. *)
Definition submitSettings (raw : Obj) (st : State) : M State :=
  let sanitized := sanitizeSettings raw (settings st) in
  (saveSettings sanitized ;;;
   ret (populateSettingsForm {| settings := sanitized |}))%js.

Definition handleSettingsSubmit (form : Form) (st : State) : M State :=
  submitSettings (rawSettings form st) st.

(** handleClearData, as far as storage goes; [confirmed] is the answer to
    the confirm dialog. *)
Definition handleClearData (confirmed : bool) : M unit :=
  if negb confirmed then ret tt else replaceHistory [].

End WithPlatform.

End Dashboard.

Module Popup.
Import Storage.

Record State := {
  trackingEnabled : bool;
  aiActive : bool
}.

Section WithPlatform.
Context {P : Platform}.

Definition loadSettings (st : State) : M State :=
  (settings <- getSettings ;;
   ret {| trackingEnabled := truthy (getProp settings "trackingEnabled");
          aiActive := truthy (getProp settings "aiFeaturesEnabled")
                      && truthy (getProp settings "openRouterApiKey") |})%js.

(** The click handler of the tracking toggle. *)
Definition trackingToggle (st : State) : M State :=
  let flipped := {| trackingEnabled := negb (trackingEnabled st); aiActive := aiActive st |} in
  (saveSettings {[ "trackingEnabled" := JBool (trackingEnabled flipped) ]} ;;;
   ret flipped)%js.

End WithPlatform.

End Popup.

(* ===================================================================== *)
(** ** Vocabulary of the properties *)
(* ===================================================================== *)

(** The VIDEO_WATCHED payload as the object the service worker receives. *)
Definition payloadObject (p : Tracker.Payload) : Obj :=
  {[ "videoId" := match Tracker.videoId p with
                  | Some id => JStr id
                  | None => JNull
                  end;
     "title" := JStr (Tracker.title p);
     "channelName" := JStr (Tracker.channelName p);
     "channelId" := JStr (Tracker.channelId p);
     "thumbnail" := JStr (Tracker.thumbnail p);
     "watchedAt" := JStr (Tracker.watchedAt p);
     "watchedDuration" := JNum (Tracker.watchedDuration p);
     "totalDuration" := JNum (Tracker.totalDuration p);
     "watchPercent" := JNum (Tracker.watchPercent p);
     "autoplay" := JBool (Tracker.autoplay p);
     "rewatchCount" := JNum (Fin 1);
     "aiCategory" := JNull;
     "aiCategoryConfidence" := JNull ]}.

(** [payload?.k] for a message payload. *)
Definition payloadProp (payload : Json) (k : string) : JsVal :=
  match payload with
  | JObject o => getProp o k
  | _ => JUndefined
  end.

(** The records of the store that carry a given id. *)
Definition recordsOf (videoId : JsVal) (videos : list Obj) : list Obj :=
  List.filter (Storage.sameVideoId videoId) videos.

(** The invariant of the data model: one record per id, and a rewatch
    count that is a number at least 1. *)
Definition countOk (video : Obj) : Prop :=
  exists c : Q, getProp video "rewatchCount" = JNum (Fin c) /\ (1 <= c)%Q.

Definition storeOk (videos : list Obj) : Prop :=
  (forall (i j : nat) (a b : Obj),
      videos !! i = Some a -> videos !! j = Some b ->
      strictEq (getProp a "videoId") (getProp b "videoId") = true -> i = j)
  /\ (forall video : Obj, In video videos -> countOk video).

(** The first record of a list whose id is [k], as a Map compares its
    keys. *)
Definition recordWithId (k : JsVal) (videos : list Obj) : option Obj :=
  List.find (fun video => sameValueZero (getProp video "videoId") k) videos.

(** The eight settings, and the tests the sanitizer applies to a submitted
    value and to the value it falls back on. *)
Definition settingsFields : list string :=
  ["minWatchPercent"; "minWatchTimeSeconds"; "trackAutoplay"; "countHiddenTime";
   "dataRetention"; "aiFeaturesEnabled"; "openRouterApiKey"; "trackingEnabled"].

Definition inRange (lo hi : Q) (n : JsNum) : bool :=
  match n with
  | Fin q => Qle_bool lo q && Qle_bool q hi
  | _ => false
  end.

Definition atLeast (lo : Q) (n : JsNum) : bool :=
  match n with
  | Fin q => Qle_bool lo q
  | _ => false
  end.

Definition booleanLike (v : JsVal) : bool :=
  match v with
  | JBool _ => true
  | JStr s => String.eqb s "true" || String.eqb s "false"
  | _ => false
  end.

(** A submitted value the sanitizer takes over (after Number() for the two
    numeric fields). *)
Definition accepted {P : Platform} (field : string) (v : JsVal) : bool :=
  if String.eqb field "minWatchPercent" then inRange 10 80 (ToNumber v)
  else if String.eqb field "minWatchTimeSeconds" then atLeast 60 (ToNumber v)
  else if String.eqb field "dataRetention" then Dashboard.isRetentionOption v
  else if String.eqb field "openRouterApiKey" then isString v
  else booleanLike v.

(** A previous value that is valid as it stands: a number in range, a
    boolean, one of the retention options, a string. *)
Definition validPrevious (field : string) (v : JsVal) : bool :=
  if String.eqb field "minWatchPercent" then
    match v with JNum n => inRange 10 80 n | _ => false end
  else if String.eqb field "minWatchTimeSeconds" then
    match v with JNum n => atLeast 60 n | _ => false end
  else if String.eqb field "dataRetention" then Dashboard.isRetentionOption v
  else if String.eqb field "openRouterApiKey" then isString v
  else match v with JBool _ => true | _ => false end.



Definition primaryRequest (prompt : string) : Request :=
  {| req_model := Ai.AI_MODEL_PRIMARY; req_prompt := prompt |}.

Definition fallbackRequest (prompt : string) : Request :=
  {| req_model := Ai.AI_MODEL_FALLBACK; req_prompt := prompt |}.

(** Both calls of one categorization fail: the request to the primary model
    and the following request to the fallback model end in an error. *)
Definition bothCallsFail (w : World) (prompt : string) : Prop :=
  (exists e, network w (length (requests w)) (primaryRequest prompt) = NetError e)
  /\ (exists e, network w (S (length (requests w))) (fallbackRequest prompt) = NetError e).

(** The models requested so far. *)
Definition modelsRequested (w : World) : list string := map req_model (requests w).

(** A categorizer that leaves the queue of the worker alone. *)
Definition queueStable (categorize : JsVal -> JsVal -> JsVal -> M Classification) : Prop :=
  forall (t c k : JsVal) (w : World), aiQueue (snd (categorize t c k w)) = aiQueue w.

(* ===================================================================== *)
(** ** A test engine and test worlds for the examples *)
(* ===================================================================== *)

Definition lowerAscii (c : ascii) : ascii :=
  let n := nat_of_ascii c in
  if (65 <=? n)%nat && (n <=? 90)%nat then ascii_of_nat (n + 32) else c.

Fixpoint lowerString (s : string) : string :=
  match s with
  | EmptyString => EmptyString
  | String c rest => String (lowerAscii c) (lowerString rest)
  end.

Definition isBlank (c : ascii) : bool :=
  let n := nat_of_ascii c in
  (n =? 32)%nat || ((9 <=? n)%nat && (n <=? 13)%nat).

Fixpoint trimStart (s : string) : string :=
  match s with
  | EmptyString => EmptyString
  | String c rest => if isBlank c then trimStart rest else s
  end.

Fixpoint trimEnd (s : string) : string :=
  match s with
  | EmptyString => EmptyString
  | String c rest =>
      match trimEnd rest with
      | EmptyString => if isBlank c then EmptyString else String c EmptyString
      | kept => String c kept
      end
  end.

Fixpoint digitsValue (s : string) (acc : Z) : option Z :=
  match s with
  | EmptyString => Some acc
  | String c rest =>
      let n := nat_of_ascii c in
      if (48 <=? n)%nat && (n <=? 57)%nat
      then digitsValue rest (10 * acc + Z.of_nat (n - 48))%Z
      else None
  end.

Fixpoint decimalDigits (fuel : nat) (n : N) (acc : string) : string :=
  match fuel with
  | O => acc
  | S fuel' =>
      let acc' := String (ascii_of_N (48 + n mod 10)) acc in
      if (n / 10 =? 0)%N then acc' else decimalDigits fuel' (n / 10)%N acc'
  end.

Definition wholeToString (z : Z) : string :=
  (if (z <? 0)%Z then "-" else "")
  +:+ decimalDigits (S (N.size_nat (Z.abs_N z))) (Z.abs_N z) "".

(** The one well-formed reply of the examples:
    an object with category Music and confidence high. *)
Definition musicReply : string :=
  "{" +:+ dq +:+ "category" +:+ dq +:+ ":" +:+ dq +:+ "Music" +:+ dq +:+ ","
  +:+ dq +:+ "confidence" +:+ dq +:+ ":" +:+ dq +:+ "high" +:+ dq +:+ "}".

(** A reply that leaves the confidence out. *)
Definition partialReply : string :=
  "{" +:+ dq +:+ "category" +:+ dq +:+ ":" +:+ dq +:+ "Music" +:+ dq +:+ "}".

(** A stand-in for the JavaScript engine.  It is exact on what the examples
    feed it: strings of decimal digits and words that are no numerals for
    Number(), whole numbers for String(), the two reply texts above and
    texts that are not JSON for JSON.parse, millisecond numbers and the one
    listed ISO date for Date, ASCII text for toLowerCase and trim. *)
Definition testEngine : Platform := {|
  StringToNumber := fun s =>
    match s with
    | EmptyString => Fin 0
    | _ => match digitsValue s 0 with
           | Some z => Fin (inject_Z z)
           | None => NaN
           end
    end;
  NumberToString := fun n =>
    match n with
    | Fin q => wholeToString (Qfloor q)
    | NaN => "NaN"
    | PInf => "Infinity"
    | NInf => "-Infinity"
    end;
  JSON_parse := fun s =>
    if String.eqb s musicReply then
      Some (JObject {[ "category" := JStr "Music"; "confidence" := JStr "high" ]})
    else if String.eqb s partialReply then
      Some (JObject {[ "category" := JStr "Music" ]})
    else None;
  DateGetTime := fun v =>
    match v with
    | JNum (Fin q) => Some (Qfloor q)
    | JStr s => if String.eqb s "2024-01-01T00:00:00.000Z" then Some 1704067200000%Z else None
    | _ => None
    end;
  toISOString := fun ms => "1970-01-01T00:00:00.000Z";
  toLowerCase := lowerString;
  trim := fun s => trimEnd (trimStart s)
|}.

(** A network on which every request fails, and one on which the primary
    model answers with a given text while the fallback model would answer
    with the well-formed reply. *)
Definition offline : nat -> Request -> NetOutcome :=
  fun _ _ => NetError "Failed to fetch".


(** A stored record, and worlds around it. *)
Definition minecraft : Obj :=
  {[ "videoId" := JStr "mc1";
     "title" := JStr "Minecraft game night";
     "channelName" := JStr "Some Channel";
     "watchedAt" := JStr "2024-01-01T00:00:00.000Z";
     "rewatchCount" := JNum (Fin 1);
     "aiCategory" := JNull;
     "aiCategoryConfidence" := JNull ]}.

Definition minecraftJob : Job :=
  {| job_videoId := JStr "mc1";
     job_title := JStr "Minecraft game night";
     job_channelName := JStr "Some Channel" |}.

Definition withKey : Obj :=
  {[ "openRouterApiKey" := JStr "sk-or-test" ]}.

Definition testWorld (videos : list Obj) (settings : option Obj) (queue : list Job)
    (net : nat -> Request -> NetOutcome) : World :=
  {| stored_videos := videos;
     stored_settings := settings;
     stored_report := None;
     aiQueue := queue;
     queueProcessing := false;
     inFlight := None;
     requests := [];
     network := net;
     clock := 1704070800000 |}.

(** Two watch events for the same video, with different page data. *)
Definition firstWatch : Tracker.Payload :=
  {| Tracker.videoId := Some "abc123";
     Tracker.title := "Old title";
     Tracker.channelName := "A channel";
     Tracker.channelId := "UC123";
     Tracker.thumbnail := "https://i.ytimg.com/vi/abc123/hqdefault.jpg";
     Tracker.watchedAt := "2024-05-01T10:00:00.000Z";
     Tracker.watchedDuration := Fin 245;
     Tracker.totalDuration := Fin 600;
     Tracker.watchPercent := Fin 41;
     Tracker.autoplay := false |}.

Definition secondWatch : Tracker.Payload :=
  {| Tracker.videoId := Some "abc123";
     Tracker.title := "New title";
     Tracker.channelName := "A channel";
     Tracker.channelId := "UC123";
     Tracker.thumbnail := "https://i.ytimg.com/vi/abc123/maxres.jpg";
     Tracker.watchedAt := "2024-05-02T18:30:00.000Z";
     Tracker.watchedDuration := Fin 600;
     Tracker.totalDuration := Fin 600;
     Tracker.watchPercent := Fin 100;
     Tracker.autoplay := false |}.

(** A message payload without an id, a first-run world, and a world whose
    only record is eight days old while AI is enabled with a key. *)
Definition noIdPayload : Json :=
  JObject {[ "title" := JStr "No id"; "autoplay" := JBool false ]}.

Definition firstRun : World := testWorld [] None [] offline.

Definition eightDaysLater : World :=
  advance_clock (8 * 24 * 60 * 60 * 1000)
    (testWorld [minecraft] (Some withKey) [] offline).

(** The same store thirty days and one hour before the record's date. *)
Definition thirtyDaysEarlier : World :=
  advance_clock (- (30 * 24 * 60 * 60 * 1000) - 2 * 3600000)
    (testWorld [minecraft] (Some withKey) [] offline).

(** Field [k] of the record at position [i] of a list of records. *)
Definition fieldAt (videos : list Obj) (i : nat) (k : string) : JsVal :=
  match videos !! i with
  | Some record => getProp record k
  | None => JUndefined
  end.

(** A world with the record above, its job queued, AI enabled with a key,
    and no network. *)
Definition minecraftOffline : World :=
  testWorld [minecraft] (Some withKey) [minecraftJob] offline.


(** The dashboard with a valid stored percentage of 55, and a submission
    that asks for 200. *)
Definition previousSettings : Obj :=
  {[ "minWatchPercent" := JNum (Fin 55);
     "minWatchTimeSeconds" := JNum (Fin 300);
     "trackAutoplay" := JBool true;
     "countHiddenTime" := JBool false;
     "dataRetention" := JStr "all";
     "aiFeaturesEnabled" := JBool true;
     "openRouterApiKey" := JStr "";
     "trackingEnabled" := JBool true ]}.

Definition submitted200 : Obj := {[ "minWatchPercent" := JNum (Fin 200) ]}.

Definition dashboardAt55 : Dashboard.State := {| Dashboard.settings := previousSettings |}.

Definition storedAt55 : World := testWorld [] (Some previousSettings) [] offline.

(** A store with one record counted five times, and an import file with a
    record for the same id counted three times, two elements without an id,
    and a record with a new id. *)
Definition countedFive : Obj :=
  {[ "videoId" := JStr "a"; "title" := JStr "Old title"; "rewatchCount" := JNum (Fin 5) ]}.

Definition importedThreeRecord : Obj :=
  {[ "videoId" := JStr "a"; "title" := JStr "New title"; "rewatchCount" := JNum (Fin 3) ]}.

Definition noIdRecord : Obj := {[ "title" := JStr "No id" ]}.

Definition importedThree : Json := JObject importedThreeRecord.

Definition importedNew : Json :=
  JObject {[ "videoId" := JStr "b"; "title" := JStr "Another" ]}.

Definition importFile : list Json :=
  [ importedThree; JObject noIdRecord; JPrim JNull; importedNew ].

(** A record stored with a count of 0, under the id of the running
    example, and an event object that carries a count of its own. *)
Definition countedZero : Obj :=
  {[ "videoId" := JStr "abc123"; "title" := JStr "Imported"; "rewatchCount" := JNum (Fin 0) ]}.


(** The settings form as submitted with 200 percent and 5 minutes. *)
Definition form200 : Dashboard.Form :=
  {| Dashboard.settingWatchPercent := JStr "200";
     Dashboard.settingWatchMinutes := JStr "5";
     Dashboard.settingTrackAutoplay := JStr "true";
     Dashboard.settingHiddenTime := JStr "false";
     Dashboard.settingRetention := JStr "3m";
     Dashboard.settingAiEnabled := JStr "true";
     Dashboard.settingApiKey := JStr " sk-or-test " |}.

(* ===================================================================== *)
(** ** Vocabulary of the further properties *)
(* ===================================================================== *)

(** The store after a sequence of watch events has been saved into an
    empty store, and the number of those events that carry a given id. *)
Definition watchLog {P : Platform} (evs : list Tracker.Payload) : list Obj :=
  fold_left (fun videos ev => Storage.upsert (payloadObject ev) videos) evs [].

Definition watchCount (id : string) (evs : list Tracker.Payload) : nat :=
  length (List.filter (fun ev => bool_decide (Tracker.videoId ev = Some id)) evs).

(** The world after the requests [added] have been fetched. *)
Definition log_requests (added : list Request) (w : World) : World :=
  {| stored_videos := stored_videos w; stored_settings := stored_settings w;
     stored_report := stored_report w; aiQueue := aiQueue w;
     queueProcessing := queueProcessing w; inFlight := inFlight w;
     requests := requests w ++ added;
     network := network w; clock := clock w |}.

(** What a call with fallback may fetch: nothing, the primary model, or
    the primary model and, after its failure, the fallback model. *)
Definition fallbackOrder (w : World) (prompt : string) (added : list Request) : Prop :=
  added = []
  \/ added = [primaryRequest prompt]
  \/ (added = [primaryRequest prompt; fallbackRequest prompt]
      /\ exists e, network w (length (requests w)) (primaryRequest prompt) = NetError e).

(** A categorizer that never throws and does nothing but fetch at most two
    requests. *)
Definition asksAtMostTwice (categorize : JsVal -> JsVal -> JsVal -> M Classification) : Prop :=
  forall (t c k : JsVal) (w : World),
    exists (result : Classification) (added : list Request),
      categorize t c k w = (Ok result, log_requests added w)
      /\ (length added <= 2)%nat.

(** A record that differs from another at most in its category fields, and
    stores that differ at most by such records. *)
Definition sameButCategory (r r' : Obj) : Prop :=
  forall k : string, k <> "aiCategory" -> k <> "aiCategoryConfidence" -> r' !! k = r !! k.

Definition onlyAnnotated (videos videos' : list Obj) : Prop :=
  Forall2 sameButCategory videos videos'.

(** What [n] turns of the worker may have done to the world. *)
Definition workedThrough (n : nat) (w w' : World) : Prop :=
  onlyAnnotated (stored_videos w) (stored_videos w')
  /\ stored_settings w' = stored_settings w
  /\ stored_report w' = stored_report w
  /\ network w' = network w
  /\ clock w' = (clock w + ServiceWorker.AI_RATE_LIMIT_MS * Z.of_nat n)%Z
  /\ exists added, requests w' = requests w ++ added /\ (length added <= 2 * n)%nat.

(** A queue with at most one job per video id, and the job
    queueCategorizationJob builds for a record. *)
Definition queueDistinct (queue : list Job) : Prop :=
  forall (i j : nat) (a b : Job),
    queue !! i = Some a -> queue !! j = Some b ->
    strictEq (job_videoId a) (job_videoId b) = true -> i = j.

Definition jobOf (video : Obj) : Job :=
  {| job_videoId := getProp video "videoId";
     job_title := getProp video "title";
     job_channelName := getProp video "channelName" |}.

(** The jobs that wait for the worker: the one a suspended run holds, and
    the queue. *)
Definition waiting (w : World) : list Job := option_list (inFlight w) ++ aiQueue w.

(** Records whose ids are pairwise different. *)
Definition distinctIds (videos : list Obj) : Prop :=
  forall (i j : nat) (a b : Obj),
    videos !! i = Some a -> videos !! j = Some b ->
    strictEq (getProp a "videoId") (getProp b "videoId") = true -> i = j.

(** A record whose watchedAt reads as a time not before [cutoff]
    (milliseconds since the epoch); the retention options that drop
    records, with their days; the milliseconds of a day. *)
Definition watchedSince {P : Platform} (cutoff : Z) (video : Obj) : bool :=
  match DateGetTime (getProp video "watchedAt") with
  | Some t => (cutoff <=? t)%Z
  | None => false
  end.

Definition retentionWindows : list (string * Z) := [("3m", 90); ("6m", 182); ("1y", 365)]%Z.

Definition dayMs : Z := 24 * 60 * 60 * 1000.

Section TrackerVocabulary.
Import Tracker.

(** What a callback of a session leaves alone, and what it may append. *)
Definition sessionFrame (st st' : State) : Prop :=
  settings st' = settings st /\ player st' = player st /\ watchTimer st' = watchTimer st
  /\ interactionCaptured st' = interactionCaptured st
  /\ autoplayDetected st' = autoplayDetected st
  /\ exists added, sent st' = sent st ++ added
       /\ Forall (fun p => autoplay p = autoplayDetected st) added.

(** The messages sent so far, plus one while the session may still send. *)
Definition budget (st : State) : nat :=
  (length (sent st) + if hasRecorded st then 0 else 1)%nat.

End TrackerVocabulary.

(** The number a record's rewatchCount sorts by. *)
Definition rewatchKey {P : Platform} (video : Obj) : JsNum :=
  ToNumber (vor (getProp video "rewatchCount") (JNum (Fin 0))).

(** The count a breakdown holds for a category (0 when it has no bucket),
    and all its counts together. *)
Definition bucketCount (category : JsVal) (breakdown : list (JsVal * Helpers.Bucket)) : nat :=
  match entryGet category breakdown with
  | Some bucket => Helpers.count bucket
  | None => 0
  end.

Definition bucketTotal (breakdown : list (JsVal * Helpers.Bucket)) : nat :=
  list_sum (map (fun entry => Helpers.count (snd entry)) breakdown).

(** How often a value occurs in a list, as a Map compares keys, and the
    position of its first occurrence. *)
Definition occurrences (v : JsVal) (values : list JsVal) : nat :=
  length (List.filter (fun x => sameValueZero x v) values).

Definition firstAt (values : list JsVal) (v : JsVal) : option nat :=
  findIndex (fun x => sameValueZero x v) values.

(** The two callbacks of mostFrequentValue, by name. *)
Definition tallyStep (counts : list (JsVal * nat)) (value : JsVal) : list (JsVal * nat) :=
  if negb (truthy value) then counts
  else entrySet value (S (default 0%nat (entryGet value counts))) counts.

Definition pick (best entry : JsVal * nat) : JsVal * nat :=
  if (snd best <? snd entry)%nat then entry else best.

(** What the Map of counts holds once the values [pre] have been seen:
    every key is a truthy value of [pre], stored as it first occurred and
    with the number of its occurrences; the keys follow the order of their
    first occurrences; every truthy value has its key; no two keys are the
    same. *)
Definition tallied (pre : list JsVal) (T : list (JsVal * nat)) : Prop :=
  (forall e k c, T !! e = Some (k, c) ->
     truthy k = true /\ (1 <= c)%nat /\ c = occurrences k pre
     /\ exists p, firstAt pre k = Some p /\ pre !! p = Some k)
  /\ (forall e1 e2 k1 c1 k2 c2 p1 p2,
        T !! e1 = Some (k1, c1) -> T !! e2 = Some (k2, c2) -> (e1 < e2)%nat ->
        firstAt pre k1 = Some p1 -> firstAt pre k2 = Some p2 -> (p1 < p2)%nat)
  /\ (forall v, In v pre -> truthy v = true ->
        exists e k c, T !! e = Some (k, c) /\ sameValueZero k v = true)
  /\ (forall e1 e2 k1 c1 k2 c2,
        T !! e1 = Some (k1, c1) -> T !! e2 = Some (k2, c2) ->
        sameValueZero k1 k2 = true -> e1 = e2).

(** A list in descending order of a key, and a comparator that orders the
    elements of a list by that key, largest first. *)
Definition notBelow {A : Type} (key : A -> Q) (a b : A) : Prop := (key b <= key a)%Q.

Definition ordersBy {A : Type} (cmp : A -> A -> JsNum) (key : A -> Q) (l : list A) : Prop :=
  forall a b, In a l -> In b l -> jpositive (cmp a b) = negb (Qle_bool (key b) (key a)).

(** The number an entry of the ranking sorts by. *)
Definition rankKey {P : Platform} (entry : Helpers.Ranked) : Q :=
  match ToNumber (Helpers.watchTime entry) with
  | Fin q => q
  | _ => 0
  end.

(** The keys of a Map are pairwise different. *)
Definition distinctKeys {V : Type} (m : list (JsVal * V)) : Prop :=
  forall e1 e2 k1 v1 k2 v2,
    m !! e1 = Some (k1, v1) -> m !! e2 = Some (k2, v2) ->
    sameValueZero k1 k2 = true -> e1 = e2.

(** The body of items.forEach in groupBy, the group a Map holds for a key,
    and what the Map holds once [items] have been seen. *)
Definition groupStep {A : Type} (selector : A -> JsVal) (map : list (JsVal * list A))
    (item : A) : list (JsVal * list A) :=
  match entryGet (selector item) map with
  | None => entrySet (selector item) [item] map
  | Some group => entrySet (selector item) (group ++ [item]) map
  end.

Definition groupOf {A : Type} (k : JsVal) (map : list (JsVal * list A)) : list A :=
  default [] (entryGet k map).

Definition grouped {A : Type} (selector : A -> JsVal) (items : list A)
    (m : list (JsVal * list A)) : Prop :=
  (forall k, groupOf k m = List.filter (fun x => sameValueZero (selector x) k) items)
  /\ distinctKeys m
  /\ (forall e k g, m !! e = Some (k, g) -> exists x, In x items /\ selector x = k).

(** The entry calculateTopChannels builds for the channel [k]. *)
Definition channelEntry {P : Platform} (history : list Obj) (k : JsVal) : Helpers.Ranked :=
  {| Helpers.channel := k;
     Helpers.watchTime :=
       Helpers.sum
         (List.filter (fun video => sameValueZero (Helpers.channelOf video) k) history)
         Helpers.watchedOf |}.

(** The keys of a Map are pairwise different and each is the id of its
    record. *)
Definition keysMatch (m : JsMap) : Prop :=
  distinctKeys m
  /\ forall (e : nat) (k : JsVal) (r : Obj),
       m !! e = Some (k, r) -> sameValueZero (getProp r "videoId") k = true.

(** The entries [new Map(current.map(video => [video.videoId, video]))]
    starts from, and a store with one record per id, every id truthy. *)
Definition idPairs (videos : list Obj) : list (JsVal * Obj) :=
  map (fun video => (getProp video "videoId", video)) videos.

Definition keyed (videos : list Obj) : Prop :=
  (forall i j a b, videos !! i = Some a -> videos !! j = Some b ->
     sameValueZero (getProp a "videoId") (getProp b "videoId") = true -> i = j)
  /\ (forall video, In video videos -> truthy (getProp video "videoId") = true).

(* ===================================================================== *)
(** ** Test data of the further properties *)
(* ===================================================================== *)

(** A page on which the user has already clicked, a visit to a second
    video that starts playing at once, and the message of the running
    example at 245 s. *)
Definition clickedPage : Tracker.Page :=
  {| Tracker.tracker := Tracker.session 0;
     Tracker.pendingFrames := 0;
     Tracker.strayTimers := 0 |}.

Definition secondVisit : list Tracker.PageEvent :=
  [ Tracker.UrlChange (Some "xyz789") 5000 true (Fin 600);
    Tracker.InSession (Tracker.Playing 5100);
    Tracker.InSession (Tracker.Tick (Tracker.at600 245)) ].

Definition sentAt245 : Tracker.Payload :=
  Tracker.buildVideoPayload (Tracker.percentWatched (Tracker.at600 245))
    (Tracker.flooredDuration (Tracker.at600 245)) (Tracker.at600 245) (Tracker.session 245).

(** Three records of two channels, and the days of the week of five
    records. *)
Definition threeWatches : list Obj :=
  [ {[ "videoId" := JStr "a1"; "channelName" := JStr "Alpha"; "watchedDuration" := JNum (Fin 100);
       "aiCategory" := JStr "Music" ]};
    {[ "videoId" := JStr "b1"; "channelName" := JStr "Beta"; "watchedDuration" := JNum (Fin 300) ]};
    {[ "videoId" := JStr "a2"; "channelName" := JStr "Alpha"; "watchedDuration" := JNum (Fin 50);
       "aiCategory" := JStr "Music" ]} ].

Definition fiveDays : list JsVal :=
  [JStr "Tuesday"; JStr "Monday"; JStr ""; JStr "Monday"; JStr "Tuesday"].

(** A first run with a key configured: AI features are on by default. *)
Definition keyedRun : World := testWorld [] (Some withKey) [] offline.

(** Four stored records, the second of them categorized. *)
Definition threePending : list Obj :=
  [ {[ "videoId" := JStr "a1"; "title" := JStr "First" ]};
    {[ "videoId" := JStr "b1"; "title" := JStr "Second"; "aiCategory" := JStr "Music" ]};
    {[ "videoId" := JStr "c1"; "title" := JStr "Third"; "aiCategory" := JStr "Uncategorized" ]};
    {[ "videoId" := JStr "d1"; "title" := JStr "Fourth" ]} ].

(** The record of the examples under a retention of three months. *)
Definition keepThreeMonths : Obj := {[ "dataRetention" := JStr "3m" ]}.

(* ===================================================================== *)
(** ** Properties *)
(* ===================================================================== *)

Section DoubleFacts.

Lemma pow2_pos (e : Z) : (0 < 2 ^ e)%Q.
Proof. apply Qpower_0_lt. reflexivity. Qed.

Lemma pow2_Z (n : Z) : (0 <= n)%Z -> (2 ^ n == inject_Z (2 ^ n))%Q.
Proof. intros Hn. now rewrite (Zpower_Qpower 2 n Hn). Qed.

Lemma pow2_neg (j : Z) : (0 <= j)%Z -> (2 ^ (- j) == / inject_Z (2 ^ j))%Q.
Proof. intros Hj. rewrite Qpower_opp. now rewrite pow2_Z. Qed.

(** [binade] is the exponent of the power of two at or below a positive
    rational. *)
Lemma binade_spec (q : Q) :
  (0 < q)%Q -> (2 ^ binade q <= q)%Q /\ (q < 2 ^ (binade q + 1))%Q.
Proof.
  intros Hq. destruct q as [n d].
  assert (Hn : (0 < n)%Z).
  { unfold Qlt in Hq. cbn in Hq. lia. }
  unfold binade. cbn [Qnum Qden].
  set (a := Z.log2 n). set (b := Z.log2 (Z.pos d)).
  assert (Ha0 : (0 <= a)%Z) by apply Z.log2_nonneg.
  assert (Hb0 : (0 <= b)%Z) by apply Z.log2_nonneg.
  destruct (Z.log2_spec n Hn) as [Ha1 Ha2]. fold a in Ha1, Ha2.
  destruct (Z.log2_spec (Z.pos d) eq_refl) as [Hb1 Hb2]. fold b in Hb1, Hb2.
  assert (Hpa : (0 < 2 ^ a)%Z) by (apply Z.pow_pos_nonneg; lia).
  assert (Hpb : (0 < 2 ^ b)%Z) by (apply Z.pow_pos_nonneg; lia).
  assert (Hsa : (2 ^ Z.succ a = 2 * 2 ^ a)%Z) by (apply Z.pow_succ_r; lia).
  assert (Hsb : (2 ^ Z.succ b = 2 * 2 ^ b)%Z) by (apply Z.pow_succ_r; lia).
  assert (Hsplit : forall k : Z, (2 ^ (a - b + k) == inject_Z (2 ^ a) / inject_Z (2 ^ b) * 2 ^ k)%Q).
  { intros k. rewrite Qpower_plus by discriminate.
    rewrite Qpower_minus by discriminate. now rewrite !pow2_Z by assumption. }
  assert (Hlow : (inject_Z (2 ^ a) / inject_Z (2 ^ b) * 2 ^ (-1) <= n # d)%Q).
  { change (2 ^ (-1))%Q with (1 # 2)%Q.
    unfold Qdiv, Qinv, Qmult, Qle, inject_Z.
    destruct (2 ^ b)%Z as [|pb|pb] eqn:Epb; try lia. cbn.
    nia. }
  assert (Hhigh : (n # d < inject_Z (2 ^ a) / inject_Z (2 ^ b) * 2 ^ 1)%Q).
  { change (2 ^ 1)%Q with 2%Q.
    unfold Qdiv, Qinv, Qmult, Qlt, inject_Z.
    destruct (2 ^ b)%Z as [|pb|pb] eqn:Epb; try lia. cbn.
    nia. }
  destruct (Qle_bool (2 ^ (a - b)) (n # d)) eqn:Htest.
  - apply Qle_bool_iff in Htest. split; [exact Htest|].
    now rewrite Hsplit.
  - split.
    + replace (a - b - 1)%Z with (a - b + -1)%Z by lia. now rewrite Hsplit.
    + replace (a - b - 1 + 1)%Z with (a - b)%Z by lia.
      destruct (Qlt_le_dec (n # d) (2 ^ (a - b))) as [H|H]; [exact H|].
      apply Qle_bool_iff in H. congruence.
Qed.

Lemma binade_below (q : Q) (n : Z) : (0 < q)%Q -> (q < 2 ^ n)%Q -> (binade q < n)%Z.
Proof.
  intros Hq Hn. destruct (binade_spec q Hq) as [Hlow _].
  apply (Qpower_lt_compat_l_inv 2); [|reflexivity].
  eapply Qle_lt_trans; eassumption.
Qed.

Lemma roundHalfEven_floor (q : Q) : (Qfloor q <= roundHalfEven q)%Z.
Proof.
  unfold roundHalfEven.
  destruct (q - inject_Z (Qfloor q) ?= 1 # 2)%Q; [destruct (Z.even _)| |]; lia.
Qed.

Lemma roundHalfEven_near (q : Q) : (inject_Z (roundHalfEven q) <= q + (1 # 2))%Q.
Proof.
  unfold roundHalfEven.
  pose proof (Qfloor_le q) as Hfl.
  destruct (q - inject_Z (Qfloor q) ?= 1 # 2)%Q eqn:Hcmp.
  - apply Qeq_alt in Hcmp.
    destruct (Z.even _); [lra|]. rewrite inject_Z_plus. change (inject_Z 1) with 1%Q. lra.
  - lra.
  - apply Qgt_alt in Hcmp. rewrite inject_Z_plus. change (inject_Z 1) with 1%Q. lra.
Qed.

Lemma roundHalfEven_nonneg (q : Q) : (0 <= q)%Q -> (0 <= roundHalfEven q)%Z.
Proof.
  intros Hq. pose proof (roundHalfEven_floor q).
  assert (0 <= Qfloor q)%Z; [|lia].
  change 0%Z with (Qfloor 0). now apply Qfloor_resp_le.
Qed.

Lemma Qabs_nonneg_eq (q : Q) : (0 <= q)%Q -> Qabs q = q.
Proof.
  destruct q as [n d]. unfold Qle. cbn. intros H.
  f_equal. apply Z.abs_eq. lia.
Qed.

(** Rounding keeps the sign: the double nearest to a number that is not
    negative is not negative. *)
Lemma toDouble_nonneg (q : Q) :
  (0 <= q)%Q -> toDouble q = PInf \/ exists r : Q, toDouble q = Fin r /\ (0 <= r)%Q.
Proof.
  intros Hq. unfold toDouble.
  destruct (Qzero q) eqn:Hz; [right; exists 0%Q; split; [reflexivity|apply Qle_refl]|].
  assert (Hpos : (0 < q)%Q).
  { destruct (Qlt_le_dec 0 q) as [H|H]; [exact H|].
    assert (q == 0)%Q by lra. apply Qeq_bool_iff in H0. unfold Qzero in Hz. congruence. }
  cbv zeta.
  destruct (Qle_bool _ _).
  - left. destruct q as [n d]. unfold Qlt in Hpos. cbn in Hpos.
    unfold Qsign. cbn. destruct n; try lia. reflexivity.
  - right. eexists. split; [reflexivity|].
    apply Qmult_le_0_compat; [|apply Qlt_le_weak, pow2_pos].
    change 0%Q with (inject_Z 0). rewrite <- Zle_Qle.
    apply roundHalfEven_nonneg.
    apply Qle_shift_div_l; [apply pow2_pos|]. lra.
Qed.

(** A quotient that stays clear of the next whole number by more than half
    the spacing of the doubles around it rounds to a double with the same
    whole part. *)
Lemma toDouble_floor (x gap : Q) (k n : Z) :
  (0 <= k)%Z -> (0 <= n <= 52)%Z ->
  (inject_Z k <= x)%Q -> (x + gap <= inject_Z (k + 1))%Q ->
  (x < 2 ^ n)%Q -> (2 ^ (n - 54) < gap)%Q ->
  exists r : Q, toDouble x = Fin r /\ Qfloor r = k.
Proof.
  intros Hk Hn Hlow Hgap Hx Hg.
  assert (Hk0 : (0 <= inject_Z k)%Q).
  { change 0%Q with (inject_Z 0). now rewrite <- Zle_Qle. }
  assert (Hgpos : (0 < gap)%Q).
  { eapply Qlt_trans; [apply (pow2_pos (n - 54))|exact Hg]. }
  unfold toDouble.
  destruct (Qzero x) eqn:Hz.
  - exists 0%Q. split; [reflexivity|].
    apply Qeq_bool_iff in Hz.
    assert (Hk1 : (inject_Z k < 1)%Q) by lra.
    change 1%Q with (inject_Z 1) in Hk1. rewrite <- Zlt_Qlt in Hk1.
    change (Qfloor 0) with 0%Z. lia.
  - assert (Hpos : (0 < x)%Q).
    { destruct (Qlt_le_dec 0 x) as [H|H]; [exact H|].
      assert (H0 : (x == 0)%Q) by lra. apply Qeq_bool_iff in H0.
      unfold Qzero in Hz. congruence. }
    cbv zeta.
    set (E := ulpExponent x).
    assert (HE : (-1074 <= E <= n - 53)%Z).
    { subst E. unfold ulpExponent. rewrite (Qabs_nonneg_eq x) by lra.
      pose proof (binade_below x n Hpos Hx). lia. }
    set (j := (- E)%Z).
    assert (Hj : (0 <= j)%Z) by (subst j; lia).
    set (pw := (2 ^ j)%Z).
    assert (Hpw : (0 < pw)%Z) by (apply Z.pow_pos_nonneg; lia).
    assert (Hpw' : (0 < inject_Z pw)%Q).
    { change 0%Q with (inject_Z 0). now rewrite <- Zlt_Qlt. }
    assert (Hulp : (2 ^ E == / inject_Z pw)%Q).
    { replace E with (- j)%Z by (subst j; lia). now apply pow2_neg. }
    assert (Hquot : (x / 2 ^ E == x * inject_Z pw)%Q).
    { rewrite Hulp. field. lra. }
    set (m := roundHalfEven (x / 2 ^ E)).
    assert (Hm1 : (k * pw <= m)%Z).
    { subst m. etransitivity; [|apply roundHalfEven_floor].
      rewrite <- (Qfloor_Z (k * pw)). apply Qfloor_resp_le.
      rewrite Hquot, inject_Z_mult. apply Qmult_le_compat_r; lra. }
    assert (Hhalf : (1 # 2 < gap * inject_Z pw)%Q).
    { assert (Hg' : (2 ^ (n - 54) * inject_Z pw < gap * inject_Z pw)%Q).
      { apply Qmult_lt_compat_r; assumption. }
      eapply Qle_lt_trans; [|exact Hg'].
      assert (Hle : (2 ^ (- j - 1) <= 2 ^ (n - 54))%Q).
      { apply Qpower_le_compat_l; [subst j; lia|discriminate]. }
      assert (Hsplit : (2 ^ (- j - 1) == / inject_Z pw * (1 # 2))%Q).
      { rewrite Qpower_minus by discriminate. rewrite pow2_neg by assumption.
        change (2 ^ 1)%Q with 2%Q. fold pw. field. lra. }
      rewrite Hsplit in Hle.
      assert (H1 : (/ inject_Z pw * (1 # 2) * inject_Z pw == 1 # 2)%Q) by (field; lra).
      rewrite <- H1. apply Qmult_le_compat_r; lra. }
    assert (Hm2 : (m < (k + 1) * pw)%Z).
    { rewrite Zlt_Qlt. eapply Qle_lt_trans; [apply roundHalfEven_near|].
      rewrite Hquot, !inject_Z_mult.
      assert (Hlin : (x * inject_Z pw + gap * inject_Z pw <= inject_Z (k + 1) * inject_Z pw)%Q).
      { rewrite <- Qmult_plus_distr_l. apply Qmult_le_compat_r; lra. }
      lra. }
    assert (Hr1 : (inject_Z k <= inject_Z m * 2 ^ E)%Q).
    { rewrite Hulp. apply Qle_shift_div_l; [exact Hpw'|].
      rewrite <- inject_Z_mult, <- Zle_Qle. exact Hm1. }
    assert (Hr2 : (inject_Z m * 2 ^ E < inject_Z (k + 1))%Q).
    { rewrite Hulp. apply Qlt_shift_div_r; [exact Hpw'|].
      rewrite <- inject_Z_mult, <- Zlt_Qlt. exact Hm2. }
    assert (Hbig : Qle_bool (2 ^ 1024) (Qabs (inject_Z m * 2 ^ E)) = false).
    { destruct (Qle_bool _ _) eqn:Hb; [|reflexivity]. exfalso.
      apply Qle_bool_iff in Hb. rewrite Qabs_pos in Hb by lra.
      assert (H1 : (inject_Z (k + 1) <= x + 1)%Q).
      { rewrite inject_Z_plus. change (inject_Z 1) with 1%Q. lra. }
      assert (H2 : (2 ^ n <= 2 ^ 52)%Q) by (apply Qpower_le_compat_l; [lia|discriminate]).
      assert (H3 : (2 ^ 52 + 1 < 2 ^ 1024)%Q) by reflexivity.
      lra. }
    rewrite Hbig. eexists. split; [reflexivity|].
    assert (Hf1 : (k <= Qfloor (inject_Z m * 2 ^ E))%Z).
    { rewrite <- (Qfloor_Z k). now apply Qfloor_resp_le. }
    assert (Hf2 : (Qfloor (inject_Z m * 2 ^ E) < k + 1)%Z).
    { rewrite Zlt_Qlt. eapply Qle_lt_trans; [apply Qfloor_le|exact Hr2]. }
    lia.
Qed.

End DoubleFacts.

(** The rounding on values whose doubles are known: one tenth and one
    third; a tie, which goes to the even neighbour, at 2^53 + 1 and at
    2^53 + 3; the largest double and the overflow above it; the smallest
    subnormal, and the tie below it, which goes to 0. *)
Example toDouble_examples :
  jeq (toDouble (1 # 10)) (Fin (3602879701896397 # 36028797018963968)) = true
  /\ jeq (toDouble (1 # 3)) (Fin (6004799503160661 # 18014398509481984)) = true
  /\ jeq (toDouble (- (1 # 3))) (Fin (- (6004799503160661 # 18014398509481984))) = true
  /\ jeq (toDouble (2 ^ 53 + 1)) (Fin (2 ^ 53)) = true
  /\ jeq (toDouble (2 ^ 53 + 3)) (Fin (2 ^ 53 + 4)) = true
  /\ jeq (toDouble (2 ^ 1024 - 2 ^ 971 + 2 ^ 969)) (Fin (2 ^ 1024 - 2 ^ 971)) = true
  /\ toDouble (2 ^ 1024 - 2 ^ 970) = PInf
  /\ toDouble (- (2 ^ 1024)) = NInf
  /\ jeq (toDouble (2 ^ (-1075) + 2 ^ (-1100))) (Fin (2 ^ (-1074))) = true
  /\ jeq (toDouble (2 ^ (-1075))) (Fin 0) = true
  /\ jeq (toDouble (3 * 2 ^ (-1075))) (Fin (2 ^ (-1073))) = true.
Proof. vm_compute. repeat split. Qed.

Section TrackerProperties.
Import Tracker.

Lemma evaluateAndSend_cases (o : Observation) (st : State) :
  (evaluateAndSend o st = st)
  \/ (hasRecorded st = false
      /\ hasRecorded (evaluateAndSend o st) = true
      /\ exists p, sent (evaluateAndSend o st) = sent st ++ [p]).
Proof.
  unfold evaluateAndSend.
  destruct (hasRecorded st) eqn:Hrec; simpl; [now left|].
  destruct (player st); simpl; [|now left].
  destruct (trackingEnabled (settings st)); simpl; [|now left].
  destruct (jtruthy (flooredDuration o)); simpl; [|now left].
  destruct (watchedEnough o st); simpl; [|now left].
  right. repeat split. eexists. reflexivity.
Qed.

Lemma evaluateAndSend_recorded (o : Observation) (st : State) :
  hasRecorded st = true -> evaluateAndSend o st = st.
Proof. intros H. unfold evaluateAndSend. now rewrite H. Qed.

Lemma trackWatchTime_emits (o : Observation) (st : State) :
  quiet st (trackWatchTime o st) \/ fires st (trackWatchTime o st).
Proof.
  unfold trackWatchTime.
  destruct (negb (player st) || paused o || ended o || negb (jtruthy (duration o)));
    [left; now split|].
  destruct (negb (countHiddenTime (settings st)) && hidden o); [left; now split|].
  match goal with |- context [evaluateAndSend o ?s] =>
    destruct (evaluateAndSend_cases o s) as [E | (H1 & H2 & H3)] end.
  - rewrite E. left. now split.
  - right. split; [exact H1|]. split; [exact H2|exact H3].
Qed.

Lemma onEnded_emits (o : Observation) (st : State) :
  quiet st (onEnded o st) \/ fires st (onEnded o st).
Proof.
  unfold onEnded. destruct (hasRecorded st) eqn:Hrec; simpl.
  - left. now split.
  - destruct (evaluateAndSend_cases o st) as [E | (H1 & H2 & H3)].
    + rewrite E. left. now split.
    + right. split; [exact Hrec|]. split; [exact H2|exact H3].
Qed.

Lemma onEnded_iter_emits (o : Observation) (n : nat) (st : State) :
  quiet st (Nat.iter n (onEnded o) st) \/ fires st (Nat.iter n (onEnded o) st).
Proof.
  induction n as [|n IH]; simpl.
  - left. now split.
  - destruct (onEnded_emits o (Nat.iter n (onEnded o) st)) as [[Q1 Q2] | (F1 & F2 & p & F3)];
      destruct IH as [[I1 I2] | (J1 & J2 & q & J3)].
    + left. split; congruence.
    + right. split; [exact J1|]. split; [congruence|]. exists q. congruence.
    + right. split; [congruence|]. split; [exact F2|]. exists p. congruence.
    + congruence.
Qed.

Lemma step_emits (e : Event) (st : State) :
  quiet st (step e st) \/ fires st (step e st).
Proof.
  destruct e as [o | o | now |]; simpl.
  - destruct (watchTimer st); [apply trackWatchTime_emits | left; now split].
  - apply onEnded_iter_emits.
  - left. destruct (playingListener st); [|now split].
    unfold evaluateAutoplay; simpl.
    destruct (interactionCaptured st); [now split|].
    destruct (Qle_bool _ _); now split.
  - left. now split.
Qed.

Lemma run_recorded (evs : list Event) (st : State) :
  hasRecorded st = true ->
  hasRecorded (run evs st) = true /\ sent (run evs st) = sent st.
Proof.
  revert st. induction evs as [|e evs IH]; intros st Hrec; simpl; [now split|].
  destruct (step_emits e st) as [[Q1 Q2] | (F1 & _)]; [|congruence].
  destruct (IH (step e st)) as [H1 H2]; [congruence|].
  split; [exact H1 | congruence].
Qed.

Lemma run_emits (evs : list Event) (st : State) :
  sent (run evs st) = sent st \/ exists p, sent (run evs st) = sent st ++ [p].
Proof.
  revert st. induction evs as [|e evs IH]; intros st; simpl; [now left|].
  destruct (step_emits e st) as [[Q1 Q2] | (F1 & F2 & p & F3)].
  - destruct (IH (step e st)) as [H | [p H]]; [left | right; exists p]; congruence.
  - right. exists p. destruct (run_recorded evs (step e st) F2) as [_ H]. congruence.
Qed.

Lemma qualifies_iff (o : Observation) (st : State) :
  player st = true -> hasRecorded st = false ->
  trackingEnabled (settings st) = true ->
  jtruthy (flooredDuration o) = true ->
  (qualifies o st <-> watchedEnough o st = true).
Proof.
  intros Hp Hr Ht Hd. unfold qualifies, evaluateAndSend.
  rewrite Hp, Hr, Ht, Hd. simpl.
  destruct (watchedEnough o st); simpl.
  - split; [reflexivity|]. intros _. eexists. reflexivity.
  - split; [|discriminate]. intros [p Hp'].
    apply (f_equal (@length _)) in Hp'. rewrite length_app in Hp'. simpl in Hp'. lia.
Qed.

Lemma floored_whole_seconds (o : Observation) (d0 : Q) :
  duration o = Fin d0 -> (1 <= d0)%Q ->
  flooredDuration o = Fin (inject_Z (Qfloor d0))
  /\ (1 <= inject_Z (Qfloor d0))%Q.
Proof.
  intros Hd H1.
  assert (Hfl : (1 <= Qfloor d0)%Z).
  { change 1%Z with (Qfloor (inject_Z 1)). apply Qfloor_resp_le. exact H1. }
  split.
  - unfold flooredDuration, jor. rewrite Hd. simpl.
    destruct (Qzero d0) eqn:Hz; [|reflexivity].
    unfold Qzero in Hz. apply Qeq_bool_iff in Hz. rewrite Hz in H1.
    exfalso. revert H1. unfold Qle. simpl. lia.
  - change (inject_Z 1 <= inject_Z (Qfloor d0))%Q. rewrite <- Zle_Qle. exact Hfl.
Qed.

(** C2.  An evaluation made while tracking is on, nothing has been
    recorded yet, and the player reports a duration of at least one second
    qualifies exactly when Math.min(100, (currentTime / D) * 100) >=
    minWatchPercent or watchedSeconds >= minWatchTimeSeconds, where D is
    the duration rounded down to whole seconds and the quotient and the
    product are rounded to the nearest double, as the engine computes
    them.  With 600 s, 40 percent and 300 s: 245 s qualifies, 239 s with
    239 watched seconds does not, 300 watched seconds at 10 percent
    progress qualifies.  At 57 s of 100 s under a threshold of 57 percent
    the engine computes 56.99999999999999 and the evaluation does not
    qualify. *)
Theorem C2_threshold_or_semantics (st : State) (o : Observation) (d0 : Q) :
  player st = true ->
  hasRecorded st = false ->
  trackingEnabled (settings st) = true ->
  duration o = Fin d0 ->
  (1 <= d0)%Q ->
  let d := inject_Z (Qfloor d0) in
  let percentThreshold := nullish (minWatchPercent (settings st)) DEFAULT_minWatchPercent in
  let timeThreshold := nullish (minWatchTimeSeconds (settings st)) DEFAULT_minWatchTimeSeconds in
  (qualifies o st <->
     jge (percentOf (currentTime o) d) (Fin percentThreshold) = true
     \/ (timeThreshold <= watchedSeconds st)%Q)
  /\ (forall ws, qualifies (at600 245) (session ws))
  /\ ~ qualifies (at600 239) (session 239)
  /\ qualifies (at600 60) (session 300)
  /\ jeq (fmul (fdiv (Fin 57) (Fin 100)) (Fin 100))
         (Fin (8022036836253695 # 140737488355328)) = true
  /\ ~ qualifies at57of100 session57.
Proof.
  intros Hp Hr Ht Hd H1 d pT tT.
  destruct (floored_whole_seconds o d0 Hd H1) as [Hfl Hd1].
  assert (Htruthy : jtruthy (flooredDuration o) = true).
  { rewrite Hfl. simpl. unfold Qzero. destruct (Qeq_bool _ 0) eqn:Hz; [|reflexivity].
    apply Qeq_bool_iff in Hz. fold d in Hd1. fold d in Hz. rewrite Hz in Hd1.
    exfalso. revert Hd1. unfold Qle. simpl. lia. }
  split; [|split; [|split; [|split; [|split]]]].
  - rewrite (qualifies_iff o st Hp Hr Ht Htruthy).
    unfold watchedEnough, percentWatched, percentOf. rewrite Hfl. fold d pT tT.
    rewrite orb_true_iff. unfold jge at 2. cbn [jle]. now rewrite Qle_bool_iff.
  - intros ws. apply qualifies_iff; reflexivity.
  - rewrite qualifies_iff; try reflexivity. vm_compute. discriminate.
  - apply qualifies_iff; reflexivity.
  - vm_compute. reflexivity.
  - rewrite qualifies_iff; try reflexivity. vm_compute. discriminate.
Qed.

Lemma C2_witness :
  qualifies (at600 (490 # 2)) (session 17)
  <-> (jge (percentOf (490 # 2) (inject_Z (Qfloor 600))) (Fin 40) = true
       \/ (300 <= 17)%Q).
Proof.
  refine (proj1 (C2_threshold_or_semantics (session 17) (at600 (490 # 2)) 600
                   eq_refl eq_refl eq_refl eq_refl _)).
  unfold Qle; simpl; lia.
Defined.

Lemma C2_counterexample :
qualifies shortClip strictSession
/\ ~ ((70 <= Qmin 100 (1 / (3 # 2) * 100))%Q \/ (300 <= 1)%Q)
/\ jge (jmin (Fin 100) (fmul (fdiv (Fin 1) (Fin (3 # 2))) (Fin 100))) (Fin 70) = false.
Proof.
split; [|split].
- apply qualifies_iff; reflexivity.
- assert (Hmin : (Qmin 100 (1 / (3 # 2) * 100) == 1 / (3 # 2) * 100)%Q).
  { apply Q.min_r. unfold Qle. cbn. lia. }
  intros [H | H].
  + rewrite Hmin in H. revert H. unfold Qle. cbn. lia.
  + revert H. unfold Qle. cbn. lia.
- vm_compute. reflexivity.
Qed.

(** C3.  Whatever samples, 'ended', 'playing' and interaction callbacks a
    detection session delivers, and in whatever order, the session hands
    at most one watch event to the runtime; once it has recorded, no
    further callback sends anything. *)
Theorem C3_at_most_one_watch_event (evs : list Event) (st : State) :
  (length (sent (run evs st)) <= S (length (sent st)))%nat
  /\ (sent (run evs st) = sent st \/ exists p, sent (run evs st) = sent st ++ [p])
  /\ sent (run evs (recorded st)) = sent st.
Proof.
  split; [|split].
  - destruct (run_emits evs st) as [H | [p H]]; rewrite H; [lia|].
    rewrite length_app. simpl. lia.
  - apply run_emits.
  - now destruct (run_recorded evs (recorded st) eq_refl) as [_ H].
Qed.

End TrackerProperties.

Section StorageProperties.
Import Storage.
Context {P : Platform}.

Lemma getSettings_run (w : World) : getSettings w = (Ok (currentSettings w), w).
Proof. reflexivity. Qed.

Lemma saveSettings_run (p : Obj) (w : World) :
  saveSettings p w = (Ok tt, set_settings (Some (p ∪ DEFAULT_SETTINGS)) w).
Proof. reflexivity. Qed.

Lemma currentSettings_saved (p : Obj) (w : World) :
  currentSettings (set_settings (Some (p ∪ DEFAULT_SETTINGS)) w) = p ∪ DEFAULT_SETTINGS.
Proof.
  unfold currentSettings. simpl.
  rewrite <- (assoc_L (∪)). rewrite (idemp_L (∪) DEFAULT_SETTINGS). reflexivity.
Qed.

(** C10.  saveSettings stores the hardcoded defaults overlaid with exactly
    the fields of its argument, whatever was stored before: a field of the
    argument is stored as given, every other field is reset to its default
    (and is absent if it has none).  The popup's toggle, which saves only
    trackingEnabled, therefore resets the API key and the thresholds. *)
Theorem C10_partial_save_resets_other_fields (p : Obj) (w : World) (st : Popup.State) :
  let w' := snd (saveSettings p w) in
  let toggled := snd (Popup.trackingToggle st w) in
  stored_settings w' = Some (p ∪ DEFAULT_SETTINGS)
  /\ currentSettings w' = p ∪ DEFAULT_SETTINGS
  /\ (forall (k : string) (v : JsVal), p !! k = Some v -> currentSettings w' !! k = Some v)
  /\ (forall k : string, p !! k = None -> currentSettings w' !! k = DEFAULT_SETTINGS !! k)
  /\ currentSettings toggled !! "trackingEnabled" = Some (JBool (negb (Popup.trackingEnabled st)))
  /\ currentSettings toggled !! "openRouterApiKey" = Some (JStr "")
  /\ currentSettings toggled !! "minWatchPercent" = Some (JNum (Fin 40))
  /\ currentSettings toggled !! "minWatchTimeSeconds" = Some (JNum (Fin 300))
  /\ currentSettings toggled !! "aiFeaturesEnabled" = Some (JBool true).
Proof.
  intros w' toggled. subst w' toggled.
  unfold Popup.trackingToggle, bind, ret. rewrite !saveSettings_run.
  cbn [snd fst Popup.trackingEnabled]. rewrite !currentSettings_saved.
  split; [reflexivity|]. split; [reflexivity|].
  split; [intros k v Hk; now apply lookup_union_Some_l|].
  split; [intros k Hk; now apply lookup_union_r|].
  split; [now rewrite lookup_union_l', lookup_singleton_eq by (rewrite lookup_singleton_eq; eauto)|].
  repeat split; (rewrite lookup_union_r; [reflexivity | now apply lookup_singleton_ne]).
Qed.

End StorageProperties.

(** Reading a named field out of an object literal or a chain of updates. *)
Ltac lookup_field :=
  repeat first [ rewrite lookup_insert_eq
               | rewrite lookup_insert_ne by discriminate
               | rewrite lookup_singleton_eq
               | rewrite lookup_singleton_ne by discriminate ].

Section ListFacts.
Context {A : Type}.

Lemma findIndex_Some (f : A -> bool) (l : list A) (i : nat) :
  findIndex f l = Some i ->
  exists x, l !! i = Some x /\ f x = true.
Proof.
  revert i. induction l as [|a l IH]; intros i H; simpl in H; [discriminate|].
  destruct (f a) eqn:Hfa.
  - injection H as <-. exists a. now split.
  - destruct (findIndex f l) as [j|] eqn:Hj; [|discriminate].
    injection H as <-. destruct (IH j eq_refl) as (x & Hx & Hfx).
    exists x. now split.
Qed.

Lemma findIndex_None (f : A -> bool) (l : list A) :
  findIndex f l = None <-> List.filter f l = [].
Proof.
  induction l as [|a l IH]; simpl; [tauto|].
  destruct (f a); [split; discriminate|].
  destruct (findIndex f l); simpl.
  - split; [discriminate|]. intros H. now apply IH in H.
  - tauto.
Qed.

Lemma findIndex_found (f : A -> bool) (l : list A) (x : A) :
  In x l -> f x = true -> exists i, findIndex f l = Some i.
Proof.
  intros Hin Hfx. destruct (findIndex f l) as [i|] eqn:H; [eauto|].
  apply findIndex_None in H.
  assert (Hx : In x (List.filter f l)) by (apply filter_In; now split).
  rewrite H in Hx. destruct Hx.
Qed.

(** A list in which only position [i] passes the test. *)
Lemma filter_single (f : A -> bool) (l : list A) (i : nat) (x : A) :
  l !! i = Some x -> f x = true ->
  (forall j y, l !! j = Some y -> f y = true -> j = i) ->
  List.filter f l = [x].
Proof.
  revert i. induction l as [|a l IH]; intros i Hi Hfx Huniq; [discriminate|].
  destruct i as [|i]; simpl in Hi.
  - injection Hi as ->. simpl. rewrite Hfx. f_equal.
    destruct (List.filter f l) as [|y r] eqn:Hfl; [reflexivity|].
    assert (Hy : In y (List.filter f l)) by (rewrite Hfl; now left).
    apply filter_In in Hy as [Hy Hfy].
    apply list_elem_of_In, list_elem_of_lookup in Hy as [j Hj].
    specialize (Huniq (S j) y Hj Hfy). discriminate.
  - simpl. destruct (f a) eqn:Hfa.
    + specialize (Huniq 0%nat a eq_refl Hfa). discriminate.
    + apply (IH i Hi Hfx). intros j y Hj Hfy.
      specialize (Huniq (S j) y Hj Hfy). now injection Huniq.
Qed.

End ListFacts.

Section ValueFacts.

Lemma strictEq_string (v : JsVal) (s : string) :
  strictEq v (JStr s) = true <-> v = JStr s.
Proof.
  destruct v; simpl; try (split; [discriminate|]; intros H; discriminate).
  rewrite String.eqb_eq. split; [now intros ->|now intros [= ->]].
Qed.

Lemma strictEq_string_l (v : JsVal) (s : string) :
  strictEq (JStr s) v = true <-> v = JStr s.
Proof.
  destruct v; simpl; try (split; [discriminate|]; intros H; discriminate).
  rewrite String.eqb_eq. split; [now intros ->|now intros [= ->]].
Qed.

Lemma truthy_count (c : Q) : (1 <= c)%Q -> truthy (JNum (Fin c)) = true.
Proof.
  intros Hc. simpl. unfold Qzero. destruct (Qeq_bool c 0) eqn:Hz; [|reflexivity].
  apply Qeq_bool_iff in Hz. rewrite Hz in Hc. exfalso. revert Hc.
  unfold Qle. simpl. lia.
Qed.

Lemma getProp_lookup (o : Obj) (k : string) (v : JsVal) :
  o !! k = Some v -> getProp o k = v.
Proof. unfold getProp. now intros ->. Qed.

End ValueFacts.

Lemma findIndex_least {A : Type} (f : A -> bool) (l : list A) (i j : nat) (y : A) :
  findIndex f l = Some i -> l !! j = Some y -> f y = true -> (i <= j)%nat.
Proof.
  revert i j. induction l as [|x l IH]; intros i j Hi Hj Hy; [discriminate|].
  cbn in Hi. destruct (f x) eqn:Hfx.
  - injection Hi as <-. lia.
  - destruct (findIndex f l) as [i'|] eqn:Hi'; [|discriminate].
    cbn in Hi. injection Hi as <-.
    destruct j as [|j]; cbn in Hj.
    + congruence.
    + specialize (IH i' j eq_refl Hj Hy). lia.
Qed.

Section UpsertProperties.
Import Storage.
Context {P : Platform}.

Lemma saveVideo_run (video : Obj) (w : World) :
  saveVideo video w = (Ok video, set_videos (upsert video (stored_videos w)) w).
Proof. reflexivity. Qed.

Lemma payloadObject_videoId (ev : Tracker.Payload) (id : string) :
  Tracker.videoId ev = Some id -> getProp (payloadObject ev) "videoId" = JStr id.
Proof.
  intros H. apply getProp_lookup. unfold payloadObject. lookup_field. now rewrite H.
Qed.

Lemma payloadObject_rewatchCount (ev : Tracker.Payload) :
  payloadObject ev !! "rewatchCount" = Some (JNum (Fin 1)).
Proof. unfold payloadObject. now lookup_field. Qed.

Lemma freshVideo_payload (ev : Tracker.Payload) :
  freshVideo (payloadObject ev) = payloadObject ev.
Proof.
  unfold freshVideo. rewrite (getProp_lookup _ _ _ (payloadObject_rewatchCount ev)).
  apply insert_id. apply payloadObject_rewatchCount.
Qed.

Lemma mergeVideo_videoId (existing video : Obj) :
  getProp (mergeVideo existing video) "videoId"
  = getProp (video ∪ existing) "videoId".
Proof. unfold mergeVideo, getProp. now lookup_field. Qed.

Lemma mergeVideo_rewatchCount (existing video : Obj) (c : Q) :
  getProp existing "rewatchCount" = JNum (Fin c) -> (1 <= c)%Q ->
  getProp (mergeVideo existing video) "rewatchCount" = JNum (Fin (c + 1)).
Proof.
  intros Hc H1. unfold mergeVideo. unfold getProp at 1. lookup_field. cbn [default].
  rewrite Hc. unfold vor. rewrite (truthy_count c H1). reflexivity.
Qed.


Lemma payloadObject_videoId_lookup (ev : Tracker.Payload) (id : string) :
  Tracker.videoId ev = Some id -> payloadObject ev !! "videoId" = Some (JStr id).
Proof. intros H. unfold payloadObject. lookup_field. now rewrite H. Qed.

Lemma sameVideoId_string (id : string) (video : Obj) :
  sameVideoId (JStr id) video = true <-> getProp video "videoId" = JStr id.
Proof. unfold sameVideoId. apply strictEq_string. Qed.


Lemma storeOk_nil : storeOk [].
Proof. split; [intros i j a b H; discriminate | intros video []]. Qed.

Lemma truthy_has_key (o : Obj) (k : string) :
  truthy (getProp o k) = true -> o !! k = Some (getProp o k).
Proof. unfold getProp. now destruct (o !! k). Qed.




End UpsertProperties.



Section MapFacts.

Lemma jeq_refl (n : JsNum) : n <> NaN -> jeq n n = true.
Proof. destruct n; simpl; try congruence. intros _. apply Qeq_bool_refl. Qed.

Lemma sameValueZero_refl (k : JsVal) : sameValueZero k k = true.
Proof.
  destruct k as [| |b|n|s]; simpl; try reflexivity.
  - now destruct b.
  - destruct n; simpl; try reflexivity. apply Qeq_bool_refl.
  - apply String.eqb_refl.
Qed.

Lemma sameValueZero_sym (a b : JsVal) : sameValueZero a b = sameValueZero b a.
Proof.
  destruct a as [| |x|[q| | |]|s], b as [| |y|[r| | |]|t]; simpl; try reflexivity.
  - now destruct x, y.
  - apply Qeq_bool_comm.
  - apply String.eqb_sym.
Qed.

Lemma sameValueZero_trans (a b c : JsVal) :
  sameValueZero a b = true -> sameValueZero b c = true -> sameValueZero a c = true.
Proof.
  destruct a as [| |x|[q| | |]|s], b as [| |y|[r| | |]|t]; simpl; try discriminate;
    destruct c as [| |z|[o| | |]|u]; simpl; try discriminate; try reflexivity.
  - destruct x, y, z; simpl; congruence.
  - intros H1 H2. apply Qeq_bool_iff in H1, H2. apply Qeq_bool_iff.
    now rewrite H1.
  - intros H1 H2. apply String.eqb_eq in H1, H2. subst. apply String.eqb_refl.
Qed.

Lemma mapGet_mapSet_eq (k : JsVal) (v : Obj) (m : JsMap) :
  mapGet k (mapSet k v m) = Some v.
Proof.
  induction m as [|[k' v'] m IH]; simpl.
  - now rewrite sameValueZero_refl.
  - destruct (sameValueZero k' k) eqn:Hk; simpl; now rewrite Hk.
Qed.

Lemma mapGet_mapSet_ne (k k2 : JsVal) (v : Obj) (m : JsMap) :
  sameValueZero k k2 = false -> mapGet k2 (mapSet k v m) = mapGet k2 m.
Proof.
  intros Hne. induction m as [|[k' v'] m IH]; simpl.
  - now rewrite Hne.
  - destruct (sameValueZero k' k) eqn:Hk; simpl.
    + destruct (sameValueZero k' k2) eqn:Hk2; [|reflexivity].
      rewrite sameValueZero_sym in Hk.
      now rewrite (sameValueZero_trans k k' k2 Hk Hk2) in Hne.
    + now rewrite IH.
Qed.

Lemma mapSet_fresh (k : JsVal) (v : Obj) (m : JsMap) :
  mapGet k m = None -> mapSet k v m = m ++ [(k, v)].
Proof.
  induction m as [|[k' v'] m IH]; simpl; [reflexivity|].
  destruct (sameValueZero k' k); [discriminate|]. intros H. now rewrite IH.
Qed.

Lemma mapSet_present_length (k : JsVal) (v e : Obj) (m : JsMap) :
  mapGet k m = Some e -> length (mapSet k v m) = length m.
Proof.
  induction m as [|[k' v'] m IH]; simpl; [discriminate|].
  destruct (sameValueZero k' k); simpl; [reflexivity|]. intros H. now rewrite IH.
Qed.

Lemma mapGet_same_key (a b : JsVal) (m : JsMap) :
  sameValueZero a b = true -> mapGet b m = mapGet a m.
Proof.
  intros Hab. induction m as [|[k v] m IH]; simpl; [reflexivity|].
  destruct (sameValueZero k a) eqn:Ha.
  - now rewrite (sameValueZero_trans k a b Ha Hab).
  - destruct (sameValueZero k b) eqn:Hb; [|exact IH].
    rewrite sameValueZero_sym in Hab.
    now rewrite (sameValueZero_trans k b a Hb Hab) in Ha.
Qed.

Lemma mapGet_mapSet_same (k k2 : JsVal) (v : Obj) (m : JsMap) :
  sameValueZero k k2 = true -> mapGet k2 (mapSet k v m) = Some v.
Proof.
  intros Hk. rewrite (mapGet_same_key k k2 _ Hk). apply mapGet_mapSet_eq.
Qed.

Lemma mapGet_lookup (m : JsMap) (e : nat) (k : JsVal) (v : Obj) :
  m !! e = Some (k, v) -> exists v', mapGet k m = Some v'.
Proof.
  revert e. induction m as [|[k' v'] m IH]; intros e He; [destruct e; discriminate|].
  simpl. destruct (sameValueZero k' k) eqn:Hk; [eauto|].
  destruct e as [|e]; simpl in He.
  - injection He as -> ->. now rewrite sameValueZero_refl in Hk.
  - eauto.
Qed.

Lemma keysMatch_nil : keysMatch [].
Proof.
  split; [intros e1 e2 k1 v1 k2 v2 H; destruct e1; discriminate|].
  intros e k r H. destruct e; discriminate.
Qed.

Lemma keysMatch_tail (p : JsVal * Obj) (m : JsMap) : keysMatch (p :: m) -> keysMatch m.
Proof.
  intros [Hd Hk]. split.
  - intros e1 e2 k1 v1 k2 v2 H1 H2 Hs.
    assert (S e1 = S e2) by (apply (Hd (S e1) (S e2) k1 v1 k2 v2); assumption). lia.
  - intros e k r He. apply (Hk (S e) k r He).
Qed.

Lemma keysMatch_mapSet (k : JsVal) (v : Obj) (m : JsMap) :
  keysMatch m -> sameValueZero (getProp v "videoId") k = true -> keysMatch (mapSet k v m).
Proof.
  intros Hm Hv. induction m as [|[k' v'] m IH]; simpl.
  - split.
    + intros e1 e2 k1 v1 k2 v2 H1 H2 _.
      destruct e1 as [|e1]; [|destruct e1; discriminate].
      destruct e2 as [|e2]; [reflexivity|destruct e2; discriminate].
    + intros e k0 r He. destruct e as [|e]; [|destruct e; discriminate].
      simpl in He. now injection He as <- <-.
  - destruct Hm as [Hd Hk].
    destruct (sameValueZero k' k) eqn:Hkk.
    + split.
      * intros e1 e2 k1 v1 k2 v2 H1 H2 Hs.
        assert (H1' : exists u1, ((k', v') :: m) !! e1 = Some (k1, u1)).
        { destruct e1; simpl in *; [injection H1 as <- <-|]; eauto. }
        assert (H2' : exists u2, ((k', v') :: m) !! e2 = Some (k2, u2)).
        { destruct e2; simpl in *; [injection H2 as <- <-|]; eauto. }
        destruct H1' as [u1 H1'], H2' as [u2 H2']. exact (Hd e1 e2 k1 u1 k2 u2 H1' H2' Hs).
      * intros e k0 r He. destruct e as [|e]; simpl in He.
        -- injection He as <- <-. rewrite sameValueZero_sym in Hkk.
           exact (sameValueZero_trans _ _ _ Hv Hkk).
        -- exact (Hk (S e) k0 r He).
    + assert (Htail : keysMatch m) by (apply (keysMatch_tail (k', v')); now split).
      specialize (IH Htail). destruct IH as [Hd' Hk'].
      assert (Hfresh : forall e k0 r, mapSet k v m !! e = Some (k0, r) ->
                sameValueZero k' k0 = false).
      { intros e k0 r He.
        destruct (sameValueZero k' k0) eqn:Hs; [|reflexivity].
        destruct (mapGet_lookup _ _ _ _ He) as [r' Hr'].
        rewrite (mapGet_same_key k' k0 _ Hs) in Hr'.
        rewrite mapGet_mapSet_ne in Hr'.
        - assert (Hnone : mapGet k' m = None).
          { clear - Hd. induction m as [|[k1 v1] m IHm]; simpl; [reflexivity|].
            destruct (sameValueZero k1 k') eqn:H1.
            - rewrite sameValueZero_sym in H1.
              specialize (Hd 0%nat 1%nat k' v' k1 v1 eq_refl eq_refl H1). discriminate.
            - apply IHm. intros e1 e2 a1 b1 a2 b2 E1 E2 Es.
              destruct e1 as [|e1], e2 as [|e2]; simpl in *.
              + reflexivity.
              + injection E1 as <- <-.
                specialize (Hd 0%nat (S (S e2)) k' v' a2 b2 eq_refl E2 Es). discriminate.
              + injection E2 as <- <-.
                specialize (Hd (S (S e1)) 0%nat a1 b1 k' v' E1 eq_refl Es). discriminate.
              + assert (S (S e1) = S (S e2))
                  by (apply (Hd (S (S e1)) (S (S e2)) a1 b1 a2 b2); assumption).
                lia. }
          congruence.
        - rewrite sameValueZero_sym. exact Hkk. }
      split.
      * intros e1 e2 k1 v1 k2 v2 H1 H2 Hs.
        destruct e1 as [|e1], e2 as [|e2]; simpl in H1, H2.
        -- reflexivity.
        -- injection H1 as <- <-. rewrite (Hfresh e2 k2 v2 H2) in Hs. discriminate.
        -- injection H2 as <- <-. rewrite sameValueZero_sym in Hs.
           rewrite (Hfresh e1 k1 v1 H1) in Hs. discriminate.
        -- f_equal. exact (Hd' e1 e2 k1 v1 k2 v2 H1 H2 Hs).
      * intros e k0 r He. destruct e as [|e]; simpl in He.
        -- injection He as <- <-. exact (Hk 0%nat k' v' eq_refl).
        -- exact (Hk' e k0 r He).
Qed.

Lemma recordWithId_mapValues (k : JsVal) (m : JsMap) :
  keysMatch m -> recordWithId k (mapValues m) = mapGet k m.
Proof.
  induction m as [|[k' r] m IH]; intros Hm; [reflexivity|].
  unfold recordWithId, mapValues in *. simpl.
  assert (Hr : sameValueZero (getProp r "videoId") k' = true)
    by exact (proj2 Hm 0%nat k' r eq_refl).
  assert (Hsame : sameValueZero (getProp r "videoId") k = sameValueZero k' k).
  { destruct (sameValueZero k' k) eqn:Hk.
    - exact (sameValueZero_trans _ _ _ Hr Hk).
    - destruct (sameValueZero (getProp r "videoId") k) eqn:Hk'; [|reflexivity].
      rewrite sameValueZero_sym in Hr.
      now rewrite (sameValueZero_trans _ _ _ Hr Hk') in Hk. }
  rewrite Hsame. destruct (sameValueZero k' k); [reflexivity|].
  apply IH. now apply (keysMatch_tail (k', r)).
Qed.

End MapFacts.

Section ImportProperties.
Import Storage.
Context {P : Platform}.

Lemma mergeImported_field (existing video : Obj) (k : string) (v : JsVal) :
  k <> "rewatchCount" -> video !! k = Some v -> mergeImported existing video !! k = Some v.
Proof.
  intros Hk Hv. unfold mergeImported. rewrite lookup_insert_ne by congruence.
  now apply lookup_union_Some_l.
Qed.

Lemma mergeImported_kept (existing video : Obj) (k : string) :
  k <> "rewatchCount" -> video !! k = None ->
  mergeImported existing video !! k = existing !! k.
Proof.
  intros Hk Hv. unfold mergeImported. rewrite lookup_insert_ne by congruence.
  now apply lookup_union_r.
Qed.

Lemma mergeImported_rewatchCount (existing video : Obj) :
  getProp (mergeImported existing video) "rewatchCount"
  = JNum (MathMax (vor (getProp existing "rewatchCount") (JNum (Fin 1)))
                  (vor (getProp video "rewatchCount") (JNum (Fin 1)))).
Proof. unfold mergeImported, getProp at 1. now rewrite lookup_insert_eq. Qed.

Lemma max_of_counts (a b : Q) :
  (1 <= a)%Q -> (1 <= b)%Q ->
  exists m : Q,
    MathMax (vor (JNum (Fin a)) (JNum (Fin 1))) (vor (JNum (Fin b)) (JNum (Fin 1))) = Fin m
    /\ (m == Qmax a b)%Q /\ (m < a + b)%Q.
Proof.
  intros Ha Hb. unfold vor. rewrite (truthy_count a Ha), (truthy_count b Hb).
  unfold MathMax. cbn [ToNumber jmax jle].
  destruct (Qle_bool a b) eqn:Hab.
  - exists b. apply Qle_bool_iff in Hab.
    split; [reflexivity|]. split; [now rewrite (Q.max_r _ _ Hab) | lra].
  - exists a.
    assert (Hba : (b <= a)%Q).
    { destruct (Qlt_le_dec b a) as [H | H]; [now apply Qlt_le_weak|].
      apply Qle_bool_iff in H. congruence. }
    split; [reflexivity|]. split; [now rewrite (Q.max_l _ _ Hba) | lra].
Qed.

Lemma importHistory_run (items : list Json) (w : World) :
  importHistory (ImportedArray items) w
  = (Ok tt, set_videos (mergeHistory (stored_videos w) items) w).
Proof. reflexivity. Qed.

Lemma newMap_snoc (pairs : list (JsVal * Obj)) (k : JsVal) (v : Obj) :
  newMap (pairs ++ [(k, v)]) = mapSet k v (newMap pairs).
Proof. unfold newMap. now rewrite fold_left_app. Qed.

Lemma keysMatch_newMap (videos : list Obj) : keysMatch (newMap (idPairs videos)).
Proof.
  induction videos as [|video videos IH] using rev_ind; [apply keysMatch_nil|].
  unfold idPairs. rewrite map_app. cbn [map]. rewrite newMap_snoc.
  apply keysMatch_mapSet; [exact IH|apply sameValueZero_refl].
Qed.

Lemma mapGet_newMap (k : JsVal) (videos : list Obj) :
  mapGet k (newMap (idPairs videos)) = recordWithId k (rev videos).
Proof.
  induction videos as [|video videos IH] using rev_ind; [reflexivity|].
  unfold idPairs. rewrite map_app. cbn [map]. rewrite newMap_snoc.
  rewrite rev_app_distr. cbn [rev app]. unfold recordWithId. cbn [find].
  destruct (sameValueZero (getProp video "videoId") k) eqn:Hk.
  - now apply mapGet_mapSet_same.
  - rewrite mapGet_mapSet_ne by exact Hk. exact IH.
Qed.

Lemma mergeImported_videoId (existing video : Obj) :
  truthy (getProp video "videoId") = true ->
  getProp (mergeImported existing video) "videoId" = getProp video "videoId".
Proof.
  intros Hid. unfold mergeImported. unfold getProp at 1.
  rewrite lookup_insert_ne by discriminate.
  now rewrite (lookup_union_Some_l _ _ _ _ (truthy_has_key video "videoId" Hid)).
Qed.

Lemma keysMatch_importOne (m : JsMap) (item : Json) :
  keysMatch m -> keysMatch (importOne m item).
Proof.
  intros Hm. destruct item as [v|video|]; try exact Hm. unfold importOne.
  destruct (truthy (getProp video "videoId")) eqn:Hid; cbn [negb]; [|exact Hm].
  destruct (mapGet (getProp video "videoId") m).
  - apply keysMatch_mapSet; [exact Hm|].
    rewrite mergeImported_videoId by exact Hid. apply sameValueZero_refl.
  - apply keysMatch_mapSet; [exact Hm|apply sameValueZero_refl].
Qed.

Lemma keysMatch_import (items : list Json) (m : JsMap) :
  keysMatch m -> keysMatch (fold_left importOne items m).
Proof.
  revert m. induction items as [|item items IH]; intros m Hm; [exact Hm|].
  cbn [fold_left]. apply IH. now apply keysMatch_importOne.
Qed.

Lemma importOne_skips (m : JsMap) (item : Json) :
  truthy (payloadProp item "videoId") = false -> importOne m item = m.
Proof.
  destruct item as [v|video|]; try reflexivity. simpl. intros H.
  unfold importOne. now rewrite H.
Qed.

Lemma importOne_other (m : JsMap) (item : Json) (k : JsVal) :
  (truthy (payloadProp item "videoId") = true ->
   sameValueZero (payloadProp item "videoId") k = false) ->
  mapGet k (importOne m item) = mapGet k m.
Proof.
  intros Hk. destruct (truthy (payloadProp item "videoId")) eqn:Hid;
    [|now rewrite importOne_skips].
  specialize (Hk eq_refl). destruct item as [v|video|]; try reflexivity.
  simpl in Hk, Hid. unfold importOne. rewrite Hid. cbn [negb].
  destruct (mapGet (getProp video "videoId") m); now apply mapGet_mapSet_ne.
Qed.

Lemma import_others (items : list Json) (m : JsMap) (k : JsVal) :
  (forall item, In item items -> truthy (payloadProp item "videoId") = true ->
     sameValueZero (payloadProp item "videoId") k = false) ->
  mapGet k (fold_left importOne items m) = mapGet k m.
Proof.
  revert m. induction items as [|item items IH]; intros m Hk; [reflexivity|].
  cbn [fold_left]. rewrite IH by (intros x Hx; apply Hk; now right).
  apply importOne_other. apply Hk. now left.
Qed.

Lemma importOne_same (m : JsMap) (video : Obj) :
  truthy (getProp video "videoId") = true ->
  mapGet (getProp video "videoId") (importOne m (JObject video))
  = Some match mapGet (getProp video "videoId") m with
         | Some existing => mergeImported existing video
         | None => video
         end.
Proof.
  intros Hid. unfold importOne. rewrite Hid. cbn [negb].
  destruct (mapGet (getProp video "videoId") m); apply mapGet_mapSet_eq.
Qed.

Lemma recordWithId_mergeHistory (k : JsVal) (current : list Obj) (items : list Json) :
  recordWithId k (mergeHistory current items)
  = mapGet k (fold_left importOne items (newMap (idPairs current))).
Proof.
  unfold mergeHistory. apply recordWithId_mapValues, keysMatch_import, keysMatch_newMap.
Qed.

(** C6.  One incoming element of an import: an element without a usable
    id is skipped; an element whose id is in the map is merged over the
    existing record, with rewatchCount Math.max(existing.rewatchCount || 1,
    incoming.rewatchCount || 1): a missing or zero count reads as 1, and
    for counts of at least 1 the result is their maximum and below their
    sum; an element with a new id is added as it is.  The
    import of an array never throws, and the store it leaves is made of
    these steps: it holds one record per id; an id that no usable element
    carries keeps the record it had; for an id that elements carry, the
    record is the last such element, merged over what the elements before
    it had left for that id, or taken as it is when they had left nothing;
    an element without a usable id can be dropped from the array without
    changing the result. *)
Theorem C6_import_merges_with_max (mergedMap : JsMap) (item : Json)
    (current : list Obj) (items : list Json) (w : World) :
  (truthy (payloadProp item "videoId") = false -> importOne mergedMap item = mergedMap)
  /\ (forall video existing : Obj,
        item = JObject video ->
        truthy (getProp video "videoId") = true ->
        mapGet (getProp video "videoId") mergedMap = Some existing ->
        let merged := mergeImported existing video in
        mapGet (getProp video "videoId") (importOne mergedMap item) = Some merged
        /\ length (importOne mergedMap item) = length mergedMap
        /\ getProp merged "rewatchCount"
           = JNum (MathMax (vor (getProp existing "rewatchCount") (JNum (Fin 1)))
                           (vor (getProp video "rewatchCount") (JNum (Fin 1))))
        /\ (forall a b : Q,
              getProp existing "rewatchCount" = JNum (Fin a) ->
              getProp video "rewatchCount" = JNum (Fin b) ->
              (1 <= a)%Q -> (1 <= b)%Q ->
              exists m : Q,
                getProp merged "rewatchCount" = JNum (Fin m)
                /\ (m == Qmax a b)%Q /\ (m < a + b)%Q)
        /\ (forall (k : string) (v : JsVal),
              k <> "rewatchCount" -> video !! k = Some v -> merged !! k = Some v))
  /\ (forall video : Obj,
        item = JObject video ->
        truthy (getProp video "videoId") = true ->
        mapGet (getProp video "videoId") mergedMap = None ->
        importOne mergedMap item = mergedMap ++ [(getProp video "videoId", video)])
  /\ (forall k : JsVal,
        sameValueZero (payloadProp item "videoId") k = false ->
        mapGet k (importOne mergedMap item) = mapGet k mergedMap)
  /\ importHistory (ImportedArray items) w
     = (Ok tt, set_videos (mergeHistory (stored_videos w) items) w)
  /\ (forall (i j : nat) (a b : Obj),
        mergeHistory current items !! i = Some a ->
        mergeHistory current items !! j = Some b ->
        sameValueZero (getProp a "videoId") (getProp b "videoId") = true -> i = j)
  /\ (forall k : JsVal,
        (forall incoming : Json,
            In incoming items -> truthy (payloadProp incoming "videoId") = true ->
            sameValueZero (payloadProp incoming "videoId") k = false) ->
        recordWithId k (mergeHistory current items) = recordWithId k (rev current))
  /\ (forall (pre post : list Json) (video : Obj),
        items = pre ++ JObject video :: post ->
        truthy (getProp video "videoId") = true ->
        (forall later : Json,
            In later post -> truthy (payloadProp later "videoId") = true ->
            sameValueZero (payloadProp later "videoId") (getProp video "videoId") = false) ->
        let id := getProp video "videoId" in
        (recordWithId id (mergeHistory current pre) = None ->
         recordWithId id (mergeHistory current items) = Some video)
        /\ (forall existing : Obj,
              recordWithId id (mergeHistory current pre) = Some existing ->
              exists merged : Obj,
                recordWithId id (mergeHistory current items) = Some merged
                /\ getProp merged "rewatchCount"
                   = JNum (MathMax (vor (getProp existing "rewatchCount") (JNum (Fin 1)))
                                   (vor (getProp video "rewatchCount") (JNum (Fin 1))))
                /\ (forall a b : Q,
                      getProp existing "rewatchCount" = JNum (Fin a) ->
                      getProp video "rewatchCount" = JNum (Fin b) ->
                      (1 <= a)%Q -> (1 <= b)%Q ->
                      exists m : Q,
                        getProp merged "rewatchCount" = JNum (Fin m)
                        /\ (m == Qmax a b)%Q /\ (m < a + b)%Q)
                /\ (forall (k : string) (v : JsVal),
                      k <> "rewatchCount" -> video !! k = Some v -> merged !! k = Some v)
                /\ (forall k : string,
                      k <> "rewatchCount" -> video !! k = None ->
                      merged !! k = existing !! k)))
  /\ (forall (pre post : list Json) (skipped : Json),
        items = pre ++ skipped :: post ->
        truthy (payloadProp skipped "videoId") = false ->
        mergeHistory current items = mergeHistory current (pre ++ post)).
Proof.
  split; [|split; [|split; [|split; [|split; [|split; [|split; [|split]]]]]]].
  - apply importOne_skips.
  - intros video existing -> Hid Hget merged. unfold importOne.
    rewrite Hid, Hget. cbn [negb].
    split; [apply mapGet_mapSet_eq|].
    split; [now apply (mapSet_present_length _ _ existing)|].
    split; [apply mergeImported_rewatchCount|].
    split.
    + intros a b Ha Hb H1a H1b. subst merged.
      rewrite mergeImported_rewatchCount, Ha, Hb.
      destruct (max_of_counts a b H1a H1b) as (m & Hm & Hmax & Hlt).
      exists m. rewrite Hm. now repeat split.
    + intros k v Hk Hv. now apply mergeImported_field.
  - intros video -> Hid Hget. unfold importOne. rewrite Hid, Hget. cbn [negb].
    now apply mapSet_fresh.
  - intros k Hk. apply importOne_other. intros _. exact Hk.
  - apply importHistory_run.
  - intros i j a b Ha Hb Hsame.
    pose proof (keysMatch_import items _ (keysMatch_newMap current)) as [Hd Hk].
    set (merged := fold_left importOne items (newMap (idPairs current))) in *.
    change (mergeHistory current items) with (map snd merged) in Ha, Hb.
    rewrite list_lookup_fmap in Ha, Hb.
    destruct (merged !! i) as [[ka ra]|] eqn:Hi; [|discriminate].
    destruct (merged !! j) as [[kb rb]|] eqn:Hj; [|discriminate].
    cbn in Ha, Hb. injection Ha as ->. injection Hb as ->.
    apply (Hd i j ka a kb b Hi Hj).
    pose proof (Hk i ka a Hi) as H1. pose proof (Hk j kb b Hj) as H2.
    rewrite sameValueZero_sym in H1.
    exact (sameValueZero_trans _ _ _ H1 (sameValueZero_trans _ _ _ Hsame H2)).
  - intros k Hk. rewrite recordWithId_mergeHistory, import_others by exact Hk.
    apply mapGet_newMap.
  - intros pre post video -> Hid Hpost id.
    assert (Hstep : recordWithId id (mergeHistory current (pre ++ JObject video :: post))
                    = Some match recordWithId id (mergeHistory current pre) with
                           | Some existing => mergeImported existing video
                           | None => video
                           end).
    { rewrite !recordWithId_mergeHistory, fold_left_app. cbn [fold_left].
      rewrite import_others by exact Hpost. now apply importOne_same. }
    split.
    + intros Hnone. now rewrite Hstep, Hnone.
    + intros existing Hex. exists (mergeImported existing video).
      split; [now rewrite Hstep, Hex|].
      split; [apply mergeImported_rewatchCount|].
      split.
      * intros a b Ha Hb H1a H1b.
        rewrite mergeImported_rewatchCount, Ha, Hb.
        destruct (max_of_counts a b H1a H1b) as (m & Hm & Hmax & Hlt).
        exists m. rewrite Hm. now repeat split.
      * split; [intros k v Hk Hv; now apply mergeImported_field|].
        intros k Hk Hv. now apply mergeImported_kept.
  - intros pre post skipped -> Hskip. unfold mergeHistory.
    rewrite !fold_left_app. cbn [fold_left]. now rewrite importOne_skips.
Qed.

End ImportProperties.

(** Two counts of 0 merge to 1, which is not their maximum. *)
Lemma C6_counterexample :
  getProp countedZero "rewatchCount" = JNum (Fin 0)
  /\ exists merged : Obj,
       Storage.mergeHistory (P := testEngine) [countedZero] [JObject countedZero] = [merged]
       /\ getProp merged "rewatchCount" = JNum (Fin 1)
       /\ getProp merged "rewatchCount" <> JNum (Fin 0).
Proof.
  split; [reflexivity|]. eexists. split; [reflexivity|]. split; [reflexivity|discriminate].
Qed.

Lemma C6_witness :
  (exists merged : Obj,
     recordWithId (JStr "a")
       (Storage.mergeHistory (P := testEngine) [countedFive] importFile) = Some merged
     /\ getProp merged "rewatchCount"
        = JNum (MathMax (P := testEngine) (vor (getProp countedFive "rewatchCount") (JNum (Fin 1)))
                  (vor (JNum (Fin 3)) (JNum (Fin 1)))))
  /\ Storage.mergeHistory (P := testEngine) [countedFive] importFile
     = Storage.mergeHistory (P := testEngine) [countedFive]
         ([importedThree] ++ [JPrim JNull; importedNew]).
Proof.
  pose proof (C6_import_merges_with_max (P := testEngine) [] (JPrim JNull) [countedFive]
                importFile firstRun) as (_ & _ & _ & _ & _ & _ & _ & Hlast & Hskip).
  split.
  - destruct (proj2 (Hlast [] [JObject noIdRecord; JPrim JNull; importedNew] importedThreeRecord
                       eq_refl eq_refl
                       ltac:(intros later [<-|[<-|[<-|[]]]] H; [discriminate|discriminate|
                                                               reflexivity]))
                countedFive eq_refl) as (merged & Hmerged & Hcount & _).
    exists merged. split; [exact Hmerged|exact Hcount].
  - exact (Hskip [importedThree] [JPrim JNull; importedNew] (JObject noIdRecord)
             eq_refl eq_refl).
Defined.

Section DashboardProperties.
Import Storage Dashboard.
Context {P : Platform}.

Lemma sanitizeSettings_field (input base : Obj) (field : string) :
  In field settingsFields ->
  accepted field (getProp input field) = false ->
  validPrevious field (getProp base field) = true ->
  sanitizeSettings input base !! field = Some (getProp base field).
Proof.
  intros Hin Hrej Hval. unfold sanitizeSettings.
  simpl in Hin.
  destruct Hin as [<-|[<-|[<-|[<-|[<-|[<-|[<-|[<-|[]]]]]]]]];
    cbn [accepted validPrevious String.eqb Ascii.eqb Bool.eqb] in Hrej, Hval;
    lookup_field; f_equal; unfold getProp at 2, fallbackOf; lookup_field;
    cbn [default].
  - destruct (ToNumber _) as [q| | |]; cbn [clampNumber inRange] in *;
      try rewrite Hrej;
      (destruct (getProp base _) as [| | |[q'| | |]|]; try discriminate;
       cbn [clampNumber inRange] in *; now rewrite Hval).
  - destruct (ToNumber _) as [q| | |]; cbn [ensureSeconds atLeast] in *;
      try rewrite Hrej;
      (destruct (getProp base _) as [| | |[q'| | |]|]; try discriminate;
       cbn [ensureSeconds atLeast] in *; now rewrite Hval).
  - destruct (getProp base _) as [| |b| |]; try discriminate.
    destruct (getProp input _) as [| | | |x]; try discriminate; try reflexivity.
    cbn [parseBoolean booleanLike] in *. apply orb_false_iff in Hrej as [-> ->]. reflexivity.
  - destruct (getProp base _) as [| |b| |]; try discriminate.
    destruct (getProp input _) as [| | | |x]; try discriminate; try reflexivity.
    cbn [parseBoolean booleanLike] in *. apply orb_false_iff in Hrej as [-> ->]. reflexivity.
  - unfold retentionOr. now rewrite Hrej, Hval.
  - destruct (getProp base _) as [| |b| |]; try discriminate.
    destruct (getProp input _) as [| | | |x]; try discriminate; try reflexivity.
    cbn [parseBoolean booleanLike] in *. apply orb_false_iff in Hrej as [-> ->]. reflexivity.
  - unfold stringOr. rewrite Hval.
    destruct (getProp input _); try discriminate; reflexivity.
  - destruct (getProp base _) as [| |b| |]; try discriminate.
    destruct (getProp input _) as [| | | |x]; try discriminate; try reflexivity.
    cbn [parseBoolean booleanLike] in *. apply orb_false_iff in Hrej as [-> ->]. reflexivity.
Qed.

Lemma sanitizeSettings_valid (stored base : Obj) (field : string) :
  In field settingsFields ->
  field <> "openRouterApiKey" ->
  validPrevious field (getProp stored field) = true ->
  getProp (sanitizeSettings stored base) field = getProp stored field.
Proof.
  intros Hin Hkey Hval. unfold sanitizeSettings, getProp at 1.
  simpl in Hin.
  destruct Hin as [<-|[<-|[<-|[<-|[<-|[<-|[<-|[<-|[]]]]]]]]]; try congruence;
    cbn [validPrevious String.eqb Ascii.eqb Bool.eqb] in Hval;
    lookup_field; cbn [default];
    destruct (getProp stored _) as [| |b|[q| | |]|x]; try discriminate;
    cbn [ToNumber clampNumber ensureSeconds parseBoolean retentionOr inRange atLeast] in *;
    try rewrite Hval; try reflexivity.
  unfold retentionOr. now rewrite Hval.
Qed.

Lemma refreshSettingsFromStorage_run (st : Dashboard.State) (w : World) :
  refreshSettingsFromStorage st w
  = (Ok (populateSettingsForm
           {| Dashboard.settings := sanitizeSettings (currentSettings w) FORM_DEFAULTS |}), w).
Proof. reflexivity. Qed.

(** C5.  When the dashboard saves settings and a submitted field is not
    acceptable (out of range, or of a type the sanitizer does not take)
    while the dashboard's previous value of that field is valid, the
    persisted value of the field is that previous value.  The dashboard's
    previous value is its sanitized copy of the stored settings: for every
    field but the API key, which it trims, a valid stored value is that
    previous value, so the stored value is what stays persisted. *)
Theorem C5_rejected_field_keeps_previous_value
    (field : string) (raw : Obj) (st : Dashboard.State) (w : World) :
  In field settingsFields ->
  accepted field (getProp raw field) = false ->
  (validPrevious field (getProp (Dashboard.settings st) field) = true ->
   let w' := snd (submitSettings raw st w) in
   stored_settings w' = Some (sanitizeSettings raw (Dashboard.settings st) ∪ DEFAULT_SETTINGS)
   /\ currentSettings w' !! field = Some (getProp (Dashboard.settings st) field))
  /\ (field <> "openRouterApiKey" ->
      validPrevious field (getProp (currentSettings w) field) = true ->
      forall synced : Dashboard.State,
        fst (refreshSettingsFromStorage st w) = Ok synced ->
        currentSettings (snd (submitSettings raw synced w)) !! field
        = Some (getProp (currentSettings w) field)).
Proof.
  intros Hin Hrej.
  assert (Hkeep : forall st0 : Dashboard.State,
            validPrevious field (getProp (Dashboard.settings st0) field) = true ->
            currentSettings (snd (submitSettings raw st0 w)) !! field
            = Some (getProp (Dashboard.settings st0) field)).
  { intros st0 Hval. unfold submitSettings, bind, ret. rewrite saveSettings_run. cbn [snd].
    rewrite currentSettings_saved. apply lookup_union_Some_l.
    now apply sanitizeSettings_field. }
  split.
  - intros Hval w'. subst w'. split; [reflexivity | now apply Hkeep].
  - intros Hkey Hval synced Hsync.
    rewrite refreshSettingsFromStorage_run in Hsync. cbn [fst] in Hsync.
    injection Hsync as <-.
    assert (Hsame : getProp (Dashboard.settings
                      (populateSettingsForm
                         {| Dashboard.settings :=
                              sanitizeSettings (currentSettings w) FORM_DEFAULTS |}))
                      field
                    = getProp (currentSettings w) field).
    { unfold populateSettingsForm. cbn [Dashboard.settings].
      rewrite sanitizeSettings_valid; [| assumption | assumption |].
      - now apply sanitizeSettings_valid.
      - now rewrite sanitizeSettings_valid. }
    rewrite <- Hsame. apply Hkeep. now rewrite Hsame.
Qed.

End DashboardProperties.

Lemma C5_witness :
  Storage.currentSettings
    (snd (Dashboard.submitSettings (P := testEngine) submitted200 dashboardAt55 storedAt55))
  !! "minWatchPercent" = Some (JNum (Fin 55)).
Proof.
  exact (proj2 (proj1 (C5_rejected_field_keeps_previous_value (P := testEngine)
                         "minWatchPercent" submitted200 dashboardAt55 storedAt55
                         (or_introl eq_refl) eq_refl) eq_refl)).
Defined.

Section ServiceWorkerProperties.
Import Storage ServiceWorker.
Context {P : Platform}.

(** C8.  An inbound watch event without a usable id is refused with the
    error "Missing video id" (surfaced as a failure response); an event
    with an id is answered "skipped" when tracking is disabled, or when it
    is flagged autoplay and autoplay tracking is disabled.  In all three
    cases the storage, the queue and the network are left as they were. *)
Theorem C8_rejected_events_store_nothing (payload : Json) (w : World) :
  let settings := currentSettings w in
  (truthy (payloadProp payload "videoId") = false ->
     handleVideoWatched payload w = (Throw "Missing video id", w)
     /\ respond (handleVideoWatched payload) w
        = (failure WatchedResult "Missing video id", w))
  /\ (truthy (payloadProp payload "videoId") = true ->
      truthy (getProp settings "trackingEnabled") = false ->
      handleVideoWatched payload w = (Ok skipped, w))
  /\ (truthy (payloadProp payload "videoId") = true ->
      truthy (payloadProp payload "autoplay") = true ->
      truthy (getProp settings "trackAutoplay") = false ->
      handleVideoWatched payload w = (Ok skipped, w)).
Proof.
  intros settings. subst settings. split; [|split].
  - intros Hid.
    assert (H : handleVideoWatched payload w = (Throw "Missing video id", w)).
    { destruct payload as [v|video|]; try reflexivity.
      simpl in Hid. unfold handleVideoWatched. now rewrite Hid. }
    split; [exact H|]. unfold respond. now rewrite H.
  - intros Hid Htrack. destruct payload as [v|video|]; try discriminate.
    simpl in Hid. unfold handleVideoWatched. rewrite Hid. cbn [negb].
    unfold bind. rewrite getSettings_run, Htrack. reflexivity.
  - intros Hid Hauto Hta. destruct payload as [v|video|]; try discriminate.
    simpl in Hid, Hauto. unfold handleVideoWatched. rewrite Hid. cbn [negb].
    unfold bind. rewrite getSettings_run, Hauto, Hta.
    destruct (truthy (getProp (currentSettings w) "trackingEnabled")); reflexivity.
Qed.

End ServiceWorkerProperties.

Lemma C8_counterexample :
  fst (ServiceWorker.handleVideoWatched (P := testEngine) noIdPayload firstRun)
  = Throw "Missing video id"
  /\ fst (ServiceWorker.handleVideoWatched (P := testEngine) noIdPayload firstRun)
     <> Ok ServiceWorker.skipped.
Proof. split; [reflexivity | discriminate]. Qed.

Section StringFacts.












End StringFacts.

Section AiProperties.
Import Storage ServiceWorker.
Context {P : Platform}.

Lemma length_requests_add (r : Request) (w : World) :
  length (requests (add_request r w)) = S (length (requests w)).
Proof. simpl. rewrite length_app. simpl. lia. Qed.

Lemma callWithFallback_both_fail (apiKey : JsVal) (prompt : string) (w : World) :
  truthy apiKey = true ->
  bothCallsFail w prompt ->
  exists e,
    Ai.callWithFallback apiKey prompt w
    = (Throw e, add_request (fallbackRequest prompt) (add_request (primaryRequest prompt) w)).
Proof.
  intros Hkey [[e1 H1] [e2 H2]]. exists e2.
  unfold Ai.callWithFallback, tryCatch, Ai.callOpenRouter. rewrite Hkey. cbn [negb].
  fold (primaryRequest prompt). rewrite H1.
  rewrite length_requests_add. cbn [network add_request].
  fold (fallbackRequest prompt). rewrite H2. reflexivity.
Qed.


Lemma categorize_both_fail (title channelName apiKey : JsVal) (w : World) :
  truthy apiKey = true ->
  bothCallsFail w
    (Ai.categorizationPrompt title channelName (Ai.inferHeuristicCategory title channelName)) ->
  exists w',
    Ai.categorizeVideoAi title channelName apiKey w = (Ok (Ai.heuristicResult title channelName), w')
    /\ stored_videos w' = stored_videos w /\ stored_settings w' = stored_settings w
    /\ aiQueue w' = aiQueue w
    /\ modelsRequested w' = modelsRequested w ++ [Ai.AI_MODEL_PRIMARY; Ai.AI_MODEL_FALLBACK].
Proof.
  intros Hkey Hfail.
  destruct (callWithFallback_both_fail apiKey _ w Hkey Hfail) as [e He].
  eexists. split.
  - unfold Ai.categorizeVideoAi, tryCatch, bind. rewrite He. reflexivity.
  - cbn [stored_videos stored_settings aiQueue add_request]. repeat split.
    unfold modelsRequested. cbn [requests add_request].
    rewrite !map_app. cbn [map req_model primaryRequest fallbackRequest].
    now rewrite <- app_assoc.
Qed.

Lemma categorizePlain_both_fail (title channelName apiKey : JsVal) (w : World) :
  truthy apiKey = true ->
  bothCallsFail w (AiPlain.categorizationPrompt title channelName) ->
  exists w',
    AiPlain.categorizeVideoAi title channelName apiKey w = (Ok AiPlain.defaultResult, w')
    /\ stored_videos w' = stored_videos w /\ stored_settings w' = stored_settings w
    /\ aiQueue w' = aiQueue w
    /\ modelsRequested w' = modelsRequested w ++ [Ai.AI_MODEL_PRIMARY; Ai.AI_MODEL_FALLBACK].
Proof.
  intros Hkey Hfail.
  destruct (callWithFallback_both_fail apiKey _ w Hkey Hfail) as [e He].
  eexists. split.
  - unfold AiPlain.categorizeVideoAi, tryCatch, bind. rewrite He. reflexivity.
  - cbn [stored_videos stored_settings aiQueue add_request]. repeat split.
    unfold modelsRequested. cbn [requests add_request].
    rewrite !map_app. cbn [map req_model primaryRequest fallbackRequest].
    now rewrite <- app_assoc.
Qed.

Lemma updateVideo_run (videoId : JsVal) (updates : Obj) (w : World) :
  fst (updateVideo videoId updates w) = Ok tt
  /\ stored_videos (snd (updateVideo videoId updates w))
     = patch videoId updates (stored_videos w)
  /\ stored_settings (snd (updateVideo videoId updates w)) = stored_settings w
  /\ aiQueue (snd (updateVideo videoId updates w)) = aiQueue w
  /\ requests (snd (updateVideo videoId updates w)) = requests w.
Proof.
  unfold updateVideo, bind, getVideos, gets, patch.
  destruct (findIndex (sameVideoId videoId) (stored_videos w)); now repeat split.
Qed.

Lemma patch_record (videoId : JsVal) (updates : Obj) (videos : list Obj) (i : nat) (record : Obj) :
  findIndex (sameVideoId videoId) videos = Some i ->
  videos !! i = Some record ->
  patch videoId updates videos !! i = Some (updates ∪ record).
Proof.
  intros Hi Hrec. unfold patch. rewrite Hi, Hrec.
  apply list_lookup_insert_eq. eapply lookup_lt_Some; eauto.
Qed.

(** The record a job is about receives the two classification fields
    and keeps its other fields. *)
Lemma patch_classifies (videoId category confidence : JsVal) (videos : list Obj)
    (i : nat) (record : Obj) :
  findIndex (sameVideoId videoId) videos = Some i ->
  videos !! i = Some record ->
  exists record',
    patch videoId {[ "aiCategory" := category; "aiCategoryConfidence" := confidence ]} videos !! i
    = Some record'
    /\ getProp record' "aiCategory" = category
    /\ getProp record' "aiCategoryConfidence" = confidence
    /\ (forall k, k <> "aiCategory" -> k <> "aiCategoryConfidence" ->
                  record' !! k = record !! k).
Proof.
  intros Hi Hrec.
  exists ({[ "aiCategory" := category; "aiCategoryConfidence" := confidence ]} ∪ record).
  split; [exact (patch_record _ _ _ _ _ Hi Hrec)|].
  split; [|split].
  - apply getProp_lookup, lookup_union_Some_l. now lookup_field.
  - apply getProp_lookup, lookup_union_Some_l. now lookup_field.
  - intros k H1 H2. apply lookup_union_r.
    rewrite lookup_insert_ne by congruence. now apply lookup_singleton_ne.
Qed.

Lemma aiReady_key (settings : Obj) :
  aiReady settings = true -> truthy (getProp settings "openRouterApiKey") = true.
Proof. unfold aiReady. now intros [_ H]%andb_true_iff. Qed.

Section Worker.
Variable categorize : JsVal -> JsVal -> JsVal -> M Classification.

Lemma processSingleJob_queue (job : Job) (w : World) :
  queueStable categorize ->
  aiQueue (snd (processSingleJob categorize job w)) = aiQueue w.
Proof.
  intros Hstable. unfold processSingleJob, bind. rewrite getSettings_run.
  destruct (aiReady (currentSettings w)); cbn [negb].
  - specialize (Hstable (job_title job) (job_channelName job)
                  (getProp (currentSettings w) "openRouterApiKey") w).
    destruct (categorize _ _ _ w) as [[result|e] w1]; cbn [snd] in *; [|exact Hstable].
    destruct (updateVideo_run (job_videoId job)
                {[ "aiCategory" := category result;
                   "aiCategoryConfidence" := confidence result ]} w1)
      as (_ & _ & _ & Hq & _).
    now rewrite Hq.
  - now destruct (updateVideo_run (job_videoId job) uncategorized w) as (_ & _ & _ & Hq & _).
Qed.

Lemma processNext_ok (job : Job) (w : World) :
  fst (processNext categorize job w) = Ok tt.
Proof.
  unfold processNext, tryCatch, bind, delay, modify, ret.
  destruct (processSingleJob categorize job w) as [[[]|e] w1]; reflexivity.
Qed.

Lemma processNext_queue (job : Job) (w : World) :
  queueStable categorize ->
  aiQueue (snd (processNext categorize job w)) = aiQueue w.
Proof.
  intros Hstable. pose proof (processSingleJob_queue job w Hstable) as Hq.
  unfold processNext, tryCatch, bind, delay, modify, ret.
  destruct (processSingleJob categorize job w) as [[[]|e] w1]; exact Hq.
Qed.

(** The worker loop never throws. *)
Lemma drainQueue_never_throws (fuel : nat) (w : World) (r : Res unit) (w' : World) :
  drainQueue categorize fuel w = Some (r, w') -> r = Ok tt /\ aiQueue w' = [].
Proof.
  revert w. induction fuel as [|fuel IH]; intros w; simpl.
  - destruct (aiQueue w) eqn:Hq; [|discriminate]. intros [= <- <-]. now split.
  - destruct (aiQueue w) as [|job rest] eqn:Hq; [intros [= <- <-]; now split|].
    pose proof (processNext_ok job (set_queue rest w)) as Hok.
    destruct (processNext categorize job (set_queue rest w)) as [[[]|e] w1];
      [apply IH | discriminate].
Qed.

(** With a categorizer that leaves the queue alone, as much fuel as
    there are jobs empties the queue. *)
Lemma drainQueue_total (fuel : nat) (w : World) :
  queueStable categorize ->
  (length (aiQueue w) <= fuel)%nat ->
  exists w', drainQueue categorize fuel w = Some (Ok tt, w') /\ aiQueue w' = [].
Proof.
  intros Hstable. revert w. induction fuel as [|fuel IH]; intros w Hlen; simpl.
  - destruct (aiQueue w) eqn:Hq; [|simpl in Hlen; lia]. eauto.
  - destruct (aiQueue w) as [|job rest] eqn:Hq; [eauto|].
    pose proof (processNext_ok job (set_queue rest w)) as Hok.
    pose proof (processNext_queue job (set_queue rest w) Hstable) as Hsame.
    destruct (processNext categorize job (set_queue rest w)) as [[[]|e] w1];
      [|discriminate].
    apply IH. cbn [snd] in Hsame. rewrite Hsame. simpl. simpl in Hlen. lia.
Qed.

(** processQueueSafely returns normally: at once when a run is already in
    progress, and otherwise after the queue has been emptied. *)
Lemma processQueueSafely_total (w : World) :
  queueStable categorize ->
  exists w', processQueueSafely categorize (length (aiQueue w)) w = Some (Ok tt, w')
             /\ (queueProcessing w = false -> aiQueue w' = [] /\ queueProcessing w' = false).
Proof.
  intros Hstable. unfold processQueueSafely.
  destruct (queueProcessing w) eqn:Hbusy.
  - exists w. split; [reflexivity | discriminate].
  - destruct (drainQueue_total (length (aiQueue w)) (set_processing true w) Hstable)
      as (w1 & Hrun & Hempty); [simpl; lia|].
    rewrite Hrun. exists (set_processing false w1). now repeat split.
Qed.

End Worker.

Lemma callOpenRouter_queue (apiKey : JsVal) (model prompt : string) (w : World) :
  aiQueue (snd (Ai.callOpenRouter apiKey model prompt w)) = aiQueue w.
Proof.
  unfold Ai.callOpenRouter. destruct (truthy apiKey); cbn [negb]; [|reflexivity].
  now destruct (network w _ _).
Qed.

Lemma callWithFallback_queue (apiKey : JsVal) (prompt : string) (w : World) :
  aiQueue (snd (Ai.callWithFallback apiKey prompt w)) = aiQueue w.
Proof.
  unfold Ai.callWithFallback, tryCatch.
  pose proof (callOpenRouter_queue apiKey Ai.AI_MODEL_PRIMARY prompt w) as H1.
  destruct (Ai.callOpenRouter apiKey Ai.AI_MODEL_PRIMARY prompt w) as [[c|e] w1];
    cbn [snd] in *; [exact H1|].
  now rewrite callOpenRouter_queue.
Qed.

Lemma categorize_queueStable : queueStable Ai.categorizeVideoAi.
Proof.
  intros t c k w. unfold Ai.categorizeVideoAi, tryCatch, bind, throw, lift, ret.
  pose proof (callWithFallback_queue k
    (Ai.categorizationPrompt t c (Ai.inferHeuristicCategory t c)) w) as H1.
  destruct (Ai.callWithFallback k _ w) as [[content|e] w1]; cbn [snd] in *; [|exact H1].
  destruct (truthy content); cbn [negb]; [|exact H1].
  destruct (Ai.parseJsonContent content) as [parsed|e]; [|exact H1].
  destruct (Ai.jsonProp parsed "category"); [|exact H1].
  destruct (Ai.jsonProp parsed "confidence"); exact H1.
Qed.

Lemma categorizePlain_queueStable : queueStable AiPlain.categorizeVideoAi.
Proof.
  intros t c k w. unfold AiPlain.categorizeVideoAi, tryCatch, bind, throw, lift, ret.
  pose proof (callWithFallback_queue k (AiPlain.categorizationPrompt t c) w) as H1.
  destruct (Ai.callWithFallback k _ w) as [[content|e] w1]; cbn [snd] in *; [|exact H1].
  destruct (truthy content); cbn [negb]; [|exact H1].
  destruct (Ai.parseJsonContent content) as [parsed|e]; [|exact H1].
  destruct (Ai.jsonProp parsed "category"); [|exact H1].
  destruct (Ai.jsonProp parsed "confidence"); exact H1.
Qed.

Lemma processSingleJob_both_fail (job : Job) (w : World) :
  aiReady (currentSettings w) = true ->
  bothCallsFail w
    (Ai.categorizationPrompt (job_title job) (job_channelName job)
       (Ai.inferHeuristicCategory (job_title job) (job_channelName job))) ->
  let guess := Ai.heuristicResult (job_title job) (job_channelName job) in
  fst (processSingleJob Ai.categorizeVideoAi job w) = Ok tt
  /\ stored_videos (snd (processSingleJob Ai.categorizeVideoAi job w))
     = patch (job_videoId job)
         {[ "aiCategory" := category guess; "aiCategoryConfidence" := confidence guess ]}
         (stored_videos w).
Proof.
  intros Hready Hfail guess. subst guess.
  set (guess := Ai.heuristicResult (job_title job) (job_channelName job)).
  destruct (categorize_both_fail _ _ _ w (aiReady_key _ Hready) Hfail)
    as (w1 & Hrun & Hvideos & _).
  fold guess in Hrun.
  unfold processSingleJob, bind. rewrite getSettings_run. cbv beta iota.
  rewrite Hready. cbn [negb]. rewrite Hrun. cbv beta iota.
  destruct (updateVideo_run (job_videoId job)
              {[ "aiCategory" := category guess; "aiCategoryConfidence" := confidence guess ]} w1)
    as (Hok & Hpatch & _).
  split; [exact Hok|]. now rewrite Hpatch, Hvideos.
Qed.

Lemma processSingleJobPlain_both_fail (job : Job) (w : World) :
  aiReady (currentSettings w) = true ->
  bothCallsFail w (AiPlain.categorizationPrompt (job_title job) (job_channelName job)) ->
  fst (processSingleJob AiPlain.categorizeVideoAi job w) = Ok tt
  /\ stored_videos (snd (processSingleJob AiPlain.categorizeVideoAi job w))
     = patch (job_videoId job) uncategorized (stored_videos w).
Proof.
  intros Hready Hfail.
  destruct (categorizePlain_both_fail _ _ _ w (aiReady_key _ Hready) Hfail)
    as (w1 & Hrun & Hvideos & _).
  unfold processSingleJob, bind. rewrite getSettings_run. cbv beta iota.
  rewrite Hready. cbn [negb]. rewrite Hrun. cbv beta iota.
  destruct (updateVideo_run (job_videoId job)
              {[ "aiCategory" := category AiPlain.defaultResult;
                 "aiCategoryConfidence" := confidence AiPlain.defaultResult ]} w1)
    as (Hok & Hpatch & _).
  split; [exact Hok|]. now rewrite Hpatch, Hvideos.
Qed.

(** C1.  When AI is enabled with a key and both the primary and the
    fallback call of a job fail, the job completes without throwing and
    its record receives the result of the catch block: in the copy of
    ai.js with the keyword table, the category of the first keyword group
    matching title or channel name with confidence medium, and
    Uncategorized with confidence low when no keyword matches; in the copy
    without the table always Uncategorized and low.  The worker then goes
    on with the rest of the queue, never throws, and empties the queue. *)
Theorem C1_both_models_fail (job : Job) (w : World) :
  aiReady (currentSettings w) = true ->
  let title := job_title job in
  let channelName := job_channelName job in
  let guess := Ai.heuristicResult title channelName in
  (bothCallsFail w
     (Ai.categorizationPrompt title channelName (Ai.inferHeuristicCategory title channelName)) ->
   fst (processSingleJob Ai.categorizeVideoAi job w) = Ok tt
   /\ stored_videos (snd (processSingleJob Ai.categorizeVideoAi job w))
      = patch (job_videoId job)
          {[ "aiCategory" := category guess; "aiCategoryConfidence" := confidence guess ]}
          (stored_videos w))
  /\ (Ai.inferHeuristicCategory title channelName = None ->
      guess = {| category := JStr "Uncategorized"; confidence := JStr "low" |})
  /\ (forall c : string,
        Ai.inferHeuristicCategory title channelName = Some c ->
        guess = {| category := JStr c; confidence := JStr "medium" |})
  /\ (bothCallsFail w (AiPlain.categorizationPrompt title channelName) ->
      fst (processSingleJob AiPlain.categorizeVideoAi job w) = Ok tt
      /\ stored_videos (snd (processSingleJob AiPlain.categorizeVideoAi job w))
         = patch (job_videoId job) uncategorized (stored_videos w))
  /\ (forall (cat conf : JsVal) (i : nat) (record : Obj),
        findIndex (sameVideoId (job_videoId job)) (stored_videos w) = Some i ->
        stored_videos w !! i = Some record ->
        exists record',
          patch (job_videoId job)
            {[ "aiCategory" := cat; "aiCategoryConfidence" := conf ]} (stored_videos w) !! i
          = Some record'
          /\ getProp record' "aiCategory" = cat
          /\ getProp record' "aiCategoryConfidence" = conf)
  /\ (forall (categorize : JsVal -> JsVal -> JsVal -> M Classification)
             (rest : list Job) (fuel : nat),
        aiQueue w = job :: rest ->
        exists w1,
          processNext categorize job (set_queue rest w) = (Ok tt, w1)
          /\ drainQueue categorize (S fuel) w = drainQueue categorize fuel w1)
  /\ (exists w', drainQueue Ai.categorizeVideoAi (length (aiQueue w)) w = Some (Ok tt, w')
                 /\ aiQueue w' = [])
  /\ (exists w', drainQueue AiPlain.categorizeVideoAi (length (aiQueue w)) w = Some (Ok tt, w')
                 /\ aiQueue w' = [])
  /\ (exists w', processQueueSafely Ai.categorizeVideoAi (length (aiQueue w)) w
                 = Some (Ok tt, w'))
  /\ (exists w', processQueueSafely AiPlain.categorizeVideoAi (length (aiQueue w)) w
                 = Some (Ok tt, w')).
Proof.
  intros Hready title channelName guess.
  split; [intros Hfail; now apply processSingleJob_both_fail|].
  split; [intros Hnone; subst guess; unfold Ai.heuristicResult; fold title channelName;
          now rewrite Hnone|].
  split; [intros c Hc; subst guess; unfold Ai.heuristicResult; fold title channelName;
          now rewrite Hc|].
  split; [intros Hfail; now apply processSingleJobPlain_both_fail|].
  split.
  { intros cat conf i record Hi Hrec.
    destruct (patch_classifies _ cat conf _ i record Hi Hrec) as (r & H1 & H2 & H3 & _).
    exists r. now repeat split. }
  split.
  { intros categorize rest fuel Hq.
    pose proof (processNext_ok categorize job (set_queue rest w)) as Hok.
    destruct (processNext categorize job (set_queue rest w)) as [r w1] eqn:Hnext.
    cbn [fst] in Hok. subst r. exists w1. split; [reflexivity|].
    cbn [drainQueue]. now rewrite Hq, Hnext. }
  split; [apply drainQueue_total; [apply categorize_queueStable | lia]|].
  split; [apply drainQueue_total; [apply categorizePlain_queueStable | lia]|].
  split.
  - destruct (processQueueSafely_total Ai.categorizeVideoAi w categorize_queueStable)
      as (w' & Hrun & _). eauto.
  - destruct (processQueueSafely_total AiPlain.categorizeVideoAi w categorizePlain_queueStable)
      as (w' & Hrun & _). eauto.
Qed.





End AiProperties.

Lemma C1_counterexample :
  bothCallsFail minecraftOffline
    (Ai.categorizationPrompt (P := testEngine) (job_title minecraftJob) (job_channelName minecraftJob)
       (Ai.inferHeuristicCategory (P := testEngine) (job_title minecraftJob)
          (job_channelName minecraftJob)))
  /\ (let after := snd (ServiceWorker.processSingleJob (Ai.categorizeVideoAi (P := testEngine))
                          minecraftJob minecraftOffline) in
      fieldAt (stored_videos after) 0 "videoId" = JStr "mc1"
      /\ fieldAt (stored_videos after) 0 "aiCategory" = JStr "Gaming"
      /\ fieldAt (stored_videos after) 0 "aiCategoryConfidence" = JStr "medium"
      /\ fieldAt (stored_videos after) 0 "aiCategory" <> JStr "Uncategorized"
      /\ fieldAt (stored_videos after) 0 "aiCategoryConfidence" <> JStr "low").
Proof.
  split.
  - split; exists "Failed to fetch"; reflexivity.
  - vm_compute. repeat split; discriminate.
Qed.

Lemma C1_witness :
  fst (ServiceWorker.processSingleJob (Ai.categorizeVideoAi (P := testEngine))
         minecraftJob minecraftOffline) = Ok tt
  /\ stored_videos
       (snd (ServiceWorker.processSingleJob (Ai.categorizeVideoAi (P := testEngine))
               minecraftJob minecraftOffline))
     = Storage.patch (job_videoId minecraftJob)
         {[ "aiCategory" := JStr "Gaming"; "aiCategoryConfidence" := JStr "medium" ]}
         (stored_videos minecraftOffline).
Proof.
  exact (proj1 (C1_both_models_fail (P := testEngine) minecraftJob minecraftOffline eq_refl)
           (conj (ex_intro _ "Failed to fetch" eq_refl) (ex_intro _ "Failed to fetch" eq_refl))).
Defined.


(** The import example of the specification: 3 against 5 stays 5, the
    elements without an id are skipped, the new id is appended. *)
Example import_keeps_larger_count :
  let outcome := Storage.importHistory (P := testEngine) (Storage.ImportedArray importFile)
                   (testWorld [countedFive] None [] offline) in
  fst outcome = Ok tt
  /\ length (stored_videos (snd outcome)) = 2%nat
  /\ fieldAt (stored_videos (snd outcome)) 0 "videoId" = JStr "a"
  /\ fieldAt (stored_videos (snd outcome)) 0 "rewatchCount" = JNum (Fin 5)
  /\ fieldAt (stored_videos (snd outcome)) 0 "title" = JStr "New title"
  /\ fieldAt (stored_videos (snd outcome)) 1 "videoId" = JStr "b".
Proof. vm_compute. repeat split. Qed.

(** The settings example of the specification, through the form: 200
    percent is refused and the previous 55 stays, while the acceptable
    fields of the same submission are taken over. *)
Example form_keeps_previous_percent :
  let saved := Storage.currentSettings
                 (snd (Dashboard.handleSettingsSubmit (P := testEngine) form200
                         dashboardAt55 storedAt55)) in
  saved !! "minWatchPercent" = Some (JNum (Fin 55))
  /\ saved !! "minWatchTimeSeconds" = Some (JNum (Fin 300))
  /\ saved !! "dataRetention" = Some (JStr "3m")
  /\ saved !! "openRouterApiKey" = Some (JStr "sk-or-test").
Proof. vm_compute. repeat split. Qed.

(* ===================================================================== *)
(** ** Further properties of the code *)
(* ===================================================================== *)

Section TrackerPageProperties.
Import Tracker.

Lemma evaluateAndSend_frame (o : Observation) (st : State) :
  settings (evaluateAndSend o st) = settings st
  /\ player (evaluateAndSend o st) = player st
  /\ watchTimer (evaluateAndSend o st) = watchTimer st
  /\ watchedSeconds (evaluateAndSend o st) = watchedSeconds st
  /\ interactionCaptured (evaluateAndSend o st) = interactionCaptured st
  /\ autoplayDetected (evaluateAndSend o st) = autoplayDetected st
  /\ (sent (evaluateAndSend o st) = sent st
      \/ sent (evaluateAndSend o st)
         = sent st ++ [buildVideoPayload (percentWatched o) (flooredDuration o) o st]).
Proof.
  unfold evaluateAndSend.
  destruct (hasRecorded st || negb (player st)); [now repeat split; try left|].
  destruct (negb (trackingEnabled (settings st))); [now repeat split; try left|].
  destruct (negb (jtruthy (flooredDuration o))); [now repeat split; try left|].
  destruct (negb (watchedEnough o st)); [now repeat split; try left|].
  repeat split. right. reflexivity.
Qed.

Lemma sessionFrame_refl (st : State) : sessionFrame st st.
Proof. repeat split. exists []. now rewrite app_nil_r. Qed.

Lemma sessionFrame_trans (a b c : State) :
  sessionFrame a b -> sessionFrame b c -> sessionFrame a c.
Proof.
  intros (H1 & H2 & H3 & H4 & H5 & l1 & H6 & H7) (G1 & G2 & G3 & G4 & G5 & l2 & G6 & G7).
  repeat split; try congruence.
  exists (l1 ++ l2). split; [rewrite G6, H6; now rewrite app_assoc|].
  apply Forall_app. split; [assumption|]. now rewrite <- H5.
Qed.

Lemma evaluateAndSend_sessionFrame (o : Observation) (st : State) :
  sessionFrame st (evaluateAndSend o st).
Proof.
  destruct (evaluateAndSend_frame o st) as (H1 & H2 & H3 & _ & H4 & H5 & [H6|H6]).
  - repeat split; try assumption. exists []. now rewrite app_nil_r.
  - repeat split; try assumption. eexists. split; [exact H6|]. now repeat constructor.
Qed.

Lemma trackWatchTime_sessionFrame (o : Observation) (st : State) :
  sessionFrame st (trackWatchTime o st).
Proof.
  unfold trackWatchTime.
  destruct (negb (player st) || paused o || ended o || negb (jtruthy (duration o)));
    [apply sessionFrame_refl|].
  destruct (negb (countHiddenTime (settings st)) && hidden o); [apply sessionFrame_refl|].
  apply (evaluateAndSend_sessionFrame o
           (set_tracking st (watchTimer st) (watchedSeconds st + POLL_INTERVAL_MS / 1000)
              (hasRecorded st) (autoplayDetected st) (videoStartTimestamp st))).
Qed.

Lemma onEnded_sessionFrame (o : Observation) (st : State) :
  sessionFrame st (onEnded o st) /\ watchedSeconds (onEnded o st) = watchedSeconds st.
Proof.
  unfold onEnded. destruct (negb (hasRecorded st)).
  - split; [apply evaluateAndSend_sessionFrame|].
    now destruct (evaluateAndSend_frame o st) as (_ & _ & _ & -> & _).
  - split; [apply sessionFrame_refl|reflexivity].
Qed.

Lemma onEnded_iter_sessionFrame (o : Observation) (n : nat) (st : State) :
  sessionFrame st (Nat.iter n (onEnded o) st).
Proof.
  induction n as [|n IH]; [apply sessionFrame_refl|]. rewrite Nat.iter_succ.
  eapply sessionFrame_trans; [exact IH|]. apply onEnded_sessionFrame.
Qed.

Lemma watchedSeconds_iter (o : Observation) (n : nat) (st : State) :
  watchedSeconds (Nat.iter n (onEnded o) st) = watchedSeconds st.
Proof.
  induction n as [|n IH]; [reflexivity|]. rewrite Nat.iter_succ.
  now rewrite (proj2 (onEnded_sessionFrame o _)).
Qed.

Lemma step_counts (e : Event) (st : State) :
  settings (step e st) = settings st
  /\ player (step e st) = player st
  /\ watchTimer (step e st) = watchTimer st
  /\ (watchedSeconds (step e st) == watchedSeconds st + (if counted st e then 1 else 0))%Q.
Proof.
  destruct e as [o|o|now|]; cbn [step counted].
  - destruct (watchTimer st) eqn:Htimer; cbn [andb]; [|repeat split; (assumption || lra)].
    unfold trackWatchTime.
    destruct (player st) eqn:Hp; cbn [negb orb andb]; [|repeat split; (assumption || lra)].
    destruct (paused o); cbn [negb orb andb]; [repeat split; (assumption || lra)|].
    destruct (ended o); cbn [negb orb andb]; [repeat split; (assumption || lra)|].
    destruct (jtruthy (duration o)); cbn [negb orb andb]; [|repeat split; (assumption || lra)].
    destruct (countHiddenTime (settings st)); cbn [negb orb andb].
    + destruct (evaluateAndSend_frame o
                  (set_tracking st (watchTimer st) (watchedSeconds st + POLL_INTERVAL_MS / 1000)
                     (hasRecorded st) (autoplayDetected st) (videoStartTimestamp st)))
        as (-> & -> & -> & -> & _).
      cbn. rewrite Hp, Htimer. repeat split; try assumption.
      assert (Hone : (POLL_INTERVAL_MS / 1000 == 1)%Q) by reflexivity.
      rewrite Hone. reflexivity.
    + destruct (hidden o); cbn [negb]; [repeat split; (assumption || lra)|].
      destruct (evaluateAndSend_frame o
                  (set_tracking st (watchTimer st) (watchedSeconds st + POLL_INTERVAL_MS / 1000)
                     (hasRecorded st) (autoplayDetected st) (videoStartTimestamp st)))
        as (-> & -> & -> & -> & _).
      cbn. rewrite Hp, Htimer. repeat split; try assumption.
      assert (Hone : (POLL_INTERVAL_MS / 1000 == 1)%Q) by reflexivity.
      rewrite Hone. reflexivity.
  - destruct (onEnded_iter_sessionFrame o (endedListeners st) st) as (-> & -> & -> & _).
    rewrite watchedSeconds_iter. repeat split; (assumption || lra).
  - destruct (playingListener st); [|repeat split; (assumption || lra)].
    unfold evaluateAutoplay. cbn.
    destruct (interactionCaptured st); [cbn; repeat split; (assumption || lra)|].
    destruct (Qle_bool _ _); cbn; repeat split; (assumption || lra).
  - cbn. repeat split; (assumption || lra).
Qed.

(** X1. Over any sequence of timer ticks, 'ended', 'playing' and interaction
    callbacks of one session, watchedSeconds grows by exactly one second
    (POLL_INTERVAL_MS / 1000) for every tick that finds the timer running, a
    player present, the video neither paused nor ended, a duration that is
    known and not zero, and the tab visible unless countHiddenTime is set;
    no other callback changes it, so time is never counted while the video
    is paused, ended or (by default) hidden. *)
Theorem watchedSeconds_counts_live_ticks (evs : list Event) (st : State) :
  (watchedSeconds (run evs st)
   == watchedSeconds st + inject_Z (Z.of_nat (length (List.filter (counted st) evs))))%Q.
Proof.
  revert st. induction evs as [|e evs IH]; intros st; cbn [run fold_left List.filter].
  - change (watchedSeconds st == watchedSeconds st + 0)%Q. lra.
  - fold (run evs (step e st)). rewrite IH.
    destruct (step_counts e st) as (Hs & Hp & Ht & Hw).
    assert (Hsame : forall e', counted (step e st) e' = counted st e').
    { intros [o| | |]; cbn [counted]; try reflexivity. now rewrite Hs, Hp, Ht. }
    rewrite (filter_ext _ _ Hsame), Hw.
    destruct (counted st e); cbn [length].
    + rewrite Nat2Z.inj_succ, <- Z.add_1_l, inject_Z_plus.
      change (inject_Z 1) with 1%Q. lra.
    + lra.
Qed.

End TrackerPageProperties.

Section PageProperties.
Import Tracker.

Lemma step_sessionFrame (e : Event) (st : State) :
  interactionCaptured st = true ->
  interactionCaptured (step e st) = true
  /\ autoplayDetected (step e st) = autoplayDetected st
  /\ exists added, sent (step e st) = sent st ++ added
       /\ Forall (fun p => autoplay p = autoplayDetected st) added.
Proof.
  intros Hint.
  assert (Hframe : forall st', sessionFrame st st' ->
            interactionCaptured st' = true
            /\ autoplayDetected st' = autoplayDetected st
            /\ exists added, sent st' = sent st ++ added
                 /\ Forall (fun p => autoplay p = autoplayDetected st) added).
  { intros st' (_ & _ & _ & H1 & H2 & H3). rewrite H1. auto. }
  destruct e as [o|o|now|]; cbn [step].
  - destruct (watchTimer st); [apply Hframe, trackWatchTime_sessionFrame|].
    apply Hframe, sessionFrame_refl.
  - apply Hframe, onEnded_iter_sessionFrame.
  - destruct (playingListener st); [|apply Hframe, sessionFrame_refl].
    unfold evaluateAutoplay. cbn. rewrite Hint. cbn. repeat split; try assumption.
    exists []. now rewrite app_nil_r.
  - cbn. repeat split. exists []. now rewrite app_nil_r.
Qed.

Lemma attempt_fields (found : bool) (d : JsNum) (st : State) :
  hasRecorded (attempt found d st) = hasRecorded st
  /\ interactionCaptured (attempt found d st) = interactionCaptured st
  /\ autoplayDetected (attempt found d st) = autoplayDetected st
  /\ sent (attempt found d st) = sent st.
Proof.
  unfold attempt, setupPlayerListeners. cbn.
  destruct (found && jtruthy d); cbn; [|now repeat split].
  destruct found; cbn; now repeat split.
Qed.

Lemma detectVideo_fields (v : option string) (now : Q) (found : bool) (d : JsNum) (st : State) :
  interactionCaptured (detectVideo v now found d st) = interactionCaptured st
  /\ (autoplayDetected st = false -> autoplayDetected (detectVideo v now found d st) = false)
  /\ sent (detectVideo v now found d st) = sent st.
Proof.
  unfold detectVideo.
  destruct v as [[|c id]|]; [now repeat split| |now repeat split].
  destruct (bool_decide (currentVideoId st = Some (String c id))); [now repeat split|].
  unfold waitForPlayer.
  destruct (attempt_fields found d
              (resetTracking now (set_currentVideoId (Some (String c id)) st)))
    as (_ & -> & -> & ->).
  now repeat split.
Qed.

Lemma pageStep_quiet_clicks (e : PageEvent) (pg : Page) :
  interactionCaptured (tracker pg) = true ->
  autoplayDetected (tracker pg) = false ->
  interactionCaptured (tracker (pageStep e pg)) = true
  /\ autoplayDetected (tracker (pageStep e pg)) = false
  /\ exists added, sent (tracker (pageStep e pg)) = sent (tracker pg) ++ added
       /\ Forall (fun p => autoplay p = false) added.
Proof.
  intros Hint Hauto.
  assert (Hsession : forall st', sessionFrame (tracker pg) st' ->
            interactionCaptured st' = true /\ autoplayDetected st' = false
            /\ exists added, sent st' = sent (tracker pg) ++ added
                 /\ Forall (fun p => autoplay p = false) added).
  { intros st' (_ & _ & _ & H1 & H2 & added & H3 & H4).
    rewrite H1, H2. rewrite Hauto in H4. eauto 6. }
  destruct e as [e|v now found d|found d].
  - assert (Hstep : interactionCaptured (step e (tracker pg)) = true
                    /\ autoplayDetected (step e (tracker pg)) = false
                    /\ exists added, sent (step e (tracker pg)) = sent (tracker pg) ++ added
                         /\ Forall (fun p => autoplay p = false) added).
    { destruct (step_sessionFrame e (tracker pg) Hint) as (H1 & H2 & added & H3 & H4).
      rewrite H2. rewrite Hauto in H4. eauto 6. }
    destruct e as [o|o|t|]; cbn [pageStep tracker]; try exact Hstep.
    destruct (watchTimer (tracker pg) || (0 <? strayTimers pg)%nat).
    + apply Hsession, trackWatchTime_sessionFrame.
    + apply Hsession, sessionFrame_refl.
  - cbn [pageStep tracker].
    destruct (detectVideo_fields v now found d (tracker pg)) as (-> & H2 & ->).
    split; [assumption|]. split; [now apply H2|].
    exists []. now rewrite app_nil_r.
  - cbn [pageStep]. destruct (pendingFrames pg).
    + apply Hsession, sessionFrame_refl.
    + cbn [tracker].
      destruct (attempt_fields found d (tracker pg)) as (_ & -> & -> & ->).
      split; [assumption|]. split; [assumption|]. exists []. now rewrite app_nil_r.
Qed.

(** X2. Once the user has clicked or pressed a key on the page and the
    autoplay flag is clear, no watch event sent later is flagged as
    autoplay, over any sequence of URL changes, animation frames of
    waitForPlayer, timer ticks and player events: interactionCaptured is
    never reset, resetTracking clears the flag, and evaluateAutoplay returns
    early. *)
Theorem no_autoplay_flag_after_interaction (evs : list PageEvent) (pg : Page) :
  interactionCaptured (tracker pg) = true ->
  autoplayDetected (tracker pg) = false ->
  exists added : list Payload,
    sent (tracker (pageRun evs pg)) = sent (tracker pg) ++ added
    /\ Forall (fun p => autoplay p = false) added.
Proof.
  revert pg. induction evs as [|e evs IH]; intros pg Hint Hauto; cbn [pageRun fold_left].
  - exists []. now rewrite app_nil_r.
  - destruct (pageStep_quiet_clicks e pg Hint Hauto) as (Hint' & Hauto' & added1 & Hs1 & Hf1).
    destruct (IH (pageStep e pg) Hint' Hauto') as (added2 & Hs2 & Hf2).
    exists (added1 ++ added2). unfold pageRun in Hs2. rewrite Hs2, Hs1, app_assoc.
    split; [reflexivity|]. apply Forall_app. now split.
Qed.

Lemma emits_budget (st st' : State) :
  quiet st st' \/ fires st st' -> budget st' = budget st.
Proof.
  unfold budget. intros [[H1 H2]|(H1 & H2 & p & H3)].
  - now rewrite H1, H2.
  - rewrite H1, H2, H3, length_app. cbn. lia.
Qed.

Lemma pageStep_budget (e : PageEvent) (pg : Page) :
  (budget (tracker (pageStep e pg))
   <= budget (tracker pg) + urlChanges [e])%nat.
Proof.
  destruct e as [e|v now found d|found d]; cbn [urlChanges List.filter length].
  - assert (Hstep : budget (step e (tracker pg)) = budget (tracker pg))
      by apply emits_budget, step_emits.
    destruct e as [o|o|t|]; cbn [pageStep tracker]; try lia.
    destruct (watchTimer (tracker pg) || (0 <? strayTimers pg)%nat); [|lia].
    rewrite (emits_budget _ _ (trackWatchTime_emits o (tracker pg))). lia.
  - cbn [pageStep tracker]. unfold budget.
    destruct (detectVideo_fields v now found d (tracker pg)) as (_ & _ & ->).
    destruct (hasRecorded (detectVideo v now found d (tracker pg)));
      destruct (hasRecorded (tracker pg)); lia.
  - cbn [pageStep]. destruct (pendingFrames pg); [lia|]. cbn [tracker]. unfold budget.
    destruct (attempt_fields found d (tracker pg)) as (-> & _ & _ & ->). lia.
Qed.

(** X3. Over any sequence of page events (URL changes with or without a
    video id, animation frames of waitForPlayer, timer ticks, player events,
    interactions), the content script sends at most one watch event more
    than there were URL changes, and at most as many as there were URL
    changes when the current session has already recorded; timers left
    running by an earlier video and pending frames do not add messages. *)
Theorem one_message_per_identity_change (evs : list PageEvent) (pg : Page) :
  (length (sent (tracker (pageRun evs pg)))
   <= length (sent (tracker pg)) + S (urlChanges evs))%nat
  /\ (hasRecorded (tracker pg) = true ->
      (length (sent (tracker (pageRun evs pg)))
       <= length (sent (tracker pg)) + urlChanges evs)%nat).
Proof.
  assert (Hbudget : (budget (tracker (pageRun evs pg))
                     <= budget (tracker pg) + urlChanges evs)%nat).
  { revert pg. induction evs as [|e evs IH]; intros pg; cbn [pageRun fold_left].
    - cbn. lia.
    - specialize (IH (pageStep e pg)). unfold pageRun in IH.
      pose proof (pageStep_budget e pg) as Hstep.
      assert (Hsplit : urlChanges (e :: evs) = (urlChanges [e] + urlChanges evs)%nat).
      { unfold urlChanges. cbn [List.filter]. now destruct e. }
      rewrite Hsplit. lia. }
  unfold budget in Hbudget. split.
  - destruct (hasRecorded (tracker (pageRun evs pg))); destruct (hasRecorded (tracker pg)); lia.
  - intros Hrec. rewrite Hrec in Hbudget.
    destruct (hasRecorded (tracker (pageRun evs pg))); lia.
Qed.

End PageProperties.

Lemma no_autoplay_flag_after_interaction_witness :
  exists added : list Tracker.Payload,
    Tracker.sent (Tracker.tracker (Tracker.pageRun secondVisit clickedPage))
    = Tracker.sent (Tracker.tracker clickedPage) ++ added
    /\ Forall (fun p => Tracker.autoplay p = false) added.
Proof.
  exact (no_autoplay_flag_after_interaction secondVisit clickedPage eq_refl eq_refl).
Defined.

(** The visit above does send its message, for the second video. *)
Example second_visit_is_recorded :
  map Tracker.videoId (Tracker.sent (Tracker.tracker (Tracker.pageRun secondVisit clickedPage)))
  = [Some "xyz789"].
Proof. reflexivity. Qed.

Section PayloadProperties.
Import Tracker.

Lemma evaluateAndSend_payload (o : Observation) (st : State) (p : Payload) :
  sent (evaluateAndSend o st) = sent st ++ [p] ->
  p = buildVideoPayload (percentWatched o) (flooredDuration o) o st
  /\ jtruthy (flooredDuration o) = true.
Proof.
  intros Hsent.
  assert (Hno : sent st <> sent st ++ [p]).
  { intros H. apply (f_equal (@length _)) in H. rewrite length_app in H. cbn in H. lia. }
  unfold evaluateAndSend in Hsent.
  destruct (hasRecorded st || negb (player st)); [congruence|].
  destruct (negb (trackingEnabled (settings st))); [congruence|].
  destruct (jtruthy (flooredDuration o)) eqn:Hd; cbn [negb] in Hsent; [|congruence].
  destruct (negb (watchedEnough o st)); [congruence|].
  cbn in Hsent. apply app_inv_head in Hsent. injection Hsent as <-. now split.
Qed.

Lemma Qfloor_nonneg (q : Q) : (0 <= q)%Q -> (0 <= Qfloor q)%Z.
Proof. intros H. change 0%Z with (Qfloor 0). now apply Qfloor_resp_le. Qed.

Lemma percentOf_bounds (t d : Q) :
  (0 <= t)%Q -> (1 <= d)%Q ->
  exists c : Q, percentOf t d = Fin c /\ (0 <= c <= 100)%Q.
Proof.
  intros Ht Hd. unfold percentOf, fdiv, jdiv.
  assert (Hnz : Qzero d = false).
  { unfold Qzero. destruct (Qeq_bool d 0) eqn:Hz; [|reflexivity].
    apply Qeq_bool_iff in Hz. lra. }
  rewrite Hnz. cbn [double].
  assert (Hq : (0 <= t / d)%Q) by (apply Qle_shift_div_l; lra).
  destruct (toDouble_nonneg (t / d) Hq) as [-> | (r & -> & Hr)].
  - exists 100%Q. split; [reflexivity|]. split; discriminate.
  - unfold fmul. cbn [jmul double].
    assert (Hq' : (0 <= r * 100)%Q) by (apply Qmult_le_0_compat; [assumption|discriminate]).
    destruct (toDouble_nonneg (r * 100) Hq') as [-> | (r' & -> & Hr')].
    + exists 100%Q. split; [reflexivity|]. split; discriminate.
    + cbn [jmin jle]. destruct (Qle_bool 100 r') eqn:Hle.
      * exists 100%Q. split; [reflexivity|]. split; discriminate.
      * exists r'. split; [reflexivity|]. split; [assumption|].
        destruct (Qlt_le_dec r' 100) as [H|H]; [now apply Qlt_le_weak|].
        apply Qle_bool_iff in H. congruence.
Qed.

(** X4. Whenever evaluateAndSend sends a watch event for a player whose
    duration is a non-negative number, with currentTime and watchedSeconds
    non-negative, the event's watchedDuration, totalDuration and
    watchPercent are whole numbers, totalDuration is the duration rounded
    down and at least 1, 0 <= watchedDuration <= totalDuration, 0 <=
    watchPercent <= 100, and the event carries the session's video id and
    autoplay flag. *)
Theorem payload_stays_within_the_video (o : Observation) (st : State) (p : Payload) (d0 : Q) :
  sent (evaluateAndSend o st) = sent st ++ [p] ->
  duration o = Fin d0 -> (0 <= d0)%Q ->
  (0 <= currentTime o)%Q -> (0 <= watchedSeconds st)%Q ->
  exists watched total percent : Z,
    watchedDuration p = Fin (inject_Z watched)
    /\ totalDuration p = Fin (inject_Z total)
    /\ watchPercent p = Fin (inject_Z percent)
    /\ total = Qfloor d0
    /\ (1 <= total)%Z
    /\ (0 <= watched <= total)%Z
    /\ (0 <= percent <= 100)%Z
    /\ videoId p = currentVideoId st
    /\ autoplay p = autoplayDetected st.
Proof.
  intros Hsent Hd Hd0 Hct Hws.
  destruct (evaluateAndSend_payload o st p Hsent) as [-> Htruthy].
  assert (Hfloor : flooredDuration o = Fin (inject_Z (Qfloor d0))).
  { unfold flooredDuration, jor in Htruthy |- *. rewrite Hd in Htruthy |- *.
    cbn [jtruthy] in Htruthy |- *.
    destruct (Qzero d0); cbn [negb] in Htruthy |- *; [|reflexivity].
    cbn in Htruthy. discriminate. }
  assert (Htotal : (1 <= Qfloor d0)%Z).
  { pose proof (Qfloor_nonneg d0 Hd0) as H0. rewrite Hfloor in Htruthy. cbn in Htruthy.
    destruct (Z.eq_dec (Qfloor d0) 0%Z) as [Hz|Hz]; [|lia].
    rewrite Hz in Htruthy. discriminate. }
  assert (HD : (1 <= inject_Z (Qfloor d0))%Q).
  { change 1%Q with (inject_Z 1). now rewrite <- Zle_Qle. }
  set (D := inject_Z (Qfloor d0)) in *.
  (* the watched seconds *)
  set (source := if Qzero (currentTime o) then watchedSeconds st else currentTime o).
  assert (Hsource : (0 <= source)%Q) by (subst source; now destruct (Qzero (currentTime o))).
  assert (Hwatched : jmin (jfloor (jor (Fin (currentTime o)) (Fin (watchedSeconds st))))
                       (Fin D)
                     = Fin (inject_Z (if Qle_bool (inject_Z (Qfloor source)) D
                                      then Qfloor source else Qfloor d0))).
  { unfold jor. cbn [jtruthy]. fold source.
    replace (if negb (Qzero (currentTime o)) then Fin (currentTime o)
             else Fin (watchedSeconds st)) with (Fin source)
      by (subst source; now destruct (Qzero (currentTime o))).
    cbn [jfloor jmin jle]. now destruct (Qle_bool (inject_Z (Qfloor source)) D). }
  (* the percentage *)
  destruct (percentOf_bounds (currentTime o) D Hct HD) as (capped & Hcap & Hcapped).
  assert (Hpercent : jround (percentWatched o) = Fin (inject_Z (Qfloor (capped + (1 # 2))))).
  { unfold percentWatched. rewrite Hfloor. fold D.
    unfold percentOf in Hcap. now rewrite Hcap. }
  exists (if Qle_bool (inject_Z (Qfloor source)) D then Qfloor source else Qfloor d0),
         (Qfloor d0), (Qfloor (capped + (1 # 2))).
  cbn [watchedDuration totalDuration watchPercent videoId autoplay buildVideoPayload].
  rewrite Hfloor. fold D. rewrite Hwatched, Hpercent.
  split; [reflexivity|]. split; [reflexivity|]. split; [reflexivity|].
  split; [reflexivity|]. split; [assumption|]. split; [|split; [|now split]].
  - pose proof (Qfloor_nonneg source Hsource) as H0.
    destruct (Qle_bool (inject_Z (Qfloor source)) D) eqn:Hle; [|lia].
    apply Qle_bool_iff in Hle. subst D. rewrite <- Zle_Qle in Hle. lia.
  - split.
    + apply Qfloor_nonneg. lra.
    + change 100%Z with (Qfloor (100 + (1 # 2))). apply Qfloor_resp_le. lra.
Qed.

End PayloadProperties.

Lemma payload_stays_within_the_video_witness :
  exists watched total percent : Z,
    Tracker.watchedDuration sentAt245 = Fin (inject_Z watched)
    /\ Tracker.totalDuration sentAt245 = Fin (inject_Z total)
    /\ Tracker.watchPercent sentAt245 = Fin (inject_Z percent)
    /\ total = Qfloor 600
    /\ (1 <= total)%Z
    /\ (0 <= watched <= total)%Z
    /\ (0 <= percent <= 100)%Z
    /\ Tracker.videoId sentAt245 = Tracker.currentVideoId (Tracker.session 245)
    /\ Tracker.autoplay sentAt245 = Tracker.autoplayDetected (Tracker.session 245).
Proof.
  apply (payload_stays_within_the_video (Tracker.at600 245) (Tracker.session 245) sentAt245 600
           eq_refl eq_refl); unfold Qle; cbn; lia.
Defined.

Section StoreFacts.
Import Storage.
Context {P : Platform}.

Lemma findIndex_absent {A : Type} (f : A -> bool) (l : list A) (x : A) :
  findIndex f l = None -> In x l -> f x = false.
Proof.
  intros Hnone Hin. destruct (f x) eqn:Hfx; [|reflexivity].
  destruct (findIndex_found f l x Hin Hfx) as [i Hi]. congruence.
Qed.

Lemma patch_cases (videoId : JsVal) (updates : Obj) (videos : list Obj) :
  (findIndex (sameVideoId videoId) videos = None /\ patch videoId updates videos = videos)
  \/ (exists i record,
        findIndex (sameVideoId videoId) videos = Some i
        /\ videos !! i = Some record
        /\ sameVideoId videoId record = true
        /\ patch videoId updates videos = <[i := updates ∪ record]> videos).
Proof.
  unfold patch. destruct (findIndex (sameVideoId videoId) videos) as [i|] eqn:Hi.
  - right. destruct (findIndex_Some _ _ _ Hi) as (record & Hrec & Hsame).
    exists i, record. rewrite Hrec. auto.
  - left. auto.
Qed.

Lemma updateVideo_absent (videoId : JsVal) (updates : Obj) (w : World) :
  findIndex (sameVideoId videoId) (stored_videos w) = None ->
  updateVideo videoId updates w = (Ok tt, w).
Proof.
  intros Hnone. unfold updateVideo, bind, getVideos, gets. cbn. now rewrite Hnone.
Qed.

(** X5. updateVideo returns without throwing and keeps the number of
    records; when no record has the id the world is unchanged; otherwise
    exactly one record changes, the first one with that id in store order,
    which becomes {...record, ...updates}, while every other position keeps
    its record. *)
Theorem updateVideo_touches_first_match_only (videoId : JsVal) (updates : Obj) (w : World) :
  let w' := snd (updateVideo videoId updates w) in
  fst (updateVideo videoId updates w) = Ok tt
  /\ length (stored_videos w') = length (stored_videos w)
  /\ (recordsOf videoId (stored_videos w) = [] -> w' = w)
  /\ (forall (i : nat) (record : Obj),
        findIndex (sameVideoId videoId) (stored_videos w) = Some i ->
        stored_videos w !! i = Some record ->
        stored_videos w' !! i = Some (updates ∪ record)
        /\ (forall j : nat, j <> i -> stored_videos w' !! j = stored_videos w !! j)
        /\ (forall (j : nat) (other : Obj),
              stored_videos w !! j = Some other -> sameVideoId videoId other = true ->
              (i <= j)%nat)).
Proof.
  intros w'. destruct (updateVideo_run videoId updates w) as (Hok & Hvideos & _).
  fold w' in Hvideos.
  split; [assumption|]. split; [|split].
  - rewrite Hvideos. destruct (patch_cases videoId updates (stored_videos w))
      as [[_ ->]|(i & record & _ & _ & _ & ->)]; [reflexivity|apply length_insert].
  - intros Hnone. apply findIndex_None in Hnone. subst w'.
    now rewrite updateVideo_absent.
  - intros i record Hi Hrec. rewrite Hvideos. split; [|split].
    + now apply patch_record.
    + intros j Hne. unfold patch. rewrite Hi, Hrec.
      apply list_lookup_insert_ne. congruence.
    + intros j other Hj Hsame. eapply findIndex_least; eauto.
Qed.

Lemma filter_negb_nil {A : Type} (f : A -> bool) (l : list A) :
  List.filter f (List.filter (fun x => negb (f x)) l) = [].
Proof.
  induction l as [|x l IH]; [reflexivity|].
  cbn. destruct (f x) eqn:Hfx; cbn; [assumption|]. now rewrite Hfx.
Qed.

Lemma filter_all {A : Type} (f : A -> bool) (l : list A) :
  (forall x, In x l -> f x = true) -> List.filter f l = l.
Proof.
  induction l as [|x l IH]; intros Hall; [reflexivity|].
  cbn. rewrite (Hall x) by now left. f_equal. apply IH. intros y Hy. apply Hall. now right.
Qed.

Lemma deleteVideo_run (videoId : JsVal) (w : World) :
  deleteVideo videoId w
  = (Ok tt, set_videos (List.filter (fun video => negb (sameVideoId videoId video))
                          (stored_videos w)) w).
Proof. reflexivity. Qed.

(** X6. deleteVideo returns without throwing and removes every record with
    the given id (not only the first), keeping exactly the records with
    another id; with no such record the store is unchanged; settings, cached
    report and the worker's queue are untouched; an updateVideo for the
    deleted id afterwards changes nothing. *)
Theorem deleteVideo_removes_every_match (videoId : JsVal) (w : World) :
  let w' := snd (deleteVideo videoId w) in
  fst (deleteVideo videoId w) = Ok tt
  /\ recordsOf videoId (stored_videos w') = []
  /\ (forall video : Obj,
        In video (stored_videos w')
        <-> In video (stored_videos w) /\ sameVideoId videoId video = false)
  /\ (recordsOf videoId (stored_videos w) = [] -> stored_videos w' = stored_videos w)
  /\ stored_settings w' = stored_settings w
  /\ stored_report w' = stored_report w
  /\ aiQueue w' = aiQueue w
  /\ (forall updates : Obj, updateVideo videoId updates w' = (Ok tt, w')).
Proof.
  intros w'. subst w'. rewrite deleteVideo_run. cbn [fst snd set_videos stored_videos
    stored_settings stored_report aiQueue].
  split; [reflexivity|]. split; [apply filter_negb_nil|]. split; [|split].
  - intros video. rewrite filter_In, negb_true_iff. reflexivity.
  - intros Hnone. apply filter_all. intros x Hx.
    apply findIndex_None in Hnone. now rewrite (findIndex_absent _ _ x Hnone Hx).
  - repeat split. intros updates. apply updateVideo_absent.
    apply findIndex_None. cbn [stored_videos set_videos]. apply filter_negb_nil.
Qed.

End StoreFacts.

Section HistoryInvariant.
Import Storage.
Context {P : Platform}.

Lemma upsert_cases (video : Obj) (videos : list Obj) :
  (findIndex (sameVideoId (getProp video "videoId")) videos = None
   /\ upsert video videos = videos ++ [freshVideo video])
  \/ (exists i existing,
        findIndex (sameVideoId (getProp video "videoId")) videos = Some i
        /\ videos !! i = Some existing
        /\ sameVideoId (getProp video "videoId") existing = true
        /\ upsert video videos = <[i := mergeVideo existing video]> videos).
Proof.
  unfold upsert.
  destruct (findIndex (sameVideoId (getProp video "videoId")) videos) as [i|] eqn:Hi.
  - right. destruct (findIndex_Some _ _ _ Hi) as (existing & Hex & Hsame).
    exists i, existing. rewrite Hex. auto.
  - left. auto.
Qed.

Lemma payload_merge_id (existing : Obj) (ev : Tracker.Payload) (id : string) :
  Tracker.videoId ev = Some id ->
  getProp (mergeVideo existing (payloadObject ev)) "videoId" = JStr id.
Proof.
  intros Hid. rewrite mergeVideo_videoId.
  apply getProp_lookup, lookup_union_Some_l. now apply payloadObject_videoId_lookup.
Qed.

Lemma In_insert {A : Type} (l : list A) (i : nat) (x y : A) :
  In y (<[i := x]> l) -> y = x \/ exists j, j <> i /\ l !! j = Some y.
Proof.
  intros Hin. apply list_elem_of_In, list_elem_of_lookup in Hin as [j Hj].
  destruct (decide (j = i)) as [->|Hne].
  - left. destruct (decide (i < length l)%nat) as [Hlt|Hge].
    + rewrite list_lookup_insert_eq in Hj by assumption. congruence.
    + rewrite list_insert_ge in Hj by lia. apply lookup_lt_Some in Hj. lia.
  - right. exists j. rewrite list_lookup_insert_ne in Hj by congruence. auto.
Qed.

Lemma storeOk_upsert (videos : list Obj) (ev : Tracker.Payload) (id : string) :
  Tracker.videoId ev = Some id ->
  storeOk videos -> storeOk (upsert (payloadObject ev) videos).
Proof.
  intros Hid [Huniq Hcounts].
  pose proof (payloadObject_videoId ev id Hid) as Hvid.
  destruct (upsert_cases (payloadObject ev) videos)
    as [[Hnone ->]|(i & existing & Hi & Hex & Hsame & ->)]; rewrite Hvid in *.
  - rewrite freshVideo_payload. split.
    + intros a b x y Ha Hb Heq.
      assert (Hfresh : forall n z, videos !! n = Some z ->
                getProp z "videoId" <> JStr id).
      { intros n z Hz Hzid. apply list_elem_of_lookup_2, list_elem_of_In in Hz.
        pose proof (findIndex_absent _ _ z Hnone Hz) as Hf.
        apply sameVideoId_string in Hzid. congruence. }
      destruct (decide (a < length videos)%nat) as [Ha'|Ha'];
        destruct (decide (b < length videos)%nat) as [Hb'|Hb'].
      * rewrite lookup_app_l in Ha, Hb by assumption. eauto.
      * rewrite lookup_app_l in Ha by assumption. rewrite lookup_app_r in Hb by lia.
        apply list_lookup_singleton_Some in Hb as [_ <-].
        rewrite Hvid in Heq. apply strictEq_string in Heq. now apply Hfresh in Ha.
      * rewrite lookup_app_l in Hb by assumption. rewrite lookup_app_r in Ha by lia.
        apply list_lookup_singleton_Some in Ha as [_ <-].
        rewrite Hvid in Heq. apply strictEq_string_l in Heq. now apply Hfresh in Hb.
      * rewrite lookup_app_r in Ha, Hb by lia.
        apply list_lookup_singleton_Some in Ha as [Ha _].
        apply list_lookup_singleton_Some in Hb as [Hb _]. lia.
    + intros video Hin. apply in_app_or in Hin as [Hin|[<-|[]]]; [now apply Hcounts|].
      exists 1%Q. split; [apply getProp_lookup, payloadObject_rewatchCount|apply Qle_refl].
  - apply sameVideoId_string in Hsame as Heid.
    assert (Hlt : (i < length videos)%nat) by (eapply lookup_lt_Some; eauto).
    assert (Hmid := payload_merge_id existing ev id Hid).
    split.
    + intros a b x y Ha Hb Heq.
      destruct (decide (a = i)) as [->|Hai]; destruct (decide (b = i)) as [->|Hbi];
        [reflexivity| | |].
      * rewrite list_lookup_insert_eq in Ha by assumption. injection Ha as <-.
        rewrite list_lookup_insert_ne in Hb by congruence.
        apply (Huniq i b existing y Hex Hb). now rewrite Heid, <- Hmid.
      * rewrite list_lookup_insert_eq in Hb by assumption. injection Hb as <-.
        rewrite list_lookup_insert_ne in Ha by congruence.
        apply (Huniq a i x existing Ha Hex). now rewrite Heid, <- Hmid.
      * rewrite list_lookup_insert_ne in Ha, Hb by congruence. eauto.
    + intros video Hin. apply In_insert in Hin as [->|(j & _ & Hj)].
      * destruct (Hcounts existing) as (c & Hc & H1).
        { eapply list_elem_of_In, list_elem_of_lookup_2; eauto. }
        exists (c + 1)%Q. split; [now apply mergeVideo_rewatchCount|lra].
      * apply Hcounts. eapply list_elem_of_In, list_elem_of_lookup_2; eauto.
Qed.

Lemma watchLog_snoc (evs : list Tracker.Payload) (ev : Tracker.Payload) :
  watchLog (evs ++ [ev]) = upsert (payloadObject ev) (watchLog evs).
Proof. unfold watchLog. now rewrite fold_left_app. Qed.

Lemma watchCount_snoc (id : string) (evs : list Tracker.Payload) (ev : Tracker.Payload) :
  watchCount id (evs ++ [ev])
  = (watchCount id evs
     + if bool_decide (Tracker.videoId ev = Some id) then 1 else 0)%nat.
Proof.
  unfold watchCount. rewrite List.filter_app, length_app. cbn [List.filter].
  now destruct (bool_decide (Tracker.videoId ev = Some id)).
Qed.

Lemma In_insert_other {A : Type} (l : list A) (i j : nat) (x y : A) :
  j <> i -> l !! j = Some y -> In y (<[i := x]> l).
Proof.
  intros Hne Hj. apply list_elem_of_In, list_elem_of_lookup. exists j.
  now rewrite list_lookup_insert_ne by congruence.
Qed.

Lemma watchLog_invariant (evs : list Tracker.Payload) :
  (forall ev, In ev evs -> Tracker.videoId ev <> None) ->
  storeOk (watchLog evs)
  /\ (forall r, In r (watchLog evs) ->
        exists (id : string) (c : Q),
          getProp r "videoId" = JStr id
          /\ getProp r "rewatchCount" = JNum (Fin c)
          /\ (c == inject_Z (Z.of_nat (watchCount id evs)))%Q
          /\ (0 < watchCount id evs)%nat)
  /\ (forall id, (0 < watchCount id evs)%nat ->
        exists r, In r (watchLog evs) /\ getProp r "videoId" = JStr id).
Proof.
  induction evs as [|ev evs IH] using rev_ind; intros Hids.
  - split; [apply storeOk_nil|]. split.
    + intros r [].
    + intros id H. cbn in H. lia.
  - destruct IH as (Hok & Hrec & Hex).
    { intros e He. apply Hids, in_or_app. now left. }
    destruct (Tracker.videoId ev) as [id0|] eqn:Hid0.
    2:{ exfalso. apply (Hids ev); [apply in_or_app; right; now left|assumption]. }
    rewrite watchLog_snoc.
    split; [now apply (storeOk_upsert _ _ id0)|].
    pose proof (payloadObject_videoId ev id0 Hid0) as Hvid.
    assert (Hcount : forall id, watchCount id (evs ++ [ev])
              = (watchCount id evs + if bool_decide (id0 = id) then 1 else 0)%nat).
    { intros id. rewrite watchCount_snoc, Hid0.
      destruct (decide (id0 = id)) as [->|Hne].
      - now rewrite !bool_decide_eq_true_2.
      - rewrite !bool_decide_eq_false_2; congruence. }
    destruct Hok as [Huniq Hcounts].
    destruct (upsert_cases (payloadObject ev) (watchLog evs))
      as [[Hnone ->]|(i & existing & Hi & Hexi & Hsame & ->)]; rewrite Hvid in *.
    + assert (Hfresh : forall z, In z (watchLog evs) -> getProp z "videoId" <> JStr id0).
      { intros z Hz Hzid. pose proof (findIndex_absent _ _ z Hnone Hz) as Hf.
        apply sameVideoId_string in Hzid. congruence. }
      rewrite freshVideo_payload. split.
      * intros r Hin. apply in_app_or in Hin as [Hin|[<-|[]]].
        -- destruct (Hrec r Hin) as (id & c & Hrid & Hc & Hcq & Hpos).
           exists id, c. rewrite Hcount.
           rewrite bool_decide_eq_false_2.
           2:{ intros <-. now apply (Hfresh r Hin). }
           rewrite Nat.add_0_r. auto.
        -- exists id0, 1%Q. rewrite Hcount, bool_decide_eq_true_2 by reflexivity.
           assert (Hzero : watchCount id0 evs = 0%nat).
           { destruct (watchCount id0 evs) eqn:Hn; [reflexivity|].
             destruct (Hex id0) as (r & Hr & Hrid); [lia|]. now apply Hfresh in Hr. }
           rewrite Hzero. split; [assumption|]. split; [|split; [reflexivity|lia]].
           apply getProp_lookup, payloadObject_rewatchCount.
      * intros id Hpos. rewrite Hcount in Hpos.
        destruct (decide (id0 = id)) as [<-|Hne].
        -- exists (payloadObject ev). split; [apply in_or_app; right; now left|assumption].
        -- rewrite bool_decide_eq_false_2, Nat.add_0_r in Hpos by assumption.
           destruct (Hex id Hpos) as (r & Hr & Hrid).
           exists r. split; [apply in_or_app; now left|assumption].
    + apply sameVideoId_string in Hsame as Heid.
      assert (Hlt : (i < length (watchLog evs))%nat) by (eapply lookup_lt_Some; eauto).
      assert (Hmid := payload_merge_id existing ev id0 Hid0).
      assert (Hin_ex : In existing (watchLog evs)).
      { eapply list_elem_of_In, list_elem_of_lookup_2; eauto. }
      assert (Hother : forall j y, j <> i -> watchLog evs !! j = Some y ->
                getProp y "videoId" <> JStr id0).
      { intros j y Hne Hj Hyid. apply Hne. symmetry.
        apply (Huniq i j existing y Hexi Hj). rewrite Heid, Hyid. cbn.
        apply String.eqb_refl. }
      split.
      * intros r Hin. apply In_insert in Hin as [->|(j & Hne & Hj)].
        -- destruct (Hrec existing Hin_ex) as (id & c & Hrid & Hc & Hcq & Hpos).
           assert (id = id0) as -> by congruence.
           exists id0, (c + 1)%Q. rewrite Hcount, bool_decide_eq_true_2 by reflexivity.
           split; [assumption|]. split; [|split; [|lia]].
           ++ apply mergeVideo_rewatchCount; [assumption|].
              rewrite Hcq. change 1%Q with (inject_Z 1). rewrite <- Zle_Qle. lia.
           ++ rewrite Hcq, Nat2Z.inj_add, inject_Z_plus. reflexivity.
        -- assert (Hinr : In r (watchLog evs)).
           { eapply list_elem_of_In, list_elem_of_lookup_2; eauto. }
           destruct (Hrec r Hinr) as (id & c & Hrid & Hc & Hcq & Hpos).
           exists id, c. rewrite Hcount, bool_decide_eq_false_2.
           2:{ intros <-. now apply (Hother j r Hne Hj). }
           rewrite Nat.add_0_r. auto.
      * intros id Hpos. rewrite Hcount in Hpos.
        destruct (decide (id0 = id)) as [<-|Hne].
        -- exists (mergeVideo existing (payloadObject ev)). split; [|assumption].
           apply list_elem_of_In, list_elem_of_lookup. exists i.
           now apply list_lookup_insert_eq.
        -- rewrite bool_decide_eq_false_2, Nat.add_0_r in Hpos by assumption.
           destruct (Hex id Hpos) as (r & Hr & Hrid).
           exists r. split; [|assumption].
           apply list_elem_of_In, list_elem_of_lookup in Hr as [j Hj].
           apply (In_insert_other _ i j); [|assumption].
           intros ->. assert (r = existing) as -> by congruence. congruence.
Qed.

(** X7. Starting from an empty store, after any sequence of watch events
    built by buildVideoPayload (each with a video id) has been saved, the
    store has one record per id, every rewatchCount is a number at least 1,
    an id that was never watched has no record, and the record of an id that
    was watched has rewatchCount equal to the number of events with that id. *)
Theorem rewatchCount_counts_watch_events (evs : list Tracker.Payload) (id : string) :
  (forall ev, In ev evs -> Tracker.videoId ev <> None) ->
  storeOk (watchLog evs)
  /\ (watchCount id evs = 0%nat -> recordsOf (JStr id) (watchLog evs) = [])
  /\ ((0 < watchCount id evs)%nat ->
      exists (r : Obj) (c : Q),
        recordsOf (JStr id) (watchLog evs) = [r]
        /\ getProp r "rewatchCount" = JNum (Fin c)
        /\ (c == inject_Z (Z.of_nat (watchCount id evs)))%Q).
Proof.
  intros Hids. destruct (watchLog_invariant evs Hids) as (Hok & Hrec & Hex).
  split; [assumption|]. split.
  - intros Hzero. unfold recordsOf.
    destruct (List.filter (sameVideoId (JStr id)) (watchLog evs)) as [|r rest] eqn:Hf;
      [reflexivity|].
    assert (Hin : In r (List.filter (sameVideoId (JStr id)) (watchLog evs))).
    { rewrite Hf. now left. }
    apply filter_In in Hin as [Hin Hsame]. apply sameVideoId_string in Hsame.
    destruct (Hrec r Hin) as (id' & c & Hrid & _ & _ & Hpos).
    assert (id' = id) as -> by congruence. lia.
  - intros Hpos. destruct (Hex id Hpos) as (r & Hin & Hrid).
    destruct (Hrec r Hin) as (id' & c & Hrid' & Hc & Hcq & _).
    assert (id' = id) as -> by congruence.
    exists r, c. split; [|auto].
    apply list_elem_of_In, list_elem_of_lookup in Hin as [i Hi].
    apply (filter_single _ _ i); [assumption|now apply sameVideoId_string|].
    intros j y Hj Hy. apply sameVideoId_string in Hy.
    destruct Hok as [Huniq _]. apply (Huniq j i y r Hj Hi).
    rewrite Hy, Hrid. cbn. apply String.eqb_refl.
Qed.

End HistoryInvariant.

Lemma rewatchCount_counts_watch_events_witness :
  exists (r : Obj) (c : Q),
    recordsOf (JStr "abc123") (watchLog (P := testEngine) [firstWatch; secondWatch]) = [r]
    /\ getProp r "rewatchCount" = JNum (Fin c)
    /\ (c == 2)%Q.
Proof.
  refine (proj2 (proj2 (rewatchCount_counts_watch_events (P := testEngine)
                          [firstWatch; secondWatch] "abc123" _)) _).
  - intros ev [<-|[<-|[]]]; discriminate.
  - vm_compute. lia.
Defined.

Section StatsProperties.
Import Storage.
Context {P : Platform}.

Lemma head_sortInsert {A : Type} (cmp : A -> A -> JsNum) (x : A) (l : list A) :
  head (sortInsert cmp x l)
  = match head l with
    | None => Some x
    | Some y => if jpositive (cmp x y) then Some y else Some x
    end.
Proof. destruct l as [|y l]; cbn; [reflexivity|]. now destruct (jpositive (cmp x y)). Qed.

Lemma byRewatchCount_positive (a b : Obj) (x y : Q) :
  rewatchKey a = Fin x -> rewatchKey b = Fin y ->
  jpositive (byRewatchCount a b) = negb (Qle_bool y x).
Proof.
  unfold rewatchKey, byRewatchCount. intros -> ->. cbn.
  destruct (Qle_bool y x) eqn:Hle.
  - apply Qle_bool_iff in Hle. apply negb_false_iff, Qle_bool_iff. lra.
  - apply negb_true_iff. destruct (Qle_bool (y + - x) 0) eqn:H; [|reflexivity].
    apply Qle_bool_iff in H. assert (Hyx : (y <= x)%Q) by lra.
    apply Qle_bool_iff in Hyx. congruence.
Qed.

Lemma first_maximum (videos : list Obj) :
  (forall video, In video videos -> exists q, rewatchKey video = Fin q) ->
  videos <> [] ->
  exists (i : nat) (best : Obj) (top : Q),
    head (sortBy byRewatchCount videos) = Some best
    /\ videos !! i = Some best
    /\ rewatchKey best = Fin top
    /\ (forall (j : nat) (other : Obj) (q : Q),
          videos !! j = Some other -> rewatchKey other = Fin q ->
          (q <= top)%Q /\ ((top <= q)%Q -> (i <= j)%nat)).
Proof.
  induction videos as [|x rest IH]; intros Hnum Hne; [congruence|].
  destruct (Hnum x) as [qx Hx]; [now left|].
  cbn [sortBy fold_right]. fold (sortBy byRewatchCount rest). rewrite head_sortInsert.
  destruct rest as [|y rest'].
  - exists 0%nat, x, qx.
    split; [reflexivity|]. split; [reflexivity|]. split; [assumption|].
    intros j other q Hj Hq. destruct j as [|j]; cbn in Hj; [|discriminate].
    injection Hj as <-. rewrite Hx in Hq. injection Hq as <-. split; [lra|lia].
  - destruct IH as (i & best & top & Hhead & Hi & Hbest & Hall).
    { intros v Hv. apply Hnum. now right. }
    { discriminate. }
    rewrite Hhead. rewrite (byRewatchCount_positive x best qx top Hx Hbest).
    destruct (Qle_bool top qx) eqn:Hle; cbn [negb].
    + apply Qle_bool_iff in Hle. exists 0%nat, x, qx.
      split; [reflexivity|]. split; [reflexivity|]. split; [assumption|].
      intros j other q Hj Hq. destruct j as [|j]; cbn in Hj.
      * injection Hj as <-. rewrite Hx in Hq. injection Hq as <-. split; [lra|lia].
      * destruct (Hall j other q Hj Hq) as [H1 _]. split; [lra|lia].
    + assert (Hlt : (qx < top)%Q).
      { destruct (Qlt_le_dec qx top) as [H|H]; [assumption|].
        apply Qle_bool_iff in H. congruence. }
      exists (S i), best, top.
      split; [reflexivity|]. split; [exact Hi|]. split; [assumption|].
      intros j other q Hj Hq. destruct j as [|j]; cbn in Hj.
      * injection Hj as <-. rewrite Hx in Hq. injection Hq as <-. split; [lra|lra].
      * destruct (Hall j other q Hj Hq) as [H1 H2]. split; [assumption|].
        intros H. specialize (H2 H). lia.
Qed.

Lemma total_bounds (k : string) (lo hi : Q) (videos : list Obj) :
  (lo <= 0)%Q -> (0 <= hi)%Q ->
  (forall video, In video videos ->
     exists q, getProp video k = JNum (Fin q) /\ (lo <= q <= hi)%Q) ->
  exists t : Q,
    total k videos = JNum (Fin t)
    /\ (lo * inject_Z (Z.of_nat (length videos)) <= t)%Q
    /\ (t <= hi * inject_Z (Z.of_nat (length videos)))%Q.
Proof.
  intros Hlo Hhi. unfold total.
  assert (Hgen : forall (videos : list Obj) (acc : Q),
            (forall video, In video videos ->
               exists q, getProp video k = JNum (Fin q) /\ (lo <= q <= hi)%Q) ->
            exists t : Q,
              fold_left (fun sum video => jsAdd sum (vor (getProp video k) (JNum (Fin 0))))
                videos (JNum (Fin acc)) = JNum (Fin t)
              /\ (acc + lo * inject_Z (Z.of_nat (length videos)) <= t)%Q
              /\ (t <= acc + hi * inject_Z (Z.of_nat (length videos)))%Q).
  { clear videos. induction videos as [|v videos IH]; intros acc Hall.
    - exists acc. cbn [fold_left length]. change (inject_Z (Z.of_nat 0)) with 0%Q.
      split; [reflexivity|]. split; lra.
    - destruct (Hall v) as (q & Hq & Hrange); [now left|].
      cbn [fold_left]. rewrite Hq.
      assert (Hadd : exists q', jsAdd (JNum (Fin acc)) (vor (JNum (Fin q)) (JNum (Fin 0)))
                                = JNum (Fin (acc + q')) /\ (lo <= q' <= hi)%Q).
      { unfold vor. cbn [truthy jtruthy].
        destruct (Qzero q); cbn [negb]; [exists 0%Q|exists q]; (split; [reflexivity|lra]). }
      destruct Hadd as (q' & -> & Hq').
      destruct (IH (acc + q')%Q) as (t & Ht & H1 & H2).
      { intros u Hu. apply Hall. now right. }
      exists t. split; [assumption|].
      cbn [length]. rewrite Nat2Z.inj_succ, <- Z.add_1_l, inject_Z_plus.
      change (inject_Z 1) with 1%Q. split; lra. }
  intros Hall. destruct (Hgen videos 0%Q Hall) as (t & Ht & H1 & H2).
  exists t. split; [assumption|]. split; lra.
Qed.

(** X8. getStats never throws and changes nothing; totalVideos is the number
    of records; on an empty store it returns zeros and mostRewatched null;
    when every rewatchCount (0 when falsy) is a finite number, mostRewatched
    is a stored record with the largest count, and among those the first in
    store order; when every watchPercent is a number between 0 and 100, so
    is avgWatchPercent. *)
Theorem getStats_reports_the_store (w : World) :
  let videos := stored_videos w in
  (exists stats : Stats,
      getStats w = (Ok stats, w) /\ totalVideos stats = length videos
      /\ (videos = [] -> stats = emptyStats)
      /\ ((forall video, In video videos -> exists q, rewatchKey video = Fin q) ->
          videos <> [] ->
          exists (i : nat) (best : Obj) (top : Q),
            mostRewatched stats = Some best
            /\ videos !! i = Some best
            /\ rewatchKey best = Fin top
            /\ (forall (j : nat) (other : Obj) (q : Q),
                  videos !! j = Some other -> rewatchKey other = Fin q ->
                  (q <= top)%Q /\ ((top <= q)%Q -> (i <= j)%nat)))
      /\ ((forall video, In video videos ->
             exists q, getProp video "watchPercent" = JNum (Fin q) /\ (0 <= q <= 100)%Q) ->
          exists average : Q,
            avgWatchPercent stats = JNum (Fin average) /\ (0 <= average <= 100)%Q)).
Proof.
  intros videos. unfold getStats, tryCatch, bind, getVideos, gets, ret. fold videos.
  destruct videos as [|v rest] eqn:Hvideos.
  - cbn. exists emptyStats. repeat split; try reflexivity; try congruence.
    intros _. exists 0%Q. split; [reflexivity|]. split; discriminate.
  - rewrite <- Hvideos. assert (Hlen : (length videos =? 0)%nat = false).
    { subst videos. rewrite Hvideos. reflexivity. }
    fold videos. rewrite Hlen. eexists. split; [reflexivity|].
    cbn [totalVideos mostRewatched avgWatchPercent].
    split; [reflexivity|]. split; [subst videos; congruence|]. split.
    + intros Hnum Hne. apply first_maximum; assumption.
    + intros Hall.
      destruct (total_bounds "watchPercent" 0 100 videos) as (t & -> & H1 & H2);
        [lra|lra|assumption|].
      cbn [ToNumber jdiv].
      set (n := inject_Z (Z.of_nat (length videos))) in *.
      assert (Hn : (1 <= n)%Q).
      { subst n videos. rewrite Hvideos. cbn [length].
        rewrite Nat2Z.inj_succ, <- Z.add_1_l, inject_Z_plus.
        change (inject_Z 1) with 1%Q.
        assert (0 <= inject_Z (Z.of_nat (length rest)))%Q; [|lra].
        change 0%Q with (inject_Z 0). rewrite <- Zle_Qle. lia. }
      assert (Hnz : Qzero n = false).
      { unfold Qzero. destruct (Qeq_bool n 0) eqn:Hz; [|reflexivity].
        apply Qeq_bool_iff in Hz. lra. }
      rewrite Hnz. exists (t / n)%Q. split; [reflexivity|]. split.
      * apply Qle_shift_div_l; lra.
      * apply Qle_shift_div_r; lra.
Qed.

End StatsProperties.

Section CallFacts.
Context {P : Platform}.

Lemma log_requests_nil (w : World) : log_requests [] w = w.
Proof. destruct w. unfold log_requests. cbn. now rewrite app_nil_r. Qed.

Lemma add_request_log (r : Request) (added : list Request) (w : World) :
  add_request r (log_requests added w) = log_requests (added ++ [r]) w.
Proof. unfold add_request, log_requests. cbn. now rewrite app_assoc. Qed.

Lemma add_request_one (r : Request) (w : World) : add_request r w = log_requests [r] w.
Proof. reflexivity. Qed.

Lemma callOpenRouter_no_key (apiKey : JsVal) (model prompt : string) (w : World) :
  truthy apiKey = false ->
  Ai.callOpenRouter apiKey model prompt w = (Throw "Missing OpenRouter API key", w).
Proof. intros H. unfold Ai.callOpenRouter. now rewrite H. Qed.

Lemma callWithFallback_log (apiKey : JsVal) (prompt : string) (w : World) :
  exists (res : Res JsVal) (added : list Request),
    Ai.callWithFallback apiKey prompt w = (res, log_requests added w)
    /\ fallbackOrder w prompt added
    /\ (truthy apiKey = false ->
        added = [] /\ res = Throw "Missing OpenRouter API key")
    /\ (truthy apiKey = true -> added <> []).
Proof.
  unfold Ai.callWithFallback, tryCatch.
  destruct (truthy apiKey) eqn:Hkey.
  - unfold Ai.callOpenRouter. rewrite Hkey. cbn [negb].
    fold (primaryRequest prompt). fold (fallbackRequest prompt).
    destruct (network w (length (requests w)) (primaryRequest prompt)) as [e|c] eqn:Hnet.
    + destruct (network (add_request (primaryRequest prompt) w) _ (fallbackRequest prompt))
        as [e2|c2].
      * exists (Throw e2), [primaryRequest prompt; fallbackRequest prompt].
        split; [now rewrite (add_request_one (primaryRequest prompt) w), add_request_log|].
        split; [right; right; eauto|]. split; [discriminate|discriminate].
      * exists (Ok c2), [primaryRequest prompt; fallbackRequest prompt].
        split; [now rewrite (add_request_one (primaryRequest prompt) w), add_request_log|].
        split; [right; right; eauto|]. split; [discriminate|discriminate].
    + exists (Ok c), [primaryRequest prompt].
      split; [reflexivity|]. split; [right; now left|]. split; discriminate.
  - rewrite !callOpenRouter_no_key by assumption.
    exists (Throw "Missing OpenRouter API key"), [].
    split; [now rewrite log_requests_nil|]. split; [now left|].
    split; [auto|discriminate].
Qed.

Lemma fallbackOrder_length (w : World) (prompt : string) (added : list Request) :
  fallbackOrder w prompt added -> (length added <= 2)%nat.
Proof. intros [->|[->|[-> _]]]; cbn; lia. Qed.

(** X9. In both copies of utils/ai.js, categorizeVideoAi returns a
    classification for every title, channel name, key and network behaviour
    (it never throws), and changes nothing but the request log, to which it
    adds nothing, one request to the primary model, or that request followed
    by one to the fallback model after the primary one failed; without a key
    it sends no request and returns its default (the keyword guess, or
    Uncategorized/low). *)
Theorem categorizeVideoAi_never_throws (title channelName apiKey : JsVal) (w : World) :
  (exists (result : Classification) (added : list Request),
      Ai.categorizeVideoAi title channelName apiKey w = (Ok result, log_requests added w)
      /\ fallbackOrder w
           (Ai.categorizationPrompt title channelName
              (Ai.inferHeuristicCategory title channelName)) added
      /\ (truthy apiKey = false ->
          added = [] /\ result = Ai.heuristicResult title channelName))
  /\ (exists (result : Classification) (added : list Request),
        AiPlain.categorizeVideoAi title channelName apiKey w
        = (Ok result, log_requests added w)
        /\ fallbackOrder w (AiPlain.categorizationPrompt title channelName) added
        /\ (truthy apiKey = false -> added = [] /\ result = AiPlain.defaultResult)).
Proof.
  split.
  - unfold Ai.categorizeVideoAi, tryCatch, bind, throw, lift, ret.
    destruct (callWithFallback_log apiKey
                (Ai.categorizationPrompt title channelName
                   (Ai.inferHeuristicCategory title channelName)) w)
      as (res & added & -> & Horder & Hnokey & _).
    assert (Hcatch : truthy apiKey = false ->
              added = [] /\ Ai.heuristicResult title channelName
                             = Ai.heuristicResult title channelName).
    { intros H. destruct (Hnokey H). auto. }
    destruct res as [content|e].
    + assert (Hkey : truthy apiKey = false -> False).
      { intros H. destruct (Hnokey H) as [_ ?]. discriminate. }
      destruct (truthy content); cbn [negb].
      * destruct (Ai.parseJsonContent content) as [parsed|e];
          [|eexists _, added; split; [reflexivity|]; split; [assumption|]; assumption].
        destruct (Ai.jsonProp parsed "category");
          [|eexists _, added; split; [reflexivity|]; split; [assumption|]; assumption].
        destruct (Ai.jsonProp parsed "confidence");
          eexists _, added; (split; [reflexivity|]); (split; [assumption|]);
          [intros H; now destruct (Hkey H)|assumption].
      * eexists _, added. split; [reflexivity|]. split; assumption.
    + eexists _, added. split; [reflexivity|]. split; assumption.
  - unfold AiPlain.categorizeVideoAi, tryCatch, bind, throw, lift, ret.
    destruct (callWithFallback_log apiKey (AiPlain.categorizationPrompt title channelName) w)
      as (res & added & -> & Horder & Hnokey & _).
    assert (Hcatch : truthy apiKey = false ->
              added = [] /\ AiPlain.defaultResult = AiPlain.defaultResult).
    { intros H. destruct (Hnokey H). auto. }
    destruct res as [content|e].
    + assert (Hkey : truthy apiKey = false -> False).
      { intros H. destruct (Hnokey H) as [_ ?]. discriminate. }
      destruct (truthy content); cbn [negb].
      * destruct (Ai.parseJsonContent content) as [parsed|e];
          [|eexists _, added; split; [reflexivity|]; split; [assumption|]; assumption].
        destruct (Ai.jsonProp parsed "category");
          [|eexists _, added; split; [reflexivity|]; split; [assumption|]; assumption].
        destruct (Ai.jsonProp parsed "confidence");
          eexists _, added; (split; [reflexivity|]); (split; [assumption|]);
          [intros H; now destruct (Hkey H)|assumption].
      * eexists _, added. split; [reflexivity|]. split; assumption.
    + eexists _, added. split; [reflexivity|]. split; assumption.
Qed.

Lemma categorize_asksAtMostTwice : asksAtMostTwice Ai.categorizeVideoAi.
Proof.
  intros t c k w.
  unfold Ai.categorizeVideoAi, tryCatch, bind, throw, lift, ret.
  destruct (callWithFallback_log k
              (Ai.categorizationPrompt t c (Ai.inferHeuristicCategory t c)) w)
    as (res & added & -> & Horder & _).
  apply fallbackOrder_length in Horder.
  destruct res as [content|e]; [|eauto].
  destruct (truthy content); cbn [negb]; [|eauto].
  destruct (Ai.parseJsonContent content) as [parsed|e]; [|eauto].
  destruct (Ai.jsonProp parsed "category"); [|eauto].
  destruct (Ai.jsonProp parsed "confidence"); eauto.
Qed.

Lemma categorizePlain_asksAtMostTwice : asksAtMostTwice AiPlain.categorizeVideoAi.
Proof.
  intros t c k w.
  unfold AiPlain.categorizeVideoAi, tryCatch, bind, throw, lift, ret.
  destruct (callWithFallback_log k (AiPlain.categorizationPrompt t c) w)
    as (res & added & -> & Horder & _).
  apply fallbackOrder_length in Horder.
  destruct res as [content|e]; [|eauto].
  destruct (truthy content); cbn [negb]; [|eauto].
  destruct (Ai.parseJsonContent content) as [parsed|e]; [|eauto].
  destruct (Ai.jsonProp parsed "category"); [|eauto].
  destruct (Ai.jsonProp parsed "confidence"); eauto.
Qed.

End CallFacts.

Section WorkerFrames.
Import Storage ServiceWorker.
Context {P : Platform}.

Lemma onlyAnnotated_refl (videos : list Obj) : onlyAnnotated videos videos.
Proof. apply Forall2_same_length_lookup. split; [reflexivity|]. intros i x y H1 H2 k _ _. congruence. Qed.

Lemma onlyAnnotated_trans (a b c : list Obj) :
  onlyAnnotated a b -> onlyAnnotated b c -> onlyAnnotated a c.
Proof.
  unfold onlyAnnotated. intros Hab. revert c.
  induction Hab as [|x y a b Hxy Hab IH]; intros c Hbc; inversion Hbc as [|? z ? c' Hyz Hbc']; subst.
  - constructor.
  - constructor; [|now apply IH].
    intros k H1 H2. rewrite (Hyz k H1 H2). now apply Hxy.
Qed.

Lemma patch_onlyAnnotated (videoId : JsVal) (updates : Obj) (videos : list Obj) :
  (forall k : string, k <> "aiCategory" -> k <> "aiCategoryConfidence" -> updates !! k = None) ->
  onlyAnnotated videos (patch videoId updates videos).
Proof.
  intros Hkeys.
  destruct (patch_cases videoId updates videos)
    as [[_ ->]|(i & record & _ & Hrec & _ & ->)]; [apply onlyAnnotated_refl|].
  rewrite <- (list_insert_id videos i record Hrec) at 1.
  apply Forall2_insert; [apply onlyAnnotated_refl|].
  intros k H1 H2. rewrite lookup_union_r; [reflexivity|]. now apply Hkeys.
Qed.

Lemma category_keys (c d : JsVal) (k : string) :
  k <> "aiCategory" -> k <> "aiCategoryConfidence" ->
  ({[ "aiCategory" := c; "aiCategoryConfidence" := d ]} : Obj) !! k = None.
Proof.
  intros H1 H2. rewrite lookup_insert_ne by congruence. now apply lookup_singleton_ne.
Qed.

Lemma updateVideo_frame (videoId : JsVal) (updates : Obj) (w : World) :
  let w' := snd (updateVideo videoId updates w) in
  stored_report w' = stored_report w /\ network w' = network w /\ clock w' = clock w
  /\ queueProcessing w' = queueProcessing w.
Proof.
  unfold updateVideo, bind, getVideos, gets, setVideos, modify, ret. cbn.
  now destruct (findIndex (sameVideoId videoId) (stored_videos w)).
Qed.

Section WorkerRun.
Variable categorize : JsVal -> JsVal -> JsVal -> M Classification.
Hypothesis Hasks : asksAtMostTwice categorize.

Lemma processSingleJob_frame (job : Job) (w : World) :
  let w' := snd (processSingleJob categorize job w) in
  fst (processSingleJob categorize job w) = Ok tt
  /\ onlyAnnotated (stored_videos w) (stored_videos w')
  /\ stored_settings w' = stored_settings w
  /\ stored_report w' = stored_report w
  /\ network w' = network w
  /\ clock w' = clock w
  /\ aiQueue w' = aiQueue w
  /\ exists added, requests w' = requests w ++ added /\ (length added <= 2)%nat.
Proof.
  unfold processSingleJob, bind. rewrite getSettings_run.
  destruct (aiReady (currentSettings w)); cbn [negb].
  - destruct (Hasks (job_title job) (job_channelName job)
                (getProp (currentSettings w) "openRouterApiKey") w)
      as (result & added & -> & Hlen).
    set (updates := {[ "aiCategory" := category result;
                       "aiCategoryConfidence" := confidence result ]} : Obj).
    destruct (updateVideo_run (job_videoId job) updates (log_requests added w))
      as (Hok & Hv & Hs & Hq & Hr).
    destruct (updateVideo_frame (job_videoId job) updates (log_requests added w))
      as (Hrep & Hnet & Hclock & _).
    cbn zeta. split; [assumption|]. split.
    { rewrite Hv. apply patch_onlyAnnotated. intros k. apply category_keys. }
    repeat split; try assumption. exists added. now split.
  - destruct (updateVideo_run (job_videoId job) uncategorized w)
      as (Hok & Hv & Hs & Hq & Hr).
    destruct (updateVideo_frame (job_videoId job) uncategorized w)
      as (Hrep & Hnet & Hclock & _).
    cbn zeta. split; [assumption|]. split.
    { rewrite Hv. apply patch_onlyAnnotated. intros k. apply category_keys. }
    repeat split; try assumption. exists []. rewrite app_nil_r. split; [assumption|cbn; lia].
Qed.

Lemma processNext_frame (job : Job) (w : World) :
  fst (processNext categorize job w) = Ok tt
  /\ workedThrough 1 w (snd (processNext categorize job w))
  /\ aiQueue (snd (processNext categorize job w)) = aiQueue w
  /\ queueProcessing (snd (processNext categorize job w)) = queueProcessing w.
Proof.
  destruct (processSingleJob_frame job w)
    as (Hok & Hann & Hs & Hrep & Hnet & Hclock & Hq & added & Hreq & Hlen).
  assert (Hproc : queueProcessing (snd (processSingleJob categorize job w)) = queueProcessing w).
  { unfold processSingleJob, bind. rewrite getSettings_run.
    destruct (aiReady (currentSettings w)); cbn [negb].
    - destruct (Hasks (job_title job) (job_channelName job)
                  (getProp (currentSettings w) "openRouterApiKey") w)
        as (result & added' & -> & _).
      now destruct (updateVideo_frame (job_videoId job)
                      {[ "aiCategory" := category result;
                         "aiCategoryConfidence" := confidence result ]}
                      (log_requests added' w)) as (_ & _ & _ & ->).
    - now destruct (updateVideo_frame (job_videoId job) uncategorized w) as (_ & _ & _ & ->). }
  unfold processNext, tryCatch, bind, delay, modify, ret.
  destruct (processSingleJob categorize job w) as [[[]|e] w1]; cbn [fst snd] in *;
    [|discriminate].
  split; [reflexivity|]. split; [|split; assumption].
  unfold workedThrough. cbn [advance_clock stored_videos stored_settings stored_report
    network clock requests].
  repeat split; try assumption.
  - rewrite Hclock. unfold AI_RATE_LIMIT_MS. lia.
  - exists added. split; [assumption|lia].
Qed.

Lemma workedThrough_step (n : nat) (w w1 w2 : World) :
  stored_videos w1 = stored_videos w -> stored_settings w1 = stored_settings w ->
  stored_report w1 = stored_report w -> network w1 = network w ->
  clock w1 = clock w -> requests w1 = requests w ->
  workedThrough 1 w1 w2 -> forall w3, workedThrough n w2 w3 -> workedThrough (S n) w w3.
Proof.
  intros Hv Hs Hr Hn Hc Hq (Ha1 & Hs1 & Hr1 & Hn1 & Hc1 & added1 & Hq1 & Hl1)
    w3 (Ha2 & Hs2 & Hr2 & Hn2 & Hc2 & added2 & Hq2 & Hl2).
  unfold workedThrough. rewrite <- Hv. split.
  { eapply onlyAnnotated_trans; eauto. }
  repeat split; try congruence.
  - rewrite Hc2, Hc1, Hc. unfold AI_RATE_LIMIT_MS. lia.
  - exists (added1 ++ added2). rewrite Hq2, Hq1, Hq, app_assoc, length_app.
    split; [reflexivity|lia].
Qed.

Lemma workedThrough_zero (w : World) : workedThrough 0 w w.
Proof.
  unfold workedThrough. split; [apply onlyAnnotated_refl|].
  repeat split; [unfold AI_RATE_LIMIT_MS; lia|].
  exists []. now rewrite app_nil_r.
Qed.

Lemma drainQueue_frame (w : World) :
  exists w', drainQueue categorize (length (aiQueue w)) w = Some (Ok tt, w')
             /\ aiQueue w' = []
             /\ queueProcessing w' = queueProcessing w
             /\ workedThrough (length (aiQueue w)) w w'.
Proof.
  remember (length (aiQueue w)) as n eqn:Hn. revert w Hn.
  induction n as [|n IH]; intros w Hn; cbn [drainQueue].
  - destruct (aiQueue w) eqn:Hq; [|discriminate]. exists w.
    split; [reflexivity|]. split; [assumption|]. split; [reflexivity|].
    apply workedThrough_zero.
  - destruct (aiQueue w) as [|job rest] eqn:Hq; [discriminate|].
    destruct (processNext_frame job (set_queue rest w)) as (Hok & Hwork & Hqueue & Hproc).
    destruct (processNext categorize job (set_queue rest w)) as [[[]|e] w1];
      cbn [fst snd] in *; [|discriminate].
    destruct (IH w1) as (w' & Hrun & Hempty & Hproc' & Hwork').
    { rewrite Hqueue. cbn in *. lia. }
    exists w'. rewrite Hrun.
    split; [reflexivity|]. split; [assumption|]. split; [now rewrite Hproc'|].
    eapply (workedThrough_step n w (set_queue rest w) w1); try reflexivity; assumption.
Qed.

Lemma processQueueSafely_frame (w : World) :
  queueProcessing w = false ->
  exists w', processQueueSafely categorize (length (aiQueue w)) w = Some (Ok tt, w')
             /\ aiQueue w' = []
             /\ queueProcessing w' = false
             /\ workedThrough (length (aiQueue w)) w w'.
Proof.
  intros Hidle. unfold processQueueSafely. rewrite Hidle.
  destruct (drainQueue_frame (set_processing true w)) as (w1 & Hrun & Hempty & _ & Hwork).
  cbn [aiQueue set_processing] in Hrun. rewrite Hrun.
  exists (set_processing false w1).
  split; [reflexivity|]. split; [assumption|]. split; [reflexivity|]. exact Hwork.
Qed.

End WorkerRun.

End WorkerFrames.

Section WorkerProperties.
Import Storage ServiceWorker.
Context {P : Platform}.

Lemma onlyAnnotated_fields (videos videos' : list Obj) :
  onlyAnnotated videos videos' ->
  length videos' = length videos
  /\ (forall (i : nat) (k : string),
        k <> "aiCategory" -> k <> "aiCategoryConfidence" ->
        fieldAt videos' i k = fieldAt videos i k).
Proof.
  intros H. apply Forall2_same_length_lookup in H as [Hlen H]. split; [now symmetry|].
  intros i k H1 H2. unfold fieldAt.
  destruct (videos !! i) as [r|] eqn:Hr.
  - destruct (lookup_lt_is_Some_2 videos' i) as [r' Hr'].
    { rewrite <- Hlen. eapply lookup_lt_Some; eauto. }
    rewrite Hr'. unfold getProp. now rewrite (H i r r' Hr Hr' k H1 H2).
  - apply lookup_ge_None in Hr. rewrite Hlen in Hr. apply lookup_ge_None in Hr.
    now rewrite Hr.
Qed.

(** X10. When the queue worker starts while no run is in progress, it
    terminates without throwing with the queue empty and the processing flag
    cleared, has waited AI_RATE_LIMIT_MS (1000 ms) once per job, and has
    sent at most two requests per job (both copies of categorizeVideoAi). *)
Theorem worker_waits_between_jobs (w : World) :
  queueProcessing w = false ->
  let jobs := length (aiQueue w) in
  (exists w', processQueueSafely Ai.categorizeVideoAi jobs w = Some (Ok tt, w')
     /\ aiQueue w' = [] /\ queueProcessing w' = false
     /\ clock w' = (clock w + AI_RATE_LIMIT_MS * Z.of_nat jobs)%Z
     /\ (length (requests w') <= length (requests w) + 2 * jobs)%nat)
  /\ (exists w', processQueueSafely AiPlain.categorizeVideoAi jobs w = Some (Ok tt, w')
        /\ aiQueue w' = [] /\ queueProcessing w' = false
        /\ clock w' = (clock w + AI_RATE_LIMIT_MS * Z.of_nat jobs)%Z
        /\ (length (requests w') <= length (requests w) + 2 * jobs)%nat).
Proof.
  intros Hidle jobs. split.
  - destruct (processQueueSafely_frame _ categorize_asksAtMostTwice w Hidle)
      as (w' & Hrun & Hempty & Hdone & _ & _ & _ & _ & Hclock & added & Hreq & Hlen).
    exists w'. repeat split; try assumption.
    rewrite Hreq, length_app. subst jobs. lia.
  - destruct (processQueueSafely_frame _ categorizePlain_asksAtMostTwice w Hidle)
      as (w' & Hrun & Hempty & Hdone & _ & _ & _ & _ & Hclock & added & Hreq & Hlen).
    exists w'. repeat split; try assumption.
    rewrite Hreq, length_app. subst jobs. lia.
Qed.

(** X11. A run of the queue worker neither adds, removes nor reorders
    records, and changes no field of any record other than aiCategory and
    aiCategoryConfidence; settings and the cached report are untouched (both
    copies of categorizeVideoAi, any network behaviour). *)
Theorem worker_only_writes_categories (w : World) :
  queueProcessing w = false ->
  let jobs := length (aiQueue w) in
  (exists w', processQueueSafely Ai.categorizeVideoAi jobs w = Some (Ok tt, w')
     /\ length (stored_videos w') = length (stored_videos w)
     /\ (forall (i : nat) (k : string),
           k <> "aiCategory" -> k <> "aiCategoryConfidence" ->
           fieldAt (stored_videos w') i k = fieldAt (stored_videos w) i k)
     /\ stored_settings w' = stored_settings w
     /\ stored_report w' = stored_report w)
  /\ (exists w', processQueueSafely AiPlain.categorizeVideoAi jobs w = Some (Ok tt, w')
        /\ length (stored_videos w') = length (stored_videos w)
        /\ (forall (i : nat) (k : string),
              k <> "aiCategory" -> k <> "aiCategoryConfidence" ->
              fieldAt (stored_videos w') i k = fieldAt (stored_videos w) i k)
        /\ stored_settings w' = stored_settings w
        /\ stored_report w' = stored_report w).
Proof.
  intros Hidle jobs. split.
  - destruct (processQueueSafely_frame _ categorize_asksAtMostTwice w Hidle)
      as (w' & Hrun & _ & _ & Hann & Hs & Hr & _).
    apply onlyAnnotated_fields in Hann as [Hlen Hfields].
    exists w'. repeat split; assumption.
  - destruct (processQueueSafely_frame _ categorizePlain_asksAtMostTwice w Hidle)
      as (w' & Hrun & _ & _ & Hann & Hs & Hr & _).
    apply onlyAnnotated_fields in Hann as [Hlen Hfields].
    exists w'. repeat split; assumption.
Qed.

(** X12. While AI features are disabled or no key is configured, processing
    a job calls no categorizer and sends no request: it is exactly
    updateVideo(job.videoId, {aiCategory: 'Uncategorized',
    aiCategoryConfidence: 'low'}), so the first record with the job's id
    ends with Uncategorized/low. *)
Theorem job_without_ai_asks_nothing
    (categorize : JsVal -> JsVal -> JsVal -> M Classification) (job : Job) (w : World) :
  aiReady (currentSettings w) = false ->
  let w' := snd (processSingleJob categorize job w) in
  processSingleJob categorize job w = updateVideo (job_videoId job) uncategorized w
  /\ fst (processSingleJob categorize job w) = Ok tt
  /\ requests w' = requests w
  /\ (forall (i : nat) (record : Obj),
        findIndex (sameVideoId (job_videoId job)) (stored_videos w) = Some i ->
        stored_videos w !! i = Some record ->
        fieldAt (stored_videos w') i "aiCategory" = JStr "Uncategorized"
        /\ fieldAt (stored_videos w') i "aiCategoryConfidence" = JStr "low").
Proof.
  intros Hoff w'.
  assert (Heq : processSingleJob categorize job w
                = updateVideo (job_videoId job) uncategorized w).
  { unfold processSingleJob, bind. rewrite getSettings_run. now rewrite Hoff. }
  subst w'. rewrite Heq.
  destruct (updateVideo_run (job_videoId job) uncategorized w) as (Hok & Hv & _ & _ & Hr).
  split; [reflexivity|]. split; [assumption|]. split; [assumption|].
  intros i record Hi Hrec.
  destruct (patch_classifies (job_videoId job) (JStr "Uncategorized") (JStr "low")
              (stored_videos w) i record Hi Hrec) as (record' & Hrec' & Hcat & Hconf & _).
  unfold fieldAt. rewrite Hv. unfold uncategorized. rewrite Hrec'. now split.
Qed.

End WorkerProperties.

Lemma worker_waits_between_jobs_witness :
  exists w', ServiceWorker.processQueueSafely (Ai.categorizeVideoAi (P := testEngine)) 1
               minecraftOffline = Some (Ok tt, w')
     /\ aiQueue w' = [] /\ queueProcessing w' = false
     /\ clock w' = (clock minecraftOffline + 1000)%Z
     /\ (length (requests w') <= 2)%nat.
Proof.
  exact (proj1 (worker_waits_between_jobs (P := testEngine) minecraftOffline eq_refl)).
Defined.

Lemma worker_only_writes_categories_witness :
  exists w', ServiceWorker.processQueueSafely (AiPlain.categorizeVideoAi (P := testEngine)) 1
               minecraftOffline = Some (Ok tt, w')
     /\ length (stored_videos w') = 1%nat
     /\ (forall (i : nat) (k : string),
           k <> "aiCategory" -> k <> "aiCategoryConfidence" ->
           fieldAt (stored_videos w') i k = fieldAt (stored_videos minecraftOffline) i k)
     /\ stored_settings w' = stored_settings minecraftOffline
     /\ stored_report w' = stored_report minecraftOffline.
Proof.
  exact (proj2 (worker_only_writes_categories (P := testEngine) minecraftOffline eq_refl)).
Defined.

Lemma job_without_ai_asks_nothing_witness :
  requests (snd (ServiceWorker.processSingleJob (Ai.categorizeVideoAi (P := testEngine))
                   minecraftJob (testWorld [minecraft] None [minecraftJob] offline))) = []
  /\ fieldAt (stored_videos
                (snd (ServiceWorker.processSingleJob (Ai.categorizeVideoAi (P := testEngine))
                        minecraftJob (testWorld [minecraft] None [minecraftJob] offline))))
       0 "aiCategory" = JStr "Uncategorized".
Proof.
  pose proof (job_without_ai_asks_nothing (Ai.categorizeVideoAi (P := testEngine))
                minecraftJob (testWorld [minecraft] None [minecraftJob] offline) eq_refl)
    as (_ & _ & Hreq & Hrec).
  split; [exact Hreq|].
  exact (proj1 (Hrec 0%nat minecraft eq_refl eq_refl)).
Defined.

Section QueueProperties.
Import Storage ServiceWorker.
Context {P : Platform}.

Lemma strictEq_sym (a b : JsVal) : strictEq a b = strictEq b a.
Proof.
  destruct a as [| |x|[p| | |]|s], b as [| |y|[q| | |]|t]; cbn; try reflexivity.
  - now destruct x, y.
  - destruct (Qeq_bool p q) eqn:H1, (Qeq_bool q p) eqn:H2; try reflexivity.
    + apply Qeq_bool_iff, Qeq_sym, Qeq_bool_iff in H1. congruence.
    + apply Qeq_bool_iff, Qeq_sym, Qeq_bool_iff in H2. congruence.
  - apply String.eqb_sym.
Qed.

Lemma strictEq_trans (a b c : JsVal) :
  strictEq a b = true -> strictEq b c = true -> strictEq a c = true.
Proof.
  destruct a as [| |x|[p| | |]|s], b as [| |y|[q| | |]|t], c as [| |z|[r| | |]|u];
    cbn; try discriminate; try reflexivity.
  - intros H1 H2. apply Bool.eqb_prop in H1, H2. subst. now destruct z.
  - intros H1 H2. apply Qeq_bool_iff in H1, H2. apply Qeq_bool_iff. now rewrite H1.
  - intros H1 H2. apply String.eqb_eq in H1, H2. subst. apply String.eqb_refl.
Qed.

Lemma strictEq_sameValueZero (a b : JsVal) :
  strictEq a b = true -> sameValueZero a b = true.
Proof. destruct a as [| |x|[p| | |]|s], b as [| |y|[q| | |]|t]; cbn; auto. Qed.

Lemma sameValueZero_strictEq_truthy (a b : JsVal) :
  truthy b = true -> sameValueZero a b = true -> strictEq a b = true.
Proof.
  destruct a as [| |x|[p| | |]|s], b as [| |y|[q| | |]|t]; cbn; auto; discriminate.
Qed.

Lemma existsb_job (id : JsVal) (queue : list Job) :
  existsb (fun job => strictEq (job_videoId job) id) queue = true
  <-> exists i job, queue !! i = Some job /\ strictEq (job_videoId job) id = true.
Proof.
  rewrite existsb_exists. split.
  - intros (job & Hin & Hjob). apply list_elem_of_In, list_elem_of_lookup in Hin as [i Hi]. eauto.
  - intros (i & job & Hi & Hjob). exists job. split; [|assumption].
    eapply list_elem_of_In, list_elem_of_lookup_2; eauto.
Qed.

Lemma queueCategorizationJob_run (video : Obj) (w : World) :
  queueCategorizationJob video w
  = (Ok tt,
     startProcessing
       (if existsb (fun job => strictEq (job_videoId job) (getProp video "videoId")) (aiQueue w)
        then w else set_queue (aiQueue w ++ [jobOf video]) w)).
Proof. reflexivity. Qed.

Lemma queueCategorizationJob_busy (video : Obj) (w : World) :
  queueProcessing w = true ->
  queueCategorizationJob video w
  = (Ok tt,
     if existsb (fun job => strictEq (job_videoId job) (getProp video "videoId")) (aiQueue w)
     then w else set_queue (aiQueue w ++ [jobOf video]) w).
Proof.
  intros Hbusy. rewrite queueCategorizationJob_run. unfold startProcessing.
  destruct (existsb _ (aiQueue w)); cbn [queueProcessing set_queue]; now rewrite Hbusy.
Qed.

Lemma queueDistinct_push (queue : list Job) (video : Obj) :
  queueDistinct queue ->
  existsb (fun job => strictEq (job_videoId job) (getProp video "videoId")) queue = false ->
  queueDistinct (queue ++ [jobOf video]).
Proof.
  intros Hdist Hnone.
  assert (Hfresh : forall n z, queue !! n = Some z ->
            strictEq (job_videoId z) (getProp video "videoId") = false).
  { intros n z Hz.
    destruct (strictEq (job_videoId z) (getProp video "videoId")) eqn:Hs; [|reflexivity].
    assert (existsb (fun job => strictEq (job_videoId job) (getProp video "videoId")) queue
            = true) by (apply existsb_job; eauto).
    congruence. }
  intros i j a b Ha Hb Heq.
  destruct (decide (i < length queue)%nat) as [Hi|Hi];
    destruct (decide (j < length queue)%nat) as [Hj|Hj].
  - rewrite lookup_app_l in Ha, Hb by assumption. eauto.
  - rewrite lookup_app_l in Ha by assumption. rewrite lookup_app_r in Hb by lia.
    apply list_lookup_singleton_Some in Hb as [_ <-]. cbn in Heq.
    rewrite (Hfresh i a Ha) in Heq. discriminate.
  - rewrite lookup_app_l in Hb by assumption. rewrite lookup_app_r in Ha by lia.
    apply list_lookup_singleton_Some in Ha as [_ <-]. cbn in Heq.
    rewrite strictEq_sym, (Hfresh j b Hb) in Heq. discriminate.
  - rewrite lookup_app_r in Ha, Hb by lia.
    apply list_lookup_singleton_Some in Ha as [Ha _].
    apply list_lookup_singleton_Some in Hb as [Hb _]. lia.
Qed.

Lemma queueDistinct_tail (job : Job) (queue : list Job) :
  queueDistinct (job :: queue) -> queueDistinct queue.
Proof.
  intros Hdist i j a b Ha Hb Heq.
  assert (S i = S j) by (apply (Hdist (S i) (S j) a b); assumption). lia.
Qed.

(** What starting the worker does to a world whose queue is not empty. *)
Lemma startProcessing_cases (w : World) :
  (queueProcessing w = true /\ startProcessing w = w)
  \/ (queueProcessing w = false /\ aiQueue w = [] /\ startProcessing w = w)
  \/ (exists job rest,
        queueProcessing w = false /\ aiQueue w = job :: rest
        /\ startProcessing w = set_inFlight (Some job) (set_queue rest (set_processing true w))).
Proof.
  unfold startProcessing. destruct (queueProcessing w); [now left|].
  right. destruct (aiQueue w) as [|job rest]; [now left|]. right. now exists job, rest.
Qed.

(** One call of queueCategorizationJob, whatever the worker is doing. *)
Lemma queueCategorizationJob_step (video : Obj) (w : World) :
  let w' := snd (queueCategorizationJob video w) in
  queueProcessing w' = true
  /\ stored_videos w' = stored_videos w
  /\ stored_settings w' = stored_settings w
  /\ stored_report w' = stored_report w
  /\ requests w' = requests w
  /\ network w' = network w
  /\ clock w' = clock w
  /\ (queueDistinct (aiQueue w) -> queueDistinct (aiQueue w'))
  /\ (exists job, In job (waiting w')
        /\ sameValueZero (job_videoId job) (getProp video "videoId") = true).
Proof.
  cbv zeta. rewrite queueCategorizationJob_run. cbn [snd].
  set (w0 := if existsb _ (aiQueue w) then w else set_queue (aiQueue w ++ [jobOf video]) w).
  assert (Hframe : stored_videos w0 = stored_videos w /\ stored_settings w0 = stored_settings w
                   /\ stored_report w0 = stored_report w /\ requests w0 = requests w
                   /\ network w0 = network w /\ clock w0 = clock w
                   /\ queueProcessing w0 = queueProcessing w /\ inFlight w0 = inFlight w).
  { subst w0. destruct (existsb _ (aiQueue w)); now repeat split. }
  assert (Hdist0 : queueDistinct (aiQueue w) -> queueDistinct (aiQueue w0)).
  { subst w0.
    destruct (existsb (fun job => strictEq (job_videoId job) (getProp video "videoId"))
                (aiQueue w)) eqn:Hex; [auto|].
    intros Hdist. cbn [aiQueue set_queue]. now apply queueDistinct_push. }
  assert (Hjob0 : exists job, In job (aiQueue w0)
                    /\ sameValueZero (job_videoId job) (getProp video "videoId") = true).
  { subst w0.
    destruct (existsb (fun job => strictEq (job_videoId job) (getProp video "videoId"))
                (aiQueue w)) eqn:Hex.
    - apply existsb_exists in Hex as (job & Hin & Heq). exists job.
      split; [assumption|now apply strictEq_sameValueZero].
    - exists (jobOf video). split; [|apply sameValueZero_refl].
      cbn [aiQueue set_queue]. apply in_or_app. right. now left. }
  destruct Hframe as (Hv & Hs & Hr & Hq & Hn & Hc & Hp & Hf).
  destruct Hjob0 as (job0 & Hin0 & Hsame0).
  destruct (startProcessing_cases w0)
    as [[Hbusy ->] | [(Hidle & Hempty & _) | (job & rest & Hidle & Hqueue & ->)]].
  - repeat (split; [assumption|]).
    exists job0. split; [|assumption]. unfold waiting. apply in_or_app. now right.
  - rewrite Hempty in Hin0. destruct Hin0.
  - cbn [queueProcessing stored_videos stored_settings stored_report requests network clock
           aiQueue inFlight set_inFlight set_queue set_processing].
    split; [reflexivity|]. repeat (split; [assumption|]). split.
    { intros Hdist. specialize (Hdist0 Hdist). rewrite Hqueue in Hdist0.
      now apply queueDistinct_tail in Hdist0. }
    exists job0. split; [|assumption]. unfold waiting.
    cbn [inFlight aiQueue set_inFlight set_queue set_processing option_list].
    rewrite Hqueue in Hin0. exact Hin0.
Qed.

(** X13. queueCategorizationJob never throws and always leaves a run of the
    worker in progress.  While a run is in progress it changes nothing
    when a job with the same videoId is queued, and otherwise appends one
    job with the record's videoId, title and channelName.  With the worker
    idle it starts processQueueSafely, which takes the first job from the
    queue before the call returns: on an empty queue the new job is in
    flight and the queue is empty again.  Only the queue is searched for
    the id, so a record whose job is in flight is queued once more.  A
    queue with at most one job per id keeps that property; records,
    settings and request log are untouched; and the run that was started,
    once resumed, is the run of processQueueSafely on the queue that held
    the new job. *)
Theorem queueCategorizationJob_starts_the_worker (video : Obj) (w : World) :
  let id := getProp video "videoId" in
  let w' := snd (queueCategorizationJob video w) in
  let queued :=
    exists i job, aiQueue w !! i = Some job /\ strictEq (job_videoId job) id = true in
  fst (queueCategorizationJob video w) = Ok tt
  /\ queueProcessing w' = true
  /\ (queueProcessing w = true -> queued -> w' = w)
  /\ (queueProcessing w = true -> ~ queued ->
      aiQueue w' = aiQueue w ++ [jobOf video] /\ inFlight w' = inFlight w)
  /\ (queueProcessing w = false -> aiQueue w = [] ->
      inFlight w' = Some (jobOf video) /\ aiQueue w' = [])
  /\ (forall first rest,
        queueProcessing w = false -> aiQueue w = first :: rest ->
        inFlight w' = Some first
        /\ (queued -> aiQueue w' = rest)
        /\ (~ queued -> aiQueue w' = rest ++ [jobOf video]))
  /\ (queueProcessing w = false -> aiQueue w = [] ->
      let w'' := snd (queueCategorizationJob video w') in
      inFlight w'' = Some (jobOf video) /\ aiQueue w'' = [jobOf video])
  /\ (queueDistinct (aiQueue w) -> queueDistinct (aiQueue w'))
  /\ stored_videos w' = stored_videos w
  /\ stored_settings w' = stored_settings w
  /\ requests w' = requests w
  /\ (forall (categorize : JsVal -> JsVal -> JsVal -> M Classification) (fuel : nat),
        queueProcessing w = false -> inFlight w = None -> aiQueue w = [] ->
        resumeProcessing categorize fuel w'
        = processQueueSafely categorize (S fuel) (set_queue [jobOf video] w)).
Proof.
  intros id w' queued.
  destruct (queueCategorizationJob_step video w)
    as (Hflag & Hv & Hs & _ & Hq & _ & _ & Hdist & _). fold w' in Hflag, Hv, Hs, Hq, Hdist.
  assert (Hex : existsb (fun job => strictEq (job_videoId job) id) (aiQueue w) = true
                <-> queued) by apply existsb_job.
  assert (Hw' : w' = startProcessing
                       (if existsb (fun job => strictEq (job_videoId job) id) (aiQueue w)
                        then w else set_queue (aiQueue w ++ [jobOf video]) w)).
  { subst w'. now rewrite queueCategorizationJob_run. }
  split; [reflexivity|]. split; [assumption|].
  split; [|split; [|split; [|split; [|split; [|split; [assumption|split; [assumption|
    split; [assumption|split; [assumption|]]]]]]]]].
  - intros Hbusy Hqueued. apply Hex in Hqueued. rewrite Hw', Hqueued.
    unfold startProcessing. now rewrite Hbusy.
  - intros Hbusy Hnot.
    destruct (existsb (fun job => strictEq (job_videoId job) id) (aiQueue w)) eqn:Hb;
      [exfalso; now apply Hnot, Hex|].
    rewrite Hw'. unfold startProcessing. cbn [queueProcessing set_queue]. rewrite Hbusy.
    now split.
  - intros Hidle Hempty. rewrite Hw', Hempty. cbn [existsb app].
    unfold startProcessing. cbn [queueProcessing aiQueue set_queue]. rewrite Hidle.
    now split.
  - intros first rest Hidle Hqueue.
    destruct (existsb (fun job => strictEq (job_videoId job) id) (aiQueue w)) eqn:Hb.
    + rewrite Hw'. unfold startProcessing. rewrite Hidle, Hqueue.
      split; [reflexivity|]. split; [reflexivity|].
      intros Hnot. exfalso. now apply Hnot, Hex.
    + rewrite Hw'. unfold startProcessing. cbn [queueProcessing aiQueue set_queue].
      rewrite Hidle, Hqueue. cbn [app].
      split; [reflexivity|]. split; [|reflexivity].
      intros Hqueued. apply Hex in Hqueued. congruence.
  - intros Hidle Hempty w''. subst w''.
    assert (Hfirst : w' = set_inFlight (Some (jobOf video))
                            (set_queue [] (set_processing true
                               (set_queue ([] ++ [jobOf video]) w)))).
    { rewrite Hw', Hempty. cbn [existsb]. unfold startProcessing.
      cbn [queueProcessing aiQueue set_queue app]. now rewrite Hidle. }
    rewrite queueCategorizationJob_run, Hfirst. cbn [snd]. now split.
  - intros categorize fuel Hidle Hnone Hempty.
    rewrite Hw', Hempty. cbn [existsb app]. unfold startProcessing, processQueueSafely.
    cbn [queueProcessing aiQueue set_queue]. rewrite Hidle.
    unfold resumeProcessing.
    cbn [inFlight set_inFlight set_queue set_processing drainQueue aiQueue].
    assert (Hsame : set_inFlight None
                      (set_inFlight (Some (jobOf video))
                         (set_queue [] (set_processing true (set_queue [jobOf video] w))))
                    = set_queue [] (set_processing true (set_queue [jobOf video] w))).
    { unfold set_inFlight, set_queue, set_processing. cbn. now rewrite Hnone. }
    rewrite Hsame.
    destruct (processNext categorize (jobOf video)
                (set_queue [] (set_processing true (set_queue [jobOf video] w))))
      as [[[]|e] w1]; reflexivity.
Qed.

(** queueCategorizationJob over a list of records while a run of the worker
    is in progress. *)
Lemma enqueue_all_busy (videos : list Obj) (w : World) :
  queueProcessing w = true ->
  exists w',
    fold_right (fun video rest => queueCategorizationJob video ;;; rest)%js (ret tt) videos w
    = (Ok tt, w')
    /\ queueProcessing w' = true
    /\ inFlight w' = inFlight w
    /\ (exists added, aiQueue w' = aiQueue w ++ added
          /\ forall job, In job added -> exists video, In video videos /\ job = jobOf video)
    /\ (queueDistinct (aiQueue w) -> queueDistinct (aiQueue w'))
    /\ (forall video, In video videos ->
          exists job, In job (aiQueue w')
            /\ sameValueZero (job_videoId job) (getProp video "videoId") = true)
    /\ (distinctIds videos ->
        (forall video job, In video videos -> In job (aiQueue w) ->
           strictEq (job_videoId job) (getProp video "videoId") = false) ->
        aiQueue w' = aiQueue w ++ map jobOf videos)
    /\ stored_videos w' = stored_videos w
    /\ stored_settings w' = stored_settings w
    /\ stored_report w' = stored_report w
    /\ requests w' = requests w.
Proof.
  revert w. induction videos as [|video videos IH]; intros w Hbusy; cbn [fold_right].
  - exists w. split; [reflexivity|]. split; [assumption|]. split; [reflexivity|]. split.
    { exists []. rewrite app_nil_r. split; [reflexivity|intros job []]. }
    split; [auto|]. split; [intros video []|].
    split; [intros _ _; cbn; now rewrite app_nil_r|auto].
  - unfold bind at 1. rewrite (queueCategorizationJob_busy video w Hbusy).
    set (w1 := if existsb _ (aiQueue w) then w else set_queue (aiQueue w ++ [jobOf video]) w).
    assert (Hbusy1 : queueProcessing w1 = true).
    { subst w1. now destruct (existsb _ (aiQueue w)). }
    destruct (IH w1 Hbusy1)
      as (w' & Hrun & Hflag & Hfly & (added & Hadded & Hfrom) & Hdist & Hall & Hexact
          & Hv & Hs & Hr & Hq).
    exists w'. split; [exact Hrun|]. split; [assumption|].
    assert (Hw1 : (aiQueue w1 = aiQueue w
                   /\ exists job, In job (aiQueue w)
                        /\ strictEq (job_videoId job) (getProp video "videoId") = true)
                  \/ (aiQueue w1 = aiQueue w ++ [jobOf video]
                      /\ existsb (fun job => strictEq (job_videoId job) (getProp video "videoId"))
                           (aiQueue w) = false)).
    { subst w1.
      destruct (existsb (fun job => strictEq (job_videoId job) (getProp video "videoId"))
                  (aiQueue w)) eqn:Hex.
      - left. split; [reflexivity|]. apply existsb_exists in Hex. exact Hex.
      - right. now split. }
    assert (Hset : stored_videos w1 = stored_videos w /\ stored_settings w1 = stored_settings w
                   /\ stored_report w1 = stored_report w /\ requests w1 = requests w
                   /\ inFlight w1 = inFlight w).
    { subst w1. now destruct (existsb _ (aiQueue w)). }
    destruct Hset as (Hv1 & Hs1 & Hr1 & Hq1 & Hf1).
    split; [congruence|]. split.
    { destruct Hw1 as [[Hw1 _]|[Hw1 _]].
      - exists added. rewrite Hadded, Hw1. split; [reflexivity|].
        intros job Hjob. destruct (Hfrom job Hjob) as (v & Hv' & ->).
        exists v. split; [now right|reflexivity].
      - exists (jobOf video :: added). rewrite Hadded, Hw1, <- app_assoc.
        split; [reflexivity|].
        intros job [<-|Hjob]; [exists video; split; [now left|reflexivity]|].
        destruct (Hfrom job Hjob) as (v & Hv' & ->). exists v. split; [now right|reflexivity]. }
    split.
    { intros Hd. apply Hdist.
      destruct Hw1 as [[Hw1 _]|[Hw1 Hex]]; rewrite Hw1; [assumption|].
      now apply queueDistinct_push. }
    split.
    { intros v [<-|Hin]; [|now apply Hall].
      destruct Hw1 as [[Hw1 (job & Hjob & Heq)]|[Hw1 _]].
      - exists job. split.
        + rewrite Hadded, Hw1. apply in_or_app. now left.
        + now apply strictEq_sameValueZero.
      - exists (jobOf video). split.
        + rewrite Hadded, Hw1. apply in_or_app. left. apply in_or_app. right. now left.
        + apply sameValueZero_refl. }
    split; [|repeat split; congruence].
    intros Hids Hfresh.
    destruct Hw1 as [[_ (job & Hjob & Heq)]|[Hw1 _]].
    { rewrite (Hfresh video job (or_introl eq_refl) Hjob) in Heq. discriminate. }
    rewrite Hexact, Hw1, <- app_assoc; [reflexivity| |].
    + intros i j a b Ha Hb Heq.
      assert (S i = S j) by (apply (Hids (S i) (S j) a b); assumption). lia.
    + intros v job Hv' Hjob. rewrite Hw1 in Hjob.
      apply in_app_or in Hjob as [Hjob|[<-|[]]]; [apply Hfresh; [now right|assumption]|].
      cbn [jobOf job_videoId].
      destruct (strictEq (getProp video "videoId") (getProp v "videoId")) eqn:Heq;
        [|reflexivity].
      apply list_elem_of_In, list_elem_of_lookup in Hv' as [n Hn].
      assert (0%nat = S n) by (apply (Hids 0%nat (S n) video v); [reflexivity|exact Hn|exact Heq]).
      discriminate.
Qed.

(** X14. enqueuePendingVideos never throws and answers the length of the
    queue as it is when the records without a category (aiCategory missing
    or 'Uncategorized') have been handed to queueCategorizationJob.
    Records, settings and request log are untouched; every such record has
    a job in flight or in the queue afterwards, and unless there is none a
    run of the worker is in progress.  While a run was in progress before,
    jobs are only appended to the queue.  With the worker idle and the
    queue empty, the first pending record's job is in flight when the
    answer is given and the queue holds the jobs of the others: for n
    pending records with different ids the answer is n - 1. *)
Theorem enqueuePendingVideos_answers_the_queue_length (w : World) :
  let pending := List.filter needsCategory (stored_videos w) in
  exists w',
    enqueuePendingVideos w = (Ok (length (aiQueue w')), w')
    /\ stored_videos w' = stored_videos w
    /\ stored_settings w' = stored_settings w
    /\ requests w' = requests w
    /\ (pending = [] -> w' = w)
    /\ (pending <> [] -> queueProcessing w' = true)
    /\ (forall video, In video pending ->
          exists job, In job (waiting w')
            /\ sameValueZero (job_videoId job) (getProp video "videoId") = true)
    /\ (queueDistinct (aiQueue w) -> queueDistinct (aiQueue w'))
    /\ (queueProcessing w = true ->
        inFlight w' = inFlight w
        /\ exists added, aiQueue w' = aiQueue w ++ added
             /\ forall job, In job added ->
                  exists video, In video pending /\ job = jobOf video)
    /\ (forall first others,
          queueProcessing w = false -> aiQueue w = [] ->
          pending = first :: others -> distinctIds pending ->
          inFlight w' = Some (jobOf first)
          /\ aiQueue w' = map jobOf others
          /\ length (aiQueue w') = pred (length pending)).
Proof.
  intros pending.
  assert (Hrun : forall w',
            fold_right (fun video rest => queueCategorizationJob video ;;; rest)%js (ret tt)
              pending w = (Ok tt, w') ->
            enqueuePendingVideos w = (Ok (length (aiQueue w')), w')).
  { intros w' H. unfold enqueuePendingVideos, getHistory, getVideos.
    unfold bind at 1. unfold gets at 1. unfold bind at 1. fold pending. now rewrite H. }
  destruct pending as [|first others] eqn:Hpending.
  { exists w. split; [now apply Hrun|].
    split; [reflexivity|]. split; [reflexivity|]. split; [reflexivity|].
    split; [reflexivity|]. split; [congruence|]. split; [intros video []|].
    split; [auto|]. split.
    - intros _. split; [reflexivity|]. exists []. rewrite app_nil_r.
      split; [reflexivity|intros job []].
    - intros f o _ _ H. discriminate. }
  destruct (queueCategorizationJob_step first w)
    as (Hflag1 & Hv1 & Hs1 & Hr1 & Hq1 & _ & _ & Hdist1 & (job1 & Hjob1 & Hsame1)).
  set (w1 := snd (queueCategorizationJob first w)) in *.
  destruct (enqueue_all_busy others w1 Hflag1)
    as (w' & Hfold & Hflag & Hfly & (added & Hadded & Hfrom) & Hdist & Hall & Hexact
        & Hv & Hs & Hr & Hq).
  assert (Hwhole : fold_right (fun video rest => queueCategorizationJob video ;;; rest)%js
                     (ret tt) (first :: others) w = (Ok tt, w')).
  { cbn [fold_right]. unfold bind at 1.
    destruct (queueCategorizationJob first w) as [[[]|e] w1'] eqn:Hfirst;
      [|rewrite queueCategorizationJob_run in Hfirst; discriminate].
    subst w1. cbn [snd] in Hfold. exact Hfold. }
  exists w'. split; [now apply Hrun|].
  split; [congruence|]. split; [congruence|]. split; [congruence|].
  split; [discriminate|]. split; [intros _; assumption|]. split.
  { intros video [<-|Hin].
    - exists job1. split; [|assumption]. unfold waiting in Hjob1 |- *.
      rewrite Hfly, Hadded. apply in_app_or in Hjob1 as [H|H]; apply in_or_app;
        [now left|right; apply in_or_app; now left].
    - destruct (Hall video Hin) as (job & Hjob & Hsame). exists job.
      split; [|assumption]. unfold waiting. apply in_or_app. now right. }
  split; [auto|]. split.
  - intros Hbusy.
    destruct (enqueue_all_busy (first :: others) w Hbusy)
      as (w2 & Hfold2 & _ & Hfly2 & Hadded2 & _).
    rewrite Hwhole in Hfold2. injection Hfold2 as <-. now split.
  - intros f o Hidle Hempty [= <- <-] Hids.
    assert (Hfirst : inFlight w1 = Some (jobOf first) /\ aiQueue w1 = []).
    { subst w1. rewrite queueCategorizationJob_run, Hempty. cbn [existsb app snd].
      unfold startProcessing. cbn [queueProcessing aiQueue set_queue]. rewrite Hidle.
      now split. }
    destruct Hfirst as [Hfly1 Hqueue1].
    assert (Hqueue : aiQueue w' = map jobOf others).
    { rewrite Hexact, Hqueue1; [reflexivity| |].
      - intros i j a b Ha Hb Heq.
        assert (S i = S j) by (apply (Hids (S i) (S j) a b); assumption). lia.
      - intros video job _ Hjob. rewrite Hqueue1 in Hjob. destruct Hjob. }
    split; [congruence|]. split; [assumption|].
    rewrite Hqueue, length_map. reflexivity.
Qed.

End QueueProperties.

(** Three of four stored records are pending; with the worker idle the
    first one's job is in flight when enqueuePendingVideos answers, so the
    answer is 2; a single pending record gives 0. *)
Example enqueuePendingVideos_example :
  fst (ServiceWorker.enqueuePendingVideos
         (testWorld threePending (Some withKey) [] offline)) = Ok 2%nat
  /\ fst (ServiceWorker.enqueuePendingVideos
            (testWorld [minecraft] (Some withKey) [] offline)) = Ok 0%nat
  /\ map job_videoId
        (waiting (snd (ServiceWorker.enqueuePendingVideos
                         (testWorld threePending (Some withKey) [] offline))))
     = [JStr "a1"; JStr "c1"; JStr "d1"].
Proof. vm_compute. repeat split. Qed.

Section RetentionProperties.
Import Storage ServiceWorker.
Context {P : Platform}.

Lemma filter_length_le {A : Type} (f : A -> bool) (l : list A) :
  (length (List.filter f l) <= length l)%nat.
Proof. induction l as [|x l IH]; cbn; [lia|]. destruct (f x); cbn; lia. Qed.

Lemma filter_same_length {A : Type} (f : A -> bool) (l : list A) :
  length (List.filter f l) = length l -> List.filter f l = l.
Proof.
  induction l as [|x l IH]; cbn; [reflexivity|].
  destruct (f x); cbn; intros Hlen.
  - f_equal. apply IH. lia.
  - pose proof (filter_length_le f l). lia.
Qed.

Lemma set_videos_same (w : World) : set_videos (stored_videos w) w = w.
Proof. now destruct w. Qed.

Lemma keeps_since (now days : Z) (video : Obj) :
  jge (getTime (getProp video "watchedAt"))
      (jsub (Fin (inject_Z now)) (jmul (Fin (inject_Z days)) (Fin (inject_Z dayMs))))
  = watchedSince (now - days * dayMs) video.
Proof.
  unfold watchedSince, getTime, jge.
  destruct (DateGetTime (getProp video "watchedAt")) as [t|]; [|reflexivity].
  cbn [jsub jmul jneg jadd jle].
  destruct (Z.leb_spec (now - days * dayMs) t) as [Hle|Hgt].
  - apply Qle_bool_iff. rewrite <- inject_Z_mult, <- inject_Z_opp, <- inject_Z_plus, <- Zle_Qle. lia.
  - destruct (Qle_bool _ _) eqn:Hq; [|reflexivity].
    apply Qle_bool_iff in Hq.
    rewrite <- inject_Z_mult, <- inject_Z_opp, <- inject_Z_plus, <- Zle_Qle in Hq. lia.
Qed.

Lemma retained_filter (now days : Z) (history : list Obj) :
  List.filter
    (fun video =>
       jge (getTime (getProp video "watchedAt"))
         (jsub (Fin (inject_Z now))
            (jmul (Fin (inject_Z days)) (Fin (inject_Z (24 * 60 * 60 * 1000))))))
    history
  = List.filter (watchedSince (now - days * dayMs)) history.
Proof. apply filter_ext. intros video. apply keeps_since. Qed.

Lemma applyRetentionPolicy_window (settings : Obj) (key : string) (days : Z) (w : World) :
  In (key, days) retentionWindows ->
  getProp settings "dataRetention" = JStr key ->
  applyRetentionPolicy settings w
  = (Ok tt, set_videos (List.filter (watchedSince (clock w - days * dayMs)) (stored_videos w)) w).
Proof.
  intros Hin Hkey. unfold applyRetentionPolicy. rewrite Hkey.
  assert (Hdays : strictEq (JStr key) (JStr "all") = false
                  /\ daysToKeep (JStr key) = Some (Fin (inject_Z days))).
  { destruct Hin as [[= <- <-]|[[= <- <-]|[[= <- <-]|[]]]]; split; reflexivity. }
  destruct Hdays as [-> ->].
  unfold bind, getHistory, getVideos, gets, replaceHistory, setVideos, modify, ret.
  cbv beta iota. rewrite !retained_filter.
  destruct (length (List.filter _ (stored_videos w)) =? length (stored_videos w))%nat eqn:Hlen;
    cbn [negb]; [|reflexivity].
  apply Nat.eqb_eq, filter_same_length in Hlen. rewrite Hlen. now rewrite set_videos_same.
Qed.

(** X15. applyRetentionPolicy never throws; with dataRetention 'all', or any
    value that is no key of RETENTION_WINDOWS (own or inherited), it changes
    nothing; with '3m', '6m' or '1y' it keeps exactly the records whose
    watchedAt parses to a time not earlier than now minus 90, 182 or 365
    days (a record whose watchedAt does not parse is dropped), in their
    order; settings, cached report, queue and request log are untouched. *)
Theorem retention_keeps_the_window (settings : Obj) (w : World) :
  let retention := getProp settings "dataRetention" in
  let w' := snd (applyRetentionPolicy settings w) in
  fst (applyRetentionPolicy settings w) = Ok tt
  /\ (retention = JStr "all" -> w' = w)
  /\ (forall (key : string) (days : Z),
        In (key, days) retentionWindows -> retention = JStr key ->
        stored_videos w' = List.filter (watchedSince (clock w - days * dayMs)) (stored_videos w))
  /\ (~ In (ToString retention) (map fst retentionWindows) ->
      ~ In (ToString retention) inheritedNames -> w' = w)
  /\ stored_settings w' = stored_settings w
  /\ stored_report w' = stored_report w
  /\ aiQueue w' = aiQueue w
  /\ requests w' = requests w.
Proof.
  intros retention w'.
  assert (Hframe : fst (applyRetentionPolicy settings w) = Ok tt
                   /\ stored_settings w' = stored_settings w
                   /\ stored_report w' = stored_report w
                   /\ aiQueue w' = aiQueue w
                   /\ requests w' = requests w).
  { subst w'. unfold applyRetentionPolicy. fold retention.
    destruct (strictEq retention (JStr "all")); [now repeat split|].
    destruct (daysToKeep retention); [|now repeat split].
    unfold bind, getHistory, getVideos, gets, replaceHistory, setVideos, modify, ret.
    cbv beta iota. destruct (negb _); now repeat split. }
  destruct Hframe as (Hok & Hs & Hr & Hq & Hreq).
  split; [assumption|]. split; [|split; [|split]]; [| | |now repeat split].
  - intros Hall. subst w'. unfold applyRetentionPolicy. fold retention. now rewrite Hall.
  - intros key days Hin Hkey. subst w'.
    now rewrite (applyRetentionPolicy_window settings key days w Hin Hkey).
  - intros Hwin Hinh. subst w'. unfold applyRetentionPolicy. fold retention.
    destruct (strictEq retention (JStr "all")); [reflexivity|].
    assert (Hnone : daysToKeep retention = None).
    { unfold daysToKeep.
      destruct (String.eqb_spec (ToString retention) "3m") as [H|_];
        [exfalso; apply Hwin; rewrite H; cbn; auto|].
      destruct (String.eqb_spec (ToString retention) "6m") as [H|_];
        [exfalso; apply Hwin; rewrite H; cbn; auto|].
      destruct (String.eqb_spec (ToString retention) "1y") as [H|_];
        [exfalso; apply Hwin; rewrite H; cbn; auto|].
      destruct (existsb (String.eqb (ToString retention)) inheritedNames) eqn:Hex;
        [|reflexivity].
      exfalso. apply Hinh. apply existsb_exists in Hex as (name & Hname & Heq).
      apply String.eqb_eq in Heq. now rewrite Heq. }
    now rewrite Hnone.
Qed.

End RetentionProperties.

(** Under a retention of three months, a record watched 100 days ago is
    dropped and one watched 10 days ago is kept. *)
Example retention_example :
  let old := testWorld [minecraft] None [] offline in
  map (fun days =>
         length (stored_videos
                   (snd (ServiceWorker.applyRetentionPolicy (P := testEngine) keepThreeMonths
                           (advance_clock (days * dayMs) old)))))
      [10%Z; 100%Z]
  = [1%nat; 0%nat].
Proof. reflexivity. Qed.

Section MessageProperties.
Import Storage ServiceWorker.
Context {P : Platform}.
Variable buildWeeklySummary : list Obj -> string.

Lemma strictEq_truthy_refl (v : JsVal) : truthy v = true -> strictEq v v = true.
Proof.
  destruct v as [| |b|[q| | |]|s]; cbn; try discriminate; try reflexivity.
  - now destruct b.
  - intros _. apply Qeq_bool_refl.
  - intros _. apply String.eqb_refl.
Qed.

Lemma truthy_lookup (o : Obj) (k : string) :
  truthy (getProp o k) = true -> o !! k = Some (getProp o k).
Proof. unfold getProp. destruct (o !! k); [reflexivity|discriminate]. Qed.

Lemma upsert_has_id (video : Obj) (videos : list Obj) :
  truthy (getProp video "videoId") = true ->
  exists i record,
    findIndex (sameVideoId (getProp video "videoId")) (upsert video videos) = Some i
    /\ upsert video videos !! i = Some record.
Proof.
  intros Hid. pose proof (strictEq_truthy_refl _ Hid) as Hrefl.
  pose proof (truthy_lookup video "videoId" Hid) as Hlook.
  assert (Hin : exists record, In record (upsert video videos)
                  /\ sameVideoId (getProp video "videoId") record = true).
  { destruct (upsert_cases video videos)
      as [[_ ->]|(i & existing & _ & Hex & _ & ->)].
    - exists (freshVideo video). split; [apply in_or_app; right; now left|].
      unfold sameVideoId, freshVideo, getProp at 1.
      rewrite lookup_insert_ne by discriminate. now rewrite Hlook.
    - exists (mergeVideo existing video). split.
      + apply list_elem_of_In, list_elem_of_lookup. exists i.
        apply list_lookup_insert_eq. eapply lookup_lt_Some; eauto.
      + unfold sameVideoId. rewrite mergeVideo_videoId. unfold getProp at 1.
        now rewrite (lookup_union_Some_l _ _ _ _ Hlook). }
  destruct Hin as (record & Hin & Hsame).
  destruct (findIndex_found _ _ record Hin Hsame) as [i Hi].
  destruct (findIndex_Some _ _ _ Hi) as (record' & Hrec' & _). eauto.
Qed.

(** X16. A watch event with a video id, received while tracking is enabled,
    not rejected as autoplay, and with dataRetention 'all', is answered
    'stored' without any network request and without touching the settings.
    With AI enabled and a key the store becomes the upsert of the event, a
    run of the worker is in progress when the answer is given, and a job
    for the event's id is in flight or in the queue: in flight, with the
    queue empty, when the worker was idle and the queue empty before.
    Otherwise the upserted record is marked Uncategorized/low at once and
    queue and worker are left as they were. *)
Theorem accepted_watch_event_is_stored (video : Obj) (w : World) :
  let settings := currentSettings w in
  let id := getProp video "videoId" in
  let w' := snd (handleVideoWatched (JObject video) w) in
  truthy id = true ->
  truthy (getProp settings "trackingEnabled") = true ->
  truthy (getProp video "autoplay") && negb (truthy (getProp settings "trackAutoplay")) = false ->
  getProp settings "dataRetention" = JStr "all" ->
  fst (handleVideoWatched (JObject video) w) = Ok stored
  /\ requests w' = requests w
  /\ stored_settings w' = stored_settings w
  /\ (aiReady settings = true ->
      stored_videos w' = upsert video (stored_videos w)
      /\ queueProcessing w' = true
      /\ (exists job, In job (waiting w') /\ strictEq (job_videoId job) id = true)
      /\ (queueProcessing w = false -> aiQueue w = [] ->
          inFlight w' = Some (jobOf video) /\ aiQueue w' = []))
  /\ (aiReady settings = false ->
      stored_videos w' = patch id uncategorized (upsert video (stored_videos w))
      /\ aiQueue w' = aiQueue w
      /\ queueProcessing w' = queueProcessing w
      /\ inFlight w' = inFlight w
      /\ exists i,
           findIndex (sameVideoId id) (upsert video (stored_videos w)) = Some i
           /\ fieldAt (stored_videos w') i "aiCategory" = JStr "Uncategorized"
           /\ fieldAt (stored_videos w') i "aiCategoryConfidence" = JStr "low").
Proof.
  intros settings id w' Hid Htrack Hauto Hall.
  set (w1 := set_videos (upsert video (stored_videos w)) w).
  assert (Hrun : handleVideoWatched (JObject video) w
                 = ((if aiReady settings then queueCategorizationJob video
                     else updateVideo id uncategorized) ;;; ret stored)%js w1).
  { unfold handleVideoWatched. fold id. rewrite Hid. cbn [negb].
    unfold bind at 1. rewrite getSettings_run. fold settings. rewrite Htrack. cbn [negb].
    rewrite Hauto.
    unfold bind at 1. rewrite saveVideo_run. fold w1.
    unfold bind at 1. unfold applyRetentionPolicy at 1. rewrite Hall. cbn [strictEq].
    rewrite String.eqb_refl. reflexivity. }
  subst w'. rewrite Hrun. clear Hrun.
  destruct (aiReady settings) eqn:Hready.
  - destruct (queueCategorizationJob_step video w1)
      as (Hflag & Hv & Hs & _ & Hq & _ & _ & _ & (job & Hjob & Hsame)).
    unfold bind. rewrite queueCategorizationJob_run in *. unfold ret. cbn [fst snd] in *.
    fold id in Hsame |- *.
    split; [reflexivity|]. split; [exact Hq|]. split; [exact Hs|]. split; [|discriminate].
    intros _. split; [exact Hv|]. split; [exact Hflag|]. split.
    { exists job. split; [exact Hjob|]. now apply sameValueZero_strictEq_truthy. }
    intros Hidle Hempty. cbn [aiQueue w1 set_videos]. rewrite Hempty. cbn [existsb app].
    unfold startProcessing. cbn [queueProcessing aiQueue set_queue set_videos w1].
    rewrite Hidle. now split.
  - unfold bind.
    destruct (updateVideo_run id uncategorized w1) as (Hok & Hv & Hs & Hq & Hr).
    assert (Hworker : queueProcessing (snd (updateVideo id uncategorized w1))
                      = queueProcessing w
                      /\ inFlight (snd (updateVideo id uncategorized w1)) = inFlight w).
    { unfold updateVideo, bind, getVideos, gets.
      destruct (findIndex (sameVideoId id) (stored_videos w1)); now split. }
    destruct Hworker as [Hflag Hfly].
    destruct (updateVideo id uncategorized w1) as [[[]|e] w2]; cbn [fst snd] in *;
      [|discriminate].
    unfold ret. cbn [fst snd].
    split; [reflexivity|]. split; [assumption|]. split; [assumption|].
    split; [discriminate|]. intros _.
    split; [assumption|]. split; [assumption|]. split; [assumption|]. split; [assumption|].
    destruct (upsert_has_id video (stored_videos w) Hid) as (i & record & Hi & Hrec).
    fold id in Hi. exists i. split; [assumption|].
    destruct (patch_classifies id (JStr "Uncategorized") (JStr "low")
                (upsert video (stored_videos w)) i record Hi Hrec)
      as (record' & Hrec' & Hcat & Hconf & _).
    unfold fieldAt. rewrite Hv. cbn [stored_videos w1 set_videos]. unfold uncategorized.
    rewrite Hrec'. now split.
Qed.

Lemma generateWeeklyReportAi_log (summaryPayload : string) (apiKey : JsVal) (w : World) :
  exists (res : Res string) (added : list Request),
    Ai.generateWeeklyReportAi summaryPayload apiKey w = (res, log_requests added w)
    /\ fallbackOrder w (Ai.weeklyPrompt summaryPayload) added
    /\ (forall text, res = Ok text -> text <> "").
Proof.
  unfold Ai.generateWeeklyReportAi, tryCatch, bind, lift, throw.
  destruct (callWithFallback_log apiKey (Ai.weeklyPrompt summaryPayload) w)
    as (res & added & -> & Horder & _).
  destruct res as [content|e].
  - unfold Ai.trimmedContent.
    destruct content as [| |b|n|text];
      try (eexists _, added; split; [reflexivity|]; split; [assumption|]; discriminate).
    destruct (String.eqb_spec (trim text) "") as [Hblank|Htext].
    + eexists _, added. split; [reflexivity|]. split; [assumption|]. discriminate.
    + eexists _, added. split; [reflexivity|]. split; [assumption|].
      now intros ? [= <-].
  - eexists _, added. split; [reflexivity|]. split; [assumption|]. discriminate.
Qed.

(** X17. handleWeeklyReport caches a report exactly when it returns one: a
    returned report is the cached report afterwards (getCachedReport returns
    it), its content is not empty and its generatedAt is the current time;
    when it throws, the previously cached report is kept; in both cases
    records, settings and queue are untouched, and the requests sent are
    none, one to the primary model, or that one followed by one to the
    fallback model after the primary failed. *)
Theorem weekly_report_cached_only_on_success (w : World) :
  let out := handleWeeklyReport buildWeeklySummary w in
  (forall report : Report,
      fst out = Ok report ->
      stored_report (snd out) = Some report
      /\ getCachedReport (snd out) = (Ok (Some report), snd out)
      /\ content report <> ""
      /\ generatedAt report = toISOString (clock w))
  /\ (forall e : string, fst out = Throw e -> stored_report (snd out) = stored_report w)
  /\ stored_videos (snd out) = stored_videos w
  /\ stored_settings (snd out) = stored_settings w
  /\ aiQueue (snd out) = aiQueue w
  /\ (exists added : list Request,
        requests (snd out) = requests w ++ added
        /\ fallbackOrder w
             (Ai.weeklyPrompt
                (buildWeeklySummary (List.filter (isRecent (clock w)) (stored_videos w))))
             added).
Proof.
  intros out.
  set (recent := List.filter (isRecent (clock w)) (stored_videos w)).
  destruct (generateWeeklyReportAi_log (buildWeeklySummary recent)
              (getProp (currentSettings w) "openRouterApiKey") w)
    as (res & added & Hgen & Horder & Htext).
  assert (Hrun :
    out = if negb (aiReady (currentSettings w)) then (Throw "AI disabled or API key missing", w)
          else if (length recent =? 0)%nat
               then (Throw "No watch history in the past 7 days", w)
               else match res with
                    | Ok text =>
                        let report := {| content := text;
                                         generatedAt := toISOString (clock w) |} in
                        (Ok report, set_report (Some report) (log_requests added w))
                    | Throw e => (Throw e, log_requests added w)
                    end).
  { subst out. unfold handleWeeklyReport.
    unfold bind at 1. rewrite getSettings_run.
    destruct (aiReady (currentSettings w)); cbn [negb]; [|reflexivity].
    unfold bind at 1. unfold getHistory, getVideos. unfold gets at 1.
    unfold bind at 1. unfold gets at 1. fold recent.
    destruct (length recent =? 0)%nat; [reflexivity|].
    unfold bind at 1. rewrite Hgen. now destruct res. }
  rewrite Hrun. clear Hrun.
  assert (Hnone : exists added0 : list Request,
            requests w = requests w ++ added0
            /\ fallbackOrder w (Ai.weeklyPrompt (buildWeeklySummary recent)) added0).
  { exists []. rewrite app_nil_r. split; [reflexivity|now left]. }
  destruct (negb (aiReady (currentSettings w))).
  { cbn [fst snd]. split; [discriminate|]. split; [reflexivity|]. now repeat split. }
  destruct (length recent =? 0)%nat.
  { cbn [fst snd]. split; [discriminate|]. split; [reflexivity|]. now repeat split. }
  destruct res as [text|e]; cbn [fst snd].
  - split.
    { intros report [= <-]. cbn [content generatedAt]. split; [reflexivity|].
      split; [reflexivity|]. split; [now apply Htext|reflexivity]. }
    split; [discriminate|]. split; [reflexivity|]. split; [reflexivity|].
    split; [reflexivity|]. exists added. now split.
  - split; [discriminate|]. split; [reflexivity|]. split; [reflexivity|].
    split; [reflexivity|]. split; [reflexivity|]. exists added. now split.
Qed.

Lemma generateWeeklyReportAi_asks (summaryPayload : string) (apiKey : JsVal) (w : World) :
  truthy apiKey = true ->
  exists (res : Res string) (added : list Request),
    Ai.generateWeeklyReportAi summaryPayload apiKey w = (res, log_requests added w)
    /\ added <> [].
Proof.
  intros Hkey. unfold Ai.generateWeeklyReportAi, tryCatch, bind, lift, throw.
  destruct (callWithFallback_log apiKey (Ai.weeklyPrompt summaryPayload) w)
    as (res & added & -> & _ & _ & Hasks).
  specialize (Hasks Hkey).
  destruct res as [content|e]; [|eexists _, added; now split].
  destruct (Ai.trimmedContent content); eexists _, added; now split.
Qed.

(** What the filter of handleWeeklyReport keeps: the records whose
    watchedAt reads as a time not before [now] minus seven days. *)
Lemma isRecent_since (now : Z) (video : Obj) :
  isRecent now video = watchedSince (now - RECENT_WINDOW_MS) video.
Proof.
  unfold isRecent, watchedSince, getTime.
  destruct (DateGetTime (getProp video "watchedAt")) as [t|]; [|reflexivity].
  cbn [jsub jneg jadd jle].
  destruct (Z.leb_spec (now - RECENT_WINDOW_MS) t) as [H|H].
  - apply Qle_bool_iff. rewrite <- inject_Z_opp, <- inject_Z_plus, <- Zle_Qle. lia.
  - destruct (Qle_bool _ _) eqn:Hle; [|reflexivity].
    apply Qle_bool_iff in Hle. rewrite <- inject_Z_opp, <- inject_Z_plus, <- Zle_Qle in Hle. lia.
Qed.

(** C7.  When no stored record has a watchedAt that reads as a time at or
    after now minus seven days, weekly-report generation fails without
    issuing a request: with the error "No watch history in the past 7 days"
    when AI features are enabled and a key is configured, and with the
    error "AI disabled or API key missing" otherwise.  The settings are
    looked at first, so without AI or key the second error comes whatever
    the records are.  The window has no upper end: with AI enabled and a
    key, one record dated at or after now minus seven days, be it dated
    after now, is enough for the classifier to be called. *)
Theorem C7_empty_window_fails_without_request (w : World) :
  let outcome := handleWeeklyReport buildWeeklySummary w in
  let cutoff := (clock w - RECENT_WINDOW_MS)%Z in
  ((forall (video : Obj) (t : Z),
       In video (stored_videos w) ->
       DateGetTime (getProp video "watchedAt") = Some t -> (t < cutoff)%Z) ->
   (aiReady (currentSettings w) = true ->
      outcome = (Throw "No watch history in the past 7 days", w))
   /\ (aiReady (currentSettings w) = false ->
       outcome = (Throw "AI disabled or API key missing", w))
   /\ requests (snd outcome) = requests w
   /\ stored_report (snd outcome) = stored_report w)
  /\ (aiReady (currentSettings w) = false ->
      outcome = (Throw "AI disabled or API key missing", w))
  /\ (forall (video : Obj) (t : Z),
        In video (stored_videos w) ->
        DateGetTime (getProp video "watchedAt") = Some t -> (cutoff <= t)%Z ->
        aiReady (currentSettings w) = true ->
        exists added : list Request,
          requests (snd outcome) = requests w ++ added /\ added <> []).
Proof.
  intros outcome cutoff.
  assert (Hoff : aiReady (currentSettings w) = false ->
                 outcome = (Throw "AI disabled or API key missing", w)).
  { intros Hready. subst outcome. unfold handleWeeklyReport, bind.
    rewrite getSettings_run. now rewrite Hready. }
  split; [|split; [exact Hoff|]].
  - intros Hold.
    assert (Hnone : List.filter (isRecent (clock w)) (stored_videos w) = []).
    { revert Hold. generalize (stored_videos w) as videos.
      induction videos as [|video videos IH]; intros Hold; [reflexivity|].
      cbn [List.filter]. rewrite isRecent_since. unfold watchedSince.
      destruct (DateGetTime (getProp video "watchedAt")) as [t|] eqn:Ht.
      - pose proof (Hold video t (or_introl eq_refl) Ht) as Hlt. fold cutoff.
        destruct (Z.leb_spec cutoff t); [lia|].
        apply IH. intros v t' Hv. apply Hold. now right.
      - apply IH. intros v t' Hv. apply Hold. now right. }
    assert (Hon : aiReady (currentSettings w) = true ->
                  outcome = (Throw "No watch history in the past 7 days", w)).
    { intros Hready. subst outcome. unfold handleWeeklyReport, bind.
      rewrite getSettings_run, Hready. cbn [negb].
      unfold getHistory, getVideos, gets. now rewrite Hnone. }
    split; [exact Hon|]. split; [exact Hoff|].
    destruct (aiReady (currentSettings w)); [rewrite Hon|rewrite Hoff]; now split.
  - intros video t Hin Ht Hcut Hready.
    assert (Hsome : List.filter (isRecent (clock w)) (stored_videos w) <> []).
    { intros Hnone.
      assert (Hkept : In video (List.filter (isRecent (clock w)) (stored_videos w))).
      { apply filter_In. split; [exact Hin|]. rewrite isRecent_since. unfold watchedSince.
        rewrite Ht. fold cutoff. now apply Z.leb_le. }
      rewrite Hnone in Hkept. destruct Hkept. }
    assert (Hkey : truthy (getProp (currentSettings w) "openRouterApiKey") = true).
    { unfold aiReady in Hready. now apply andb_true_iff in Hready as [_ Hkey]. }
    subst outcome. unfold handleWeeklyReport. unfold bind at 1.
    rewrite getSettings_run, Hready. cbn [negb].
    unfold bind at 1. unfold getHistory, getVideos. unfold gets at 1.
    unfold bind at 1. unfold gets at 1.
    destruct (List.filter (isRecent (clock w)) (stored_videos w)) as [|r recent] eqn:Hrecent;
      [congruence|].
    cbn [length Nat.eqb].
    destruct (generateWeeklyReportAi_asks (buildWeeklySummary (r :: recent))
                (getProp (currentSettings w) "openRouterApiKey") w Hkey)
      as (res & added & Hrun & Hasks).
    unfold bind at 1. rewrite Hrun.
    destruct res as [text|e]; cbn; exists added; now split.
Qed.

End MessageProperties.

Lemma accepted_watch_event_is_stored_witness :
  stored_videos (snd (ServiceWorker.handleVideoWatched (P := testEngine)
                        (JObject (payloadObject firstWatch)) keyedRun))
  = Storage.upsert (P := testEngine) (payloadObject firstWatch) []
  /\ queueProcessing (snd (ServiceWorker.handleVideoWatched (P := testEngine)
                             (JObject (payloadObject firstWatch)) keyedRun)) = true
  /\ inFlight (snd (ServiceWorker.handleVideoWatched (P := testEngine)
                      (JObject (payloadObject firstWatch)) keyedRun))
     = Some (jobOf (payloadObject firstWatch))
  /\ aiQueue (snd (ServiceWorker.handleVideoWatched (P := testEngine)
                     (JObject (payloadObject firstWatch)) keyedRun)) = [].
Proof.
  destruct (accepted_watch_event_is_stored (P := testEngine)
              (payloadObject firstWatch) keyedRun eq_refl eq_refl eq_refl eq_refl)
    as (_ & _ & _ & Hready & _).
  destruct (Hready eq_refl) as (Hstore & Hflag & _ & Hidle).
  destruct (Hidle eq_refl eq_refl) as [Hfly Hqueue].
  split; [exact Hstore|]. split; [exact Hflag|]. split; [exact Hfly|exact Hqueue].
Defined.

Lemma C7_witness :
  ServiceWorker.handleWeeklyReport (P := testEngine) (fun _ => "summary") eightDaysLater
  = (Throw "No watch history in the past 7 days", eightDaysLater).
Proof.
  refine (proj1 (proj1 (C7_empty_window_fails_without_request (P := testEngine)
                          (fun _ => "summary") eightDaysLater) _) eq_refl).
  intros video t [<-|[]] Ht. vm_compute in Ht. injection Ht as <-. reflexivity.
Defined.

(** On a first run nothing is stored, yet the error is the one about the
    settings.  And a record dated thirty days after now is within no last
    seven days, yet both models are asked. *)
Lemma C7_counterexample :
  stored_videos firstRun = []
  /\ fst (ServiceWorker.handleWeeklyReport (P := testEngine) (fun _ => "summary") firstRun)
     = Throw "AI disabled or API key missing"
  /\ fst (ServiceWorker.handleWeeklyReport (P := testEngine) (fun _ => "summary") firstRun)
     <> Throw "No watch history in the past 7 days"
  /\ (forall (video : Obj) (t : Z),
        In video (stored_videos thirtyDaysEarlier) ->
        DateGetTime (Platform := testEngine) (getProp video "watchedAt") = Some t ->
        (t = clock thirtyDaysEarlier + 30 * dayMs + 3600000)%Z
        /\ ~ (clock thirtyDaysEarlier - ServiceWorker.RECENT_WINDOW_MS <= t
               <= clock thirtyDaysEarlier)%Z)
  /\ map req_model
        (requests (snd (ServiceWorker.handleWeeklyReport (P := testEngine)
                          (fun _ => "summary") thirtyDaysEarlier)))
     = [Ai.AI_MODEL_PRIMARY; Ai.AI_MODEL_FALLBACK]
  /\ fst (ServiceWorker.handleWeeklyReport (P := testEngine) (fun _ => "summary")
            thirtyDaysEarlier)
     = Throw "Failed to fetch".
Proof.
  split; [reflexivity|]. split; [reflexivity|]. split; [discriminate|].
  split; [|split; reflexivity].
  intros video t [<-|[]] Ht. vm_compute in Ht. injection Ht as <-.
  split; [reflexivity|]. vm_compute. intros [_ H]. now apply H.
Qed.

Section DispatchProperties.
Import Storage ServiceWorker.
Context {P : Platform}.
Variable buildWeeklySummary : list Obj -> string.

(** X18. testOpenRouterKey never throws: without a key it returns false and
    sends nothing; with a key it sends exactly one request, to the primary
    model (never the fallback), and returns true exactly when the reply is a
    text that contains 'ok' in any letter case, false on any failure. *)
Theorem testOpenRouterKey_asks_primary_once (apiKey : JsVal) (w : World) :
  let request := primaryRequest Ai.keyTestPrompt in
  let outcome := network w (length (requests w)) request in
  (truthy apiKey = false -> Ai.testOpenRouterKey apiKey w = (Ok false, w))
  /\ (truthy apiKey = true ->
      Ai.testOpenRouterKey apiKey w
      = (Ok match outcome with
            | NetError _ => false
            | NetContent reply =>
                match vor reply (JStr "") with
                | JStr content => includes "ok" (toLowerCase content)
                | _ => false
                end
            end,
         add_request request w))
  /\ (exists valid : bool, fst (Ai.testOpenRouterKey apiKey w) = Ok valid)
  /\ (forall r : Request,
        In r (requests (snd (Ai.testOpenRouterKey apiKey w))) ->
        In r (requests w) \/ req_model r = Ai.AI_MODEL_PRIMARY).
Proof.
  intros request outcome.
  assert (Hoff : truthy apiKey = false -> Ai.testOpenRouterKey apiKey w = (Ok false, w)).
  { intros Hkey. unfold Ai.testOpenRouterKey, tryCatch, bind.
    now rewrite callOpenRouter_no_key. }
  assert (Hon : truthy apiKey = true ->
            Ai.testOpenRouterKey apiKey w
            = (Ok match outcome with
                  | NetError _ => false
                  | NetContent reply =>
                      match vor reply (JStr "") with
                      | JStr content => includes "ok" (toLowerCase content)
                      | _ => false
                      end
                  end,
               add_request request w)).
  { intros Hkey. subst outcome request.
    unfold Ai.testOpenRouterKey, tryCatch, bind, Ai.callOpenRouter, primaryRequest, ret, throw.
    rewrite Hkey. cbn [negb].
    destruct (network w (length (requests w)) _) as [e|reply]; [reflexivity|].
    now destruct (vor reply (JStr "")). }
  split; [assumption|]. split; [assumption|].
  destruct (truthy apiKey).
  - rewrite (Hon eq_refl). cbn [fst snd]. split; [eauto|].
    intros r Hin. cbn [requests add_request] in Hin.
    apply in_app_or in Hin as [Hin|[<-|[]]]; [now left|now right].
  - rewrite (Hoff eq_refl). cbn [fst snd]. split; [eauto|]. auto.
Qed.

(** X19. A message whose type is none of the seven known types makes
    handleMessage throw 'Unknown message type', which the listener answers
    with a failure and no change. CLEAR_DATA empties the history and drops
    the cached report but keeps the settings (API key included) and the
    worker's queue and sends no request; jobs left in the queue do not bring
    records back: a worker run started afterwards ends with an empty store
    and an empty queue. The dashboard's own clear button (handleClearData)
    empties the history but keeps the cached report, and does nothing when
    the confirmation is declined. *)
Theorem clear_data_keeps_settings (message : Message) (w : World) :
  ((forall name : string, In name MESSAGE_TYPES ->
       strictEq (msg_type message) (JStr name) = false) ->
   handleMessage buildWeeklySummary message w = (Throw "Unknown message type", w)
   /\ respond (handleMessage buildWeeklySummary message) w
      = (failure Reply "Unknown message type", w))
  /\ (msg_type message = JStr "CLEAR_DATA" ->
      let w' := snd (handleMessage buildWeeklySummary message w) in
      fst (handleMessage buildWeeklySummary message w) = Ok ClearedReply
      /\ stored_videos w' = [] /\ stored_report w' = None
      /\ stored_settings w' = stored_settings w
      /\ aiQueue w' = aiQueue w /\ requests w' = requests w
      /\ (queueProcessing w = false ->
          exists w'',
            processQueueSafely Ai.categorizeVideoAi (length (aiQueue w')) w'
            = Some (Ok tt, w'')
            /\ stored_videos w'' = [] /\ aiQueue w'' = []
            /\ stored_settings w'' = stored_settings w))
  /\ (let w' := snd (Dashboard.handleClearData true w) in
      stored_videos w' = [] /\ stored_report w' = stored_report w
      /\ stored_settings w' = stored_settings w)
  /\ Dashboard.handleClearData false w = (Ok tt, w).
Proof.
  split; [|split; [|split]].
  - intros Hnone.
    assert (Hrun : handleMessage buildWeeklySummary message w
                   = (Throw "Unknown message type", w)).
    { unfold handleMessage.
      rewrite !Hnone by (cbn; auto 10). reflexivity. }
    split; [exact Hrun|]. unfold respond. now rewrite Hrun.
  - intros Htype w'.
    assert (Hrun : handleMessage buildWeeklySummary message w
                   = (Ok ClearedReply,
                      set_report None (set_videos [] w))).
    { unfold handleMessage. rewrite Htype. reflexivity. }
    subst w'. rewrite Hrun. cbn [fst snd].
    split; [reflexivity|]. split; [reflexivity|]. split; [reflexivity|].
    split; [reflexivity|]. split; [reflexivity|]. split; [reflexivity|].
    intros Hidle.
    destruct (processQueueSafely_frame Ai.categorizeVideoAi categorize_asksAtMostTwice
                (set_report None (set_videos [] w)) Hidle)
      as (w'' & Hwork & Hempty & _ & Hvideos & Hsettings & _).
    exists w''. split; [exact Hwork|]. split; [|split; [exact Hempty|exact Hsettings]].
    cbn [stored_videos set_report set_videos] in Hvideos.
    unfold onlyAnnotated in Hvideos. now inversion Hvideos.
  - cbn. now repeat split.
  - reflexivity.
Qed.

End DispatchProperties.

Section SanitizerProperties.
Import Storage Dashboard.
Context {P : Platform}.

Lemma clampNumber_valid (value fallback : JsVal) :
  match fallback with JNum n => inRange 10 80 n | _ => false end = true ->
  match clampNumber value 10 80 fallback with JNum n => inRange 10 80 n | _ => false end = true.
Proof.
  intros Hfb. unfold clampNumber.
  destruct value as [| |b|[q| | |]|s]; try assumption.
  destruct (Qle_bool 10 q && Qle_bool q 80) eqn:Hin; [|assumption]. exact Hin.
Qed.

Lemma ensureSeconds_valid (value fallback : JsVal) :
  match fallback with JNum n => atLeast 60 n | _ => false end = true ->
  match ensureSeconds value fallback with JNum n => atLeast 60 n | _ => false end = true.
Proof.
  intros Hfb. unfold ensureSeconds.
  destruct value as [| |b|[q| | |]|s]; try assumption.
  destruct (Qle_bool 60 q) eqn:Hin; [|assumption]. exact Hin.
Qed.

Lemma parseBoolean_valid (value fallback : JsVal) :
  match fallback with JBool _ => true | _ => false end = true ->
  match parseBoolean value fallback with JBool _ => true | _ => false end = true.
Proof.
  intros Hfb. unfold parseBoolean.
  destruct value as [| |b|n|s]; try assumption; [reflexivity|].
  destruct (String.eqb s "true"); [reflexivity|].
  destruct (String.eqb s "false"); [reflexivity|assumption].
Qed.

Lemma retentionOr_valid (value fallback : JsVal) :
  isRetentionOption fallback = true -> isRetentionOption (retentionOr value fallback) = true.
Proof.
  intros Hfb. unfold retentionOr. now destruct (isRetentionOption value) eqn:Hv.
Qed.

(** X20. Whatever is submitted and whatever the base object holds, every one
    of the eight fields of sanitizeSettings' result is valid:
    minWatchPercent a number in 10..80, minWatchTimeSeconds a number >= 60,
    dataRetention one of all/3m/6m/1y, openRouterApiKey a string, and the
    four switches booleans. *)
Theorem sanitized_settings_are_valid (input base : Obj) (field : string) :
  In field settingsFields ->
  validPrevious field (getProp (sanitizeSettings input base) field) = true.
Proof.
  intros Hin. unfold sanitizeSettings.
  cbn in Hin.
  destruct Hin as [<-|[<-|[<-|[<-|[<-|[<-|[<-|[<-|[]]]]]]]]];
    unfold getProp at 1; lookup_field; cbn [default validPrevious String.eqb Ascii.eqb Bool.eqb];
    unfold fallbackOf, getProp at 2; lookup_field; cbn [default].
  - apply clampNumber_valid, clampNumber_valid. reflexivity.
  - apply ensureSeconds_valid, ensureSeconds_valid. reflexivity.
  - apply parseBoolean_valid, parseBoolean_valid. reflexivity.
  - apply parseBoolean_valid, parseBoolean_valid. reflexivity.
  - apply retentionOr_valid, retentionOr_valid. reflexivity.
  - apply parseBoolean_valid, parseBoolean_valid. reflexivity.
  - unfold trimmedOr, stringOr.
    destruct (getProp input "openRouterApiKey"); try reflexivity;
      now destruct (isString (getProp base "openRouterApiKey")) eqn:Hs.
  - apply parseBoolean_valid, parseBoolean_valid. reflexivity.
Qed.

End SanitizerProperties.

Lemma sanitized_settings_are_valid_witness :
  validPrevious "minWatchPercent"
    (getProp (Dashboard.sanitizeSettings (P := testEngine) submitted200 previousSettings)
       "minWatchPercent") = true.
Proof.
  exact (sanitized_settings_are_valid (P := testEngine) submitted200 previousSettings
           "minWatchPercent" (or_introl eq_refl)).
Defined.

Section HelperProperties.
Context {P : Platform}.

Lemma floor_bounds (x : Q) :
  (inject_Z (Qfloor x) <= x)%Q /\ (x < inject_Z (Qfloor x) + 1)%Q.
Proof.
  split; [apply Qfloor_le|].
  pose proof (Qlt_floor x) as H. rewrite inject_Z_plus in H. exact H.
Qed.

(** X21. For a whole number of seconds s with 0 <= s < 2^53 (the whole
    numbers next to each other among the doubles), toHoursMinutes returns
    hours = floor(s / 3600) and minutes = floor((s mod 3600) / 60): the
    rounding of the two quotients to doubles never reaches the next whole
    number, so hours >= 0, 0 <= minutes <= 59 and 3600*hours + 60*minutes
    <= s < 3600*hours + 60*minutes + 60. *)
Theorem toHoursMinutes_splits_seconds (s : Z) :
  (0 <= s < 2 ^ 53)%Z ->
  let hours := (s / 3600)%Z in
  let minutes := ((s mod 3600) / 60)%Z in
  Helpers.toHoursMinutes (JNum (Fin (inject_Z s)))
  = (Fin (inject_Z hours), Fin (inject_Z minutes))
  /\ (0 <= hours)%Z
  /\ (0 <= minutes <= 59)%Z
  /\ (3600 * hours + 60 * minutes <= s < 3600 * hours + 60 * minutes + 60)%Z.
Proof.
  intros Hs hours minutes.
  pose proof (Z.div_mod s 3600 ltac:(lia)) as Hdiv.
  pose proof (Z.mod_pos_bound s 3600 ltac:(lia)) as Hmod.
  pose proof (Z.div_mod (s mod 3600) 60 ltac:(lia)) as Hdiv'.
  pose proof (Z.mod_pos_bound (s mod 3600) 60 ltac:(lia)) as Hmod'.
  fold hours in Hdiv. fold minutes in Hdiv'.
  assert (Hh0 : (0 <= hours)%Z) by (subst hours; apply Z.div_pos; lia).
  assert (Hm0 : (0 <= minutes)%Z) by (subst minutes; apply Z.div_pos; lia).
  assert (Hrem : (inject_Z (s mod 3600) == inject_Z s - 3600 * inject_Z hours)%Q).
  { replace (s mod 3600)%Z with (s - 3600 * hours)%Z by lia.
    unfold Zminus. rewrite inject_Z_plus, inject_Z_opp, inject_Z_mult. reflexivity. }
  assert (Hs0 : (0 <= inject_Z s)%Q).
  { change 0%Q with (inject_Z 0). rewrite <- Zle_Qle. lia. }
  assert (Hrlo : (0 <= inject_Z (s mod 3600))%Q).
  { change 0%Q with (inject_Z 0). rewrite <- Zle_Qle. lia. }
  assert (Hrhi : (inject_Z (s mod 3600) <= 3599)%Q).
  { change 3599%Q with (inject_Z 3599). rewrite <- Zle_Qle. lia. }
  assert (Hmlo : (60 * inject_Z minutes <= inject_Z (s mod 3600))%Q).
  { change 60%Q with (inject_Z 60). rewrite <- inject_Z_mult, <- Zle_Qle. lia. }
  assert (Hmhi : (inject_Z (s mod 3600) + 1 <= 60 * inject_Z (minutes + 1))%Q).
  { change 60%Q with (inject_Z 60). change 1%Q with (inject_Z 1).
    rewrite <- inject_Z_mult, <- inject_Z_plus, <- Zle_Qle. lia. }
  assert (Hh0q : (0 <= inject_Z hours)%Q).
  { change 0%Q with (inject_Z 0). now rewrite <- Zle_Qle. }
  assert (Hhlo : (inject_Z hours <= inject_Z s / 3600)%Q).
  { apply Qle_shift_div_l; [reflexivity|]. lra. }
  assert (Hhhi : (inject_Z s / 3600 + (1 # 3600) <= inject_Z (hours + 1))%Q).
  { rewrite inject_Z_plus. change (inject_Z 1) with 1%Q.
    assert (H : (inject_Z s / 3600 == inject_Z hours + inject_Z (s mod 3600) / 3600)%Q).
    { rewrite Hrem. field. }
    rewrite H.
    assert (H' : (inject_Z (s mod 3600) / 3600 <= 3599 / 3600)%Q).
    { apply Qmult_le_compat_r; [assumption|discriminate]. }
    assert (H'' : (3599 / 3600 + (1 # 3600) == 1)%Q) by reflexivity.
    lra. }
  assert (Hbound : (inject_Z s / 3600 < 2 ^ 42)%Q).
  { apply Qlt_shift_div_r; [reflexivity|].
    assert (H : (inject_Z s < inject_Z (2 ^ 53))%Q) by (rewrite <- Zlt_Qlt; lia).
    eapply Qlt_le_trans; [exact H|]. discriminate. }
  destruct (toDouble_floor (inject_Z s / 3600) (1 # 3600) hours 42)
    as (r & Hr & Hfloor); try assumption; try lia; [reflexivity|].
  assert (Htrunc : Qtrunc (inject_Z s / 3600) = hours).
  { unfold Qtrunc.
    assert (H0 : Qle_bool 0 (inject_Z s / 3600) = true) by (apply Qle_bool_iff; lra).
    rewrite H0.
    assert (H1 : (hours <= Qfloor (inject_Z s / 3600))%Z).
    { rewrite <- (Qfloor_Z hours). now apply Qfloor_resp_le. }
    assert (H2 : (Qfloor (inject_Z s / 3600) < hours + 1)%Z).
    { rewrite Zlt_Qlt. eapply Qle_lt_trans; [apply Qfloor_le|].
      assert (0 < 1 # 3600)%Q by reflexivity. lra. }
    lia. }
  set (rest := (inject_Z s - 3600 * inject_Z (Qtrunc (inject_Z s / 3600)))%Q).
  assert (Hrest : (rest == inject_Z (s mod 3600))%Q).
  { subst rest. rewrite Htrunc. now rewrite Hrem. }
  destruct (toDouble_floor (rest / 60) (1 # 60) minutes 6)
    as (r' & Hr' & Hfloor'); try assumption; try lia.
  { apply Qle_shift_div_l; [reflexivity|]. rewrite Hrest. lra. }
  { rewrite inject_Z_plus. change (inject_Z 1) with 1%Q.
    assert (H : (rest / 60 + (1 # 60) == (rest + 1) / 60)%Q) by field.
    rewrite H. apply Qle_shift_div_r; [reflexivity|]. rewrite Hrest.
    rewrite inject_Z_plus in Hmhi. change (inject_Z 1) with 1%Q in Hmhi. lra. }
  { apply Qlt_shift_div_r; [reflexivity|]. rewrite Hrest.
    eapply Qle_lt_trans; [exact Hrhi|]. reflexivity. }
  { reflexivity. }
  split; [|split; [assumption|split; lia]].
  unfold Helpers.toHoursMinutes. cbn [ToNumber].
  unfold fdiv at 1. cbn [jdiv].
  change (Qzero 3600) with false. cbn [double]. rewrite Hr. cbn [jfloor]. rewrite Hfloor.
  f_equal. cbn [jmod]. change (Qzero 3600) with false. cbv iota. fold rest.
  unfold fdiv. cbn [jdiv]. change (Qzero 60) with false. cbn [double].
  rewrite Hr'. cbn [jfloor]. now rewrite Hfloor'.
Qed.

(** X22. filterByDateRange returns a sub-list of the history; without bounds
    it returns the history itself; a record whose watchedAt parses to time t
    is kept exactly when start <= t for a given start date and t <= end for
    a given end date (both bounds inclusive; a bound that does not parse is
    ignored); a record whose watchedAt does not parse is always kept. *)
Theorem filterByDateRange_is_inclusive (history : list Obj) (startDate endDate : JsVal) :
  let kept := Helpers.filterByDateRange history startDate endDate in
  (truthy startDate = false -> truthy endDate = false -> kept = history)
  /\ (forall video : Obj, In video kept -> In video history)
  /\ (forall video : Obj, In video history ->
        DateGetTime (getProp video "watchedAt") = None -> In video kept)
  /\ (forall (video : Obj) (t : Z),
        In video history ->
        DateGetTime (getProp video "watchedAt") = Some t ->
        (In video kept
         <-> (forall a : Z, truthy startDate = true -> DateGetTime startDate = Some a ->
                (a <= t)%Z)
             /\ (forall b : Z, truthy endDate = true -> DateGetTime endDate = Some b ->
                   (t <= b)%Z))).
Proof.
  intros kept. subst kept. unfold Helpers.filterByDateRange.
  assert (Hlt : forall a b : Z, jlt (Fin (inject_Z a)) (Fin (inject_Z b)) = (a <? b)%Z).
  { intros a b. unfold jlt. cbn [jle jeq].
    destruct (Z.ltb_spec a b) as [H|H].
    - apply andb_true_iff. split.
      + apply Qle_bool_iff. rewrite <- Zle_Qle. lia.
      + apply negb_true_iff. destruct (Qeq_bool _ _) eqn:Hq; [|reflexivity].
        apply Qeq_bool_iff in Hq. unfold Qeq in Hq. cbn in Hq. lia.
    - apply andb_false_iff. destruct (Z.eq_dec a b) as [->|Hne].
      + right. apply negb_false_iff, Qeq_bool_iff. reflexivity.
      + left. destruct (Qle_bool _ _) eqn:Hq; [|reflexivity].
        apply Qle_bool_iff in Hq. rewrite <- Zle_Qle in Hq. lia. }
  split; [|split; [|split]].
  - intros -> ->. reflexivity.
  - intros video. destruct (negb (truthy startDate) && negb (truthy endDate)); [auto|].
    intros Hin. now apply filter_In in Hin.
  - intros video Hin Hdate.
    destruct (negb (truthy startDate) && negb (truthy endDate)); [assumption|].
    apply filter_In. split; [assumption|].
    assert (Hnan : getTime (getProp video "watchedAt") = NaN)
      by (unfold getTime; now rewrite Hdate).
    rewrite Hnan.
    assert (Hl : forall n, jlt NaN n = false) by reflexivity.
    assert (Hr : forall n, jlt n NaN = false) by (now intros [q| | |]).
    now rewrite Hl, Hr, !andb_false_r.
  - intros video t Hin Hdate.
    assert (Hkeep :
      (if truthy startDate && jlt (getTime (getProp video "watchedAt")) (getTime startDate)
       then false
       else if truthy endDate && jlt (getTime endDate) (getTime (getProp video "watchedAt"))
            then false else true) = true
      <-> (forall a : Z, truthy startDate = true -> DateGetTime startDate = Some a ->
             (a <= t)%Z)
          /\ (forall b : Z, truthy endDate = true -> DateGetTime endDate = Some b ->
                (t <= b)%Z)).
    { unfold getTime. rewrite Hdate.
      destruct (truthy startDate); destruct (truthy endDate); cbn [andb];
        destruct (DateGetTime startDate) as [a|]; destruct (DateGetTime endDate) as [b|];
        rewrite ?Hlt; unfold jlt; cbn [jle jeq andb];
        repeat match goal with
               | |- context [Z.ltb ?u ?v] => destruct (Z.ltb_spec u v)
               end;
        split; try discriminate; try (intros _; split; intros; congruence);
        try (intros _; split; intros ? ? [= <-]; lia);
        try (intros [H1 H2]; try specialize (H1 _ eq_refl eq_refl);
             try specialize (H2 _ eq_refl eq_refl); try reflexivity; lia). }
    destruct (negb (truthy startDate) && negb (truthy endDate)) eqn:Hnone.
    + apply andb_true_iff in Hnone as [H1 H2]. apply negb_true_iff in H1, H2.
      split; [|auto]. intros _. split; intros ? Ht; congruence.
    + rewrite filter_In. rewrite Hkeep. tauto.
Qed.

End HelperProperties.

Lemma toHoursMinutes_splits_seconds_witness :
  Helpers.toHoursMinutes (P := testEngine) (JNum (Fin (inject_Z 3725)))
  = (Fin (inject_Z (3725 / 3600)), Fin (inject_Z ((3725 mod 3600) / 60)))
  /\ (0 <= 3725 / 3600)%Z
  /\ (0 <= (3725 mod 3600) / 60 <= 59)%Z
  /\ (3600 * (3725 / 3600) + 60 * ((3725 mod 3600) / 60) <= 3725
      < 3600 * (3725 / 3600) + 60 * ((3725 mod 3600) / 60) + 60)%Z.
Proof.
  apply (toHoursMinutes_splits_seconds (P := testEngine) 3725). lia.
Defined.

(** 3725 seconds are one hour and two minutes. *)
Example toHoursMinutes_example :
  Helpers.toHoursMinutes (P := testEngine) (JNum (Fin 3725)) = (Fin 1, Fin 2).
Proof. vm_compute. reflexivity. Qed.

(** Beyond 2^53 the quotient rounds past the next whole number: at 10^21
    seconds the hours come out as 277777777777777792, fifteen more than
    there are whole hours in 10^21 seconds. *)
Example toHoursMinutes_rounds_up :
  jeq (fst (Helpers.toHoursMinutes (P := testEngine) (JNum (Fin (10 ^ 21)))))
      (Fin 277777777777777792) = true
  /\ (10 ^ 21 / 3600 = 277777777777777777)%Z.
Proof. vm_compute. split; reflexivity. Qed.

Section EntryFacts.
Context {V : Type}.

Lemma entryGet_entrySet_same (k k2 : JsVal) (v : V) (m : list (JsVal * V)) :
  sameValueZero k k2 = true -> entryGet k2 (entrySet k v m) = Some v.
Proof.
  intros Hk. induction m as [|[k' v'] m IH]; cbn.
  - now rewrite Hk.
  - destruct (sameValueZero k' k) eqn:Hk'; cbn.
    + now rewrite (sameValueZero_trans k' k k2 Hk' Hk).
    + destruct (sameValueZero k' k2) eqn:Hk2; [|assumption].
      rewrite sameValueZero_sym in Hk.
      rewrite (sameValueZero_trans k' k2 k Hk2 Hk) in Hk'. discriminate.
Qed.

Lemma entryGet_entrySet_other (k k2 : JsVal) (v : V) (m : list (JsVal * V)) :
  sameValueZero k k2 = false -> entryGet k2 (entrySet k v m) = entryGet k2 m.
Proof.
  intros Hk. induction m as [|[k' v'] m IH]; cbn.
  - now rewrite Hk.
  - destruct (sameValueZero k' k) eqn:Hk'; cbn.
    + destruct (sameValueZero k' k2) eqn:Hk2; [|reflexivity].
      rewrite sameValueZero_sym in Hk'.
      rewrite (sameValueZero_trans k k' k2 Hk' Hk2) in Hk. discriminate.
    + now destruct (sameValueZero k' k2).
Qed.

Lemma entrySet_keys (k : JsVal) (v : V) (m : list (JsVal * V)) :
  map fst (entrySet k v m)
  = if existsb (fun k' => sameValueZero k' k) (map fst m) then map fst m
    else map fst m ++ [k].
Proof.
  induction m as [|[k' v'] m IH]; cbn; [reflexivity|].
  destruct (sameValueZero k' k); cbn; [reflexivity|].
  rewrite IH. now destruct (existsb _ (map fst m)).
Qed.

Lemma entryGet_keys (k : JsVal) (m : list (JsVal * V)) :
  existsb (fun k' => sameValueZero k' k) (map fst m)
  = match entryGet k m with Some _ => true | None => false end.
Proof.
  induction m as [|[k' v'] m IH]; cbn; [reflexivity|].
  now destruct (sameValueZero k' k).
Qed.

End EntryFacts.

Section BreakdownProperties.
Context {P : Platform}.

Lemma bucketTotal_entrySet (k : JsVal) (b : Helpers.Bucket)
    (m : list (JsVal * Helpers.Bucket)) :
  (bucketTotal (entrySet k b m) + bucketCount k m = bucketTotal m + Helpers.count b)%nat.
Proof.
  unfold bucketTotal, bucketCount.
  induction m as [|[k' b'] m IH]; cbn; [lia|].
  unfold list_sum in IH. destruct (sameValueZero k' k); cbn; lia.
Qed.

Lemma sameValueZero_string (v : JsVal) (s : string) :
  sameValueZero v (JStr s) = strictEq v (JStr s).
Proof. now destruct v as [| |b|[q| | |]|t]. Qed.

(** X23. In the Map calculateCategoryBreakdown returns, the count of a
    category is the number of records whose aiCategory (or 'Uncategorized'
    when falsy) is that category, the counts of all categories add up to the
    number of records, and the count of 'Uncategorized' is the number of
    records the worker still regards as pending. *)
Theorem category_counts_add_up (history : list Obj) :
  let breakdown := Helpers.calculateCategoryBreakdown history in
  (forall category : JsVal,
      bucketCount category breakdown
      = length (List.filter
                  (fun video => sameValueZero (Helpers.categoryOf video) category) history))
  /\ bucketTotal breakdown = length history
  /\ bucketCount (JStr "Uncategorized") breakdown
     = length (List.filter ServiceWorker.needsCategory history).
Proof.
  intros breakdown.
  set (step := fun (map : list (JsVal * Helpers.Bucket)) (video : Obj) =>
         entrySet (Helpers.categoryOf video)
           {| Helpers.count :=
                S (Helpers.count
                     (default {| Helpers.count := 0; Helpers.bucketWatchTime := JNum (Fin 0) |}
                        (entryGet (Helpers.categoryOf video) map)));
              Helpers.bucketWatchTime :=
                jsAdd (Helpers.bucketWatchTime
                         (default {| Helpers.count := 0;
                                     Helpers.bucketWatchTime := JNum (Fin 0) |}
                            (entryGet (Helpers.categoryOf video) map)))
                  (Helpers.watchedOf video) |}
           map).
  assert (Hfold : breakdown = fold_left step history []) by reflexivity.
  assert (Hsame : forall (a b : JsVal) (m : list (JsVal * Helpers.Bucket)),
            sameValueZero a b = true -> entryGet b m = entryGet a m).
  { intros a b m Hab. induction m as [|[k' b'] m IHm]; cbn; [reflexivity|].
    destruct (sameValueZero k' a) eqn:H1.
    - now rewrite (sameValueZero_trans _ _ _ H1 Hab).
    - destruct (sameValueZero k' b) eqn:H2; [|assumption].
      rewrite sameValueZero_sym in Hab.
      rewrite (sameValueZero_trans _ _ _ H2 Hab) in H1. discriminate. }
  assert (Hstep : forall category m v,
            bucketCount category (step m v)
            = (bucketCount category m
               + if sameValueZero (Helpers.categoryOf v) category then 1 else 0)%nat).
  { intros category m v. unfold step, bucketCount.
    destruct (sameValueZero (Helpers.categoryOf v) category) eqn:Hcat.
    - rewrite (entryGet_entrySet_same _ _ _ _ Hcat). cbn [Helpers.count].
      rewrite (Hsame _ _ m Hcat).
      destruct (entryGet (Helpers.categoryOf v) m); cbn; lia.
    - rewrite (entryGet_entrySet_other _ _ _ _ Hcat). lia. }
  assert (Hstep_total : forall m v, bucketTotal (step m v) = S (bucketTotal m)).
  { intros m v. unfold step.
    pose proof (bucketTotal_entrySet (Helpers.categoryOf v)
      {| Helpers.count :=
           S (Helpers.count
                (default {| Helpers.count := 0; Helpers.bucketWatchTime := JNum (Fin 0) |}
                   (entryGet (Helpers.categoryOf v) m)));
         Helpers.bucketWatchTime :=
           jsAdd (Helpers.bucketWatchTime
                    (default {| Helpers.count := 0; Helpers.bucketWatchTime := JNum (Fin 0) |}
                       (entryGet (Helpers.categoryOf v) m)))
             (Helpers.watchedOf v) |} m) as H.
    cbn [Helpers.count] in H. unfold bucketCount in H.
    destruct (entryGet (Helpers.categoryOf v) m); cbn [from_option id Helpers.count] in *; lia. }
  clearbody step.
  assert (Hcount : forall category videos m,
            bucketCount category (fold_left step videos m)
            = (bucketCount category m
               + length (List.filter
                           (fun video => sameValueZero (Helpers.categoryOf video) category)
                           videos))%nat).
  { intros category videos. induction videos as [|v videos IH]; intros m; cbn [fold_left].
    - cbn. lia.
    - rewrite IH, Hstep. cbn [List.filter].
      destruct (sameValueZero (Helpers.categoryOf v) category); cbn [length]; lia. }
  assert (Htotal : forall videos m,
            bucketTotal (fold_left step videos m) = (bucketTotal m + length videos)%nat).
  { induction videos as [|v videos IH]; intros m; cbn [fold_left length]; [lia|].
    rewrite IH, Hstep_total. lia. }
  rewrite Hfold. split; [|split].
  - intros category. now rewrite Hcount.
  - now rewrite Htotal.
  - rewrite Hcount. cbn [bucketCount entryGet Nat.add]. f_equal.
    apply filter_ext. intros video. rewrite sameValueZero_string.
    unfold Helpers.categoryOf, ServiceWorker.needsCategory, vor.
    destruct (truthy (getProp video "aiCategory")); cbn [negb orb]; reflexivity.
Qed.

End BreakdownProperties.

Section FrequencyProperties.
Import ServiceWorker.

Lemma sameValueZero_truthy (a b : JsVal) :
  sameValueZero a b = true -> truthy a = truthy b.
Proof.
  destruct a as [| |x|[p| | |]|s], b as [| |y|[q| | |]|t]; cbn; try discriminate; try reflexivity.
  - intros H. apply Bool.eqb_prop in H. now subst.
  - intros H. apply Qeq_bool_iff in H. unfold Qzero.
    destruct (Qeq_bool p 0) eqn:Hp, (Qeq_bool q 0) eqn:Hq; try reflexivity.
    + apply Qeq_bool_iff in Hp. rewrite H in Hp. apply Qeq_bool_iff in Hp. congruence.
    + apply Qeq_bool_iff in Hq. rewrite <- H in Hq. apply Qeq_bool_iff in Hq. congruence.
  - intros H. apply String.eqb_eq in H. now subst.
Qed.

Lemma findIndex_app {A : Type} (f : A -> bool) (l : list A) (x : A) :
  findIndex f (l ++ [x])
  = match findIndex f l with
    | Some i => Some i
    | None => if f x then Some (length l) else None
    end.
Proof.
  induction l as [|y l IH]; cbn.
  - now destruct (f x).
  - destruct (f y); [reflexivity|]. rewrite IH.
    destruct (findIndex f l); [reflexivity|]. now destruct (f x).
Qed.

Lemma entrySet_found {V : Type} (x : JsVal) (v c0 : V) (T : list (JsVal * V)) :
  entryGet x T = Some c0 ->
  exists e0 k0, T !! e0 = Some (k0, c0) /\ sameValueZero k0 x = true
                /\ entrySet x v T = <[e0 := (k0, v)]> T.
Proof.
  induction T as [|[k c] T IH]; cbn; [discriminate|].
  destruct (sameValueZero k x) eqn:Hk.
  - intros [= <-]. exists 0%nat, k. now repeat split.
  - intros Hget. destruct (IH Hget) as (e0 & k0 & He0 & Hk0 & Hset).
    exists (S e0), k0. cbn. rewrite Hset. now repeat split.
Qed.

Lemma entrySet_missing {V : Type} (x : JsVal) (v : V) (T : list (JsVal * V)) :
  entryGet x T = None ->
  entrySet x v T = T ++ [(x, v)]
  /\ forall e k c, T !! e = Some (k, c) -> sameValueZero k x = false.
Proof.
  induction T as [|[k c] T IH]; cbn.
  - intros _. split; [reflexivity|]. intros e k c H. destruct e; discriminate.
  - destruct (sameValueZero k x) eqn:Hk; [discriminate|].
    intros Hget. destruct (IH Hget) as [Hset Hnone]. rewrite Hset. split; [reflexivity|].
    intros [|e] k' c' H; cbn in H; [now injection H as <- <-|eauto].
Qed.

Lemma filter_none {A : Type} (f : A -> bool) (l : list A) :
  (forall x, In x l -> f x = false) -> List.filter f l = [].
Proof.
  induction l as [|x l IH]; intros H; cbn; [reflexivity|].
  rewrite (H x) by now left. apply IH. intros y Hy. apply H. now right.
Qed.

Lemma entryGet_None_keys {V : Type} (x : JsVal) (T : list (JsVal * V)) :
  (forall e k c, T !! e = Some (k, c) -> sameValueZero k x = false) -> entryGet x T = None.
Proof.
  induction T as [|[k c] T IH]; intros H; cbn; [reflexivity|].
  rewrite (H 0%nat k c eq_refl). apply IH. intros e k' c' He. apply (H (S e) k' c' He).
Qed.

Lemma occurrences_snoc (k x : JsVal) (pre : list JsVal) :
  occurrences k (pre ++ [x])
  = (occurrences k pre + if sameValueZero x k then 1 else 0)%nat.
Proof.
  unfold occurrences. rewrite List.filter_app, length_app. cbn [List.filter].
  now destruct (sameValueZero x k).
Qed.

Lemma firstAt_snoc_Some (k x : JsVal) (pre : list JsVal) (p : nat) :
  firstAt pre k = Some p -> firstAt (pre ++ [x]) k = Some p.
Proof. unfold firstAt. intros H. now rewrite findIndex_app, H. Qed.

Lemma tallied_step (pre : list JsVal) (T : list (JsVal * nat)) (x : JsVal) :
  tallied pre T -> tallied (pre ++ [x]) (tallyStep T x).
Proof.
  intros (K1 & K2 & K3 & K4). unfold tallyStep.
  destruct (truthy x) eqn:Hx; cbn [negb].
  - destruct (entryGet x T) as [c0|] eqn:Hget; cbn [default from_option id].
    + (* the key is in the Map: its count goes up by one *)
      destruct (entrySet_found x (S c0) c0 T Hget) as (e0 & k0 & He0 & Hk0 & ->).
      assert (Hlt0 : (e0 < length T)%nat) by (eapply lookup_lt_Some; eauto).
      assert (Hother : forall e k c, T !! e = Some (k, c) -> e <> e0 ->
                sameValueZero x k = false).
      { intros e k c He Hne. destruct (sameValueZero x k) eqn:Hs; [|reflexivity].
        exfalso. apply Hne. apply (K4 e e0 k c k0 c0 He He0).
        rewrite sameValueZero_sym. apply (sameValueZero_trans k0 x k Hk0 Hs). }
      assert (Hkeys : forall e k c, <[e0 := (k0, S c0)]> T !! e = Some (k, c) ->
                exists c', T !! e = Some (k, c')
                           /\ c = (c' + if sameValueZero x k then 1 else 0)%nat).
      { intros e k c He. destruct (decide (e = e0)) as [->|Hne].
        - rewrite list_lookup_insert_eq in He by assumption. injection He as <- <-.
          exists c0. split; [assumption|]. rewrite sameValueZero_sym, Hk0. lia.
        - rewrite list_lookup_insert_ne in He by congruence.
          exists c. split; [assumption|]. rewrite (Hother e k c He Hne). lia. }
      split; [|split; [|split]].
      * intros e k c He. destruct (Hkeys e k c He) as (c' & He' & ->).
        destruct (K1 e k c' He') as (Ht & H1 & Hocc & p & Hp & Hpk).
        split; [assumption|]. split; [lia|]. split.
        { rewrite occurrences_snoc. lia. }
        exists p. split; [now apply firstAt_snoc_Some|].
        rewrite lookup_app_l; [assumption|]. eapply lookup_lt_Some; eauto.
      * intros e1 e2 k1 c1 k2 c2 p1 p2 H1 H2 Hlt Hp1 Hp2.
        destruct (Hkeys e1 k1 c1 H1) as (c1' & H1' & _).
        destruct (Hkeys e2 k2 c2 H2) as (c2' & H2' & _).
        destruct (K1 e1 k1 c1' H1') as (_ & _ & _ & q1 & Hq1 & _).
        destruct (K1 e2 k2 c2' H2') as (_ & _ & _ & q2 & Hq2 & _).
        rewrite (firstAt_snoc_Some k1 x pre q1 Hq1) in Hp1.
        rewrite (firstAt_snoc_Some k2 x pre q2 Hq2) in Hp2.
        assert (E1 : p1 = q1) by congruence. assert (E2 : p2 = q2) by congruence.
        subst p1 p2. exact (K2 e1 e2 k1 c1' k2 c2' q1 q2 H1' H2' Hlt Hq1 Hq2).
      * intros v Hin Hv. apply in_app_or in Hin as [Hin|[<-|[]]].
        -- destruct (K3 v Hin Hv) as (e & k & c & He & Hk).
           destruct (decide (e = e0)) as [->|Hne].
           ++ exists e0, k0, (S c0). rewrite list_lookup_insert_eq by assumption.
              split; [reflexivity|]. assert (k = k0) as -> by congruence. assumption.
           ++ exists e, k, c. rewrite list_lookup_insert_ne by congruence. now split.
        -- exists e0, k0, (S c0). rewrite list_lookup_insert_eq by assumption. now split.
      * intros e1 e2 k1 c1 k2 c2 H1 H2 Hs.
        destruct (Hkeys e1 k1 c1 H1) as (c1' & H1' & _).
        destruct (Hkeys e2 k2 c2 H2) as (c2' & H2' & _).
        exact (K4 e1 e2 k1 c1' k2 c2' H1' H2' Hs).
    + (* a new key is appended with count one *)
      destruct (entrySet_missing x 1%nat T Hget) as [-> Hnone].
      assert (Hfresh : forall v, In v pre -> sameValueZero v x = false).
      { intros v Hin. destruct (sameValueZero v x) eqn:Hs; [|reflexivity].
        assert (Hv : truthy v = true) by (rewrite (sameValueZero_truthy v x Hs); assumption).
        destruct (K3 v Hin Hv) as (e & k & c & He & Hk).
        pose proof (Hnone e k c He) as Hno.
        rewrite (sameValueZero_trans k v x Hk Hs) in Hno. discriminate. }
      assert (Hzero : List.filter (fun v => sameValueZero v x) pre = []).
      { apply filter_none. exact Hfresh. }
      assert (Hfirst : firstAt (pre ++ [x]) x = Some (length pre)).
      { unfold firstAt. rewrite findIndex_app.
        apply findIndex_None in Hzero. rewrite Hzero. now rewrite sameValueZero_refl. }
      assert (Hold : forall e k c, T !! e = Some (k, c) ->
                truthy k = true /\ (1 <= c)%nat /\ c = occurrences k (pre ++ [x])
                /\ exists p, firstAt (pre ++ [x]) k = Some p /\ (pre ++ [x]) !! p = Some k
                             /\ firstAt pre k = Some p /\ (p < length pre)%nat).
      { intros e k c He. destruct (K1 e k c He) as (Ht & H1 & Hocc & p & Hp & Hpk).
        split; [assumption|]. split; [assumption|]. split.
        { rewrite occurrences_snoc. rewrite sameValueZero_sym, (Hnone e k c He). lia. }
        assert (Hlt : (p < length pre)%nat) by (eapply lookup_lt_Some; eauto).
        exists p. split; [now apply firstAt_snoc_Some|].
        split; [now rewrite lookup_app_l|]. now split. }
      assert (Hcases : forall e k c, (T ++ [(x, 1%nat)]) !! e = Some (k, c) ->
                (T !! e = Some (k, c) /\ (e < length T)%nat)
                \/ (e = length T /\ k = x /\ c = 1%nat)).
      { intros e k c He. destruct (decide (e < length T)%nat) as [Hlt|Hge].
        - left. rewrite lookup_app_l in He by assumption. now split.
        - right. rewrite lookup_app_r in He by lia.
          apply list_lookup_singleton_Some in He as [He [= <- <-]].
          split; [lia|now split]. }
      split; [|split; [|split]].
      * intros e k c He. destruct (Hcases e k c He) as [[He' _]|(-> & -> & ->)].
        -- destruct (Hold e k c He') as (Ht & H1 & Hocc & p & Hp & Hpk & _).
           split; [assumption|]. split; [assumption|]. split; [assumption|].
           exists p. now split.
        -- split; [assumption|]. split; [lia|]. split.
           { rewrite occurrences_snoc, sameValueZero_refl. unfold occurrences.
             now rewrite Hzero. }
           exists (length pre). split; [assumption|].
           rewrite lookup_app_r by lia. now rewrite Nat.sub_diag.
      * intros e1 e2 k1 c1 k2 c2 p1 p2 H1 H2 Hlt Hp1 Hp2.
        destruct (Hcases e1 k1 c1 H1) as [[H1' Hl1]|(-> & -> & ->)];
          destruct (Hcases e2 k2 c2 H2) as [[H2' Hl2]|(-> & -> & ->)]; try lia.
        -- destruct (Hold e1 k1 c1 H1') as (_ & _ & _ & q1 & Hq1 & _ & Hq1' & _).
           destruct (Hold e2 k2 c2 H2') as (_ & _ & _ & q2 & Hq2 & _ & Hq2' & _).
           assert (p1 = q1) as -> by congruence. assert (p2 = q2) as -> by congruence.
           exact (K2 e1 e2 k1 c1 k2 c2 q1 q2 H1' H2' Hlt Hq1' Hq2').
        -- destruct (Hold e1 k1 c1 H1') as (_ & _ & _ & q1 & Hq1 & _ & _ & Hlt1).
           assert (p1 = q1) as -> by congruence.
           assert (p2 = length pre) as -> by congruence. assumption.
      * intros v Hin Hv. apply in_app_or in Hin as [Hin|[<-|[]]].
        -- destruct (K3 v Hin Hv) as (e & k & c & He & Hk).
           exists e, k, c. split; [|assumption].
           rewrite lookup_app_l; [assumption|]. eapply lookup_lt_Some; eauto.
        -- exists (length T), x, 1%nat. split; [|apply sameValueZero_refl].
           rewrite lookup_app_r by lia. now rewrite Nat.sub_diag.
      * intros e1 e2 k1 c1 k2 c2 H1 H2 Hs.
        destruct (Hcases e1 k1 c1 H1) as [[H1' Hl1]|(-> & -> & ->)];
          destruct (Hcases e2 k2 c2 H2) as [[H2' Hl2]|(-> & -> & ->)].
        -- exact (K4 e1 e2 k1 c1 k2 c2 H1' H2' Hs).
        -- rewrite (Hnone e1 k1 c1 H1') in Hs. discriminate.
        -- rewrite sameValueZero_sym, (Hnone e2 k2 c2 H2') in Hs. discriminate.
        -- reflexivity.
  - (* a falsy value is skipped *)
    assert (Hskip : forall k, truthy k = true -> sameValueZero x k = false).
    { intros k Hk. destruct (sameValueZero x k) eqn:Hs; [|reflexivity].
      apply sameValueZero_truthy in Hs. congruence. }
    split; [|split; [|split]].
    + intros e k c He. destruct (K1 e k c He) as (Ht & H1 & Hocc & p & Hp & Hpk).
      split; [assumption|]. split; [assumption|]. split.
      { rewrite occurrences_snoc, (Hskip k Ht). lia. }
      exists p. split; [now apply firstAt_snoc_Some|].
      rewrite lookup_app_l; [assumption|]. eapply lookup_lt_Some; eauto.
    + intros e1 e2 k1 c1 k2 c2 p1 p2 H1 H2 Hlt Hp1 Hp2.
      destruct (K1 e1 k1 c1 H1) as (_ & _ & _ & q1 & Hq1 & _).
      destruct (K1 e2 k2 c2 H2) as (_ & _ & _ & q2 & Hq2 & _).
      rewrite (firstAt_snoc_Some k1 x pre q1 Hq1) in Hp1.
      rewrite (firstAt_snoc_Some k2 x pre q2 Hq2) in Hp2.
      assert (E1 : p1 = q1) by congruence. assert (E2 : p2 = q2) by congruence.
      subst p1 p2. exact (K2 e1 e2 k1 c1 k2 c2 q1 q2 H1 H2 Hlt Hq1 Hq2).
    + intros v Hin Hv. apply in_app_or in Hin as [Hin|[<-|[]]]; [now apply K3|congruence].
    + exact K4.
Qed.

Lemma tallied_tally (values : list JsVal) : tallied values (tally values).
Proof.
  unfold tally. fold tallyStep.
  change (fun counts value => if negb (truthy value) then counts
            else entrySet value (S (default 0%nat (entryGet value counts))) counts)
    with tallyStep.
  induction values as [|x values IH] using rev_ind.
  - cbn. split; [|split; [|split]].
    + intros e k c H. destruct e; discriminate.
    + intros e1 e2 k1 c1 k2 c2 p1 p2 H. destruct e1; discriminate.
    + intros v [].
    + intros e1 e2 k1 c1 k2 c2 H. destruct e1; discriminate.
  - rewrite fold_left_app. cbn [fold_left]. now apply tallied_step.
Qed.

Lemma pick_first_maximum (l : list (JsVal * nat)) (b0 : JsVal * nat) :
  let r := fold_left pick l b0 in
  (snd b0 <= snd r)%nat
  /\ (forall e, In e l -> (snd e <= snd r)%nat)
  /\ (r = b0
      \/ exists i, l !! i = Some r /\ (snd b0 < snd r)%nat
                   /\ forall j e, (j < i)%nat -> l !! j = Some e -> (snd e < snd r)%nat).
Proof.
  revert b0. induction l as [|e l IH]; intros b0; cbn [fold_left].
  - cbn. split; [lia|]. split; [intros e []|now left].
  - destruct (IH (pick b0 e)) as (H1 & H2 & H3).
    assert (Hpick : (snd b0 <= snd (pick b0 e))%nat /\ (snd e <= snd (pick b0 e))%nat).
    { unfold pick. destruct (Nat.ltb_spec (snd b0) (snd e)); cbn; lia. }
    split; [lia|]. split.
    { intros e' [<-|Hin]; [lia|now apply H2]. }
    destruct H3 as [H3|(i & Hi & Hlt & Hbefore)].
    + assert (Hcase : (pick b0 e = e /\ (snd b0 < snd e)%nat) \/ pick b0 e = b0).
      { unfold pick. destruct (Nat.ltb_spec (snd b0) (snd e)); auto. }
      destruct Hcase as [[He Hlt]|He]; rewrite He in H3 |- *.
      * right. exists 0%nat. rewrite H3. split; [reflexivity|]. split; [assumption|].
        intros j e' Hj. lia.
      * left. assumption.
    + right. exists (S i). cbn. split; [assumption|]. split; [lia|].
      intros [|j] e' Hj He'; cbn in He'.
      * injection He' as <-. lia.
      * apply (Hbefore j e'); [lia|assumption].
Qed.

(** X24. mostFrequentValue ignores falsy values and returns null when there
    is no other; otherwise it returns a truthy value of the list that occurs
    at least as often as every other truthy value, and among the values with
    that many occurrences the one that occurs first in the list. *)
Theorem mostFrequentValue_prefers_the_first_seen (values : list JsVal) :
  let r := mostFrequentValue values in
  ((forall v, In v values -> truthy v = false) -> r = JNull)
  /\ ((exists v, In v values /\ truthy v = true) ->
      truthy r = true
      /\ exists i : nat,
           values !! i = Some r
           /\ (forall v, In v values -> truthy v = true ->
                 (occurrences v values <= occurrences r values)%nat)
           /\ (forall (j : nat) (v : JsVal),
                 values !! j = Some v -> truthy v = true ->
                 (occurrences r values <= occurrences v values)%nat -> (i <= j)%nat)).
Proof.
  intros r. subst r. unfold mostFrequentValue.
  destruct (tallied_tally values) as (K1 & K2 & K3 & K4).
  change (fun best entry : JsVal * nat => if (snd best <? snd entry)%nat then entry else best)
    with pick.
  destruct (pick_first_maximum (tally values) (JNull, 0%nat)) as (_ & Hmax & Hfirst).
  split.
  - intros Hfalsy. destruct (length values =? 0)%nat; [reflexivity|].
    destruct Hfirst as [->|(i & Hi & _)]; [reflexivity|].
    destruct (fold_left pick (tally values) (JNull, 0%nat)) as [k c]. cbn [fst].
    destruct (K1 i k c Hi) as (Ht & _ & _ & p & _ & Hpk).
    apply list_elem_of_lookup_2, list_elem_of_In in Hpk. rewrite (Hfalsy k Hpk) in Ht.
    discriminate.
  - intros (v0 & Hin0 & Hv0).
    assert (Hlen : (length values =? 0)%nat = false).
    { destruct values; [destruct Hin0|reflexivity]. }
    rewrite Hlen.
    destruct (K3 v0 Hin0 Hv0) as (e0 & k0 & c0 & He0 & Hk0).
    destruct (K1 e0 k0 c0 He0) as (_ & Hc0 & _).
    assert (Hin_e0 : In (k0, c0) (tally values)).
    { eapply list_elem_of_In, list_elem_of_lookup_2; eauto. }
    pose proof (Hmax (k0, c0) Hin_e0) as Hbig. cbn [snd] in Hbig.
    destruct Hfirst as [Heq|(i & Hi & _ & Hbefore)].
    { rewrite Heq in Hbig. cbn in Hbig. lia. }
    destruct (fold_left pick (tally values) (JNull, 0%nat)) as [k c]. cbn [fst snd] in *.
    destruct (K1 i k c Hi) as (Ht & H1 & Hocc & p & Hp & Hpk).
    split; [assumption|]. exists p. split; [assumption|]. split.
    + intros v Hin Hv. destruct (K3 v Hin Hv) as (e & k' & c' & He & Hk').
      destruct (K1 e k' c' He) as (_ & _ & Hocc' & _).
      assert (Hsame : occurrences v values = occurrences k' values).
      { unfold occurrences. f_equal. apply filter_ext. intros y.
        destruct (sameValueZero y v) eqn:H1v, (sameValueZero y k') eqn:H2k; try reflexivity.
        - rewrite sameValueZero_sym in Hk'.
          rewrite (sameValueZero_trans y v k' H1v Hk') in H2k. discriminate.
        - rewrite (sameValueZero_trans y k' v H2k Hk') in H1v. discriminate. }
      rewrite Hsame, <- Hocc', <- Hocc.
      apply (Hmax (k', c')). eapply list_elem_of_In, list_elem_of_lookup_2; eauto.
    + intros j v Hj Hv Hge.
      assert (Hin : In v values) by (eapply list_elem_of_In, list_elem_of_lookup_2; eauto).
      destruct (K3 v Hin Hv) as (e & k' & c' & He & Hk').
      destruct (K1 e k' c' He) as (_ & _ & Hocc' & p' & Hp' & Hpk').
      assert (Hsame : occurrences v values = occurrences k' values).
      { unfold occurrences. f_equal. apply filter_ext. intros y.
        destruct (sameValueZero y v) eqn:H1v, (sameValueZero y k') eqn:H2k; try reflexivity.
        - rewrite sameValueZero_sym in Hk'.
          rewrite (sameValueZero_trans y v k' H1v Hk') in H2k. discriminate.
        - rewrite (sameValueZero_trans y k' v H2k Hk') in H1v. discriminate. }
      assert (Hc : (c <= c')%nat) by lia.
      assert (Hie : (i <= e)%nat).
      { destruct (Nat.le_gt_cases i e) as [H|H]; [assumption|].
        pose proof (Hbefore e (k', c') H He) as Hlt. cbn in Hlt. lia. }
      assert (Hpp : (p <= p')%nat).
      { destruct (decide (i = e)) as [->|Hne].
        - assert (k = k') by congruence. subst k'. assert (p = p') by congruence. lia.
        - assert (Hlt' : (i < e)%nat) by lia.
          pose proof (K2 i e k c k' c' p p' Hi He Hlt' Hp Hp'). lia. }
      assert (Hp'j : (p' <= j)%nat).
      { apply (findIndex_least (fun y => sameValueZero y k') values p' j v Hp' Hj).
        now rewrite sameValueZero_sym. }
      lia.
Qed.

End FrequencyProperties.

(** Monday and Tuesday occur twice each; Tuesday comes first. *)
Example mostFrequentValue_example :
  ServiceWorker.mostFrequentValue fiveDays = JStr "Tuesday".
Proof. reflexivity. Qed.

Section SortFacts.
Context {A : Type}.
Variable cmp : A -> A -> JsNum.
Variable key : A -> Q.

Lemma sortInsert_perm (x : A) (l : list A) : Permutation (sortInsert cmp x l) (x :: l).
Proof.
  induction l as [|y l IH]; cbn; [reflexivity|].
  destruct (jpositive (cmp x y)); [|reflexivity].
  rewrite IH. apply perm_swap.
Qed.

Lemma sortBy_perm (l : list A) : Permutation (sortBy cmp l) l.
Proof.
  induction l as [|x l IH]; cbn; [reflexivity|].
  fold (sortBy cmp l). rewrite sortInsert_perm. now constructor.
Qed.

Lemma sortInsert_sorted (x : A) (l : list A) :
  ordersBy cmp key (x :: l) ->
  StronglySorted (notBelow key) l -> StronglySorted (notBelow key) (sortInsert cmp x l).
Proof.
  intros Hord Hsorted. induction Hsorted as [|y l Hsorted IH Hall]; cbn.
  - constructor; constructor.
  - assert (Hxy := Hord x y (or_introl eq_refl) (or_intror (or_introl eq_refl))).
    destruct (jpositive (cmp x y)).
    + symmetry in Hxy. apply negb_true_iff in Hxy.
      assert (Hlt : (key x <= key y)%Q).
      { destruct (Qlt_le_dec (key x) (key y)) as [H|H]; [now apply Qlt_le_weak|].
        apply Qle_bool_iff in H. congruence. }
      constructor.
      * apply IH. intros a b Ha Hb. apply Hord.
        -- destruct Ha as [<-|Ha]; [now left|right; now right].
        -- destruct Hb as [<-|Hb]; [now left|right; now right].
      * rewrite List.Forall_forall. intros z Hz.
        apply (Permutation_in _ (sortInsert_perm x l)) in Hz as [<-|Hz]; [exact Hlt|].
        rewrite List.Forall_forall in Hall. now apply Hall.
    + symmetry in Hxy. apply negb_false_iff, Qle_bool_iff in Hxy.
      constructor; [now constructor|].
      constructor; [exact Hxy|].
      rewrite List.Forall_forall in Hall |- *. intros z Hz.
      unfold notBelow in *. specialize (Hall z Hz). lra.
Qed.

Lemma sortBy_sorted (l : list A) :
  ordersBy cmp key l -> StronglySorted (notBelow key) (sortBy cmp l).
Proof.
  induction l as [|x l IH]; intros Hord; cbn; [constructor|].
  fold (sortBy cmp l). apply sortInsert_sorted.
  - intros a b Ha Hb. apply Hord.
    + destruct Ha as [<-|Ha]; [now left|].
      right. now apply (Permutation_in _ (sortBy_perm l)).
    + destruct Hb as [<-|Hb]; [now left|].
      right. now apply (Permutation_in _ (sortBy_perm l)).
  - apply IH. intros a b Ha Hb. apply Hord; now right.
Qed.

Lemma sorted_lookup (l : list A) (i j : nat) (a b : A) :
  StronglySorted (notBelow key) l ->
  l !! i = Some a -> l !! j = Some b -> (i < j)%nat -> (key b <= key a)%Q.
Proof.
  intros Hsorted. revert i j. induction Hsorted as [|x l Hsorted IH Hall]; intros i j Hi Hj Hlt.
  - destruct i; discriminate.
  - destruct j as [|j]; [lia|]. cbn in Hj. destruct i as [|i]; cbn in Hi.
    + injection Hi as <-. rewrite List.Forall_forall in Hall. apply Hall.
      eapply list_elem_of_In, list_elem_of_lookup_2; eauto.
    + apply (IH i j Hi Hj). lia.
Qed.

End SortFacts.

Section GroupFacts.
Context {A : Type}.
Variable selector : A -> JsVal.

Lemma entryGet_same_key {V : Type} (a b : JsVal) (m : list (JsVal * V)) :
  sameValueZero a b = true -> entryGet b m = entryGet a m.
Proof.
  intros Hab. induction m as [|[k' b'] m IHm]; cbn; [reflexivity|].
  destruct (sameValueZero k' a) eqn:H1.
  - now rewrite (sameValueZero_trans _ _ _ H1 Hab).
  - destruct (sameValueZero k' b) eqn:H2; [|assumption].
    rewrite sameValueZero_sym in Hab.
    rewrite (sameValueZero_trans _ _ _ H2 Hab) in H1. discriminate.
Qed.

Lemma entryGet_lookup {V : Type} (m : list (JsVal * V)) (e : nat) (k : JsVal) (v : V) :
  distinctKeys m -> m !! e = Some (k, v) -> entryGet k m = Some v.
Proof.
  revert e. induction m as [|[k0 v0] m IH]; intros e Hd He; [destruct e; discriminate|].
  cbn. destruct e as [|e]; cbn in He.
  - injection He as <- <-. now rewrite sameValueZero_refl.
  - destruct (sameValueZero k0 k) eqn:Hk.
    + pose proof (Hd 0%nat (S e) k0 v0 k v eq_refl He Hk). discriminate.
    + apply (IH e); [|assumption].
      intros e1 e2 k1 v1 k2 v2 H1 H2 Hs.
      pose proof (Hd (S e1) (S e2) k1 v1 k2 v2 H1 H2 Hs). lia.
Qed.

Lemma groupOf_step (k : JsVal) (m : list (JsVal * list A)) (x : A) :
  groupOf k (groupStep selector m x)
  = groupOf k m ++ if sameValueZero (selector x) k then [x] else [].
Proof.
  unfold groupOf, groupStep.
  destruct (sameValueZero (selector x) k) eqn:Hk.
  - rewrite (entryGet_same_key _ _ m Hk).
    destruct (entryGet (selector x) m) as [g|];
      now rewrite (entryGet_entrySet_same _ _ _ _ Hk).
  - rewrite app_nil_r.
    destruct (entryGet (selector x) m) as [g|];
      now rewrite (entryGet_entrySet_other _ _ _ _ Hk).
Qed.

Lemma grouped_step (items : list A) (m : list (JsVal * list A)) (x : A) :
  grouped selector items m -> grouped selector (items ++ [x]) (groupStep selector m x).
Proof.
  intros (G1 & G2 & G3). split; [|split].
  - intros k. rewrite groupOf_step, G1, List.filter_app. cbn [List.filter].
    now destruct (sameValueZero (selector x) k).
  - unfold groupStep. destruct (entryGet (selector x) m) as [g|] eqn:Hget.
    + destruct (entrySet_found (selector x) (g ++ [x]) g m Hget) as (e0 & k0 & He0 & Hk0 & ->).
      assert (Hlt : (e0 < length m)%nat) by (eapply lookup_lt_Some; eauto).
      assert (Hkeys : forall e k v, <[e0 := (k0, g ++ [x])]> m !! e = Some (k, v) ->
                exists v', m !! e = Some (k, v')).
      { intros e k v He. destruct (decide (e = e0)) as [->|Hne].
        - rewrite list_lookup_insert_eq in He by assumption. injection He as <- <-. eauto.
        - rewrite list_lookup_insert_ne in He by congruence. eauto. }
      intros e1 e2 k1 v1 k2 v2 H1 H2 Hs.
      destruct (Hkeys e1 k1 v1 H1) as [v1' H1']. destruct (Hkeys e2 k2 v2 H2) as [v2' H2'].
      exact (G2 e1 e2 k1 v1' k2 v2' H1' H2' Hs).
    + destruct (entrySet_missing (selector x) [x] m Hget) as [-> Hnone].
      intros e1 e2 k1 v1 k2 v2 H1 H2 Hs.
      destruct (decide (e1 < length m)%nat) as [Hl1|Hl1];
        destruct (decide (e2 < length m)%nat) as [Hl2|Hl2].
      * rewrite lookup_app_l in H1, H2 by assumption. exact (G2 _ _ _ _ _ _ H1 H2 Hs).
      * rewrite lookup_app_l in H1 by assumption. rewrite lookup_app_r in H2 by lia.
        apply list_lookup_singleton_Some in H2 as [_ [= <- <-]].
        rewrite (Hnone e1 k1 v1 H1) in Hs. discriminate.
      * rewrite lookup_app_l in H2 by assumption. rewrite lookup_app_r in H1 by lia.
        apply list_lookup_singleton_Some in H1 as [_ [= <- <-]].
        rewrite sameValueZero_sym, (Hnone e2 k2 v2 H2) in Hs. discriminate.
      * rewrite lookup_app_r in H1, H2 by lia.
        apply list_lookup_singleton_Some in H1 as [H1 _].
        apply list_lookup_singleton_Some in H2 as [H2 _]. lia.
  - unfold groupStep. intros e k g' He.
    destruct (entryGet (selector x) m) as [g|] eqn:Hget.
    + destruct (entrySet_found (selector x) (g ++ [x]) g m Hget) as (e0 & k0 & He0 & Hk0 & Hset).
      rewrite Hset in He.
      assert (Hlt : (e0 < length m)%nat) by (eapply lookup_lt_Some; eauto).
      destruct (decide (e = e0)) as [->|Hne].
      * rewrite list_lookup_insert_eq in He by assumption. injection He as <- <-.
        destruct (G3 e0 k0 g He0) as (y & Hy & Hsel). exists y. split; [|assumption].
        apply in_or_app. now left.
      * rewrite list_lookup_insert_ne in He by congruence.
        destruct (G3 e k g' He) as (y & Hy & Hsel). exists y. split; [|assumption].
        apply in_or_app. now left.
    + destruct (entrySet_missing (selector x) [x] m Hget) as [Hset Hnone].
      rewrite Hset in He.
      destruct (decide (e < length m)%nat) as [Hl|Hl].
      * rewrite lookup_app_l in He by assumption.
        destruct (G3 e k g' He) as (y & Hy & Hsel). exists y. split; [|assumption].
        apply in_or_app. now left.
      * rewrite lookup_app_r in He by lia.
        apply list_lookup_singleton_Some in He as [_ [= <- <-]].
        exists x. split; [|reflexivity]. apply in_or_app. right. now left.
Qed.

Lemma grouped_fold (items : list A) : grouped selector items (fold_left (groupStep selector) items []).
Proof.
  induction items as [|x items IH] using rev_ind.
  - split; [|split].
    + intros k. reflexivity.
    + intros e1 e2 k1 v1 k2 v2 H1. destruct e1; discriminate.
    + intros e k g He. destruct e; discriminate.
  - rewrite fold_left_app. cbn [fold_left]. now apply grouped_step.
Qed.

End GroupFacts.

Section RankingProperties.
Context {P : Platform}.

Lemma groupBy_grouped {A : Type} (items : list A) (selector : A -> JsVal) :
  grouped selector items (Helpers.groupBy items selector).
Proof. apply grouped_fold. Qed.

Lemma sum_numeric {A : Type} (items : list A) (selector : A -> JsVal) :
  (forall x, In x items -> exists q, selector x = JNum (Fin q)) ->
  exists t, Helpers.sum items selector = JNum (Fin t).
Proof.
  unfold Helpers.sum. generalize 0%Q as acc.
  induction items as [|x items IH]; intros acc Hall; cbn [fold_left]; [eauto|].
  destruct (Hall x) as [q Hq]; [now left|]. rewrite Hq.
  change (jsAdd (JNum (Fin acc)) (JNum (Fin q))) with (JNum (Fin (acc + q))).
  apply IH. intros y Hy. apply Hall. now right.
Qed.

(** X25. When every watchedDuration (0 when falsy) is a finite number,
    calculateTopChannels returns at most limit entries; each is a channel of
    the history (channelName or 'Unknown') with the sum of the
    watchedDuration of its records; entries are in descending order of watch
    time, no channel occurs twice, and every channel left out has a watch
    time not above that of any returned entry. *)
Theorem top_channels_are_the_largest (history : list Obj) (limit : nat) :
  (forall video, In video history -> exists q, Helpers.watchedOf video = JNum (Fin q)) ->
  let top := Helpers.calculateTopChannels history limit in
  (length top <= limit)%nat
  /\ (forall entry, In entry top ->
        entry = channelEntry history (Helpers.channel entry)
        /\ (exists video, In video history /\ Helpers.channelOf video = Helpers.channel entry)
        /\ exists t, Helpers.watchTime entry = JNum (Fin t))
  /\ (forall i j a b, top !! i = Some a -> top !! j = Some b -> (i < j)%nat ->
        (rankKey b <= rankKey a)%Q)
  /\ (forall i j a b, top !! i = Some a -> top !! j = Some b ->
        sameValueZero (Helpers.channel a) (Helpers.channel b) = true -> i = j)
  /\ (forall video, In video history ->
        (exists entry, In entry top
           /\ sameValueZero (Helpers.channel entry) (Helpers.channelOf video) = true)
        \/ (forall entry, In entry top ->
              (rankKey (channelEntry history (Helpers.channelOf video)) <= rankKey entry)%Q)).
Proof.
  intros Hnum top.
  destruct (groupBy_grouped history Helpers.channelOf) as (G1 & G2 & G3).
  set (groups := Helpers.groupBy history Helpers.channelOf) in *.
  set (mk := fun entry : JsVal * list Obj =>
               {| Helpers.channel := fst entry;
                  Helpers.watchTime := Helpers.sum (snd entry) Helpers.watchedOf |}).
  set (ranked := map mk groups).
  set (sorted := sortBy Helpers.byWatchTime ranked).
  assert (Htop : top = firstn limit sorted) by reflexivity.
  (* every entry of the ranking is the entry of its channel *)
  assert (Hranked : forall entry, In entry ranked ->
            entry = channelEntry history (Helpers.channel entry)
            /\ (exists video, In video history
                  /\ Helpers.channelOf video = Helpers.channel entry)
            /\ exists t, Helpers.watchTime entry = JNum (Fin t)).
  { intros entry Hin. apply in_map_iff in Hin as ([k g] & <- & Hin).
    apply list_elem_of_In, list_elem_of_lookup in Hin as [e He].
    pose proof (entryGet_lookup groups e k g G2 He) as Hget.
    assert (Hg : g = List.filter (fun video => sameValueZero (Helpers.channelOf video) k)
                       history).
    { rewrite <- G1. unfold groupOf. now rewrite Hget. }
    cbn [mk fst snd Helpers.channel Helpers.watchTime]. split; [|split].
    - unfold channelEntry. now rewrite <- Hg.
    - destruct (G3 e k g He) as (x & Hx & Hsel). eauto.
    - apply sum_numeric. intros x Hx. apply Hnum. rewrite Hg in Hx.
      now apply filter_In in Hx. }
  assert (Hperm : Permutation sorted ranked) by apply sortBy_perm.
  assert (Hsub : forall entry, In entry top -> In entry ranked).
  { intros entry Hin. rewrite Htop in Hin. apply (Permutation_in _ Hperm).
    rewrite <- (firstn_skipn limit sorted). apply in_or_app. now left. }
  assert (Hord : ordersBy Helpers.byWatchTime rankKey ranked).
  { intros a b Ha Hb.
    destruct (Hranked a Ha) as (_ & _ & ta & Hta).
    destruct (Hranked b Hb) as (_ & _ & tb & Htb).
    unfold Helpers.byWatchTime, rankKey. rewrite Hta, Htb. cbn.
    destruct (Qle_bool tb ta) eqn:Hle.
    - apply Qle_bool_iff in Hle. apply negb_false_iff, Qle_bool_iff. lra.
    - apply negb_true_iff. destruct (Qle_bool (tb + - ta) 0) eqn:H; [|reflexivity].
      apply Qle_bool_iff in H. assert (Hle' : (tb <= ta)%Q) by lra.
      apply Qle_bool_iff in Hle'. congruence. }
  assert (Hsorted : StronglySorted (notBelow rankKey) sorted)
    by (apply sortBy_sorted; assumption).
  assert (Hlook : forall i a, top !! i = Some a -> sorted !! i = Some a /\ (i < limit)%nat).
  { intros i a Hi. rewrite Htop in Hi.
    assert (Hlt : (i < limit)%nat).
    { apply lookup_lt_Some in Hi. rewrite length_firstn in Hi. lia. }
    split; [|assumption]. change (firstn limit sorted) with (take limit sorted) in Hi.
    now rewrite lookup_take_lt in Hi by assumption. }
  assert (Hdistinct : forall a b, In a ranked -> In b ranked ->
            sameValueZero (Helpers.channel a) (Helpers.channel b) = true -> a = b).
  { intros a b Ha Hb Hs.
    apply in_map_iff in Ha as ([k1 g1] & <- & Ha). apply in_map_iff in Hb as ([k2 g2] & <- & Hb).
    apply list_elem_of_In, list_elem_of_lookup in Ha as [e1 H1].
    apply list_elem_of_In, list_elem_of_lookup in Hb as [e2 H2].
    cbn in Hs. assert (e1 = e2) as -> by exact (G2 _ _ _ _ _ _ H1 H2 Hs). congruence. }
  assert (Hnodup : NoDup ranked).
  { apply NoDup_alt. intros i j a Hi Hj. unfold ranked in Hi, Hj.
    rewrite list_lookup_fmap in Hi, Hj.
    destruct (groups !! i) as [[k1 g1]|] eqn:H1; [|discriminate].
    destruct (groups !! j) as [[k2 g2]|] eqn:H2; [|discriminate].
    cbn in Hi, Hj. injection Hi as <-.
    assert (Hk : k2 = k1) by (now injection Hj).
    apply (G2 i j k1 g1 k2 g2 H1 H2). rewrite Hk. apply sameValueZero_refl. }
  split; [rewrite Htop; apply firstn_le_length|].
  split; [intros entry Hin; apply Hranked, Hsub, Hin|].
  split; [|split].
  - intros i j a b Hi Hj Hlt.
    destruct (Hlook i a Hi) as [Hi' _]. destruct (Hlook j b Hj) as [Hj' _].
    exact (sorted_lookup rankKey sorted i j a b Hsorted Hi' Hj' Hlt).
  - intros i j a b Hi Hj Hs.
    destruct (Hlook i a Hi) as [Hi' _]. destruct (Hlook j b Hj) as [Hj' _].
    assert (Hab : a = b).
    { apply Hdistinct; [| |assumption]; apply (Permutation_in _ Hperm);
        eapply list_elem_of_In, list_elem_of_lookup_2; eauto. }
    subst b.
    assert (Hnd : NoDup sorted) by (now rewrite Hperm).
    exact (proj1 (NoDup_alt sorted) Hnd i j a Hi' Hj').
  - intros video Hin.
    assert (Hne : groupOf (Helpers.channelOf video) groups <> []).
    { rewrite G1. intros Hnil.
      assert (Hv : In video (List.filter
                 (fun x => sameValueZero (Helpers.channelOf x) (Helpers.channelOf video))
                 history)).
      { apply filter_In. split; [assumption|apply sameValueZero_refl]. }
      rewrite Hnil in Hv. destruct Hv. }
    unfold groupOf in Hne.
    destruct (entryGet (Helpers.channelOf video) groups) as [g|] eqn:Hget; [|now cbn in Hne].
    destruct (entrySet_found (Helpers.channelOf video) g g groups Hget)
      as (e & k & He & Hk & _).
    set (mine := mk (k, g)).
    assert (Hmine : In mine ranked).
    { unfold mine, ranked. apply in_map.
      eapply list_elem_of_In, list_elem_of_lookup_2; eauto. }
    assert (Hkey : rankKey (channelEntry history (Helpers.channelOf video)) = rankKey mine).
    { assert (Hf : List.filter
                     (fun x => sameValueZero (Helpers.channelOf x) (Helpers.channelOf video))
                     history
                   = List.filter (fun x => sameValueZero (Helpers.channelOf x) k) history).
      { apply filter_ext. intros x.
        destruct (sameValueZero (Helpers.channelOf x) (Helpers.channelOf video)) eqn:H1,
                 (sameValueZero (Helpers.channelOf x) k) eqn:H2; try reflexivity.
        - rewrite sameValueZero_sym in Hk.
          rewrite (sameValueZero_trans _ _ _ H1 Hk) in H2. discriminate.
        - rewrite (sameValueZero_trans _ _ _ H2 Hk) in H1. discriminate. }
      destruct (Hranked mine Hmine) as (Hme & _). rewrite Hme.
      unfold rankKey, channelEntry. cbn [Helpers.watchTime Helpers.channel mine mk fst].
      now rewrite Hf. }
    apply (Permutation_in _ (Permutation_sym Hperm)) in Hmine.
    apply list_elem_of_In, list_elem_of_lookup in Hmine as [p Hp].
    destruct (decide (p < limit)%nat) as [Hshown|Hhidden].
    + left. exists mine. split; [|exact Hk].
      rewrite Htop. apply list_elem_of_In, (list_elem_of_lookup_2 _ p).
      change (firstn limit sorted) with (take limit sorted).
      rewrite lookup_take_lt by assumption. exact Hp.
    + right. intros entry Hentry. rewrite Hkey.
      apply list_elem_of_In, list_elem_of_lookup in Hentry as [i Hi].
      destruct (Hlook i entry Hi) as [Hi' Hlt].
      apply (sorted_lookup rankKey sorted i p entry mine Hsorted Hi' Hp). lia.
Qed.

End RankingProperties.

Lemma top_channels_are_the_largest_witness :
  (length (Helpers.calculateTopChannels (P := testEngine) threeWatches 1) <= 1)%nat.
Proof.
  refine (proj1 (top_channels_are_the_largest (P := testEngine) threeWatches 1 _)).
  intros video [<-|[<-|[<-|[]]]]; eexists; reflexivity.
Defined.

(** Beta, watched for 300 s, comes before Alpha, watched for 150 s. *)
Example calculateTopChannels_example :
  map (fun entry => (Helpers.channel entry, Helpers.watchTime entry))
      (Helpers.calculateTopChannels (P := testEngine) threeWatches 2)
  = [(JStr "Beta", JNum (Fin 300)); (JStr "Alpha", JNum (Fin (0 + 100 + 50)))].
Proof. reflexivity. Qed.

Section RoundTrip.
Import Storage.
Context {P : Platform}.

Lemma mapGet_entryGet (k : JsVal) (m : JsMap) : mapGet k m = entryGet k m.
Proof. induction m as [|[k' v'] m IH]; cbn; [reflexivity|]. now rewrite IH. Qed.

Lemma mapSet_entrySet (k : JsVal) (v : Obj) (m : JsMap) : mapSet k v m = entrySet k v m.
Proof. induction m as [|[k' v'] m IH]; cbn; [reflexivity|]. now rewrite IH. Qed.

Lemma sameValueZero_strictEq (a b : JsVal) :
  truthy a = true -> sameValueZero a b = strictEq a b.
Proof. destruct a as [| |x|[p| | |]|s], b as [| |y|[q| | |]|t]; cbn; try reflexivity; discriminate. Qed.

Lemma storeOk_keyed (videos : list Obj) :
  storeOk videos ->
  (forall video, In video videos -> truthy (getProp video "videoId") = true) ->
  keyed videos.
Proof.
  intros [Huniq _] Hids. split; [|assumption].
  intros i j a b Ha Hb Hs. apply (Huniq i j a b Ha Hb).
  rewrite <- sameValueZero_strictEq; [assumption|].
  apply Hids. eapply list_elem_of_In, list_elem_of_lookup_2; eauto.
Qed.

Lemma idPairs_lookup (videos : list Obj) (e : nat) (k : JsVal) (v : Obj) :
  idPairs videos !! e = Some (k, v) <-> videos !! e = Some v /\ k = getProp v "videoId".
Proof.
  unfold idPairs. rewrite list_lookup_fmap. destruct (videos !! e) as [u|]; cbn.
  - split; [intros [= <- <-]; now split|intros [[= <-] ->]; reflexivity].
  - split; [discriminate|intros [? _]; discriminate].
Qed.

Lemma idPairs_distinct (videos : list Obj) : keyed videos -> distinctKeys (idPairs videos).
Proof.
  intros [Hd _] e1 e2 k1 v1 k2 v2 H1 H2 Hs.
  apply idPairs_lookup in H1 as [H1 ->]. apply idPairs_lookup in H2 as [H2 ->]. eauto.
Qed.

Lemma idPairs_fresh (videos : list Obj) (video : Obj) :
  keyed (videos ++ [video]) -> entryGet (getProp video "videoId") (idPairs videos) = None.
Proof.
  intros [Hd _]. apply entryGet_None_keys. intros e k c He.
  apply idPairs_lookup in He as [He ->].
  destruct (sameValueZero (getProp c "videoId") (getProp video "videoId")) eqn:Hs;
    [|reflexivity].
  assert (Hlt : (e < length videos)%nat) by (eapply lookup_lt_Some; eauto).
  assert (e = length videos); [|lia].
  apply (Hd e (length videos) c video); [now rewrite lookup_app_l| |assumption].
  rewrite lookup_app_r by lia. now rewrite Nat.sub_diag.
Qed.

Lemma keyed_prefix (a b : list Obj) : keyed (a ++ b) -> keyed a.
Proof.
  intros [Hd Hids]. split.
  - intros i j x y Hi Hj Hs. apply (Hd i j x y); [| |assumption];
      (rewrite lookup_app_l; [assumption|eapply lookup_lt_Some; eauto]).
  - intros v Hv. apply Hids, in_or_app. now left.
Qed.

Lemma newMap_idPairs (videos : list Obj) : keyed videos -> newMap (idPairs videos) = idPairs videos.
Proof.
  unfold newMap. intros Hk.
  assert (Hgen : forall rest seen, keyed (seen ++ rest) ->
            fold_left (fun m kv => mapSet (fst kv) (snd kv) m) (idPairs rest) (idPairs seen)
            = idPairs (seen ++ rest)).
  { induction rest as [|v rest IH]; intros seen Hkeyed; cbn [idPairs map fold_left].
    - now rewrite app_nil_r.
    - fold (idPairs rest). cbn [fst snd]. rewrite mapSet_entrySet.
      assert (Hsplit : seen ++ v :: rest = (seen ++ [v]) ++ rest) by now rewrite <- app_assoc.
      rewrite Hsplit in Hkeyed |- *.
      destruct (entrySet_missing (getProp v "videoId") v (idPairs seen)) as [-> _].
      { apply idPairs_fresh. eapply keyed_prefix; eauto. }
      replace (idPairs seen ++ [(getProp v "videoId", v)]) with (idPairs (seen ++ [v]))
        by (unfold idPairs; now rewrite map_app).
      now apply IH. }
  exact (Hgen videos [] Hk).
Qed.

Lemma import_into_empty (videos : list Obj) :
  keyed videos -> fold_left importOne (map JObject videos) [] = idPairs videos.
Proof.
  intros Hk.
  assert (Hgen : forall rest seen, keyed (seen ++ rest) ->
            fold_left importOne (map JObject rest) (idPairs seen) = idPairs (seen ++ rest)).
  { induction rest as [|v rest IH]; intros seen Hkeyed; cbn [map fold_left].
    - now rewrite app_nil_r.
    - assert (Hsplit : seen ++ v :: rest = (seen ++ [v]) ++ rest) by now rewrite <- app_assoc.
      rewrite Hsplit in Hkeyed |- *.
      assert (Hid : truthy (getProp v "videoId") = true).
      { apply (proj2 Hkeyed). apply in_or_app. left. apply in_or_app. right. now left. }
      unfold importOne at 2. rewrite Hid. cbn [negb].
      rewrite mapGet_entryGet, (idPairs_fresh seen v) by (eapply keyed_prefix; eauto).
      rewrite mapSet_entrySet.
      destruct (entrySet_missing (getProp v "videoId") v (idPairs seen)) as [-> _].
      { apply idPairs_fresh. eapply keyed_prefix; eauto. }
      replace (idPairs seen ++ [(getProp v "videoId", v)]) with (idPairs (seen ++ [v]))
        by (unfold idPairs; now rewrite map_app).
      now apply IH. }
  exact (Hgen videos [] Hk).
Qed.

Lemma mergeImported_self (video : Obj) : countOk video -> mergeImported video video = video.
Proof.
  intros (c & Hc & H1). unfold mergeImported. rewrite Hc.
  assert (Hlook : video !! "rewatchCount" = Some (JNum (Fin c))).
  { unfold getProp in Hc. destruct (video !! "rewatchCount"); [cbn in Hc; congruence|discriminate]. }
  unfold vor. rewrite (truthy_count c H1). unfold MathMax. cbn [ToNumber jmax].
  assert (Hmax : (if jle (Fin c) (Fin c) then Fin c else Fin c) = Fin c)
    by (now destruct (jle (Fin c) (Fin c))).
  rewrite Hmax, (idemp_L (∪) video). now apply insert_id.
Qed.

Lemma import_again (videos rest : list Obj) :
  keyed videos -> (forall v, In v rest -> In v videos /\ countOk v) ->
  fold_left importOne (map JObject rest) (idPairs videos) = idPairs videos.
Proof.
  intros Hk. induction rest as [|v rest IH]; intros Hall; cbn [map fold_left]; [reflexivity|].
  destruct (Hall v) as [Hin Hcount]; [now left|].
  assert (Hid : truthy (getProp v "videoId") = true) by now apply (proj2 Hk).
  apply list_elem_of_In, list_elem_of_lookup in Hin as [e He].
  assert (Hentry : idPairs videos !! e = Some (getProp v "videoId", v))
    by (now apply idPairs_lookup).
  pose proof (entryGet_lookup (idPairs videos) e _ v (idPairs_distinct videos Hk) Hentry) as Hget.
  unfold importOne at 2. rewrite Hid. cbn [negb]. rewrite mapGet_entryGet, Hget.
  rewrite (mergeImported_self v Hcount), mapSet_entrySet.
  destruct (entrySet_found (getProp v "videoId") v v (idPairs videos) Hget)
    as (e0 & k0 & He0 & _ & ->).
  rewrite (list_insert_id _ _ _ He0). apply IH. intros u Hu. apply Hall. now right.
Qed.

Lemma mapValues_idPairs (videos : list Obj) : mapValues (idPairs videos) = videos.
Proof.
  unfold mapValues, idPairs. rewrite map_map. cbn. apply map_id.
Qed.

(** X26. For a store with one record per truthy id and rewatch counts that
    are numbers >= 1, importing what exportHistory returns leaves the store
    as it is (no count is raised, no record duplicated or reordered), and
    importing it into an emptied store restores exactly the exported
    records, in the same order. *)
Theorem import_of_an_export_changes_nothing (videos : list Obj) :
  storeOk videos ->
  (forall video, In video videos -> truthy (getProp video "videoId") = true) ->
  mergeHistory [] (map JObject videos) = videos
  /\ mergeHistory videos (map JObject videos) = videos
  /\ (forall w : World,
        stored_videos w = videos ->
        fst (exportHistory w) = Ok videos
        /\ fst (importHistory (ImportedArray (map JObject videos)) w) = Ok tt
        /\ stored_videos (snd (importHistory (ImportedArray (map JObject videos)) w)) = videos
        /\ stored_videos
             (snd (importHistory (ImportedArray (map JObject videos)) (set_videos [] w)))
           = videos).
Proof.
  intros Hok Hids. pose proof (storeOk_keyed videos Hok Hids) as Hk.
  assert (Hempty : mergeHistory [] (map JObject videos) = videos).
  { unfold mergeHistory. cbn [map newMap fold_left].
    now rewrite (import_into_empty videos Hk), mapValues_idPairs. }
  assert (Hagain : mergeHistory videos (map JObject videos) = videos).
  { unfold mergeHistory. fold (idPairs videos). rewrite (newMap_idPairs videos Hk).
    rewrite (import_again videos videos Hk), mapValues_idPairs; [reflexivity|].
    intros v Hv. split; [assumption|]. now apply (proj2 Hok). }
  split; [assumption|]. split; [assumption|].
  intros w Hw. rewrite !importHistory_run. cbn [fst snd stored_videos set_videos].
  rewrite Hw, Hagain, Hempty. unfold exportHistory, getVideos, gets. cbn. now rewrite Hw.
Qed.

End RoundTrip.

Lemma import_of_an_export_changes_nothing_witness :
  Storage.mergeHistory (P := testEngine) [] (map JObject [countedFive]) = [countedFive]
  /\ Storage.mergeHistory (P := testEngine) [countedFive] (map JObject [countedFive])
     = [countedFive].
Proof.
  assert (Hstore : storeOk [countedFive]).
  { split.
    - intros i j a b Hi Hj _.
      destruct i as [|i]; [|destruct i; discriminate].
      destruct j as [|j]; [reflexivity|destruct j; discriminate].
    - intros video [<-|[]]. exists 5%Q. split; [reflexivity|]. unfold Qle; cbn; lia. }
  assert (Hids : forall video, In video [countedFive] ->
                   truthy (getProp video "videoId") = true).
  { intros video [<-|[]]. reflexivity. }
  destruct (import_of_an_export_changes_nothing (P := testEngine) [countedFive] Hstore Hids)
    as (Hnew & Hagain & _).
  split; [exact Hnew|exact Hagain].
Defined.
